(* ===== verification/_CoqProject ===== *)
-Q . S2P
Prelude.v
PyStr.v
PyPath.v
Bytes.v
SosimgDump.v
Arches.v
Case.v
Check.v
RegionTable.v
Packages.v
CasesA.v
CasesB.v
CasesC.v
CasesD.v
Host.v
SampleHost.v
Toolchain.v
Build.v
BuildPlan.v
Isolation.v
Files.v
MapOrdered.v
Threads.v
Difflib.v
RunArch.v
CaseTable.v
Parallel.v
ArchScan.v
Main.v
Jobs.v
C3Board.v
C3Spec.v
C3Green.v
Cli.v
