(* ===== verification/Prelude.v ===== *)
(** * The SawOS test harness and its tools: a verification development

    SawOS is a microkernel; what decides whether a change to it is good is the
    Python harness in tools/: [sos_runner.py] builds the kernel, the packages and
    one ELF per test case for three architecture profiles, boots each under QEMU
    and judges the console transcript; [toolchain.py] finds the Saw compiler the
    builds use; [sosimg_dump.py] prints the two binary formats the kernel reads.
    A harness that can be green for a wrong reason is worth nothing, and that is
    what the theorems are about.

    ** Layout

    - [Prelude]: exceptions and the error monad, dictionaries, the [py] hint
      database, lemmas on lists and traversals that all files share.
    - [PyStr], [PyPath], [Bytes], [Difflib]: what the tools use of Python's
      library, as executable definitions: [str.find], [split], [strip],
      [replace], [format], [repr], [hex], [os.path], [struct.unpack_from],
      [difflib.get_close_matches].
    - [Host]: the machine the tools run on, as a class.  A [Host] says what the
      questions (is this a file, what does this directory hold) answer and what
      each [action] (make a directory, run a command, boot an emulator) does and
      returns; [world] is a host state with the log of the actions so far, and
      [M] the monad of computations that ask, act and raise.  Nothing is assumed
      of a host beyond its type; a theorem that needs more says so.  The file
      also holds the program logics the components use: [keeps] (an invariant of
      the world), [only] (which actions), [yields] (which results), [tells]
      (which lines are printed), [raises] (which exceptions), [follows] (the
      actions are a plan, carried out in order to its end or up to an
      exception), each with a tactic that walks a computation.
    - [SampleHost]: a concrete machine with files and programs, for witnesses.
    - [SosimgDump]: sosimg_dump.py, whole.  [dump_sosimg], [dump_regions] and the
      command line, over a buffer of bytes.
    - [Arches]: the paths, the [ARCHES] table, [arch_dirs] and [expectations].
    - [Case], [Packages], [CasesA] to [CasesD], [CaseTable]: a test case as a
      record with an optional field per key, the package constants, and
      [TEST_CASES] entry for entry.
    - [Check]: [_strip_kernel_diagnostics] and [_check], the verdict.
    - [RegionTable]: [_region_rows], [_emit_row], [_emit_word64] and the text
      [_stitch_regions] writes.
    - [Toolchain]: toolchain.py, whole.  [resolve] and the four steps behind it,
      the pin file, the version probe and the fetch.
    - [Build]: [_run], [_build_shared], [_build_blade], [_build_root_image],
      [_stitch_root_image], [_stitch_regions], [_build_elf], [_run_qemu].
      [BuildPlan] holds the actions those carry out, as plans, and [Isolation]
      the files they write.
    - [Files]: the class [FileView], what the programs a case runs read and write,
      and a machine with directories and temporary files that satisfies it.
    - [MapOrdered]: [_map_ordered].  A step relation over a pool of futures, and
      the inline loop it must agree with.  [Threads]: the same pool when its
      workers are programs of steps ([prog]) on one shared world.
    - [RunArch]: the parts of [_run_arch], from its header line to its counts, and
      its [-j 1] path as a function ([serial_arch]).  [Parallel]: a case as such a
      program, and the rows on a pool.
    - [ArchScan]: [_check_arch_free] and the rule for English words.
    - [Main]: [tc], [_probe_tools], [_find_clang], the selection, and the [-j 1]
      path of [main] as a function ([serial_main]).
    - [Jobs]: [_run_arch] and [main] with [-j N], packages and cases on the pool of
      [Threads], as a relation between worlds ([May]).
    - [C3Board]: the section of [main] for the [esp32c3] board: its tools, stubs,
      flash image, the watch on the emulator's console, its cases and report.
      The clock and the console are an explicit sequence of turns ([console]);
      [glob] and starting the emulator are the class [Board].  [C3Spec] and
      [C3Green] hold what is proved of it.
    - [Cli]: the whole of [main], both boards and any [-j], and what a usage error
      and an empty selection come to.

    ** How the parts call each other

    [Cli.main] is [Jobs.main] given the section of [C3Board].  [Jobs.main] selects
    cases and architectures, probes the tools, runs the seam check, builds Blade
    through [Build] with the toolchain [Toolchain.resolve] returned, and calls
    [Jobs._run_arch] once per architecture.  That builds
    the shared objects and the packages, then for each case [Build._build_elf],
    whose region table is [RegionTable.regions_text], [Build._run_qemu] and
    [Check._check].  A Python exception is a constructor of [exn]; a [try] is
    [catch_tool], [try_tool] or [attempt]; [sys.exit] is [SystemExit].

    ** What the theorems show

    - A green exit is earned ([Jobs.gate_is_earned], [Jobs.jobs_report],
      [RunArch.pass_is_earned], [Jobs.boots_only_runnable]): for every number
      of workers and every interleaving, it follows from a passing verdict per
      runnable case, of a boot in that run that ended by itself.
    - A verdict is the right one ([Check.check_passes_iff],
      [Check.match_loop_complete], [Check.strip_kernel_diagnostics_exact]): the
      greedy search for the expectations loses nothing against the existence of
      an ordered assignment, and the projection of the transcript removes the
      kernel's lines and nothing else.
    - What is booted is what was built ([BuildPlan.build_elf_plan],
      [BuildPlan.root_image_fresh], [CaseTable.table_builds_isolated]): no stale
      image, no file of another case.
    - Parallel is serial ([Jobs.serial_is_an_outcome]: the serial run is always
      one of the outcomes, and the only one with one worker;
      [MapOrdered.map_ordered_is_serial] and its two companions): the results, their order and the ending are those of the
      inline loop, for every interleaving.  [Parallel.parallel_rows_serial]
      carries this to cases that act on one world: the build directory
      is there, a compiler, a copy or the emulator changes the files it names and
      scratch files and nothing else ([FileView]), and no action of a case reads
      scratch or what another case builds ([confined]); [Threads.every_run_ends]: every run of the pool terminates,
      and only closed.
    - The board section ([C3Green.c3_exit_zero], [C3Spec.c3_watch_exact],
      [C3Spec.c3_flash_exact], [C3Spec.c3_table_roundtrip]): its green exit is
      earned too, and the watch, the flash and the table are what they should be.
    - The region table ([RegionTable.region_table_roundtrip],
      [RegionTable.region_rows_accepts_iff_disjoint]): what is written is what
      is read back.
    - The toolchain ([Toolchain.resolve_refines],
      [Toolchain.fetch_failure_invisible], [Toolchain.path_compiler_pinned] and
      the refusals): the four steps against a declarative account of them.
    - The table ([CaseTable]): facts about all 134 cases on all architectures,
      decided by evaluation and lifted by [table_forall] and
      [table_forall_arch].
    - The seam check, the dumper, the pin file: exactness and round trips.  The
      command line ([Main.selection_exact], [Cli.usage_error_inert],
      [Cli.blank_case_filter_is_green]): a selection is what was named, a usage
      error changes nothing off the [esp32c3] board and is not looked for on it,
      and a selection of nothing is green.

    ** Fuel

    [Check._strip_kernel_diagnostics] takes as fuel the length of the text it is
    given, and each round removes a line of it; [ArchScan.scan_word] the length
    of the line, each round searching from a later position; the loops of
    [PyStr] and [Difflib] likewise the length of their string.  The
    exactness theorems are about the functions with that fuel, so it suffices.
    The watch of [C3Board] runs on the number of turns after which the clock has
    passed its limit, which a [console] gives for any time, and the drain after a
    halt likewise; that neither ends for want of fuel is part of
    [C3Spec.c3_watch_exact].

    ** Limits

    Strings are byte strings, a text its UTF-8 encoding: letters, case and white
    space are the ASCII ones, so a letter or a space outside ASCII is none here
    (the scanned sources have no such letter, their dashes and arrows are none);
    line ends are those of [str.splitlines], the three outside ASCII included.
    With several workers a step is one command, one file operation, one boot or
    one result taken by the consumer.  That every outcome of [Jobs] prints and
    counts what the serial run does is shown for the rows, under [FileView] and
    [confined]; the package phase is not spoken of there, since it would need to
    be known what Blade reads and writes, which the source does not say.  The times of
    [_run_qemu] are data (a time per keystroke, a missing exit status for a boot
    stopped at the limit), not clocks.  What a command prints and does is the
    host's.  The
    kernel, the HALs and the guest programs are not Python and are not
    modelled. *)

From stdpp Require Import base list strings numbers option gmap pretty.
From Stdlib Require Import ZArith NArith Lia Ascii.


(** ** Notations *)

Declare Scope py_scope.
Delimit Scope py_scope with py.

(** ** Python exceptions and the error monad

    One constructor per exception class the tools raise or let escape.  The
    message of an exception the code words itself is kept as text; for those
    the Python runtime words, only the class and the offending key are. *)
Inductive exn : Type :=
  | ToolchainError (msg : string)   (* toolchain.ToolchainError *)
  | ToolError (msg : string)        (* sos_runner.ToolError *)
  | KeyError (key : string)         (* a missing dict key / format field *)
  | ValueError                      (* malformed str.format template *)
  | IndexError                      (* sequence index out of range *)
  | StructError                     (* struct.error: the buffer is too short *)
  | OSError                         (* a failed operating-system call *)
  | SystemExit (code : Z).          (* sys.exit *)

#[export] Instance exn_eq_dec : EqDecision exn.
Proof. solve_decision. Defined.

Inductive res (A : Type) : Type :=
  | Ok (a : A)
  | Raise (e : exn).
Arguments Ok {A} a.
Arguments Raise {A} e.

#[export] Instance res_eq_dec `{EqDecision A} : EqDecision (res A).
Proof. solve_decision. Defined.

#[export] Instance Ok_inj A : Inj (=) (=) (@Ok A).
Proof. by intros ?? [=]. Qed.

#[export] Instance res_ret : MRet res := @Ok.
#[export] Instance res_bind : MBind res := λ A B f m,
  match m with Ok a => f a | Raise e => Raise e end.
#[export] Instance res_fmap : FMap res := λ A B f m,
  match m with Ok a => Ok (f a) | Raise e => Raise e end.

Definition is_ok {A} (m : res A) : bool :=
  match m with Ok _ => true | Raise _ => false end.

Lemma res_bind_Ok {A B} (f : A → res B) m b :
  m ≫= f = Ok b ↔ ∃ a, m = Ok a ∧ f a = Ok b.
Proof. destruct m; cbn; naive_solver. Qed.

Lemma res_bind_Raise {A B} (f : A → res B) m e :
  m ≫= f = Raise e ↔ m = Raise e ∨ ∃ a, m = Ok a ∧ f a = Raise e.
Proof. destruct m; cbn; naive_solver. Qed.

Lemma res_fmap_Ok {A B} (f : A → B) (m : res A) b :
  f <$> m = Ok b ↔ ∃ a, m = Ok a ∧ b = f a.
Proof. destruct m; cbn; naive_solver. Qed.

(** [traverse f l] runs [f] over [l] left to right, stopping at the first
    exception: a Python list comprehension whose body may raise. *)
Fixpoint traverse {A B} (f : A → res B) (l : list A) : res (list B) :=
  match l with
  | [] => Ok []
  | x :: l => y ← f x; ys ← traverse f l; Ok (y :: ys)
  end.

Lemma traverse_Ok {A B} (f : A → res B) l ys :
  traverse f l = Ok ys ↔ Forall2 (λ x y, f x = Ok y) l ys.
Proof.
  revert ys. induction l as [|x l IH]; intros ys; cbn.
  - split; [intros [= <-]; constructor | by inversion 1].
  - rewrite res_bind_Ok. split.
    + intros (y & Hx & Hl). apply res_bind_Ok in Hl as (ys' & Hl & [= <-]).
      constructor; [done | by apply IH].
    + inversion 1 as [|? y ? ys' Hy Hys]; subst. exists y. split; [done|].
      apply res_bind_Ok. exists ys'. split; [by apply IH | done].
Qed.

Lemma traverse_fmap_Ok {A B} (f : A → B) l :
  traverse (λ x, Ok (f x)) l = Ok (f <$> l).
Proof. induction l as [|x l IH]; cbn; [done|]. by rewrite IH. Qed.

Lemma traverse_app {A B} (f : A → res B) l1 l2 :
  traverse f (l1 ++ l2) =
  (ys1 ← traverse f l1; ys2 ← traverse f l2; Ok (ys1 ++ ys2)).
Proof.
  induction l1 as [|x l1 IH]; cbn.
  - by destruct (traverse f l2).
  - destruct (f x); cbn; [|done]. rewrite IH.
    destruct (traverse f l1); cbn; [|done]. by destruct (traverse f l2).
Qed.

(** ** Printing

    A function that prints and may raise: the lines it printed, in order, and
    how it ended.  What was printed before an exception stays printed. *)
Definition out (A : Type) : Type := list string * res A.

#[export] Instance out_ret : MRet out := λ A a, ([], Ok a).
#[export] Instance out_bind : MBind out := λ A B f m,
  match m with
  | (o, Ok a) => (o ++ (f a).1, (f a).2)
  | (o, Raise e) => (o, Raise e)
  end.

Definition print_ (line : string) : out unit := ([line], Ok tt).
Definition lift_res {A} (r : res A) : out A := ([], r).

Lemma out_bind_lift_Ok {A B} (a : A) (f : A → out B) : lift_res (Ok a) ≫= f = f a.
Proof. unfold mbind, out_bind, lift_res; cbn. by destruct (f a). Qed.

Lemma out_bind_Ok {A B} (m : out A) (f : A → out B) o a :
  m = (o, Ok a) → m ≫= f = (o ++ (f a).1, (f a).2).
Proof. by intros ->. Qed.

Lemma out_bind_Raise {A B} (m : out A) (f : A → out B) o e :
  m = (o, Raise e) → m ≫= f = (o, Raise e).
Proof. by intros ->. Qed.

Lemma out_bind_print {B} line (f : unit → out B) :
  print_ line ≫= f = (line :: (f tt).1, (f tt).2).
Proof. done. Qed.

(** ** Truthiness

    [dict.get(key)] on an optional key: [None] and the empty string are false. *)
Class Truthy (A : Type) := truthy : A → bool.
#[export] Instance truthy_bool : Truthy bool := λ b, b.
#[export] Instance truthy_string : Truthy string := λ s, negb (bool_decide (s = "")).
#[export] Instance truthy_list {A} : Truthy (list A) := λ l,
  match l with [] => false | _ => true end.
#[export] Instance truthy_option `{Truthy A} : Truthy (option A) := λ o,
  match o with Some a => truthy a | None => false end.

(** ** Lists *)

(** First-occurrence de-duplication: the [if x not in acc: acc.append(x)]
    loop, which the harness writes for packages and for emulators. *)
Definition append_new `{EqDecision A} (acc : list A) (x : A) : list A :=
  if bool_decide (x ∈ acc) then acc else acc ++ [x].

Definition append_new_all `{EqDecision A} : list A → list A → list A :=
  foldl append_new.

Section append_new.
  Context `{EqDecision A}.
  Implicit Types (acc l : list A) (x y : A).

Lemma elem_of_append_new acc x y :
  y ∈ append_new acc x ↔ y ∈ acc ∨ y = x.
Proof.
  unfold append_new. case_bool_decide; [|by set_solver].
  split; [by left | by intros [?| ->]].
Qed.

Lemma NoDup_append_new acc x : NoDup acc → NoDup (append_new acc x).
Proof.
  intros Hacc. unfold append_new. case_bool_decide; [done|].
  apply NoDup_app. split_and!; [done| |apply NoDup_singleton]. set_solver.
Qed.

Lemma elem_of_append_new_all acc l y :
  y ∈ append_new_all acc l ↔ y ∈ acc ∨ y ∈ l.
Proof.
  unfold append_new_all. revert acc. induction l as [|x l IH]; intros acc; cbn.
  - set_solver.
  - rewrite IH, elem_of_append_new. set_solver.
Qed.

Lemma NoDup_append_new_all acc l : NoDup acc → NoDup (append_new_all acc l).
Proof.
  unfold append_new_all. revert acc. induction l as [|x l IH]; intros acc ?; cbn; [done|].
  by apply IH, NoDup_append_new.
Qed.

Lemma append_new_all_app acc l1 l2 :
  append_new_all acc (l1 ++ l2) = append_new_all (append_new_all acc l1) l2.
Proof. unfold append_new_all. by rewrite foldl_app. Qed.

Lemma append_new_all_NoDup acc l :
  NoDup (acc ++ l) → append_new_all acc l = acc ++ l.
Proof.
  unfold append_new_all. revert acc. induction l as [|x l IH]; intros acc Hl; cbn.
  - by rewrite app_nil_r.
  - assert (x ∉ acc) as Hx.
    { apply NoDup_app in Hl as (_ & Hd & _). intros Hin.
      by apply (Hd x Hin), list_elem_of_here. }
    unfold append_new at 2. rewrite bool_decide_false by done.
    rewrite IH; by rewrite <-app_assoc.
Qed.
End append_new.

(** The partition of a list by a Boolean test, in one pass and in order. *)
Definition partition_by {A} (p : A → bool) (l : list A) : list A * list A :=
  (filter (λ x, Is_true (p x)) l, filter (λ x, ¬ Is_true (p x)) l).

(** Distinctness through a coarser key: where [f] determines [g] and the [g]s
    are distinct, so are the [f]s. *)
Lemma NoDup_fmap_via {A B C} (f : A → B) (g : A → C) l :
  (∀ a b, a ∈ l → b ∈ l → f a = f b → g a = g b) → NoDup (g <$> l) → NoDup (f <$> l).
Proof.
  induction l as [|x l IH]; cbn; intros Hfg; [constructor|].
  rewrite !NoDup_cons, !list_elem_of_fmap. intros [Hx Hl]. split.
  - intros (y & Hy & Hin). apply Hx. exists y. split; [|done].
    apply Hfg; [by apply list_elem_of_here | by apply list_elem_of_further | done].
  - apply IH; [|done]. intros a b Ha Hb. apply Hfg; by apply list_elem_of_further.
Qed.

(** ** Automation *)

Create HintDb py discriminated.
#[export] Hint Resolve NoDup_append_new NoDup_append_new_all : py.

(** Case analysis on the first [match] or [if] of the goal, remembering it. *)
Ltac py_case :=
  match goal with
  | |- context [match ?x with _ => _ end] => let E := fresh "E" in destruct x eqn:E
  end.

(** Split a successful monadic run in a hypothesis into its steps. *)
Ltac inv_ok :=
  repeat match goal with
  | H : mbind _ _ = Ok _ |- _ => apply res_bind_Ok in H as (? & ? & H)
  | H : fmap _ _ = Ok _ |- _ => apply res_fmap_Ok in H as (? & ? & H)
  | H : Ok _ = Ok _ |- _ => injection H as H
  | H : Raise _ = Ok _ |- _ => discriminate H
  | H : Ok _ = Raise _ |- _ => discriminate H
  end.
