(* ===== verification/PyStr.v ===== *)
(** * Python strings

    The [str] methods, formatting codes and [str.format] the tools use.  A
    Python string is the Stdlib [string] of its UTF-8 bytes.  The character
    classes below are Python's on ASCII; a byte of a longer encoding is in none
    of them, so of the characters outside ASCII the letters and the spaces are
    not told from the others.  Searching and cutting at ASCII patterns is the
    same on the bytes as on the characters. *)

From Stdlib Require Import Ascii.
From S2P Require Import Prelude.
From stdpp Require Import base list strings numbers option pretty.

Open Scope nat_scope.

#[global] Arguments Ascii.eqb : simpl never.
#[global] Arguments String.eqb : simpl never.

Abbreviation slen := String.length.

(** Characters that cannot stand in a string literal of this development. *)
Definition dq : string := String (ascii_of_nat 34) "".
Definition nl : string := String (ascii_of_nat 10) "".

(** ** Slicing *)

Fixpoint sdrop (n : nat) (s : string) : string :=
  match n, s with
  | O, _ => s
  | S n, String _ s => sdrop n s
  | S _, EmptyString => ""
  end.

Fixpoint stake (n : nat) (s : string) : string :=
  match n, s with
  | O, _ => ""
  | S n, String c s => String c (stake n s)
  | S _, EmptyString => ""
  end.

(** [prefixb p s]: [s.startswith(p)]. *)
Fixpoint prefixb (p s : string) : bool :=
  match p, s with
  | EmptyString, _ => true
  | String a p, String b s => Ascii.eqb a b && prefixb p s
  | String _ _, EmptyString => false
  end.

Definition startswith (s p : string) : bool := prefixb p s.
Definition endswith (s p : string) : bool :=
  (slen p <=? slen s) && String.eqb (sdrop (slen s - slen p) s) p.

(** ** Searching: [s.find(sub, start)], with [None] for Python's [-1] *)

Fixpoint find_first (sub s : string) : option nat :=
  if prefixb sub s then Some 0
  else match s with
       | EmptyString => None
       | String _ s' => S <$> find_first sub s'
       end.

Definition py_find (s sub : string) (start : nat) : option nat :=
  if start <=? slen s then (λ i, start + i) <$> find_first sub (sdrop start s)
  else None.

(** [sub in s] *)
Definition py_in (sub s : string) : bool :=
  match find_first sub s with Some _ => true | None => false end.

(** ** Character classes (ASCII) *)

Definition code (c : ascii) : N := N_of_ascii c.
Definition between (lo hi n : N) : bool := ((lo <=? n) && (n <=? hi))%N.

Definition is_space (c : ascii) : bool := let n := code c in between 9 13 n || between 28 32 n.

Definition is_alpha (c : ascii) : bool := let n := code c in between 65 90 n || between 97 122 n.

Definition lower_char (c : ascii) : ascii :=
  let n := code c in if between 65 90 n then ascii_of_N (n + 32) else c.

Fixpoint smap (f : ascii → ascii) (s : string) : string :=
  match s with
  | EmptyString => ""
  | String c s => String (f c) (smap f s)
  end.

(** [s.lower()] *)
Definition py_lower : string → string := smap lower_char.

(** [s.isalpha()]: every character a letter, and at least one character. *)
Fixpoint all_alpha (s : string) : bool :=
  match s with
  | EmptyString => true
  | String c s => is_alpha c && all_alpha s
  end.
Definition py_isalpha (s : string) : bool := negb (String.eqb s "") && all_alpha s.

(** [s.replace(a, b)] for one-character [a], [b]. *)
Definition replace_char (a b : ascii) : string → string :=
  smap (λ c, if Ascii.eqb c a then b else c).

(** [s.replace(old, new)] for a non-empty [old]. *)
Fixpoint replace_fuel (fuel : nat) (old new s : string) : string :=
  match fuel with
  | O => s
  | S fuel =>
      if prefixb old s then new +:+ replace_fuel fuel old new (sdrop (slen old) s)
      else match s with
           | EmptyString => ""
           | String c s' => String c (replace_fuel fuel old new s')
           end
  end.
Definition py_replace (s old new : string) : string := replace_fuel (slen s) old new s.

(** ** Stripping and splitting *)

Fixpoint lstrip_by (p : ascii → bool) (s : string) : string :=
  match s with
  | EmptyString => ""
  | String c s' => if p c then lstrip_by p s' else s
  end.

Fixpoint rstrip_by (p : ascii → bool) (s : string) : string :=
  match s with
  | EmptyString => ""
  | String c s' =>
      match rstrip_by p s' with
      | EmptyString => if p c then "" else String c ""
      | r => String c r
      end
  end.

Definition strip_by (p : ascii → bool) (s : string) : string :=
  rstrip_by p (lstrip_by p s).

(** [s.strip()] *)
Definition py_strip : string → string := strip_by is_space.

(** [s.partition(c)] and [s.split(c, 1)]: the text before the first [c], and
    what follows it when there is one. *)
Fixpoint cut_at (c : ascii) (s : string) : string * option string :=
  match s with
  | EmptyString => ("", None)
  | String d s' =>
      if Ascii.eqb d c then ("", Some s')
      else let '(a, b) := cut_at c s' in (String d a, b)
  end.

(** [s.split(c)], every field. *)
Fixpoint split_on (c : ascii) (s : string) : list string :=
  match s with
  | EmptyString => [""]
  | String d s' =>
      if Ascii.eqb d c then "" :: split_on c s'
      else match split_on c s' with
           | f :: fs => String d f :: fs
           | [] => [String d ""]
           end
  end.

(** [s.split()]: the maximal runs of non-space characters. *)
Fixpoint split_ws_go (cur : string) (s : string) : list string :=
  match s with
  | EmptyString => if String.eqb cur "" then [] else [cur]
  | String c s' =>
      if is_space c
      then (if String.eqb cur "" then [] else [cur]) ++ split_ws_go "" s'
      else split_ws_go (cur +:+ String c "") s'
  end.
Definition split_ws : string → list string := split_ws_go "".

(** [sep.join(l)] *)
Fixpoint py_join (sep : string) (l : list string) : string :=
  match l with
  | [] => ""
  | [s] => s
  | s :: l => s +:+ sep +:+ py_join sep l
  end.

(** The lines a text-mode file iterates over: CR, LF and CRLF each end one
    (universal newlines); the terminator, which every caller strips, is left
    out here, and a final unterminated line counts. *)
Fixpoint file_lines_go (cur : string) (s : string) : list string :=
  match s with
  | EmptyString => if String.eqb cur "" then [] else [cur]
  | String c s' =>
      if (code c =? 10)%N then cur :: file_lines_go "" s'
      else if (code c =? 13)%N then
        cur :: match s' with
               | String d s'' =>
                   if (code d =? 10)%N then file_lines_go "" s''
                   else file_lines_go "" s'
               | EmptyString => []
               end
      else file_lines_go (cur +:+ String c "") s'
  end.
Definition file_lines : string → list string := file_lines_go "".

(** [s.splitlines()]: the same over every line boundary of a string, which
    outside ASCII are U+0085, U+2028 and U+2029. *)
Definition line_break (c : ascii) : bool :=
  let n := code c in between 10 13 n || between 28 30 n.

(** What follows the line boundary a string begins with. *)
Definition after_break (s : string) : option string :=
  match s with
  | EmptyString => None
  | String c s' =>
      if (code c =? 13)%N then
        match s' with
        | String d s'' => if (code d =? 10)%N then Some s'' else Some s'
        | EmptyString => Some s'
        end
      else if line_break c then Some s'
      else match s' with
           | String d s'' =>
               if (code c =? 194)%N && (code d =? 133)%N then Some s''
               else match s'' with
                    | String e s3 =>
                        if (code c =? 226)%N && (code d =? 128)%N && between 168 169 (code e) then Some s3 else None
                    | EmptyString => None
                    end
           | EmptyString => None
           end
  end.

Fixpoint splitlines_go (fuel : nat) (cur : string) (s : string) : list string :=
  match fuel with
  | O => []
  | S fuel =>
      match s with
      | EmptyString => if String.eqb cur "" then [] else [cur]
      | String c s' =>
          match after_break s with
          | Some rest => cur :: splitlines_go fuel "" rest
          | None => splitlines_go fuel (cur +:+ String c "") s'
          end
      end
  end.
Definition splitlines (s : string) : list string := splitlines_go (S (slen s)) "" s.

(** ** [bytes.decode("utf-8", "replace")]

    A character whose encoding is broken off is one replacement character, and
    reading goes on at the byte that broke it. *)

Definition replacement : string :=
  String (ascii_of_nat 239) (String (ascii_of_nat 191) (String (ascii_of_nat 189) "")).

(** How many bytes must follow a lead byte, and the range of the first of them. *)
Definition utf8_lead (c : ascii) : option (nat * N * N) :=
  let n := N_of_ascii c in
  if (n <? 128)%N then Some (0, 128%N, 191%N)
  else if (194 <=? n)%N && (n <=? 223)%N then Some (1, 128%N, 191%N)
  else if (n =? 224)%N then Some (2, 160%N, 191%N)
  else if (n =? 237)%N then Some (2, 128%N, 159%N)
  else if (225 <=? n)%N && (n <=? 239)%N then Some (2, 128%N, 191%N)
  else if (n =? 240)%N then Some (3, 144%N, 191%N)
  else if (241 <=? n)%N && (n <=? 243)%N then Some (3, 128%N, 191%N)
  else if (n =? 244)%N then Some (3, 128%N, 143%N)
  else None.

(** [held] is the encoding read so far, [need] what is still missing of it. *)
Fixpoint utf8_go (held : string) (need : nat) (lo hi : N) (s : string) : string :=
  match s with
  | EmptyString => match need with O => "" | _ => replacement end
  | String c s =>
      let start :=
        match utf8_lead c with
        | Some (O, _, _) => String c (utf8_go "" 0 128 191 s)
        | Some (n, lo, hi) => utf8_go (String c "") n lo hi s
        | None => replacement +:+ utf8_go "" 0 128 191 s
        end in
      match need with
      | O => start
      | S need =>
          if (lo <=? N_of_ascii c)%N && (N_of_ascii c <=? hi)%N then
            match need with
            | O => held +:+ String c (utf8_go "" 0 128 191 s)
            | _ => utf8_go (held +:+ String c "") need 128 191 s
            end
          else replacement +:+ start
      end
  end.

Definition decode_replace (s : string) : string := utf8_go "" 0 128 191 s.

(** ** Numbers as text *)

(** [str(n)] *)
Definition py_str (n : N) : string := pretty n.

Definition hex_digit (n : N) : ascii :=
  if (n <? 10)%N then ascii_of_N (48 + n) else ascii_of_N (87 + n).

Fixpoint hex_go (fuel : nat) (n : N) (acc : string) : string :=
  match fuel with
  | O => acc
  | S fuel =>
      let acc := String (hex_digit (n mod 16)) acc in
      if (n / 16 =? 0)%N then acc else hex_go fuel (n / 16) acc
  end.

(** [f"{n:x}"]; a number has at most as many hexadecimal digits as bits. *)
Definition py_hex (n : N) : string := hex_go (S (N.size_nat n)) n "".

Fixpoint srepeat (c : ascii) (n : nat) : string :=
  match n with O => "" | S n => String c (srepeat c n) end.

(** [f"{n:0{width}x}"] *)
Definition py_hex_pad (width : nat) (n : N) : string :=
  srepeat "0" (width - slen (py_hex n)) +:+ py_hex n.

(** [f"{s:<width}"], [f"{n:<width}"] *)
Definition py_ljust (width : nat) (s : string) : string :=
  s +:+ srepeat " " (width - slen s).

(** [f"{n:#x}"] *)
Definition py_0x (n : N) : string := "0x" +:+ py_hex n.

(** The value of a string of hexadecimal digits, as [int(s, 16)] reads it. *)
Definition hex_digit_val (c : ascii) : option N :=
  let n := code c in
  if between 48 57 n then Some (n - 48)%N
  else if between 97 102 n then Some (n - 87)%N
  else None.

Fixpoint hex_val_go (acc : N) (s : string) : option N :=
  match s with
  | EmptyString => Some acc
  | String c s => d ← hex_digit_val c; hex_val_go (acc * 16 + d) s
  end.
Definition hex_val : string → option N := hex_val_go 0.

(** ** [str.format] with keyword fields

    Literal text, the two brace escapes and [{name}] fields.  The templates of
    this program use no conversion, format specification, attribute or index;
    a template with one, like an unbalanced brace, is [ValueError] here. *)

Fixpoint dict_get {A} (d : list (string * A)) (k : string) : option A :=
  match d with
  | [] => None
  | (k', v) :: d => if String.eqb k k' then Some v else dict_get d k
  end.

Definition field_char (c : ascii) : bool :=
  let n := code c in
  between 97 122 n || between 65 90 n || between 48 57 n || (n =? 95)%N.

Inductive fmt_state :=
  | FText                    (* in literal text *)
  | FOpen                    (* after an opening brace *)
  | FClose                   (* after a closing brace *)
  | FField (name : string).  (* inside a field *)

Fixpoint format_go (d : list (string * string)) (st : fmt_state) (s : string)
    : res string :=
  match s with
  | EmptyString => match st with FText => Ok "" | _ => Raise ValueError end
  | String c s' =>
      match st with
      | FText =>
          if Ascii.eqb c "{" then format_go d FOpen s'
          else if Ascii.eqb c "}" then format_go d FClose s'
          else r ← format_go d FText s'; Ok (String c r)
      | FOpen =>
          if Ascii.eqb c "{" then r ← format_go d FText s'; Ok (String c r)
          else if field_char c then format_go d (FField (String c "")) s'
          else Raise ValueError
      | FClose =>
          if Ascii.eqb c "}" then r ← format_go d FText s'; Ok (String c r)
          else Raise ValueError
      | FField name =>
          if Ascii.eqb c "}" then
            match dict_get d name with
            | Some v => r ← format_go d FText s'; Ok (v +:+ r)
            | None => Raise (KeyError name)
            end
          else if field_char c then format_go d (FField (name +:+ String c "")) s'
          else Raise ValueError
      end
  end.

(** [template.format( **d )] *)
Definition py_format (template : string) (d : list (string * string)) : res string :=
  format_go d FText template.

(** ** [repr] of a string *)

Definition printable (c : ascii) : bool := let n := code c in between 32 126 n || (128 <=? n)%N.

Definition repr_char (quote : ascii) (c : ascii) : string :=
  let n := code c in
  if Ascii.eqb c quote || (n =? 92)%N then String (ascii_of_N 92) (String c "")
  else if (n =? 9)%N then String (ascii_of_N 92) "t"
  else if (n =? 10)%N then String (ascii_of_N 92) "n"
  else if (n =? 13)%N then String (ascii_of_N 92) "r"
  else if printable c then String c ""
  else String (ascii_of_N 92) ("x" +:+ py_hex_pad 2 n).

Fixpoint sconcat_map (f : ascii → string) (s : string) : string :=
  match s with EmptyString => "" | String c s => f c +:+ sconcat_map f s end.

Definition has_char (c : ascii) (s : string) : bool :=
  match cut_at c s with (_, Some _) => true | (_, None) => false end.

(** [repr(s)], the [!r] conversion. *)
Definition py_repr (s : string) : string :=
  let q := if has_char "'" s && negb (has_char (ascii_of_nat 34) s)
           then ascii_of_nat 34 else "'"%char in
  String q (sconcat_map (repr_char q) s +:+ String q "").

(** [repr] of a list of strings. *)
Definition py_repr_list (l : list string) : string := "[" +:+ py_join ", " (py_repr <$> l) +:+ "]".

(** ** Facts about slicing and searching *)

Lemma sapp_nil_r s : s +:+ "" = s.
Proof. induction s as [|c s IH]; [done|]. change (String c (s +:+ "") = String c s). by rewrite IH. Qed.

Lemma sapp_assoc a b c : (a +:+ b) +:+ c = a +:+ b +:+ c.
Proof. induction a as [|x a IH]; [done|]. change (String x ((a +:+ b) +:+ c) = String x (a +:+ b +:+ c)). by rewrite IH. Qed.

Lemma sapp_cons x a b : String x a +:+ b = String x (a +:+ b).
Proof. done. Qed.

Lemma slen_app a b : slen (a +:+ b) = slen a + slen b.
Proof. induction a as [|x a IH]; [done|]. rewrite sapp_cons. cbn. by rewrite IH. Qed.

Lemma slen_zero s : slen s = 0 → s = "".
Proof. by destruct s. Qed.

Lemma sdrop_app a b : sdrop (slen a) (a +:+ b) = b.
Proof. induction a; [done | by rewrite sapp_cons]. Qed.

Lemma stake_app a b : stake (slen a) (a +:+ b) = a.
Proof. induction a as [|x a IH]; [done|]. rewrite sapp_cons. cbn. by rewrite IH. Qed.

Lemma stake_sdrop n s : stake n s +:+ sdrop n s = s.
Proof.
  revert s. induction n as [|n IH]; intros [|c s]; cbn; try done.
  rewrite sapp_cons. by rewrite IH.
Qed.

Lemma slen_stake n s : slen (stake n s) = min n (slen s).
Proof. revert s. induction n as [|n IH]; intros [|c s]; cbn; auto. Qed.

Lemma slen_sdrop n s : slen (sdrop n s) = slen s - n.
Proof. revert s. induction n as [|n IH]; intros [|c s]; cbn; auto. Qed.

Lemma sdrop_sdrop n m s : sdrop n (sdrop m s) = sdrop (m + n) s.
Proof. revert s. induction m as [|m IH]; intros [|c s]; cbn; auto. by destruct n. Qed.

Lemma sapp_inv_head a b c : a +:+ b = a +:+ c → b = c.
Proof. induction a; [done|]. rewrite !sapp_cons. intros [= ?]; auto. Qed.

(** Two splittings of one string at the same length agree. *)
Lemma sapp_inj a b c d : a +:+ b = c +:+ d → slen a = slen c → a = c ∧ b = d.
Proof.
  revert c. induction a as [|x a IH]; intros [|y c]; rewrite ?sapp_cons; cbn;
    intros H Hl; try done.
  injection H as -> H. injection Hl as Hl. by destruct (IH _ H Hl) as [-> ->].
Qed.

(** A line boundary is at least one byte long, so the fuel of [splitlines] is
    enough: more changes nothing. *)
Lemma after_break_shorter s rest : after_break s = Some rest → slen rest < slen s.
Proof.
  destruct s as [|c [|d [|e s]]]; cbn [after_break]; repeat case_match; intros [= <-]; cbn; lia.
Qed.

Lemma splitlines_fuel n m cur s :
  slen s < n → slen s < m → splitlines_go n cur s = splitlines_go m cur s.
Proof.
  revert m cur s. induction n as [|n IH]; intros [|m] cur s Hn Hm; try lia.
  cbn [splitlines_go]. destruct s as [|c s]; [done|].
  destruct (after_break (String c s)) as [rest|] eqn:E.
  - apply after_break_shorter in E. f_equal. apply IH; lia.
  - cbn in Hn, Hm. apply IH; lia.
Qed.

(** The two ends of a splitting determine a shared middle. *)
Lemma sapp_split_le a b c d :
  a +:+ b = c +:+ d → slen a ≤ slen c → ∃ m, c = a +:+ m ∧ b = m +:+ d.
Proof.
  revert c. induction a as [|x a IH]; intros c; cbn.
  - intros H _. exists c. split; [done | exact H].
  - destruct c as [|y c]; cbn; [lia|]. rewrite !sapp_cons.
    intros [= -> H] Hl. destruct (IH c H ltac:(lia)) as (m & -> & ->). by exists m.
Qed.

Lemma prefixb_spec p s : prefixb p s = true ↔ ∃ t, s = p +:+ t.
Proof.
  revert s. induction p as [|x p IH]; intros s; cbn.
  - split; [intros _; by exists s | done].
  - destruct s as [|y s]; cbn.
    + split; [done | by intros (t & ?)].
    + rewrite andb_true_iff, Ascii.eqb_eq, IH. split.
      * intros (-> & t & ->). by exists t.
      * intros (t & [= -> ->]). eauto.
Qed.

Lemma prefixb_app p t : prefixb p (p +:+ t) = true.
Proof. apply prefixb_spec. by exists t. Qed.

(** [sub] occurs in [s] at index [i]. *)
Definition occurs_at (sub s : string) (i : nat) : Prop :=
  ∃ u v, s = u +:+ sub +:+ v ∧ slen u = i.

Lemma occurs_at_prefix sub s i :
  occurs_at sub s i ↔ i ≤ slen s ∧ prefixb sub (sdrop i s) = true.
Proof.
  rewrite prefixb_spec. split.
  - intros (u & v & -> & <-). split; [rewrite slen_app; lia|].
    exists v. by rewrite sdrop_app.
  - intros (Hi & v & Hv). exists (stake i s), v. split.
    + by rewrite <-Hv, stake_sdrop.
    + rewrite slen_stake. lia.
Qed.

#[export] Instance occurs_at_dec sub s i : Decision (occurs_at sub s i).
Proof.
  refine (cast_if (decide (i ≤ slen s ∧ prefixb sub (sdrop i s) = true)));
    by rewrite occurs_at_prefix.
Defined.

Lemma occurs_at_bound sub s i : occurs_at sub s i → i + slen sub ≤ slen s.
Proof. intros (u & v & -> & <-). rewrite !slen_app. lia. Qed.

Lemma occurs_at_cons sub c s i : occurs_at sub (String c s) (S i) ↔ occurs_at sub s i.
Proof.
  rewrite !occurs_at_prefix. cbn. split; intros [? ?]; split; auto; lia.
Qed.

Lemma occurs_at_0 sub s : occurs_at sub s 0 ↔ prefixb sub s = true.
Proof. rewrite occurs_at_prefix. cbn. split; [by intros [_ ?] | split; auto with lia]. Qed.

Lemma occurs_at_sdrop sub s k i :
  k ≤ slen s → occurs_at sub (sdrop k s) i ↔ occurs_at sub s (k + i).
Proof.
  intros Hk. rewrite !occurs_at_prefix, sdrop_sdrop, slen_sdrop.
  split; intros [? ?]; split; auto; lia.
Qed.

Lemma find_first_Some sub s i :
  find_first sub s = Some i ↔ occurs_at sub s i ∧ ∀ j, j < i → ¬ occurs_at sub s j.
Proof.
  revert i. induction s as [|c s IH]; intros i.
  - cbn. destruct (prefixb sub "") eqn:E.
    + split.
      * intros [= <-]. split; [by apply occurs_at_0 | lia].
      * intros [Hi Hmin]. destruct i; [done|].
        exfalso. apply (Hmin 0); [lia | by apply occurs_at_0].
    + split; [done|]. intros [(u & v & Hu & <-) _]. exfalso.
      destruct u; [|done]. destruct sub; done.
  - cbn [find_first]. destruct (prefixb sub (String c s)) eqn:E.
    + split.
      * intros [= <-]. split; [by apply occurs_at_0 | lia].
      * intros [Hi Hmin]. destruct i; [done|].
        exfalso. apply (Hmin 0); [lia | by apply occurs_at_0].
    + rewrite fmap_Some. split.
      * intros (k & Hk & ->). apply IH in Hk as [Hk Hmin]. split.
        { by apply occurs_at_cons. }
        intros [|j] Hj; [rewrite occurs_at_0; congruence|].
        rewrite occurs_at_cons. apply Hmin. lia.
      * intros [Hi Hmin]. destruct i as [|i].
        { apply occurs_at_0 in Hi. congruence. }
        exists i. split; [|done]. apply IH. split; [by apply occurs_at_cons in Hi|].
        intros j Hj. rewrite <-(occurs_at_cons _ c). apply Hmin. lia.
Qed.

Lemma find_first_None sub s : find_first sub s = None ↔ ∀ j, ¬ occurs_at sub s j.
Proof.
  induction s as [|c s IH].
  - cbn. destruct (prefixb sub "") eqn:E.
    + split; [done|]. intros H. exfalso. by apply (H 0), occurs_at_0.
    + split; [|done]. intros _ j (u & v & Hu & _). destruct u, sub; done.
  - cbn [find_first]. destruct (prefixb sub (String c s)) eqn:E.
    + split; [done|]. intros H. exfalso. by apply (H 0), occurs_at_0.
    + rewrite fmap_None, IH. split.
      * intros H [|j]; [rewrite occurs_at_0; congruence | rewrite occurs_at_cons; auto].
      * intros H j. rewrite <-(occurs_at_cons _ c). auto.
Qed.

(** [s.find(sub, start)] is the least index at or after [start] where [sub]
    occurs, and [-1] exactly when there is none. *)
Lemma py_find_Some s sub start i :
  py_find s sub start = Some i ↔
  start ≤ i ∧ occurs_at sub s i ∧ ∀ j, start ≤ j < i → ¬ occurs_at sub s j.
Proof.
  unfold py_find. destruct (Nat.leb_spec start (slen s)) as [Hs|Hs].
  - rewrite fmap_Some. setoid_rewrite find_first_Some. split.
    + intros (k & [Hk Hmin] & ->). rewrite occurs_at_sdrop in Hk by done.
      split_and!; [lia | done |]. intros j Hj. replace j with (start + (j - start)) by lia.
      rewrite <-occurs_at_sdrop by done. apply Hmin. lia.
    + intros (Hi & Hocc & Hmin). exists (i - start). split_and!; [| |lia].
      * rewrite occurs_at_sdrop by done. by replace (start + (i - start)) with i by lia.
      * intros j Hj. rewrite occurs_at_sdrop by done. apply Hmin. lia.
  - split; [done|]. intros (Hi & Hocc & _). apply occurs_at_bound in Hocc. lia.
Qed.

Lemma py_find_None s sub start :
  py_find s sub start = None ↔ ∀ j, start ≤ j → ¬ occurs_at sub s j.
Proof.
  unfold py_find. destruct (Nat.leb_spec start (slen s)) as [Hs|Hs].
  - rewrite fmap_None, find_first_None. split; intros H j.
    + intros Hj. replace j with (start + (j - start)) by lia.
      by rewrite <-occurs_at_sdrop.
    + rewrite occurs_at_sdrop by done. apply H. lia.
  - split; [|done]. intros _ j Hj Hocc. apply occurs_at_bound in Hocc. lia.
Qed.

Lemma py_in_spec sub s : py_in sub s = true ↔ ∃ i, occurs_at sub s i.
Proof.
  unfold py_in. destruct (find_first sub s) as [i|] eqn:E.
  - apply find_first_Some in E as [? _]. split; eauto.
  - split; [done|]. intros (i & Hi). by apply find_first_None with (j := i) in E.
Qed.

(** ** Facts about numbers as text *)

(** Every character of [s] satisfies [p]. *)
Fixpoint all_chars (p : ascii → bool) (s : string) : bool :=
  match s with EmptyString => true | String c s => p c && all_chars p s end.

Lemma all_chars_app p a b : all_chars p (a +:+ b) = all_chars p a && all_chars p b.
Proof. induction a as [|c a IH]; [done|]. rewrite sapp_cons. cbn. by rewrite IH, andb_assoc. Qed.

Lemma all_chars_impl (p q : ascii → bool) s :
  (∀ c, p c = true → q c = true) → all_chars p s = true → all_chars q s = true.
Proof.
  intros Hpq. induction s as [|c s IH]; [done|]. cbn. rewrite !andb_true_iff.
  intros [Hc Hs]. auto.
Qed.

Definition is_digit (c : ascii) : bool := between 48 57 (code c).

Lemma pretty_N_char_digit d : is_digit (pretty_N_char d) = true.
Proof. unfold pretty_N_char. by repeat case_match. Qed.

Lemma pretty_N_go_digits x s :
  all_chars is_digit s = true → all_chars is_digit (pretty_N_go x s) = true.
Proof.
  revert s. induction (N.lt_wf_0 x) as [x _ IH]. intros s Hs.
  destruct (decide (0 < x)%N) as [Hx|Hx].
  - rewrite pretty_N_go_step by done. apply IH; [by apply N.div_lt|].
    cbn. by rewrite pretty_N_char_digit.
  - by replace x with 0%N by lia.
Qed.

Lemma py_str_digits n : all_chars is_digit (py_str n) = true.
Proof.
  unfold py_str, pretty, pretty_N. case_decide; [done|]. by apply pretty_N_go_digits.
Qed.

(** Reading decimal digits back, as [int(s)] does. *)
Fixpoint dec_val_go (acc : N) (s : string) : option N :=
  match s with
  | EmptyString => Some acc
  | String c s => if is_digit c then dec_val_go (acc * 10 + (code c - 48)) s else None
  end.
Definition dec_val : string → option N := dec_val_go 0.

Lemma pretty_N_char_val d : (d < 10)%N → (code (pretty_N_char d) - 48)%N = d.
Proof.
  intros Hd. assert (d ∈ (N.of_nat <$> seq 0 10)) as H.
  { apply list_elem_of_fmap. exists (N.to_nat d). rewrite elem_of_seq. split; lia. }
  cbn in H. rewrite !elem_of_cons, elem_of_nil in H.
  by repeat destruct H as [->|H].
Qed.

Lemma dec_val_pretty_go x s : dec_val_go 0 (pretty_N_go x s) = dec_val_go x s.
Proof.
  revert s. induction (N.lt_wf_0 x) as [x _ IH]. intros s.
  destruct (decide (0 < x)%N) as [Hx|Hx].
  - rewrite pretty_N_go_step, IH by (done || by apply N.div_lt). cbn.
    rewrite pretty_N_char_digit, pretty_N_char_val by (by apply N.mod_upper_bound).
    f_equal. rewrite (N.div_mod x 10) at 3 by done. lia.
  - by replace x with 0%N by lia.
Qed.

Lemma dec_val_str n : dec_val (py_str n) = Some n.
Proof.
  unfold dec_val, py_str, pretty, pretty_N. case_decide; [by subst|].
  by rewrite dec_val_pretty_go.
Qed.

Lemma py_str_inj n m : py_str n = py_str m → n = m.
Proof. intros H. apply (f_equal dec_val) in H. rewrite !dec_val_str in H. by injection H. Qed.

Lemma hex_digit_val_digit d : (d < 16)%N → hex_digit_val (hex_digit d) = Some d.
Proof.
  intros Hd. assert (d ∈ (N.of_nat <$> seq 0 16)) as H.
  { apply list_elem_of_fmap. exists (N.to_nat d). rewrite elem_of_seq. split; lia. }
  cbn in H. rewrite !elem_of_cons, elem_of_nil in H.
  by repeat destruct H as [->|H].
Qed.

Lemma hex_val_go_hex_go fuel n acc :
  (n < 16 ^ N.of_nat fuel)%N → hex_val_go 0 (hex_go fuel n acc) = hex_val_go n acc.
Proof.
  revert n acc. induction fuel as [|fuel IH]; intros n acc Hn; cbn [hex_go].
  - replace n with 0%N; [done|]. change (16 ^ N.of_nat 0)%N with 1%N in Hn. lia.
  - pose proof (N.mod_upper_bound n 16 ltac:(done)).
    assert (hex_val_go (n / 16) (String (hex_digit (n mod 16)) acc) = hex_val_go n acc) as Hstep.
    { cbn. rewrite hex_digit_val_digit by done. cbn.
      f_equal. rewrite (N.div_mod n 16) at 3 by done. lia. }
    destruct (N.eqb_spec (n / 16) 0) as [Hz|Hz].
    + by rewrite <-Hstep, Hz.
    + rewrite IH; [done|]. apply N.Div0.div_lt_upper_bound.
      by rewrite <-N.pow_succ_r', <-Nat2N.inj_succ.
Qed.

Lemma size_nat_bound n : (n < 16 ^ N.of_nat (S (N.size_nat n)))%N.
Proof.
  pose proof (N.size_gt n) as H. eapply N.lt_le_trans; [exact H|].
  assert (N.size n = N.of_nat (N.size_nat n)) as ->.
  { clear H. destruct n as [|p]; [done|]. induction p as [p IH|p IH|]; [| |done].
    all: cbn [N.size_nat Pos.size_nat]; rewrite Nat2N.inj_succ; cbn [N.size_nat] in IH;
      by rewrite <-IH. }
  rewrite Nat2N.inj_succ, N.pow_succ_r'.
  pose proof (N.pow_le_mono_l 2 16 (N.of_nat (N.size_nat n)) ltac:(lia)). lia.
Qed.

Lemma hex_val_hex n : hex_val (py_hex n) = Some n.
Proof. unfold hex_val, py_hex. by rewrite hex_val_go_hex_go by apply size_nat_bound. Qed.

Lemma hex_val_zeros k s : hex_val_go 0 (srepeat "0" k +:+ s) = hex_val_go 0 s.
Proof. induction k as [|k IH]; [done|]. cbn [srepeat]. rewrite sapp_cons. cbn. exact IH. Qed.

(** Padding never changes the number that is read back. *)
Lemma hex_val_hex_pad w n : hex_val (py_hex_pad w n) = Some n.
Proof. unfold hex_val, py_hex_pad. rewrite hex_val_zeros. apply hex_val_hex. Qed.

(** ** Facts about stripping and splitting *)

Lemma lstrip_by_app p a s : all_chars p a = true → lstrip_by p (a +:+ s) = lstrip_by p s.
Proof.
  induction a as [|c a IH]; [done|]. rewrite sapp_cons. cbn. rewrite andb_true_iff.
  intros [-> Ha]. auto.
Qed.

Lemma rstrip_by_all p b : all_chars p b = true → rstrip_by p b = "".
Proof.
  induction b as [|c b IH]; [done|]. cbn. rewrite andb_true_iff. intros [-> Hb].
  by rewrite IH.
Qed.

Lemma rstrip_by_app p s b : all_chars p b = true → rstrip_by p (s +:+ b) = rstrip_by p s.
Proof.
  intros Hb. induction s as [|c s IH]; [by apply rstrip_by_all|].
  rewrite sapp_cons. cbn. by rewrite IH.
Qed.

(** A string whose last character does not satisfy [p] is not shortened. *)
Lemma rstrip_by_last p s c : p c = false → rstrip_by p (s +:+ String c "") = s +:+ String c "".
Proof.
  intros Hc. induction s as [|d s IH].
  - change (rstrip_by p (String c "") = String c ""). cbn. by rewrite Hc.
  - rewrite sapp_cons. cbn. rewrite IH. by destruct s.
Qed.

Lemma lstrip_by_head p c s : p c = false → lstrip_by p (String c s) = String c s.
Proof. intros Hc. cbn. by rewrite Hc. Qed.

Lemma rstrip_by_none p s : all_chars (λ c, negb (p c)) s = true → rstrip_by p s = s.
Proof.
  induction s as [|c s IH]; [done|]. cbn. rewrite andb_true_iff, negb_true_iff.
  intros [Hc Hs]. rewrite IH by done. rewrite Hc. by destruct s.
Qed.

Lemma lstrip_by_none p s : all_chars (λ c, negb (p c)) s = true → lstrip_by p s = s.
Proof.
  destruct s as [|c s]; [done|]. cbn. rewrite andb_true_iff, negb_true_iff. by intros [-> _].
Qed.

(** Stripping removes exactly the surrounding [p]-characters of a core that
    contains none. *)
Lemma strip_by_core p a s b :
  all_chars p a = true → all_chars p b = true → all_chars (λ c, negb (p c)) s = true →
  strip_by p (a +:+ s +:+ b) = s.
Proof.
  intros Ha Hb Hs. unfold strip_by. rewrite lstrip_by_app by done.
  destruct s as [|c s].
  - change (rstrip_by p (lstrip_by p b) = "").
    assert (lstrip_by p b = "") as ->; [|done].
    clear - Hb. induction b as [|c b IH]; [done|]. cbn in *.
    apply andb_true_iff in Hb as [-> Hb]. auto.
  - assert (p c = false) as Hc by (cbn in Hs; destruct (p c); done).
    rewrite sapp_cons, lstrip_by_head, <-sapp_cons, rstrip_by_app by done.
    by apply rstrip_by_none.
Qed.

Lemma cut_at_none c s :
  all_chars (λ d, negb (Ascii.eqb d c)) s = true → cut_at c s = (s, None).
Proof.
  induction s as [|d s IH]; [done|]. cbn. rewrite andb_true_iff, negb_true_iff.
  intros [-> Hs]. by rewrite IH.
Qed.

Lemma cut_at_first c a b :
  all_chars (λ d, negb (Ascii.eqb d c)) a = true → cut_at c (a +:+ String c b) = (a, Some b).
Proof.
  induction a as [|d a IH].
  - intros _. change (cut_at c (String c b) = ("", Some b)). cbn. by rewrite Ascii.eqb_refl.
  - rewrite sapp_cons. cbn. rewrite andb_true_iff, negb_true_iff. intros [-> Ha].
    by rewrite IH.
Qed.

Definition no_eol (c : ascii) : bool := negb ((code c =? 10)%N || (code c =? 13)%N).

Lemma file_lines_go_app cur l rest :
  all_chars no_eol l = true →
  file_lines_go cur (l +:+ nl +:+ rest) = (cur +:+ l) :: file_lines rest.
Proof.
  revert cur. induction l as [|c l IH]; intros cur Hl.
  - rewrite sapp_nil_r. done.
  - cbn in Hl. apply andb_true_iff in Hl as [Hc Hl].
    unfold no_eol in Hc. apply negb_true_iff, orb_false_iff in Hc as [H10 H13].
    rewrite sapp_cons. cbn [file_lines_go]. rewrite H10, H13, IH by done.
    by rewrite sapp_assoc.
Qed.

Lemma file_lines_cons l rest :
  all_chars no_eol l = true → file_lines (l +:+ nl +:+ rest) = l :: file_lines rest.
Proof. intros Hl. unfold file_lines at 1. by rewrite file_lines_go_app. Qed.
