(* ===== verification/PyPath.v ===== *)
(** * [os.path] on POSIX

    The path functions the tools call: [join], [dirname], [basename],
    [normpath], [abspath] and [expanduser], on the strings of [PyStr]. *)

From Stdlib Require Import Ascii.
From S2P Require Import Prelude PyStr.
From stdpp Require Import base list strings numbers option.

Open Scope nat_scope.

(** [os.path.join(a, b)] *)
Definition join2 (a b : string) : string :=
  if startswith b "/" then b
  else if String.eqb a "" || endswith a "/" then a +:+ b
  else a +:+ "/" +:+ b.

(** [os.path.join(a, *bs)] *)
Definition path_join (a : string) (bs : list string) : string := foldl join2 a bs.

(** The index just past the last slash: [p.rfind('/') + 1]. *)
Fixpoint after_last_slash (p : string) : nat :=
  match p with
  | EmptyString => 0
  | String c p =>
      match after_last_slash p with
      | O => if Ascii.eqb c "/" then 1 else 0
      | S n => S (S n)
      end
  end.

Definition is_slash (c : ascii) : bool := Ascii.eqb c "/".

Fixpoint all_slashes (s : string) : bool :=
  match s with EmptyString => true | String c s => is_slash c && all_slashes s end.

Definition dirname (p : string) : string :=
  let head := stake (after_last_slash p) p in
  if all_slashes head then head else rstrip_by is_slash head.

Definition basename (p : string) : string := sdrop (after_last_slash p) p.

Definition initial_slashes (p : string) : nat :=
  if startswith p "/" then
    if startswith p "//" && negb (startswith p "///") then 2 else 1
  else 0.

(** One component of [normpath]'s loop over [path.split('/')]. *)
Definition norm_step (slashes : nat) (comps : list string) (c : string) : list string :=
  if String.eqb c "" || String.eqb c "." then comps
  else if negb (String.eqb c "..")
          || ((slashes =? 0) && match comps with [] => true | _ => false end)
          || match list.last comps with Some l => String.eqb l ".." | None => false end
  then comps ++ [c]
  else take (length comps - 1) comps.

Definition normpath (p : string) : string :=
  if String.eqb p "" then "."
  else
    let n := initial_slashes p in
    let r := srepeat "/" n +:+ py_join "/" (foldl (norm_step n) [] (split_on "/" p)) in
    if String.eqb r "" then "." else r.

(** What the interpreter's process supplies to path expansion: its working
    directory, its [HOME] and the home directories of its user database ([None]
    for the user asks for the process's own entry), its [PATH] and the system's
    default one, and [sys.executable]. *)
Class ProcessEnv := {
  cwd : string;
  home_env : option string;
  user_home : option string → option string;
  path_env : option string;
  default_path : string;
  executable : string;
}.

Definition abspath `{!ProcessEnv} (p : string) : string :=
  normpath (if startswith p "/" then p else join2 cwd p).

Definition expanduser `{!ProcessEnv} (p : string) : string :=
  if negb (startswith p "~") then p
  else
    let i := match py_find p "/" 1 with Some i => i | None => slen p end in
    let userhome :=
      if i =? 1 then
        match home_env with Some h => Some h | None => user_home None end
      else user_home (Some (stake (i - 1) (sdrop 1 p))) in
    match userhome with
    | None => p
    | Some h =>
        let r := rstrip_by is_slash h +:+ sdrop i p in
        if String.eqb r "" then "/" else r
    end.

(** [os.path.relpath(path, start)] *)
Definition comps (p : string) : list string := filter (λ c, c ≠ "") (split_on "/" p).

Fixpoint common_prefix (a b : list string) : nat :=
  match a, b with
  | x :: a, y :: b => if String.eqb x y then S (common_prefix a b) else 0
  | _, _ => 0
  end.

Definition relpath `{!ProcessEnv} (path start : string) : string :=
  let s := comps (abspath start) in
  let p := comps (abspath path) in
  let i := common_prefix s p in
  match (replicate (length s - i) ".." ++ drop i p)%list with
  | [] => "."
  | c :: cs => path_join c cs
  end.

(** ** Injectivity of [join] *)

(** A relative, non-empty path component. *)
Definition relative (s : string) : Prop := startswith s "/" = false.

#[export] Instance relative_dec s : Decision (relative s).
Proof. unfold relative. apply _. Defined.

Lemma join2_relative a b :
  relative b → join2 a b = a +:+ (if String.eqb a "" || endswith a "/" then "" else "/") +:+ b.
Proof.
  unfold join2, relative. intros ->. by destruct (String.eqb a "" || endswith a "/").
Qed.

Lemma join2_inj a b c : relative b → relative c → join2 a b = join2 a c → b = c.
Proof.
  intros Hb Hc. rewrite !join2_relative by done. intros H.
  by apply sapp_inv_head, sapp_inv_head in H.
Qed.

Lemma join2_ne a b c : relative b → relative c → b ≠ c → join2 a b ≠ join2 a c.
Proof. intros Hb Hc Hne H. by apply join2_inj in H. Qed.

(** ** Splitting a path at its last component *)

Fixpoint no_slash (s : string) : bool :=
  match s with EmptyString => true | String c s => negb (is_slash c) && no_slash s end.

(** A single path component: not empty and without a slash. *)
Definition plain (s : string) : bool := negb (String.eqb s "") && no_slash s.

(** A path another component can be joined to with one slash. *)
Definition solid (s : string) : Prop := s ≠ "" ∧ endswith s "/" = false.

Lemma no_slash_app a b : no_slash (a +:+ b) = no_slash a && no_slash b.
Proof. induction a as [|c a IH]; [done|]. rewrite sapp_cons. cbn. by rewrite IH, andb_assoc. Qed.

Lemma plain_spec s : plain s = true ↔ s ≠ "" ∧ no_slash s = true.
Proof. unfold plain. rewrite andb_true_iff, negb_true_iff, String.eqb_neq. done. Qed.

Lemma plain_relative s : plain s = true → relative s.
Proof.
  unfold plain, relative, startswith. destruct s as [|c s]; [done|]. cbn.
  rewrite !andb_true_iff, !negb_true_iff. unfold is_slash. intros (_ & Hc & _).
  by rewrite andb_true_r, Ascii.eqb_sym.
Qed.

Lemma endswith_slash_app a b :
  b ≠ "" → endswith (a +:+ b) "/" = endswith b "/".
Proof.
  intros Hb. assert (slen b ≠ 0) by (by intros ?%slen_zero).
  unfold endswith. rewrite slen_app. change (slen "/") with 1.
  replace (slen a + slen b - 1) with (slen a + (slen b - 1)) by lia.
  rewrite <-sdrop_sdrop, sdrop_app. f_equal.
  destruct (Nat.leb_spec 1 (slen b)), (Nat.leb_spec 1 (slen a + slen b)); lia || done.
Qed.

Lemma plain_solid s : plain s = true → solid s.
Proof.
  rewrite plain_spec. intros [Hs Hn]. split; [done|].
  unfold endswith. destruct (slen "/" <=? slen s); [|done]. cbn [andb].
  apply String.eqb_neq. intros H.
  rewrite <-(stake_sdrop (slen s - slen "/") s), no_slash_app, H, andb_true_iff in Hn.
  by destruct Hn.
Qed.

Lemma join2_solid a b : solid a → relative b → join2 a b = a +:+ "/" +:+ b.
Proof.
  intros [Ha He] Hb. rewrite join2_relative, He by done.
  destruct (String.eqb_spec a ""); done.
Qed.

Lemma solid_join2 a b : plain b = true → solid (join2 a b).
Proof.
  intros Hb. rewrite join2_relative by (by apply plain_relative).
  pose proof (plain_solid b Hb) as [Hne He]. rewrite <-sapp_assoc. split.
  - intros Hz. apply (f_equal slen) in Hz. rewrite slen_app in Hz.
    apply Hne, slen_zero. change (slen "") with 0 in Hz. lia.
  - by rewrite endswith_slash_app.
Qed.

Lemma after_last_slash_none b : no_slash b = true → after_last_slash b = 0.
Proof.
  induction b as [|c b IH]; [done|]. cbn.
  rewrite andb_true_iff, negb_true_iff. unfold is_slash. by intros [-> ->%IH].
Qed.

Lemma after_last_slash_join a b :
  no_slash b = true → after_last_slash (a +:+ "/" +:+ b) = S (slen a).
Proof.
  intros Hb. induction a as [|c a IH].
  - change ("" +:+ "/" +:+ b) with (String "/" b). cbn. by rewrite after_last_slash_none.
  - rewrite sapp_cons. cbn. by rewrite IH.
Qed.

(** A path determines its parent and its last component. *)
Lemma join2_inj_both a b a' b' :
  solid a → solid a' → plain b = true → plain b' = true →
  join2 a b = join2 a' b' → a = a' ∧ b = b'.
Proof.
  intros Ha Ha' Hb Hb'.
  rewrite !join2_solid by (done || by apply plain_relative). intros H.
  apply plain_spec in Hb as [_ Hb], Hb' as [_ Hb'].
  pose proof (f_equal after_last_slash H) as Hl.
  rewrite !after_last_slash_join in Hl by done. injection Hl as Hl.
  apply sapp_inj in H as [-> H]; [|done].
  by apply (sapp_inv_head "/") in H as ->.
Qed.

Lemma basename_join2 a b : solid a → plain b = true → basename (join2 a b) = b.
Proof.
  intros Ha Hb. rewrite join2_solid by (done || by apply plain_relative).
  apply plain_spec in Hb as [_ Hb]. unfold basename.
  rewrite after_last_slash_join by done.
  change (a +:+ "/" +:+ b) with (a +:+ ("/" +:+ b)).
  replace (S (slen a)) with (slen a + 1) by lia.
  by rewrite <-sdrop_sdrop, sdrop_app.
Qed.

Lemma string_snoc s : s ≠ "" → ∃ t c, s = t +:+ String c "".
Proof.
  induction s as [|d s IH]; [done|]. intros _. destruct (decide (s = "")) as [->|Hs]; [by exists "", d|].
  destruct (IH Hs) as (t & c & ->). by exists (String d t), c.
Qed.

Lemma dirname_join2 a b : solid a → plain b = true → dirname (join2 a b) = a.
Proof.
  intros Ha Hb. rewrite join2_solid by (done || by apply plain_relative).
  apply plain_spec in Hb as [_ Hb]. unfold dirname. rewrite after_last_slash_join by done.
  assert (stake (S (slen a)) (a +:+ "/" +:+ b) = a +:+ "/") as ->.
  { rewrite <-sapp_assoc. replace (S (slen a)) with (slen (a +:+ "/")) by (rewrite slen_app; cbn; lia). apply stake_app. }
  destruct Ha as [Hne He]. destruct (string_snoc a Hne) as (t & c & ->).
  rewrite endswith_slash_app in He by done.
  assert (is_slash c = false) as Hc by (unfold is_slash; destruct (Ascii.eqb_spec c "/") as [->|]; [done|done]).
  assert (all_slashes ((t +:+ String c "") +:+ "/") = false) as ->.
  { clear He Hne. rewrite sapp_assoc. induction t as [|d t IH].
    - change (is_slash c && all_slashes "/" = false). by rewrite Hc.
    - rewrite sapp_cons. cbn. by rewrite IH, andb_false_r. }
  rewrite rstrip_by_app by done. by apply rstrip_by_last.
Qed.

#[export] Hint Resolve solid_join2 plain_solid plain_relative : py.

(** Joining never shortens what it joins to. *)
Lemma slen_join2_r a b : slen b ≤ slen (join2 a b).
Proof. unfold join2. repeat case_match; rewrite ?slen_app; lia. Qed.

(** A path joined to a long enough one is not a two-character option. *)
Lemma join2_not_short a b c : 3 ≤ slen a → slen c = 2 → startswith c "/" = false → join2 a b ≠ c.
Proof.
  intros Ha Hc Hs He. unfold join2 in He. destruct (startswith b "/") eqn:E; [congruence|].
  assert (slen c = slen (join2 a b)) as Hl by (unfold join2; by rewrite E, <-He).
  unfold join2 in Hl. rewrite E in Hl. repeat case_match; rewrite !slen_app in Hl; lia.
Qed.

Lemma startswith_app_slash a b : startswith a "/" = true → startswith (a +:+ b) "/" = true.
Proof. destruct a as [|c a]; [done|]. rewrite sapp_cons. unfold startswith. cbn. done. Qed.

Lemma join2_absolute a b : startswith a "/" = true → startswith (join2 a b) "/" = true.
Proof.
  intros Ha. unfold join2. destruct (startswith b "/") eqn:E; [done|].
  by destruct (String.eqb a "" || endswith a "/"); apply startswith_app_slash.
Qed.

Lemma join2_join2_not_short a x b c :
  3 ≤ slen a → slen c = 2 → startswith c "/" = false → join2 (join2 a x) b ≠ c.
Proof.
  intros Ha Hc Hs. destruct (startswith x "/") eqn:E.
  - assert (join2 a x = x) as -> by (unfold join2; by rewrite E).
    intros <-. by rewrite join2_absolute in Hs.
  - apply join2_not_short; [|done|done]. unfold join2. rewrite E.
    repeat case_match; rewrite !slen_app; lia.
Qed.
