(* ===== verification/Bytes.v ===== *)
(** * Byte strings and the [struct] module

    A byte string is a list of [Byte.byte].  [struct] is used with little-endian
    unsigned formats only, so a format is the list of its field widths: for
    example the format [<IHBB] is [[4; 2; 1; 1]]. *)

From Stdlib.Strings Require Import Byte.
From S2P Require Import Prelude.
From stdpp Require Import base list numbers option.

Open Scope N_scope.

Abbreviation bytes := (list byte).

Definition byte_of (n : N) : byte :=
  match Byte.of_N (n mod 256) with Some b => b | None => x00 end.

Fixpoint le_split (w : nat) (n : N) : bytes :=
  match w with
  | O => []
  | S w => byte_of n :: le_split w (n / 256)
  end.

Fixpoint le_combine (bs : bytes) : N :=
  match bs with
  | [] => 0
  | b :: bs => Byte.to_N b + 256 * le_combine bs
  end.

(** [struct.pack] for the little-endian format with these widths. *)
Fixpoint pack (ws : list nat) (vs : list N) : bytes :=
  match ws, vs with
  | w :: ws, v :: vs => le_split w v ++ pack ws vs
  | _, _ => []
  end.

Fixpoint unpack (ws : list nat) (bs : bytes) : list N :=
  match ws with
  | [] => []
  | w :: ws => le_combine (take w bs) :: unpack ws (drop w bs)
  end.

Definition calcsize (ws : list nat) : nat := sum_list ws.

(** [struct.unpack_from(fmt, blob, off)] *)
Definition unpack_from (ws : list nat) (blob : bytes) (off : nat) : res (list N) :=
  if decide (off + calcsize ws ≤ length blob)%nat
  then Ok (unpack ws (drop off blob))
  else Raise StructError.

(** ** Facts *)

Lemma to_N_byte_of n : Byte.to_N (byte_of n) = n mod 256.
Proof.
  unfold byte_of. destruct (Byte.of_N (n mod 256)) as [b|] eqn:E.
  - by apply Byte.to_of_N in E.
  - apply Byte.of_N_None_iff in E. pose proof (N.mod_upper_bound n 256). lia.
Qed.

Lemma length_le_split w n : length (le_split w n) = w.
Proof. revert n. induction w; intros n; cbn; auto. Qed.

Lemma le_combine_split w n : le_combine (le_split w n) = n mod 2 ^ (8 * N.of_nat w).
Proof.
  revert n. induction w as [|w IH]; intros n.
  - cbn. by rewrite N.mod_1_r.
  - cbn [le_split le_combine]. rewrite IH, to_N_byte_of.
    replace (8 * N.of_nat (S w)) with (8 + 8 * N.of_nat w) by lia.
    rewrite N.pow_add_r. change (2 ^ 8) with 256.
    rewrite N.Div0.mod_mul_r. lia.
Qed.

Lemma le_combine_split_small w n : n < 2 ^ (8 * N.of_nat w) → le_combine (le_split w n) = n.
Proof. intros. rewrite le_combine_split. by apply N.mod_small. Qed.

Lemma length_pack ws vs : length ws = length vs → length (pack ws vs) = calcsize ws.
Proof.
  revert vs. induction ws as [|w ws IH]; intros [|v vs]; cbn; try done.
  intros [= H]. by rewrite length_app, length_le_split, IH.
Qed.

(** Each value fits the width of its field. *)
Definition fits (w : nat) (v : N) : Prop := v < 2 ^ (8 * N.of_nat w).

Lemma unpack_pack ws vs rest :
  Forall2 fits ws vs → unpack ws (pack ws vs ++ rest) = vs.
Proof.
  induction 1 as [|w v ws vs Hv _ IH]; cbn; [done|].
  rewrite <-app_assoc.
  rewrite take_app_length', drop_app_length' by (by rewrite length_le_split).
  by rewrite le_combine_split_small, IH.
Qed.

(** Reading back what [pack] wrote, anywhere in a buffer. *)
Lemma unpack_from_pack ws vs pre post off :
  Forall2 fits ws vs → off = length pre →
  unpack_from ws (pre ++ pack ws vs ++ post) off = Ok vs.
Proof.
  intros Hvs ->. unfold unpack_from. rewrite decide_True.
  - by rewrite drop_app_length, unpack_pack.
  - rewrite !length_app, length_pack by (by eapply Forall2_length). lia.
Qed.

Lemma unpack_from_short ws blob off :
  (length blob < off + calcsize ws)%nat → unpack_from ws blob off = Raise StructError.
Proof. intros. unfold unpack_from. rewrite decide_False; [done | lia]. Qed.

Lemma unpack_from_long ws blob off :
  (off + calcsize ws ≤ length blob)%nat →
  unpack_from ws blob off = Ok (unpack ws (drop off blob)).
Proof. intros. unfold unpack_from. by rewrite decide_True. Qed.

Lemma length_unpack ws bs : length (unpack ws bs) = length ws.
Proof. revert bs. induction ws; intros bs; cbn; auto. Qed.

Lemma le_combine_fits bs : le_combine bs < 2 ^ (8 * N.of_nat (length bs)).
Proof.
  induction bs as [|b bs IH]; cbn [le_combine length]; [done|].
  replace (8 * N.of_nat (S (length bs))) with (8 + 8 * N.of_nat (length bs)) by lia.
  rewrite N.pow_add_r. change (2 ^ 8) with 256.
  pose proof (Byte.to_N_bounded b). lia.
Qed.

Lemma unpack_fits ws bs :
  (calcsize ws ≤ length bs)%nat → Forall2 fits ws (unpack ws bs).
Proof.
  revert bs. induction ws as [|w ws IH]; intros bs; cbn; [constructor|].
  intros H. constructor.
  - unfold fits. pose proof (le_combine_fits (take w bs)) as Hf.
    rewrite length_take, Nat.min_l in Hf by lia. done.
  - apply IH. rewrite length_drop. unfold calcsize. lia.
Qed.

Lemma le_split_app a b n :
  le_split (a + b) n = le_split a n ++ le_split b (n / 256 ^ N.of_nat a).
Proof.
  revert n. induction a as [|a IH]; intros n.
  - change (256 ^ N.of_nat 0) with 1. by rewrite N.div_1_r.
  - cbn [Nat.add le_split app]. rewrite IH. do 3 f_equal.
    by rewrite Nat2N.inj_succ, N.pow_succ_r', N.Div0.div_div.
Qed.

(** A 64-bit little-endian field is its low half and a zero high half when the
    value fits the low half. *)
Lemma le_split_low n : n < 2 ^ 32 → le_split 8 n = le_split 4 n ++ le_split 4 0.
Proof.
  intros Hn. rewrite (le_split_app 4 4). f_equal. f_equal.
  by apply N.div_small.
Qed.
