(* ===== verification/SosimgDump.v ===== *)
(** * tools/sosimg_dump.py

    The dumper of the two binary artifacts: the sosimg image (version 3) and
    the boot region table (version 2).  A dump is the lines it prints and how
    it ends; a buffer shorter than a record it reads ends it in [StructError]. *)

From S2P Require Import Prelude PyStr Bytes.
From stdpp Require Import base list strings numbers option.

Open Scope N_scope.

Module SosimgDump.

Definition SEG_FLAGS : list (N * string) := [(1, "R"); (2, "W"); (4, "X"); (8, "DEVICE")].
Definition ARCHES (n : N) : option string :=
  match n with 1 => Some "riscv32" | 2 => Some "arm64" | _ => None end.
Definition REGION_KINDS (n : N) : option string :=
  match n with 0 => Some "ram" | 1 => Some "device" | _ => None end.
Definition SOSIMG_MAGIC : N := 0x49534F53.
Definition REGION_MAGIC : N := 0x4E475253.

Definition flags_str (f : N) : string :=
  let names := py_join "" (concat ((λ '(bit, name),
    if (N.land f bit =? 0) then [] else [name]) <$> SEG_FLAGS)) in
  if String.eqb names "" then "-" else names.

Definition magic_ok (want magic : N) : string :=
  if magic =? want then "ok" else "BAD (want 0x" +:+ py_hex_pad 8 want +:+ ")".

(** *** The sosimg image *)

(** [<IHBBIIQ] and [<QIIIB] *)
Definition sosimg_header_fmt : list nat := [4; 2; 1; 1; 4; 4; 8]%nat.
Definition segment_fmt : list nat := [8; 4; 4; 4; 1]%nat.

Definition segment_line (i : nat) (load foff flen mlen fl : N) : string :=
  let bss := if flen <? mlen then " (+" +:+ py_str (mlen - flen) +:+ " bss)" else "" in
  "  seg " +:+ py_str (N.of_nat i) +:+ ": load 0x" +:+ py_hex_pad 16 load +:+
  "  file_off " +:+ py_ljust 8 (py_str foff) +:+
  " file_len " +:+ py_ljust 8 (py_str flen) +:+
  " mem_len " +:+ py_ljust 8 (py_str mlen) +:+ bss +:+
  "  [" +:+ flags_str fl +:+ "]".

Definition dump_segment (blob : bytes) (i off : nat) : out unit :=
  vs ← lift_res (unpack_from segment_fmt blob off);
  match vs with
  | [load; foff; flen; mlen; fl] => print_ (segment_line i load foff flen mlen fl)
  | _ => lift_res (Raise ValueError)
  end.

(** The loop [for i in range(seg_count)], [off] advancing by 24. *)
Fixpoint dump_segments (blob : bytes) (n i off : nat) : out unit :=
  match n with
  | O => mret tt
  | S n => dump_segment blob i off ≫= λ _, dump_segments blob n (S i) (off + 24)
  end.

Definition dump_sosimg (blob : bytes) : out unit :=
  vs ← lift_res (unpack_from sosimg_header_fmt blob 0);
  match vs with
  | [magic; version; seg_count; arch; prio_map; _; entry] =>
      print_ ("magic     0x" +:+ py_hex_pad 8 magic +:+
              " (" +:+ magic_ok SOSIMG_MAGIC magic +:+ ")") ≫= λ _,
      print_ ("version   " +:+ py_str version) ≫= λ _,
      print_ ("arch      " +:+ py_str arch +:+ " (" +:+ default "?" (ARCHES arch) +:+ ")") ≫= λ _,
      print_ ("segments  " +:+ py_str seg_count) ≫= λ _,
      print_ ("prio_map  0x" +:+ py_hex_pad 8 prio_map) ≫= λ _,
      print_ ("entry     0x" +:+ py_hex_pad 16 entry) ≫= λ _,
      dump_segments blob (N.to_nat seg_count) 0 24 ≫= λ _,
      print_ ("file size " +:+ py_str (N.of_nat (length blob)) +:+ " bytes")
  | _ => lift_res (Raise ValueError)
  end.

(** *** The region table *)

(** [<IHBB] and [<QQB] *)
Definition region_header_fmt : list nat := [4; 2; 1; 1]%nat.
Definition region_row_fmt : list nat := [8; 8; 1]%nat.

Definition region_line (i : nat) (base length kind : N) : string :=
  "  row " +:+ py_str (N.of_nat i) +:+ ": base 0x" +:+ py_hex_pad 16 base +:+
  "  len 0x" +:+ py_hex length +:+ " (" +:+ py_str length +:+ ")  " +:+
  "kind " +:+ py_str kind +:+ " (" +:+ default "?" (REGION_KINDS kind) +:+ ")".

Definition dump_region (blob : bytes) (i off : nat) : out unit :=
  vs ← lift_res (unpack_from region_row_fmt blob off);
  match vs with
  | [base; len; kind] => print_ (region_line i base len kind)
  | _ => lift_res (Raise ValueError)
  end.

Fixpoint dump_region_rows (blob : bytes) (n i off : nat) : out unit :=
  match n with
  | O => mret tt
  | S n => dump_region blob i off ≫= λ _, dump_region_rows blob n (S i) (off + 24)
  end.

Definition dump_regions (blob : bytes) : out unit :=
  match blob with
  | [] => print_ "empty table (zero regions)"
  | _ =>
      vs ← lift_res (unpack_from region_header_fmt blob 0);
      match vs with
      | [magic; version; count; _] =>
          print_ ("magic     0x" +:+ py_hex_pad 8 magic +:+
                  " (" +:+ magic_ok REGION_MAGIC magic +:+ ")") ≫= λ _,
          print_ ("version   " +:+ py_str version) ≫= λ _,
          print_ ("regions   " +:+ py_str count) ≫= λ _,
          dump_region_rows blob (N.to_nat count) 0 8
      | _ => lift_res (Raise ValueError)
      end
  end.

(** *** The command line

    [read] is [open(path, 'rb').read()], which raises [OSError] on a path it
    cannot open; [doc] is the module's documentation string. *)
Definition main (read : string → res bytes) (doc : string) (args : list string) : out Z :=
  match args with
  | [] => print_ (py_strip doc) ≫= λ _, mret 0%Z
  | a :: rest =>
      if String.eqb a "-h" || String.eqb a "--help"
      then print_ (py_strip doc) ≫= λ _, mret 0%Z
      else if String.eqb a "--regions" then
        match rest with
        | [] => lift_res (Raise IndexError)
        | path :: _ => blob ← lift_res (read path); dump_regions blob ≫= λ _, mret 0%Z
        end
      else blob ← lift_res (read a); dump_sosimg blob ≫= λ _, mret 0%Z
  end.

(** *** The layouts as the writers produce them

    What an image writer emits, stated independently of the reader: a 24-byte
    header, then one 24-byte record per segment (21 bytes and 3 of padding),
    then the segments' bytes. *)
Record segment := Segment {
  seg_load : N; seg_foff : N; seg_flen : N; seg_mlen : N; seg_flags : N }.

Record image := Image {
  img_magic : N; img_version : N; img_arch : N; img_prio : N; img_res : N;
  img_entry : N; img_segments : list segment }.

Definition segment_fields (s : segment) : list N :=
  [seg_load s; seg_foff s; seg_flen s; seg_mlen s; seg_flags s].

Definition header_fields (m : image) : list N :=
  [img_magic m; img_version m; N.of_nat (length (img_segments m)); img_arch m;
   img_prio m; img_res m; img_entry m].

Definition segment_bytes (s : segment) : bytes :=
  pack segment_fmt (segment_fields s) ++ le_split 3 0.

Definition image_bytes (m : image) (payload : bytes) : bytes :=
  pack sosimg_header_fmt (header_fields m) ++
  concat (segment_bytes <$> img_segments m) ++ payload.

Definition image_fits (m : image) : Prop :=
  Forall2 fits sosimg_header_fmt (header_fields m) ∧
  Forall (λ s, Forall2 fits segment_fmt (segment_fields s)) (img_segments m).

Definition seg_line (i : nat) (s : segment) : string :=
  segment_line i (seg_load s) (seg_foff s) (seg_flen s) (seg_mlen s) (seg_flags s).

Definition image_lines (m : image) (size : nat) : list string :=
  [ "magic     0x" +:+ py_hex_pad 8 (img_magic m) +:+
      " (" +:+ magic_ok SOSIMG_MAGIC (img_magic m) +:+ ")";
    "version   " +:+ py_str (img_version m);
    "arch      " +:+ py_str (img_arch m) +:+ " (" +:+ default "?" (ARCHES (img_arch m)) +:+ ")";
    "segments  " +:+ py_str (N.of_nat (length (img_segments m)));
    "prio_map  0x" +:+ py_hex_pad 8 (img_prio m);
    "entry     0x" +:+ py_hex_pad 16 (img_entry m) ] ++
  imap seg_line (img_segments m) ++
  [ "file size " +:+ py_str (N.of_nat size) +:+ " bytes" ].

(** The bytes a dump of [n] segments needs: the last record is read to its
    21st byte only. *)
Definition sosimg_min_size (n : nat) : nat :=
  match n with O => 24 | S k => 24 + 24 * k + 21 end.

Definition regions_min_size (n : nat) : nat :=
  match n with O => 8 | S k => 8 + 24 * k + 17 end.

(** ** Lemmas *)

Lemma length_segment_bytes s : length (segment_bytes s) = 24%nat.
Proof. unfold segment_bytes. by rewrite length_app, length_pack, length_le_split. Qed.

Lemma dump_segment_read pre s post i off :
  Forall2 fits segment_fmt (segment_fields s) → off = length pre →
  dump_segment (pre ++ segment_bytes s ++ post) i off = ([seg_line i s], Ok tt).
Proof.
  intros Hs Hoff. unfold dump_segment, segment_bytes. rewrite <-app_assoc.
  by rewrite unpack_from_pack.
Qed.

Lemma dump_segments_read pre ss post i off :
  Forall (λ s, Forall2 fits segment_fmt (segment_fields s)) ss → off = length pre →
  dump_segments (pre ++ concat (segment_bytes <$> ss) ++ post) (length ss) i off =
  (imap (λ k, seg_line (i + k)) ss, Ok tt).
Proof.
  intros Hss. revert pre i off. induction Hss as [|s ss Hs _ IH]; intros pre i off ->; [done|].
  cbn [dump_segments length fmap list_fmap concat].
  rewrite <-app_assoc. erewrite out_bind_Ok by (by apply dump_segment_read).
  rewrite (app_assoc pre), (IH (pre ++ segment_bytes s) (S i)).
  - cbn [fst snd imap]. rewrite Nat.add_0_r. cbn [app]. do 2 f_equal.
    apply imap_ext. intros k x _. cbn. f_equal. lia.
  - by rewrite length_app, length_segment_bytes.
Qed.

(** A run of records, each [w] bytes long and 24 apart, succeeds exactly when
    the last one fits. *)
Lemma dump_segments_ok blob n i off :
  (dump_segments blob (S n) i off).2 = Ok tt ↔ (off + 24 * n + 21 ≤ length blob)%nat.
Proof.
  revert i off. induction n as [|n IH]; intros i off.
  - cbn. unfold dump_segment, unpack_from. change (calcsize segment_fmt) with 21%nat.
    case_decide; cbn; split; done || lia.
  - change (dump_segments blob (S (S n)) i off) with
      (dump_segment blob i off ≫= λ _, dump_segments blob (S n) (S i) (off + 24)).
    unfold dump_segment at 1, unpack_from. change (calcsize segment_fmt) with 21%nat.
    case_decide.
    + cbn [unpack segment_fmt]. unfold mbind at 1 2, out_bind, lift_res, print_; cbn [fst snd].
      rewrite IH. lia.
    + cbn. split; [done | lia].
Qed.

Lemma dump_region_rows_ok blob n i off :
  (dump_region_rows blob (S n) i off).2 = Ok tt ↔ (off + 24 * n + 17 ≤ length blob)%nat.
Proof.
  revert i off. induction n as [|n IH]; intros i off.
  - cbn. unfold dump_region, unpack_from. change (calcsize region_row_fmt) with 17%nat.
    case_decide; cbn; split; done || lia.
  - change (dump_region_rows blob (S (S n)) i off) with
      (dump_region blob i off ≫= λ _, dump_region_rows blob (S n) (S i) (off + 24)).
    unfold dump_region at 1, unpack_from. change (calcsize region_row_fmt) with 17%nat.
    case_decide.
    + cbn [unpack region_row_fmt]. unfold mbind at 1 2, out_bind, lift_res, print_; cbn [fst snd].
      rewrite IH. lia.
    + cbn. split; [done | lia].
Qed.

Lemma dump_segments_res blob n i off :
  (dump_segments blob n i off).2 = Ok tt ∨ (dump_segments blob n i off).2 = Raise StructError.
Proof.
  revert i off. induction n as [|n IH]; intros i off; [by left|].
  cbn [dump_segments]. unfold dump_segment, unpack_from. case_decide.
  - cbn [unpack segment_fmt]. unfold mbind, out_bind, lift_res, print_; cbn [fst snd]. apply IH.
  - by right.
Qed.

(** The segment count a buffer declares, in its seventh byte. *)
Definition declared_segments (blob : bytes) : nat :=
  N.to_nat (le_combine (take 1 (drop 6 blob))).

Lemma dump_sosimg_res blob :
  (24 ≤ length blob)%nat →
  (dump_sosimg blob).2 = (dump_segments blob (declared_segments blob) 0 24).2.
Proof.
  intros H. unfold dump_sosimg. rewrite unpack_from_long by (cbn; lia).
  rewrite out_bind_lift_Ok. cbn [unpack sosimg_header_fmt].
  rewrite !out_bind_print. cbn [fst snd].
  unfold declared_segments. rewrite !drop_drop. cbn [Nat.add].
  destruct (dump_segments blob _ 0 24) as [o [[]|e]]; done.
Qed.

Lemma flags_str_mod f : flags_str f = flags_str (f mod 16).
Proof.
  unfold flags_str. do 4 f_equal. unfold SEG_FLAGS.
  assert (∀ b, N.land b 15 = b → N.land (f mod 16) b = N.land f b) as H.
  { intros b Hb. change 16 with (2 ^ 4). rewrite <-N.land_ones, <-N.land_assoc.
    change (N.ones 4) with 15. by rewrite (N.land_comm 15), Hb. }
  cbn. by rewrite !H.
Qed.

Lemma flags_str_mod_inj f g :
  f < 16 → g < 16 → flags_str f = flags_str g → f = g.
Proof.
  intros Hf Hg.
  assert (Forall (λ a, Forall (λ b, flags_str a = flags_str b → a = b)
            (N.of_nat <$> seq 0 16)) (N.of_nat <$> seq 0 16)) as H.
  { apply (bool_decide_unpack _). vm_compute. reflexivity. }
  assert (∀ n, n < 16 → n ∈ N.of_nat <$> seq 0 16) as Hin.
  { intros n Hn. apply list_elem_of_fmap. exists (N.to_nat n).
    split; [lia|]. apply elem_of_seq. lia. }
  rewrite list.Forall_forall in H. specialize (H f (Hin f Hf)).
  rewrite list.Forall_forall in H. exact (H g (Hin g Hg)).
Qed.

(** ** Properties *)

(** C29. Whatever an image writer lays out as a sosimg header, its segment
    records and any payload, the dumper prints back field for field: one line
    per header field, one per segment in order, and the file's size. *)
Theorem dump_sosimg_roundtrip (m : image) (payload : bytes) :
  image_fits m →
  dump_sosimg (image_bytes m payload) =
  (image_lines m (length (image_bytes m payload)), Ok tt).
Proof.
  intros [Hh Hs]. unfold dump_sosimg.
  assert (unpack_from sosimg_header_fmt (image_bytes m payload) 0 = Ok (header_fields m))
    as -> by (by apply (unpack_from_pack _ _ [])).
  rewrite out_bind_lift_Ok. cbn [header_fields]. rewrite !out_bind_print. cbn [fst snd].
  rewrite Nat2N.id. erewrite out_bind_Ok by
    (unfold image_bytes; apply dump_segments_read; [done | by rewrite length_pack]).
  done.
Qed.

Lemma dump_sosimg_roundtrip_witness :
  dump_sosimg (image_bytes (Image SOSIMG_MAGIC 3 1 0x01010100 0 0x80200000
                 [Segment 0x80200000 48 4 16 5]) (le_split 4 7)) =
  ([ "magic     0x49534f53 (ok)"; "version   3"; "arch      1 (riscv32)"; "segments  1";
     "prio_map  0x01010100"; "entry     0x0000000080200000";
     "  seg 0: load 0x0000000080200000  file_off 48       file_len 4        mem_len 16       (+12 bss)  [RX]";
     "file size 52 bytes" ], Ok tt).
Proof.
  rewrite dump_sosimg_roundtrip; [reflexivity|].
  split; repeat constructor.
Defined.

(** A dump of a sosimg ends without an exception exactly when the buffer
    holds the header and, for a non-zero segment count, every record up to the
    21 bytes the last one is read to; otherwise it ends in [struct.error]. *)
Theorem dump_sosimg_outcome (blob : bytes) :
  (dump_sosimg blob).2 =
  if decide (24 ≤ length blob ∧ sosimg_min_size (declared_segments blob) ≤ length blob)%nat
  then Ok tt else Raise StructError.
Proof.
  destruct (decide (24 ≤ length blob)%nat) as [Hl|Hl].
  - rewrite dump_sosimg_res by done.
    destruct (declared_segments blob) as [|n].
    + rewrite decide_True; [done | cbn; lia].
    + pose proof (dump_segments_ok blob n 0 24) as Hok.
      destruct (dump_segments_res blob (S n) 0 24) as [E|E]; rewrite E in *.
      * rewrite decide_True; [done|]. split; [done|]. apply Hok. done.
      * rewrite decide_False; [done|]. intros [_ H]. cbn [sosimg_min_size] in H.
        by apply Hok in H.
  - rewrite decide_False by tauto. unfold dump_sosimg.
    by rewrite unpack_from_short by (cbn; lia).
Qed.

(** The printed permission letters determine the four flag bits and
    nothing else: two flag bytes print alike exactly when they agree modulo 16. *)
Theorem flags_str_exact (f g : N) :
  flags_str f = flags_str g ↔ f mod 16 = g mod 16.
Proof.
  rewrite (flags_str_mod f), (flags_str_mod g). split; [|by intros ->].
  apply flags_str_mod_inj; by apply N.mod_upper_bound.
Qed.

End SosimgDump.
