(* ===== verification/Arches.v ===== *)
(** * The architectures and the protection tiers of tools/sos_runner.py

    The module-level paths, the [ARCHES] table, [arch_dirs] and the
    per-architecture substitutions [expectations] of a case's expected output. *)

From Stdlib Require Import Ascii.
From S2P Require Import Prelude PyStr PyPath.
From stdpp Require Import base list strings numbers option.

Open Scope nat_scope.

(** [os.path.abspath(__file__)]: where the checkout is. *)
Class Repo := this_file : string.

(** A checkout to evaluate examples in. *)
Definition sample_repo : Repo := "/sawos/tools/sos_runner.py".

Section paths.
  Context `{R : Repo}.

Definition REPO_ROOT : string := dirname (dirname this_file).
Definition KERNEL_DIR : string := join2 REPO_ROOT "kernel".
Definition CORE_DIR : string := join2 KERNEL_DIR "core".
Definition TESTS_DIR : string := join2 REPO_ROOT "tests".
Definition HAL_DIR : string := join2 REPO_ROOT "hal".
Definition CORE_MODULE : string := "kcore=" +:+ CORE_DIR.
Definition SOSRT_DIR : string := path_join REPO_ROOT ["rt"; "common"; "src"].
Definition SOSRT_MODULE : string := "sosrt=" +:+ SOSRT_DIR.
Definition SOSABI_DIR : string := path_join KERNEL_DIR ["abi"; "src"].
Definition SOSABI_MODULE : string := "sosabi=" +:+ SOSABI_DIR.
Definition RT_COMMON_C_DIR : string := path_join REPO_ROOT ["rt"; "common_c"].
Definition RV32_COMMON_DIR : string := join2 HAL_DIR "riscv32-common".
Definition RV32_CORE_MODULE : string := "rv32core=" +:+ join2 RV32_COMMON_DIR "kernel".
Definition RV32_VIRT_MODULE : string := "rv32virt=" +:+ path_join HAL_DIR ["riscv32"; "kernel"].
End paths.

Definition EXIT_PROCESS_FAULT : Z := 5.
Definition EXIT_ARENA_EXHAUSTED : Z := 65.
Definition ECHO_INPUT : string := "Zq7#".
Definition QEMU_TIMEOUT_S : N := 10.

Definition TIER_ISOLATED : string := "isolated".
Definition TIER_FLAT : string := "flat".

(** One entry of [ARCHES]; a field of option type is a key some entries omit. *)
Record Arch := mk_arch {
  a_name : string;
  a_triple : string;
  a_qemu : string;
  a_tier : string;
  a_qemu_args : list string;
  a_cc_args : list string;
  a_features : option string;
  a_hal_native : string;
  a_hal_modules : list string;
  a_hal_asm : list string;
  a_hal_board : option string;
  a_tests_arch : option string;
  a_build_tag : option string;
  a_banner_arch : option string;
  a_hex_width : nat;
  a_root_entry : N;
  a_child_region_base : N;
  a_selftest_line : N;
  a_pool_base : N;
  a_pool_len : N;
  a_device_base : N;
  a_device_len : N;
}.

Section arches.
  Context `{R : Repo}.

Definition arch_riscv32 : Arch := {|
  a_name := "riscv32";
  a_triple := "riscv32-unknown-none-elf";
  a_qemu := "qemu-system-riscv32";
  a_tier := TIER_ISOLATED;
  a_qemu_args := ["-M"; "virt"; "-bios"; "none"];
  a_cc_args := ["-march=rv32imac_zicsr"; "-mabi=ilp32"];
  a_features := Some "+m,+a,+c";
  a_hal_native := join2 "riscv32-common" "kernel";
  a_hal_modules := [RV32_CORE_MODULE];
  a_hal_asm := [path_join "riscv32-common" ["kernel"; "trap.S"]];
  a_hal_board := None;
  a_tests_arch := None;
  a_build_tag := None;
  a_banner_arch := None;
  a_hex_width := 8;
  a_root_entry := 0x80200000;
  a_child_region_base := 0x80240000;
  a_selftest_line := 10;
  a_pool_base := 0x80280000;
  a_pool_len := 0x40000;
  a_device_base := 0x10000000;
  a_device_len := 0x1000;
|}%N.

Definition arch_arm64 : Arch := {|
  a_name := "arm64";
  a_triple := "aarch64-unknown-none-elf";
  a_qemu := "qemu-system-aarch64";
  a_tier := TIER_ISOLATED;
  a_qemu_args := ["-M"; "virt,gic-version=2"; "-cpu"; "cortex-a53"; "-semihosting"];
  a_cc_args := [];
  a_features := None;
  a_hal_native := join2 "arm64" "kernel";
  a_hal_modules := [];
  a_hal_asm := [];
  a_hal_board := None;
  a_tests_arch := None;
  a_build_tag := None;
  a_banner_arch := None;
  a_hex_width := 16;
  a_root_entry := 0x40200000;
  a_child_region_base := 0x40240000;
  a_selftest_line := 5;
  a_pool_base := 0x40280000;
  a_pool_len := 0x40000;
  a_device_base := 0x09000000;
  a_device_len := 0x1000;
|}%N.

Definition arch_riscv32_flat : Arch := {|
  a_name := "riscv32-flat";
  a_triple := "riscv32-unknown-none-elf";
  a_qemu := "qemu-system-riscv32";
  a_tier := TIER_FLAT;
  a_qemu_args := ["-M"; "virt"; "-bios"; "none"];
  a_cc_args := ["-march=rv32imac_zicsr"; "-mabi=ilp32"];
  a_features := Some "+m,+a,+c";
  a_hal_native := join2 "riscv32-common" "kernel";
  a_hal_modules := [RV32_CORE_MODULE; RV32_VIRT_MODULE];
  a_hal_asm := [path_join "riscv32-common" ["kernel"; "trap.S"]];
  a_hal_board := Some (join2 "riscv32" "kernel");
  a_tests_arch := Some "riscv32";
  a_build_tag := Some "riscv32-unknown-none-elf-flat";
  a_banner_arch := Some "riscv32";
  a_hex_width := 8;
  a_root_entry := 0x80200000;
  a_child_region_base := 0x80240000;
  a_selftest_line := 10;
  a_pool_base := 0x80280000;
  a_pool_len := 0x40000;
  a_device_base := 0x10000000;
  a_device_len := 0x1000;
|}%N.

Definition ARCHES : list Arch := [arch_riscv32; arch_arm64; arch_riscv32_flat].
End arches.

Definition CHILD_REGION_LEN : N := 0x40000.
Definition REGION_TABLE_MAGIC : N := 0x4E475253.
Definition REGION_TABLE_VERSION : N := 2.
Definition REGION_KIND_RAM : N := 0.
Definition REGION_KIND_DEVICE : N := 1.

(** The result of [arch_dirs]. *)
Record ArchDirs := mk_arch_dirs {
  d_hal_kernel : string;
  d_hal_board : string;
  d_hal_native : string;
  d_tests : string;
  d_build : string;
}.

Section dirs.
  Context `{R : Repo}.

Definition arch_dirs (arch : Arch) : ArchDirs := {|
  d_hal_kernel := path_join HAL_DIR [a_name arch; "kernel"];
  d_hal_board := join2 HAL_DIR (default (join2 (a_name arch) "kernel") (a_hal_board arch));
  d_hal_native := join2 HAL_DIR (a_hal_native arch);
  d_tests := join2 TESTS_DIR (default (a_name arch) (a_tests_arch arch));
  d_build := path_join REPO_ROOT [".build"; default (a_triple arch) (a_build_tag arch); "sos"];
|}.
End dirs.

(** [f"0x{n:0{width}x}"] *)
Definition hex_word (width : nat) (n : N) : string := "0x" +:+ py_hex_pad width n.

Definition expectations (arch : Arch) : list (string * string) :=
  let w := hex_word (a_hex_width arch) in
  [ ("banner", "SOS M1: kernel up on " +:+ default (a_name arch) (a_banner_arch arch));
    ("tier", if String.eqb (a_tier arch) TIER_ISOLATED then "Isolated" else "Flat");
    ("entry", w (a_root_entry arch));
    ("zero", w 0%N);
    ("one", w 1%N);
    ("two", w 2%N);
    ("three", w 3%N);
    ("four", w 4%N);
    ("five", w 5%N);
    ("six", w 6%N);
    ("seven", w 7%N);
    ("eight", w 8%N);
    ("nine", w 9%N);
    ("ten", w 10%N);
    ("prio", w 0x01010100%N);
    ("irq_line", w (a_selftest_line arch));
    ("touch_mark", w 0x3C%N);
    ("pingpong_mark", w 0x21%N);
    ("caller_mark", w 0x33%N);
    ("orphan_mark", w 0x3D%N);
    ("resolve_orphan_mark", w 0x47%N);
    ("share_mark", w 0xA5%N) ].

(** ** Lemmas *)

Lemma build_dir_inj `{R : Repo} a b :
  plain (default (a_triple a) (a_build_tag a)) = true →
  plain (default (a_triple b) (a_build_tag b)) = true →
  d_build (arch_dirs a) = d_build (arch_dirs b) →
  default (a_triple a) (a_build_tag a) = default (a_triple b) (a_build_tag b).
Proof.
  cbn. intros Ha Hb H.
  apply join2_inj_both in H as [H1 _]; [|by apply solid_join2..|done|done].
  apply join2_inj in H1; auto with py.
Qed.

(** Every architecture builds into a directory of its own, wherever the
    checkout is: two profiles on one target triple never share one. *)
Lemma build_dirs_NoDup `{R : Repo} : NoDup (d_build ∘ arch_dirs <$> ARCHES).
Proof.
  apply (NoDup_fmap_via _ (λ a, default (a_triple a) (a_build_tag a))).
  - assert (∀ a, a ∈ ARCHES → plain (default (a_triple a) (a_build_tag a)) = true) as Hp.
    { intros a. unfold ARCHES. rewrite !elem_of_cons, elem_of_nil.
      by intros [-> | [-> | [-> | []]]]. }
    intros a b Ha Hb. apply build_dir_inj; by apply Hp.
  - apply (bool_decide_unpack _). vm_compute. reflexivity.
Qed.

(** Reasoning over the table: one obligation per architecture. *)
Lemma ARCHES_ind `{R : Repo} (P : Arch → Prop) :
  P arch_riscv32 → P arch_arm64 → P arch_riscv32_flat → ∀ a, a ∈ ARCHES → P a.
Proof.
  intros ??? a. unfold ARCHES. rewrite !elem_of_cons, elem_of_nil.
  by intros [-> | [-> | [-> | []]]].
Qed.
