(* ===== verification/Case.v ===== *)
(** * A test case of tools/sos_runner.py

    A case is a Python dictionary with four mandatory keys and thirteen
    optional ones; an absent key is [None].  [dict] reads like the literal in
    the source: the mandatory keys, then the optional entries in order. *)

From S2P Require Import Prelude PyStr.
From stdpp Require Import base list strings numbers option.

(** [expect_out]: [None], one substring, or a list of them. *)
Inductive ExpectOut :=
  | ENone
  | EStr (s : string)
  | EList (l : list string).

Record Case := mk_case {
  c_name : string;
  c_src : string;
  c_expect_out : ExpectOut;
  c_expect_clean_exit : bool;
  c_csrc : option string;
  c_asm : option string;
  c_root_pkg : option string;
  c_children : option (list string);
  c_pool : option bool;
  c_device : option bool;
  c_stdin : option string;
  c_arches : option (list string);
  c_tier : option string;
  c_tier_reason : option string;
  c_expect_status : option Z;
  c_strip_kernel_lines : option bool;
  c_overlapping_matches : option bool;
}.

Inductive entry :=
  | k_csrc (s : string)
  | k_asm (s : string)
  | k_root_pkg (s : string)
  | k_children (l : list string)
  | k_pool (b : bool)
  | k_device (b : bool)
  | k_stdin (s : string)
  | k_arches (l : list string)
  | k_tier (s : string)
  | k_tier_reason (s : string)
  | k_expect_status (z : Z)
  | k_strip_kernel_lines (b : bool)
  | k_overlapping_matches (b : bool).

Definition set_entry (c : Case) (e : entry) : Case :=
  let '(mk_case n s o x cs a r ch p d i ar t tr st sk ov) := c in
  match e with
  | k_csrc v => mk_case n s o x (Some v) a r ch p d i ar t tr st sk ov
  | k_asm v => mk_case n s o x cs (Some v) r ch p d i ar t tr st sk ov
  | k_root_pkg v => mk_case n s o x cs a (Some v) ch p d i ar t tr st sk ov
  | k_children v => mk_case n s o x cs a r (Some v) p d i ar t tr st sk ov
  | k_pool v => mk_case n s o x cs a r ch (Some v) d i ar t tr st sk ov
  | k_device v => mk_case n s o x cs a r ch p (Some v) i ar t tr st sk ov
  | k_stdin v => mk_case n s o x cs a r ch p d (Some v) ar t tr st sk ov
  | k_arches v => mk_case n s o x cs a r ch p d i (Some v) t tr st sk ov
  | k_tier v => mk_case n s o x cs a r ch p d i ar (Some v) tr st sk ov
  | k_tier_reason v => mk_case n s o x cs a r ch p d i ar t (Some v) st sk ov
  | k_expect_status v => mk_case n s o x cs a r ch p d i ar t tr (Some v) sk ov
  | k_strip_kernel_lines v => mk_case n s o x cs a r ch p d i ar t tr st (Some v) ov
  | k_overlapping_matches v => mk_case n s o x cs a r ch p d i ar t tr st sk (Some v)
  end.

Definition dict (name src : string) (expect_out : ExpectOut) (clean : bool)
    (entries : list entry) : Case :=
  foldl set_entry
    (mk_case name src expect_out clean None None None None None None None None
       None None None None None) entries.

(** [case.get("children", ())] *)
Definition children_of (c : Case) : list string := default [] (c_children c).

(** The expectations as the list the matching loop walks. *)
Definition expected_list (o : ExpectOut) : list string :=
  match o with ENone => [] | EStr s => [s] | EList l => l end.
