(* ===== verification/Check.v ===== *)
(** * Judging a console transcript

    [_strip_kernel_diagnostics] and [_check] of tools/sos_runner.py: the
    letters-only projection of a transcript, and the verdict on one boot. *)

From Stdlib Require Import Ascii.
From S2P Require Import Prelude PyStr Arches Case.
From stdpp Require Import base list strings numbers option pretty.

Open Scope nat_scope.

Module Check.

(** ** The kernel-diagnostic pattern [SOS: [^\r\n]*(?:\r?\n)?] *)

Definition CR : ascii := ascii_of_nat 13.
Definition LF : ascii := ascii_of_nat 10.
Definition KMARK : string := "SOS: ".

(** What follows a match, given what follows its ["SOS: "]: the body is taken
    up to a CR or LF, then an LF or a CRLF is taken too, and a lone CR is not. *)
Fixpoint skip_line (s : string) : string :=
  match s with
  | EmptyString => ""
  | String c s' =>
      if Ascii.eqb c LF then s'
      else if Ascii.eqb c CR then
        match s' with
        | String d s'' => if Ascii.eqb d LF then s'' else s
        | EmptyString => s
        end
      else skip_line s'
  end.

(** [pattern.sub("", s)]: leftmost matches, scanned left to right. *)
Fixpoint strip_fuel (fuel : nat) (s : string) : string :=
  match fuel with
  | O => s
  | S fuel =>
      if prefixb KMARK s then strip_fuel fuel (skip_line (sdrop (slen KMARK) s))
      else match s with
           | EmptyString => ""
           | String c s' => String c (strip_fuel fuel s')
           end
  end.

Definition _strip_kernel_diagnostics (out : string) : string :=
  strip_fuel (slen out) out.

(** ** The verdict *)

(** The loop over the expectations: [None] when every one was found,
    [Some reason] at the first that was not. *)
Fixpoint match_loop (step_one : bool) (fmt : list (string * string))
    (hay out : string) (cursor : nat) (expected : list string) : res (option string) :=
  match expected with
  | [] => Ok None
  | want :: expected =>
      want ← py_format want fmt;
      match py_find hay want cursor with
      | None =>
          let wher := if py_in want hay then "out of order" else "missing" in
          Ok (Some (wher +:+ " expected output " +:+ py_repr want +:+
                    " (got " +:+ py_repr out +:+ ")"))
      | Some at_ =>
          match_loop step_one fmt hay out
            (at_ + (if step_one then 1 else slen want)) expected
      end
  end.

Definition str_status (status : option Z) : string :=
  match status with Some z => pretty z | None => "None" end.

(** The text a case's expectations are matched against. *)
Definition haystack (case : Case) (out : string) : string :=
  if truthy (c_strip_kernel_lines case) then _strip_kernel_diagnostics out else out.

(** The exit expectations, read after the console's. *)
Definition check_exit (case : Case) (status : option Z) : bool * string :=
  if c_expect_clean_exit case && negb (bool_decide (status = Some 0%Z)) then
    (false, "expected clean exit (0), got status " +:+ str_status status)
  else if negb (c_expect_clean_exit case) && bool_decide (status = Some 0%Z) then
    (false, "expected a failing (non-zero) exit, got 0")
  else match c_expect_status case with
       | Some w =>
           if bool_decide (status = Some w) then (true, "")
           else (false, "expected exit status " +:+ pretty w +:+ ", got " +:+ str_status status)
       | None => (true, "")
       end.

(** What a boot captured: [subprocess] hands over text, or, of an emulator it
    had to kill, the bytes read so far. *)
Inductive output := OText (text : string) | OBytes (bytes : string).
#[global] Coercion OText : string >-> output.

(** [out.decode(errors="replace")], of bytes. *)
Definition decoded (out : output) : string :=
  match out with OText text => text | OBytes bytes => decode_replace bytes end.

Definition _check (case : Case) (arch : Arch) (status : option Z) (out : output)
    (timed_out : bool) : res (bool * string) :=
  if timed_out then
    Ok (false, "QEMU hung (> " +:+ py_str QEMU_TIMEOUT_S +:+ "s) — no clean exit")
  else
    let out := decoded out in
    failure ← match c_expect_out case with
              | ENone => Ok None
              | o => match_loop (default false (c_overlapping_matches case))
                       (expectations arch) (haystack case out) out 0 (expected_list o)
              end;
    match failure with
    | Some reason => Ok (false, reason)
    | None => Ok (check_exit case status)
    end.

(** ** Specification *)

(** [ws] occur in [hay] in order, each starting no earlier than [cur] and the
    next no earlier than [adv w] past the start of [w]. *)
Inductive in_order (adv : string → nat) (hay : string) : nat → list string → Prop :=
  | in_order_nil cur : in_order adv hay cur []
  | in_order_cons cur w ws p :
      cur ≤ p → occurs_at w hay p → in_order adv hay (p + adv w) ws →
      in_order adv hay cur (w :: ws).

Definition advance (step_one : bool) (w : string) : nat :=
  if step_one then 1 else slen w.

(** Gaps and expectations alternating, then the rest of the transcript. *)
Fixpoint weave (gaps ws : list string) (rest : string) : string :=
  match gaps, ws with
  | g :: gaps, w :: ws => g +:+ w +:+ weave gaps ws rest
  | _, _ => rest
  end.

(** A transcript in which whole kernel lines interrupt a process's own bytes:
    user text, then kernel lines each followed by more user text. *)
Record kline := KLine { k_body : string; k_crlf : bool; k_user : string }.

Definition eol (crlf : bool) : string := if crlf then String CR (String LF "") else String LF "".

Fixpoint interleave (first : string) (ks : list kline) : string :=
  match ks with
  | [] => first
  | k :: ks => first +:+ KMARK +:+ k_body k +:+ eol (k_crlf k) +:+ interleave (k_user k) ks
  end.

Fixpoint one_line (s : string) : bool :=
  match s with
  | EmptyString => true
  | String c s => negb (Ascii.eqb c LF) && negb (Ascii.eqb c CR) && one_line s
  end.

Definition unmarked (s : string) : Prop := ∀ i, ¬ occurs_at KMARK s i.

Definition good_kline (k : kline) : Prop :=
  one_line (k_body k) = true ∧ unmarked (k_user k).

(** ** The matching loop *)

Lemma in_order_weaken adv hay cur cur' ws :
  cur' ≤ cur → in_order adv hay cur ws → in_order adv hay cur' ws.
Proof.
  intros Hle. inversion 1 as [|? ? ? p]; subst; [constructor|].
  apply (in_order_cons _ _ _ _ _ p); [lia | done..].
Qed.

(** Taking the leftmost occurrence each time loses nothing. *)
Lemma in_order_leftmost adv hay cur w ws p :
  py_find hay w cur = Some p →
  in_order adv hay cur (w :: ws) ↔ in_order adv hay (p + adv w) ws.
Proof.
  intros (Hp & Hocc & Hmin)%py_find_Some. split.
  - inversion 1 as [|? ? ? q Hq Hoccq Hrest]; subst.
    eapply in_order_weaken; [|exact Hrest].
    assert (¬ q < p) by (intros ?; by apply (Hmin q)). lia.
  - intros Hrest. by econstructor.
Qed.

Lemma match_loop_spec step_one fmt hay out cur expected ws :
  Forall2 (λ t w, py_format t fmt = Ok w) expected ws →
  match_loop step_one fmt hay out cur expected = Ok None ↔
  in_order (advance step_one) hay cur ws.
Proof.
  intros H. revert cur. induction H as [|t w ts ws Ht _ IH]; intros cur; cbn.
  - split; [constructor | done].
  - rewrite Ht; cbn. destruct (py_find hay w cur) as [p|] eqn:E.
    + rewrite (in_order_leftmost _ _ _ _ _ _ E), IH. done.
    + split; [done|]. inversion 1 as [|? ? ? q Hq Hocc _]; subst.
      by eapply py_find_None in E.
Qed.

Lemma match_loop_total step_one fmt hay out cur expected ws :
  Forall2 (λ t w, py_format t fmt = Ok w) expected ws →
  ∃ r, match_loop step_one fmt hay out cur expected = Ok r.
Proof.
  intros H. revert cur. induction H as [|t w ts ws Ht _ IH]; intros cur; cbn; [eauto|].
  rewrite Ht; cbn. destruct (py_find hay w cur); eauto.
Qed.

Lemma in_order_weave hay cur ws :
  cur ≤ slen hay →
  in_order slen hay cur ws ↔
  ∃ gaps rest, length gaps = length ws ∧ sdrop cur hay = weave gaps ws rest.
Proof.
  revert cur. induction ws as [|w ws IH]; intros cur Hcur.
  - split; [intros _; by exists [], (sdrop cur hay) | constructor].
  - split.
    + inversion 1 as [|? ? ? p Hp Hocc Hrest]; subst.
      pose proof (occurs_at_bound _ _ _ Hocc) as Hb.
      apply (IH (p + slen w)) in Hrest as (gaps & rest & Hlen & Hr); [|lia].
      exists (stake (p - cur) (sdrop cur hay) :: gaps), rest. split; [cbn; lia|].
      cbn. rewrite <-Hr.
      rewrite <-(stake_sdrop (p - cur) (sdrop cur hay)) at 1. f_equal.
      rewrite sdrop_sdrop. replace (cur + (p - cur)) with p by lia.
      apply occurs_at_prefix in Hocc as [_ (t & Ht)%prefixb_spec].
      by rewrite <-sdrop_sdrop, Ht, sdrop_app.
    + intros ([|g gaps] & rest & Hlen & Hr); [done|]. cbn in Hr.
      assert (slen g + slen w ≤ slen hay - cur) as Hb.
      { rewrite <-(slen_sdrop cur), Hr, !slen_app. lia. }
      econstructor; [apply (Nat.le_add_r cur (slen g))| |].
      * rewrite <-occurs_at_sdrop, Hr by done. by exists g, (weave gaps ws rest).
      * apply IH; [lia|]. exists gaps, rest. split; [cbn in Hlen; lia|].
        rewrite <-Nat.add_assoc, <-sdrop_sdrop, Hr, <-sdrop_sdrop.
        by rewrite sdrop_app, sdrop_app.
Qed.

(** ** The projection *)

Lemma slen_skip_line s : slen (skip_line s) ≤ slen s.
Proof.
  induction s as [|c s IH]; cbn; [lia|].
  destruct (Ascii.eqb c LF); [lia|]. destruct (Ascii.eqb c CR); [|lia].
  destruct s as [|d s]; cbn; [lia|]. destruct (Ascii.eqb d LF); cbn; lia.
Qed.

Lemma strip_fuel_enough n m s :
  slen s ≤ n → slen s ≤ m → strip_fuel n s = strip_fuel m s.
Proof.
  revert m s. induction n as [|n IH]; intros m s Hn Hm.
  - assert (s = "") as -> by (apply slen_zero; lia). by destruct m.
  - destruct m as [|m].
    + assert (s = "") as -> by (apply slen_zero; lia). done.
    + cbn [strip_fuel]. destruct (prefixb KMARK s) eqn:E.
      * apply prefixb_spec in E as (t & ->). rewrite slen_app in Hn, Hm.
        change (slen KMARK) with 5 in *. rewrite (sdrop_app KMARK).
        pose proof (slen_skip_line t). apply IH; lia.
      * destruct s as [|c s]; [done|]. cbn in Hn, Hm. f_equal. apply IH; lia.
Qed.

(** The scan with its fuel hidden: the fuel [_strip_kernel_diagnostics] starts
    with is enough at every position. *)
Lemma strip_unfold s :
  _strip_kernel_diagnostics s =
  if prefixb KMARK s then _strip_kernel_diagnostics (skip_line (sdrop (slen KMARK) s))
  else match s with
       | EmptyString => ""
       | String c s' => String c (_strip_kernel_diagnostics s')
       end.
Proof.
  unfold _strip_kernel_diagnostics.
  rewrite (strip_fuel_enough (slen s) (S (slen s))) by lia. cbn [strip_fuel].
  destruct (prefixb KMARK s) eqn:E.
  - apply prefixb_spec in E as (t & ->). rewrite slen_app, (sdrop_app KMARK).
    pose proof (slen_skip_line t). apply strip_fuel_enough; lia.
  - destruct s as [|c s]; [done|]. f_equal. apply strip_fuel_enough; cbn; lia.
Qed.

Lemma skip_line_body b crlf t : one_line b = true → skip_line (b +:+ eol crlf +:+ t) = t.
Proof.
  induction b as [|c b IH]; cbn [one_line].
  - intros _. by destruct crlf.
  - rewrite !andb_true_iff, !negb_true_iff. intros [[HL HC] Hb].
    rewrite sapp_cons. cbn [skip_line]. rewrite HL, HC. auto.
Qed.

Lemma strip_kernel_line b crlf t :
  one_line b = true →
  _strip_kernel_diagnostics (KMARK +:+ b +:+ eol crlf +:+ t) = _strip_kernel_diagnostics t.
Proof.
  intros Hb. rewrite strip_unfold, prefixb_app.
  by rewrite (sdrop_app KMARK), skip_line_body.
Qed.

(** No proper suffix of ["SOS: "] is a prefix of it, so user bytes before a
    kernel line cannot combine with it into an earlier match. *)
Lemma kmark_border_free w t :
  w ≠ "" → unmarked w → prefixb KMARK (w +:+ KMARK +:+ t) = false.
Proof.
  intros Hw Hun. destruct (prefixb KMARK (w +:+ KMARK +:+ t)) eqn:E; [|done]. exfalso.
  destruct (decide (slen KMARK ≤ slen w)) as [Hl|Hl].
  - apply prefixb_spec in E as (r & Hr). symmetry in Hr.
    apply sapp_split_le in Hr as (m & -> & _); [|done].
    apply (Hun 0). by apply occurs_at_0, prefixb_app.
  - change (slen KMARK) with 5 in Hl. clear Hun.
    destruct w as [|c1 [|c2 [|c3 [|c4 [|c5 w]]]]]; cbn in Hl; try lia.
    all: apply prefixb_spec in E as (r & E); vm_compute in E; congruence.
Qed.

Lemma unmarked_tail c u : unmarked (String c u) → unmarked u.
Proof. intros H i Hi. apply (H (S i)). by apply occurs_at_cons. Qed.

Lemma strip_user_then_kernel u t :
  unmarked u →
  _strip_kernel_diagnostics (u +:+ KMARK +:+ t) = u +:+ _strip_kernel_diagnostics (KMARK +:+ t).
Proof.
  induction u as [|c u IH]; intros Hu; [done|].
  rewrite strip_unfold, kmark_border_free by done.
  rewrite !sapp_cons. f_equal. by apply IH, unmarked_tail in Hu || (apply IH; by eapply unmarked_tail).
Qed.

Lemma strip_user_end u : unmarked u → _strip_kernel_diagnostics u = u.
Proof.
  induction u as [|c u IH]; intros Hu; [done|].
  rewrite strip_unfold. destruct (prefixb KMARK (String c u)) eqn:E.
  - exfalso. apply (Hu 0). by apply occurs_at_0.
  - f_equal. apply IH. by eapply unmarked_tail.
Qed.

Lemma strip_interleave first ks :
  unmarked first → Forall good_kline ks →
  _strip_kernel_diagnostics (interleave first ks) =
  first +:+ foldr (λ k acc, k_user k +:+ acc) "" ks.
Proof.
  intros Hf Hks. revert first Hf.
  induction Hks as [|k ks [Hb Hu] _ IH]; intros first Hf; cbn [interleave foldr].
  - rewrite sapp_nil_r. by apply strip_user_end.
  - rewrite strip_user_then_kernel, strip_kernel_line by done. by rewrite IH.
Qed.

Lemma unmarked_by_find s : find_first KMARK s = None → unmarked s.
Proof. intros H i. by apply find_first_None. Qed.

Lemma check_exit_true case status reason :
  check_exit case status = (true, reason) ↔
  reason = "" ∧
  (status = Some 0%Z ↔ c_expect_clean_exit case = true) ∧
  (∀ w, c_expect_status case = Some w → status = Some w).
Proof.
  unfold check_exit. destruct (c_expect_clean_exit case); cbn;
    case_bool_decide; cbn; try (split; [done | naive_solver]).
  all: destruct (c_expect_status case) as [w|]; [case_bool_decide|]; naive_solver.
Qed.

(** ** Properties *)

(** C23. The matching loop is complete for non-overlapping matches.  For
    expectations that format to [ws], the greedy left-to-right search succeeds
    exactly when the transcript reads: a gap, the first expectation, a gap,
    the second, ..., the last, and a rest. *)
Theorem match_loop_complete (fmt : list (string * string)) (hay out : string)
    (expected ws : list string) :
  Forall2 (λ t w, py_format t fmt = Ok w) expected ws →
  match_loop false fmt hay out 0 expected = Ok None ↔
  ∃ gaps rest, length gaps = length ws ∧ hay = weave gaps ws rest.
Proof.
  intros H. rewrite (match_loop_spec _ _ _ _ _ _ _ H).
  by rewrite (in_order_weave hay 0) by lia.
Qed.

Lemma match_loop_complete_witness :
  match_loop false [("one", "0x1")] "ab tick 0x1 cd tick 0x1" "" 0 ["tick {one}"; "tick"] = Ok None.
Proof.
  apply (match_loop_complete _ _ _ _ ["tick 0x1"; "tick"]).
  - repeat constructor.
  - by exists ["ab "; " cd "], " 0x1".
Defined.

(** C9. A boot passes exactly when it ended in time, the transcript (with the
    kernel's own lines removed when the case asks) contains the expectations in
    order, the exit status is zero precisely when a clean exit is expected, and
    it equals the exact status when the case names one. *)
Theorem check_passes_iff (case : Case) (arch : Arch) (status : option Z) (out : string)
    (timed_out : bool) (ws : list string) :
  Forall2 (λ t w, py_format t (expectations arch) = Ok w) (expected_list (c_expect_out case)) ws →
  _check case arch status out timed_out = Ok (true, "") ↔
  timed_out = false ∧
  in_order (advance (default false (c_overlapping_matches case))) (haystack case out) 0 ws ∧
  (status = Some 0%Z ↔ c_expect_clean_exit case = true) ∧
  (∀ w, c_expect_status case = Some w → status = Some w).
Proof.
  intros H. unfold _check. destruct timed_out; [by split; [|intros [? _]]|].
  cbv zeta. cbn [decoded].
  pose proof (match_loop_spec (default false (c_overlapping_matches case)) _
    (haystack case out) out 0 _ _ H) as Hspec.
  destruct (match_loop_total (default false (c_overlapping_matches case)) _
    (haystack case out) out 0 _ _ H) as [r Hr].
  assert (match c_expect_out case with
          | ENone => Ok None
          | o => match_loop (default false (c_overlapping_matches case))
                   (expectations arch) (haystack case out) out 0 (expected_list o)
          end = Ok r) as ->.
  { destruct (c_expect_out case); [|done..]. by rewrite <-Hr. }
  rewrite <-Hspec, Hr. cbn [mbind res_bind].
  destruct r as [reason|]; [split; [intros [=] | by intros (_ & [=] & _)]|].
  rewrite (inj_iff Ok), check_exit_true. split.
  - by intros (_ & ? & ?).
  - by intros (_ & _ & ? & ?).
Qed.

Lemma check_passes_iff_witness :
  _check (dict "t" "" (EList ["{banner}"; "entry={one}"]) false [k_expect_status 5])
    (@arch_riscv32 sample_repo) (Some 5%Z) "SOS M1: kernel up on riscv32 (QEMU virt) entry=0x00000001" false
  = Ok (true, "").
Proof.
  apply (check_passes_iff _ _ _ _ _ ["SOS M1: kernel up on riscv32"; "entry=0x00000001"]).
  - repeat constructor.
  - split_and!; [done | | done | by intros ? [= <-]].
    apply (in_order_cons _ _ _ _ _ 0); [lia | by exists "", " (QEMU virt) entry=0x00000001" |].
    apply (in_order_cons _ _ _ _ _ 41); [cbn; lia | | constructor].
    by exists "SOS M1: kernel up on riscv32 (QEMU virt) ", "".
Defined.

(** C24. The projection is exact: for a transcript in which whole kernel lines
    interrupt a process's bytes anywhere, it returns exactly the process's
    bytes, in the order the process wrote them. *)
Theorem strip_kernel_diagnostics_exact (first : string) (ks : list kline) :
  unmarked first → Forall good_kline ks →
  _strip_kernel_diagnostics (interleave first ks) =
  first +:+ foldr (λ k acc, k_user k +:+ acc) "" ks.
Proof. apply strip_interleave. Qed.

Lemma strip_kernel_diagnostics_exact_witness :
  _strip_kernel_diagnostics ("AS" +:+ "SOS: timer tick 1 at 2" +:+ nl +:+ "OS:B") = "ASOS:B".
Proof.
  apply (strip_kernel_diagnostics_exact "AS" [KLine "timer tick 1 at 2" false "OS:B"]).
  - by apply unmarked_by_find.
  - repeat constructor. by apply unmarked_by_find.
Defined.

End Check.
