(* ===== verification/RegionTable.v ===== *)
(** * The boot region table

    [_emit_word64], [_emit_row], [_region_rows] and the text [_stitch_regions]
    writes for the assembler, all of tools/sos_runner.py.  The assembler and
    the linker are not part of the repository: they are the class [Assembler],
    with the documented meaning of the data directives as its laws. *)

From Stdlib Require Import Ascii.
From S2P Require Import Prelude PyStr PyPath Bytes Arches Case SosimgDump.
From stdpp Require Import base list sets strings numbers option.

Open Scope N_scope.

Module RegionTable.

(** *** Rows *)

(** (comment, base expression, length expression, kind) *)
Record row := Row { r_what : string; r_base : string; r_len : string; r_kind : N }.

Definition child_start (i : nat) : string := "_sos_child" +:+ py_str (N.of_nat i) +:+ "_start".
Definition child_end (i : nat) : string := "_sos_child" +:+ py_str (N.of_nat i) +:+ "_end".

Definition blob_row (i : nat) : row :=
  Row ("child " +:+ py_str (N.of_nat i) +:+ "'s image blob (linker-resolved)")
    (child_start i) (child_end i +:+ " - " +:+ child_start i) REGION_KIND_RAM.

Definition child_base (arch : Arch) (i : nat) : N :=
  a_child_region_base arch + N.of_nat i * CHILD_REGION_LEN.

Definition dest_row (arch : Arch) (i : nat) : row :=
  Row ("child " +:+ py_str (N.of_nat i) +:+ "'s destination RAM")
    (py_0x (child_base arch i)) (py_0x CHILD_REGION_LEN) REGION_KIND_RAM.

Definition pool_row (arch : Arch) : row :=
  Row "the RAM POOL — free memory above every child region"
    (py_0x (a_pool_base arch)) (py_0x (a_pool_len arch)) REGION_KIND_RAM.

Definition device_row (arch : Arch) : row :=
  Row "the DEVICE window — the console UART's register page"
    (py_0x (a_device_base arch)) (py_0x (a_device_len arch)) REGION_KIND_DEVICE.

Definition two_children_and_pool (case : Case) : exn :=
  ToolError ("case " +:+ py_repr (c_name case) +:+ ": a case with two children cannot also ask " +:+
    "for a pool — the second child's destination region and the pool " +:+
    "share a base (see hal/*/user/child2.ld)").

Definition _region_rows (case : Case) (arch : Arch) : res (list row) :=
  let children := children_of case in
  if (1 <? length children)%nat && truthy (c_pool case)
  then Raise (two_children_and_pool case)
  else Ok (
    (blob_row <$> seq 0 (length children)) ++
    (dest_row arch <$> seq 0 (length children)) ++
    (if truthy (c_pool case) then [pool_row arch] else []) ++
    (if truthy (c_device case) then [device_row arch] else [])).

(** *** Assembler text *)

Definition _emit_word64 (lines : list string) (arch : Arch) (expr : string) : list string :=
  if (a_hex_width arch =? 8)%nat
  then lines ++ ["    .4byte " +:+ expr; "    .4byte 0"]
  else lines ++ ["    .8byte " +:+ expr].

Definition _emit_row (lines : list string) (arch : Arch) (base_expr len_expr : string)
    (kind : N) : list string :=
  let lines := _emit_word64 lines arch base_expr in
  let lines := _emit_word64 lines arch len_expr in
  lines ++ ["    .byte  " +:+ py_str kind; "    .byte  0, 0, 0, 0, 0, 0, 0"].

Definition quoted (s : string) : string := dq +:+ s +:+ dq.

(** The lines that carry child [i]'s image, staged as [base]. *)
Definition child_lines (i : nat) (base : string) : list string :=
  [ child_start i +:+ ":"; "    .incbin " +:+ quoted base;
    child_end i +:+ ":"; "    .balign 16" ].

(** Where the [_stitch_regions] of a case stages child [i]'s image. *)
Definition staged_child `{R : Repo} (case : Case) (arch : Arch) (i : nat) : string :=
  join2 (d_build (arch_dirs arch))
    (c_name case +:+ ".child" +:+ py_str (N.of_nat i) +:+ ".sosimg").

Definition childimg_lines `{R : Repo} (case : Case) (arch : Arch) : list string :=
  match children_of case with
  | [] => []
  | children =>
      [ "    .section .childimg, " +:+ quoted "a" +:+ ", @progbits"; "    .balign 16" ] ++
      concat ((λ i, child_lines i (basename (staged_child case arch i))) <$>
              seq 0 (length children))
  end.

(** The table proper: the 8-byte header and a comment and a row per region. *)
Definition header_lines (n : nat) : list string :=
  [ "    .4byte " +:+ hex_word 8 REGION_TABLE_MAGIC;
    "    .2byte " +:+ py_str REGION_TABLE_VERSION;
    "    .byte  " +:+ py_str (N.of_nat n);
    "    .byte  0" ].

Definition row_comment (i : nat) (r : row) : string :=
  "    /* row " +:+ py_str (N.of_nat i) +:+ ": " +:+ r_what r +:+ " */".

Fixpoint row_lines (lines : list string) (arch : Arch) (i : nat) (rows : list row) : list string :=
  match rows with
  | [] => lines
  | r :: rows =>
      row_lines (_emit_row (lines ++ [row_comment i r]) arch (r_base r) (r_len r) (r_kind r))
        arch (S i) rows
  end.

Definition table_lines (arch : Arch) (rows : list row) : list string :=
  row_lines (header_lines (length rows)) arch 0 rows.

(** Everything [_stitch_regions] writes to [<case>.regions.S]. *)
Definition regions_text `{R : Repo} (case : Case) (arch : Arch) : res (list string) :=
  rows ← _region_rows case arch;
  Ok ([ "/* GENERATED by tools/sos_runner.py — sawos design 2 D-2, 6 D-5. */"; "" ] ++
      childimg_lines case arch ++
      [ ""; "    .section .regions, " +:+ quoted "a" +:+ ", @progbits"; "    .balign 8" ] ++
      table_lines arch rows ++ [""]).

(** *** The assembler and linker *)

Definition not_star (c : ascii) : bool := negb (Ascii.eqb c "*").

(** [asm_value e]: what the expression [e] evaluates to once linked.
    [asm_bytes l]: the bytes the source line [l] contributes to its section. *)
Class Assembler := {
  asm_value : string → N;
  asm_bytes : string → bytes;
}.

Class AssemblerLaws (A : Assembler) : Prop := {
  asm_4byte e : asm_value e < 2 ^ 32 → asm_bytes ("    .4byte " +:+ e) = le_split 4 (asm_value e);
  asm_8byte e : asm_value e < 2 ^ 64 → asm_bytes ("    .8byte " +:+ e) = le_split 8 (asm_value e);
  asm_2byte n : n < 2 ^ 16 → asm_bytes ("    .2byte " +:+ py_str n) = le_split 2 n;
  asm_byte n : n < 2 ^ 8 → asm_bytes ("    .byte  " +:+ py_str n) = le_split 1 n;
  asm_bytes7 : asm_bytes "    .byte  0, 0, 0, 0, 0, 0, 0" = le_split 7 0;
  asm_comment w : all_chars not_star w = true → asm_bytes ("    /* " +:+ w +:+ " */") = [];
  asm_zero : asm_value "0" = 0;
  asm_hex n : asm_value (py_0x n) = n;
  asm_hex_word n : asm_value (hex_word 8 n) = n;
}.

Definition assemble {A : Assembler} (lines : list string) : bytes :=
  concat (asm_bytes <$> lines).

(** *** Specification: the table as bytes *)

(** A row as the kernel and the dumper read it. *)
Record region := Region { g_base : N; g_len : N; g_kind : N }.

Definition region_of {A : Assembler} (r : row) : region :=
  Region (asm_value (r_base r)) (asm_value (r_len r)) (r_kind r).

Definition region_fields (g : region) : list N := [g_base g; g_len g; g_kind g].

Definition region_bytes (g : region) : bytes :=
  pack SosimgDump.region_row_fmt (region_fields g) ++ le_split 7 0.

Definition table_bytes (gs : list region) : bytes :=
  pack SosimgDump.region_header_fmt
    [REGION_TABLE_MAGIC; REGION_TABLE_VERSION; N.of_nat (length gs); 0] ++
  concat (region_bytes <$> gs).

Definition table_dump (gs : list region) : list string :=
  [ "magic     0x4e475253 (ok)"; "version   2"; "regions   " +:+ py_str (N.of_nat (length gs)) ] ++
  imap (λ i g, SosimgDump.region_line i (g_base g) (g_len g) (g_kind g)) gs.

(** A row this target's words can carry: both fields fit, the kind is a byte
    and the comment does not end early. *)
Definition word_bound (arch : Arch) : N :=
  if (a_hex_width arch =? 8)%nat then 2 ^ 32 else 2 ^ 64.

Definition row_ok {A : Assembler} (arch : Arch) (r : row) : Prop :=
  asm_value (r_base r) < word_bound arch ∧ asm_value (r_len r) < word_bound arch ∧
  r_kind r < 2 ^ 8 ∧ all_chars not_star (r_what r) = true.

(** The regions a case asks for, with the blobs' addresses the linker's. *)
Definition case_regions {A : Assembler} (case : Case) (arch : Arch) : list region :=
  let n := length (children_of case) in
  ((λ i, Region (asm_value (child_start i))
           (asm_value (child_end i +:+ " - " +:+ child_start i)) REGION_KIND_RAM) <$> seq 0 n) ++
  ((λ i, Region (child_base arch i) CHILD_REGION_LEN REGION_KIND_RAM) <$> seq 0 n) ++
  (if truthy (c_pool case) then [Region (a_pool_base arch) (a_pool_len arch) REGION_KIND_RAM] else []) ++
  (if truthy (c_device case) then [Region (a_device_base arch) (a_device_len arch) REGION_KIND_DEVICE] else []).

(** ** Addresses *)

(** The half-open address range of a region whose base is known. *)
Definition disjoint (b1 l1 b2 l2 : N) : Prop := b1 + l1 ≤ b2 ∨ b2 + l2 ≤ b1.

(** The fixed windows of a case: destinations, pool and device. *)
Definition windows (case : Case) (arch : Arch) : list (N * N) :=
  ((λ i, (child_base arch i, CHILD_REGION_LEN)) <$> seq 0 (length (children_of case))) ++
  (if truthy (c_pool case) then [(a_pool_base arch, a_pool_len arch)] else []) ++
  (if truthy (c_device case) then [(a_device_base arch, a_device_len arch)] else []).

Definition disjoint_windows (w1 w2 : N * N) : Prop := disjoint w1.1 w1.2 w2.1 w2.2.

Fixpoint all_disjoint (ws : list (N * N)) : Prop :=
  match ws with
  | [] => True
  | w :: ws => Forall (disjoint_windows w) ws ∧ all_disjoint ws
  end.

(** ** Lemmas: the rows *)

Lemma region_rows_Ok case arch rows :
  _region_rows case arch = Ok rows →
  rows = (blob_row <$> seq 0 (length (children_of case))) ++
         (dest_row arch <$> seq 0 (length (children_of case))) ++
         (if truthy (c_pool case) then [pool_row arch] else []) ++
         (if truthy (c_device case) then [device_row arch] else []).
Proof. unfold _region_rows. case_match; [done|]. by intros [= <-]. Qed.

Lemma region_rows_refused case arch :
  is_ok (_region_rows case arch) = false ↔
  (1 < length (children_of case))%nat ∧ truthy (c_pool case) = true.
Proof.
  unfold _region_rows. rewrite <-Nat.ltb_lt, <-andb_true_iff.
  destruct ((1 <? length (children_of case))%nat && truthy (c_pool case)); done.
Qed.

(** ** Lemmas: the windows *)

Lemma all_disjoint_app l1 l2 :
  all_disjoint (l1 ++ l2) ↔
  all_disjoint l1 ∧ all_disjoint l2 ∧ ∀ a b, a ∈ l1 → b ∈ l2 → disjoint_windows a b.
Proof.
  induction l1 as [|w l1 IH]; cbn.
  - set_solver.
  - rewrite IH, Forall_app, !list.Forall_forall. setoid_rewrite elem_of_cons. naive_solver.
Qed.

Lemma dests_disjoint arch k n :
  all_disjoint ((λ i, (child_base arch i, CHILD_REGION_LEN)) <$> seq k n).
Proof.
  revert k. induction n as [|n IH]; intros k; cbn; [done|]. split; [|apply IH].
  apply list.Forall_forall. intros w (i & -> & Hi)%list_elem_of_fmap.
  apply elem_of_seq in Hi. unfold disjoint_windows, disjoint, child_base; cbn.
  left. nia.
Qed.

(** What the table's numbers have in common on every architecture. *)
Record layout_ok (arch : Arch) : Prop := {
  lo_pool : a_pool_base arch = child_base arch 1;
  lo_pool_len : 0 < a_pool_len arch;
  lo_device : a_device_base arch + a_device_len arch ≤ a_child_region_base arch;
  lo_bound : a_child_region_base arch + 256 * CHILD_REGION_LEN < 2 ^ 32;
  lo_pool_fits : a_pool_base arch + a_pool_len arch < 2 ^ 32;
}.

Lemma ARCHES_layout `{R : Repo} arch : arch ∈ ARCHES → layout_ok arch.
Proof. revert arch. apply ARCHES_ind; constructor; by vm_compute. Qed.

Lemma dest_device_disjoint arch i :
  layout_ok arch →
  disjoint (child_base arch i) CHILD_REGION_LEN (a_device_base arch) (a_device_len arch).
Proof. intros [_ _ Hd _ _]. unfold disjoint, child_base. right. lia. Qed.

Lemma pool_device_disjoint arch :
  layout_ok arch →
  disjoint (a_pool_base arch) (a_pool_len arch) (a_device_base arch) (a_device_len arch).
Proof. intros [Hp _ Hd _ _]. unfold disjoint. rewrite Hp. unfold child_base. right. lia. Qed.

Lemma windows_disjoint case arch :
  layout_ok arch →
  all_disjoint (windows case arch) ↔
  ¬ ((1 < length (children_of case))%nat ∧ truthy (c_pool case) = true).
Proof.
  intros Hlo. unfold windows. rewrite !all_disjoint_app.
  set (n := length (children_of case)). split.
  - intros (_ & _ & Hx) [Hn Hp].
    specialize (Hx (child_base arch 1, CHILD_REGION_LEN) (a_pool_base arch, a_pool_len arch)).
    destruct Hx as [Hx|Hx].
    + apply list_elem_of_fmap. exists 1%nat. split; [done|]. apply elem_of_seq. lia.
    + rewrite Hp. apply elem_of_app. left. by apply elem_of_cons; left.
    + cbn in Hx. rewrite (lo_pool _ Hlo) in Hx. change CHILD_REGION_LEN with 262144 in Hx. lia.
    + cbn in Hx. rewrite (lo_pool _ Hlo) in Hx. pose proof (lo_pool_len _ Hlo). lia.
  - intros Hok. split; [apply dests_disjoint|]. split_and!.
    + by destruct (truthy (c_pool case)).
    + by destruct (truthy (c_device case)).
    + intros a b. destruct (truthy (c_pool case)), (truthy (c_device case));
        rewrite ?elem_of_cons, ?elem_of_nil; try tauto.
      intros [->|[]] [->|[]]. by apply pool_device_disjoint.
    + intros a b (i & -> & Hi)%list_elem_of_fmap. apply elem_of_seq in Hi.
      rewrite elem_of_app. intros [Hb|Hb].
      * destruct (truthy (c_pool case)) eqn:Hp; [|by apply elem_of_nil in Hb].
        apply elem_of_cons in Hb as [->|Hb]; [|by apply elem_of_nil in Hb].
        assert (i = 0)%nat as -> by (destruct (decide (1 < n)%nat); [tauto | lia]).
        unfold disjoint_windows, disjoint. cbn. rewrite (lo_pool _ Hlo). left.
        unfold child_base. lia.
      * destruct (truthy (c_device case)); [|by apply elem_of_nil in Hb].
        apply elem_of_cons in Hb as [->|Hb]; [|by apply elem_of_nil in Hb].
        by apply dest_device_disjoint.
Qed.

(** ** Lemmas: the text *)

Lemma emit_word64_app lines arch e : _emit_word64 lines arch e = lines ++ _emit_word64 [] arch e.
Proof. unfold _emit_word64. by case_match. Qed.

Lemma emit_row_app lines arch b l k :
  _emit_row lines arch b l k = lines ++ _emit_row [] arch b l k.
Proof.
  unfold _emit_row.
  rewrite (emit_word64_app (_emit_word64 lines arch b)), (emit_word64_app lines),
    (emit_word64_app (_emit_word64 [] arch b)).
  by rewrite <-!app_assoc.
Qed.

Lemma row_lines_app lines arch i rows :
  row_lines lines arch i rows = lines ++ row_lines [] arch i rows.
Proof.
  revert lines i. induction rows as [|r rows IH]; intros lines i; cbn [row_lines].
  - by rewrite app_nil_r.
  - rewrite IH, (IH (_emit_row _ _ _ _ _)), emit_row_app, (emit_row_app ([] ++ _)).
    by rewrite <-!app_assoc.
Qed.

Section assembled.
  Context {A : Assembler} {laws : AssemblerLaws A}.

Lemma assemble_app l1 l2 : assemble (l1 ++ l2) = assemble l1 ++ assemble l2.
Proof. unfold assemble. by rewrite fmap_app, concat_app. Qed.

Lemma assemble_one l : assemble [l] = asm_bytes l.
Proof. unfold assemble; cbn. by rewrite app_nil_r. Qed.

Lemma assemble_word64 arch e :
  asm_value e < word_bound arch → assemble (_emit_word64 [] arch e) = le_split 8 (asm_value e).
Proof.
  unfold word_bound, _emit_word64. destruct (a_hex_width arch =? 8)%nat; intros H; cbn [app].
  - rewrite le_split_low by done.
    unfold assemble; cbn [fmap list_fmap concat]. rewrite app_nil_r, asm_4byte by done.
    f_equal. rewrite (asm_4byte "0"); by rewrite asm_zero.
  - by rewrite assemble_one, asm_8byte.
Qed.

Lemma assemble_comment i r :
  all_chars not_star (r_what r) = true → asm_bytes (row_comment i r) = [].
Proof.
  intros H. unfold row_comment.
  change ("    /* row " +:+ py_str (N.of_nat i) +:+ ": " +:+ r_what r +:+ " */") with
    ("    /* " +:+ "row " +:+ py_str (N.of_nat i) +:+ ": " +:+ r_what r +:+ " */").
  rewrite <-!sapp_assoc. rewrite !(sapp_assoc "    /* "). apply asm_comment.
  rewrite !all_chars_app, H.
  rewrite (all_chars_impl is_digit not_star (py_str _)); [done| |apply py_str_digits].
  intros c Hc. unfold not_star. apply negb_true_iff, Ascii.eqb_neq. by intros ->.
Qed.

Lemma assemble_row arch r :
  row_ok arch r →
  assemble (_emit_row [] arch (r_base r) (r_len r) (r_kind r)) = region_bytes (region_of r).
Proof.
  intros (Hb & Hl & Hk & _). unfold _emit_row. rewrite emit_word64_app, !assemble_app.
  rewrite !assemble_word64 by done.
  change (["    .byte  " +:+ py_str (r_kind r); "    .byte  0, 0, 0, 0, 0, 0, 0"]) with
    (["    .byte  " +:+ py_str (r_kind r)] ++ ["    .byte  0, 0, 0, 0, 0, 0, 0"]).
  rewrite assemble_app, !assemble_one, asm_byte, asm_bytes7 by done.
  unfold region_bytes. cbn [pack region_fields region_of SosimgDump.region_row_fmt g_base g_len g_kind].
  by rewrite app_nil_r, <-!app_assoc.
Qed.

Lemma assemble_rows arch i rows :
  Forall (row_ok arch) rows →
  assemble (row_lines [] arch i rows) = concat (region_bytes <$> (region_of <$> rows)).
Proof.
  intros H. revert i. induction H as [|r rows Hr _ IH]; intros i; [done|].
  cbn [row_lines]. rewrite row_lines_app, emit_row_app, !assemble_app, IH.
  rewrite assemble_row by done. cbn [app fmap list_fmap concat].
  rewrite assemble_one, assemble_comment by (by destruct Hr as (_ & _ & _ & ?)). done.
Qed.

Lemma assemble_header n :
  (n < 256)%nat →
  assemble (header_lines n) =
  pack SosimgDump.region_header_fmt [REGION_TABLE_MAGIC; REGION_TABLE_VERSION; N.of_nat n; 0].
Proof.
  intros Hn. unfold header_lines.
  change ("    .byte  0") with ("    .byte  " +:+ py_str 0).
  assert (N.of_nat n < 2 ^ 8) by (change (2 ^ 8) with 256; lia).
  unfold assemble. cbn [fmap list_fmap concat].
  rewrite asm_4byte by (by rewrite asm_hex_word).
  by rewrite asm_hex_word, asm_2byte, !asm_byte.
Qed.

Lemma assemble_table arch rows :
  (length rows < 256)%nat → Forall (row_ok arch) rows →
  assemble (table_lines arch rows) = table_bytes (region_of <$> rows).
Proof.
  intros Hn Hrows. unfold table_lines, table_bytes.
  rewrite row_lines_app, assemble_app, assemble_header, assemble_rows by done.
  by rewrite length_fmap.
Qed.
End assembled.

(** ** Lemmas: reading the table back *)

Definition region_fits (g : region) : Prop :=
  Forall2 fits SosimgDump.region_row_fmt (region_fields g).

Lemma length_region_bytes g : length (region_bytes g) = 24%nat.
Proof. unfold region_bytes. by rewrite length_app, length_pack, length_le_split. Qed.

Lemma dump_region_read pre g post i off :
  region_fits g → off = length pre →
  SosimgDump.dump_region (pre ++ region_bytes g ++ post) i off =
  ([SosimgDump.region_line i (g_base g) (g_len g) (g_kind g)], Ok tt).
Proof.
  intros Hg Hoff. unfold SosimgDump.dump_region, region_bytes. rewrite <-app_assoc.
  by rewrite unpack_from_pack.
Qed.

Lemma dump_region_rows_read pre gs post i off :
  Forall region_fits gs → off = length pre →
  SosimgDump.dump_region_rows (pre ++ concat (region_bytes <$> gs) ++ post) (length gs) i off =
  (imap (λ k g, SosimgDump.region_line (i + k) (g_base g) (g_len g) (g_kind g)) gs, Ok tt).
Proof.
  intros Hgs. revert pre i off. induction Hgs as [|g gs Hg _ IH]; intros pre i off ->; [done|].
  cbn [SosimgDump.dump_region_rows length fmap list_fmap concat].
  rewrite <-app_assoc. erewrite out_bind_Ok by (by apply dump_region_read).
  rewrite (app_assoc pre), (IH (pre ++ region_bytes g) (S i)).
  - cbn [fst snd imap]. rewrite Nat.add_0_r. cbn [app]. do 2 f_equal.
    apply imap_ext. intros k x _. cbn. f_equal. lia.
  - by rewrite length_app, length_region_bytes.
Qed.

Lemma dump_table gs :
  (length gs < 256)%nat → Forall region_fits gs →
  SosimgDump.dump_regions (table_bytes gs) = (table_dump gs, Ok tt).
Proof.
  intros Hn Hgs. unfold SosimgDump.dump_regions.
  assert (unpack_from SosimgDump.region_header_fmt (table_bytes gs) 0 =
          Ok [REGION_TABLE_MAGIC; REGION_TABLE_VERSION; N.of_nat (length gs); 0]) as ->.
  { apply (unpack_from_pack _ _ []); [|done]. repeat constructor. unfold fits. lia. }
  assert (SosimgDump.dump_region_rows (table_bytes gs) (length gs) 0 8 =
    (imap (λ i g, SosimgDump.region_line i (g_base g) (g_len g) (g_kind g)) gs, Ok tt)) as Hrows.
  { unfold table_bytes. rewrite <-(app_nil_r (concat _)).
    apply (dump_region_rows_read _ gs [] 0 8); [done | by rewrite length_pack]. }
  rewrite out_bind_lift_Ok, !out_bind_print, Nat2N.id, Hrows. done.
Qed.

Lemma word_bound_range arch : 2 ^ 32 ≤ word_bound arch ≤ 2 ^ 64.
Proof. unfold word_bound. by case_match. Qed.

Section case_table.
  Context `{R : Repo} {A : Assembler} {laws : AssemblerLaws A}.

(** The linker placed every child's image where this target's words reach. *)
Definition blobs_placed (case : Case) (arch : Arch) : Prop :=
  ∀ i, (i < length (children_of case))%nat →
  asm_value (child_start i) < word_bound arch ∧
  asm_value (child_end i +:+ " - " +:+ child_start i) < word_bound arch.

Lemma region_of_rows case arch rows :
  _region_rows case arch = Ok rows → region_of <$> rows = case_regions case arch.
Proof.
  intros ->%region_rows_Ok. rewrite !fmap_app, <-!list_fmap_compose. unfold case_regions.
  f_equal. f_equal.
  { apply list_fmap_ext. intros j x _. unfold compose, region_of, dest_row; cbn.
    by rewrite !asm_hex. }
  f_equal.
  - destruct (truthy (c_pool case)); [|done]. cbn. unfold region_of; cbn. by rewrite !asm_hex.
  - destruct (truthy (c_device case)); [|done]. cbn. unfold region_of; cbn. by rewrite !asm_hex.
Qed.

Lemma digits_comment i w1 w2 :
  all_chars not_star w1 = true → all_chars not_star w2 = true →
  all_chars not_star (w1 +:+ py_str i +:+ w2) = true.
Proof.
  intros H1 H2. rewrite !all_chars_app, H1, H2.
  rewrite (all_chars_impl is_digit not_star (py_str _)); [done| |apply py_str_digits].
  intros c Hc. unfold not_star. apply negb_true_iff, Ascii.eqb_neq. by intros ->.
Qed.

Lemma case_rows_ok case arch rows :
  layout_ok arch → _region_rows case arch = Ok rows → (length rows < 256)%nat →
  blobs_placed case arch → Forall (row_ok arch) rows.
Proof.
  intros Hlo Hrows Hlen Hblobs. apply region_rows_Ok in Hrows as ->.
  rewrite !length_app, !length_fmap, length_seq in Hlen.
  pose proof (word_bound_range arch) as [Hw _].
  assert (∀ n, n < 2 ^ 32 → asm_value (py_0x n) < word_bound arch) as Hhex.
  { intros n Hn. rewrite asm_hex. lia. }
  destruct Hlo as [Hp Hpl Hd Hb Hpf].
  repeat apply Forall_app_2; apply list.Forall_forall.
  - intros r (i & -> & Hi)%list_elem_of_fmap. apply elem_of_seq in Hi.
    destruct (Hblobs i ltac:(lia)). repeat split; cbn; try done. by apply digits_comment.
  - intros r (i & -> & Hi)%list_elem_of_fmap. apply elem_of_seq in Hi.
    repeat split; cbn [r_base r_len r_kind r_what dest_row]; try done.
    + apply Hhex. unfold child_base. change CHILD_REGION_LEN with 262144 in *. lia.
    + by apply Hhex.
    + by apply digits_comment.
  - intros r. destruct (truthy (c_pool case)); [|by intros ?%elem_of_nil].
    intros ->%list_elem_of_singleton. repeat split; cbn; try done; apply Hhex; lia.
  - intros r. destruct (truthy (c_device case)); [|by intros ?%elem_of_nil].
    intros ->%list_elem_of_singleton. repeat split; cbn; try done; apply Hhex;
      change CHILD_REGION_LEN with 262144 in *; lia.
Qed.

Lemma row_ok_fits arch r : row_ok arch r → region_fits (region_of r).
Proof.
  intros (Hb & Hl & Hk & _). pose proof (word_bound_range arch) as [_ Hw].
  repeat constructor; unfold fits; cbn [region_of g_base g_len g_kind].
  - change (8 * N.of_nat 8) with 64. lia.
  - change (8 * N.of_nat 8) with 64. lia.
  - exact Hk.
Qed.

Lemma case_table_roundtrip case arch rows :
  layout_ok arch → _region_rows case arch = Ok rows → (length rows < 256)%nat →
  blobs_placed case arch →
  assemble (table_lines arch rows) = table_bytes (case_regions case arch) ∧
  SosimgDump.dump_regions (assemble (table_lines arch rows)) =
  (table_dump (case_regions case arch), Ok tt).
Proof.
  intros Hlo Hrows Hlen Hblobs.
  pose proof (case_rows_ok _ _ _ Hlo Hrows Hlen Hblobs) as Hok.
  rewrite assemble_table, (region_of_rows case arch rows) by done. split; [done|].
  rewrite <-(region_of_rows case arch rows) by done. apply dump_table.
  - by rewrite length_fmap.
  - apply Forall_fmap. eapply list.Forall_impl; [exact Hok|].
    intros r. by apply row_ok_fits.
Qed.
End case_table.

(** A concrete assembler: the data directives, hexadecimal and decimal
    numbers, and a symbol table for everything else. *)
Definition sample_value (sym : string → N) (e : string) : N :=
  if startswith e "0x" then default 0 (hex_val (sdrop 2 e))
  else match dec_val e with Some n => n | None => sym e end.

Definition sample_bytes (sym : string → N) (l : string) : bytes :=
  if startswith l "    .4byte " then le_split 4 (sample_value sym (sdrop 11 l))
  else if startswith l "    .8byte " then le_split 8 (sample_value sym (sdrop 11 l))
  else if startswith l "    .2byte " then le_split 2 (sample_value sym (sdrop 11 l))
  else if String.eqb l "    .byte  0, 0, 0, 0, 0, 0, 0" then le_split 7 0
  else if startswith l "    .byte  " then le_split 1 (sample_value sym (sdrop 11 l))
  else [].

Definition sample_assembler (sym : string → N) : Assembler :=
  {| asm_value := sample_value sym; asm_bytes := sample_bytes sym |}.

Lemma digits_no_0x s : all_chars is_digit s = true → startswith s "0x" = false.
Proof.
  destruct s as [|c [|d s]]; [done|..]; cbn; [by rewrite andb_false_r|].
  rewrite !andb_true_iff. intros (_ & Hd & _).
  destruct (Ascii.eqb_spec "x" d) as [<-|_]; [done|]. by rewrite andb_false_r.
Qed.

Lemma sample_value_str sym n : sample_value sym (py_str n) = n.
Proof.
  unfold sample_value. by rewrite digits_no_0x, dec_val_str by apply py_str_digits.
Qed.

Lemma sample_laws sym : AssemblerLaws (sample_assembler sym).
Proof.
  constructor; cbn.
  - intros e He. unfold sample_bytes, startswith. by rewrite prefixb_app, (sdrop_app "    .4byte ").
  - intros e He. unfold sample_bytes.
    change (startswith ("    .8byte " +:+ e) "    .4byte ") with false.
    unfold startswith. by rewrite prefixb_app, (sdrop_app "    .8byte ").
  - intros n Hn. unfold sample_bytes.
    change (startswith ("    .2byte " +:+ py_str n) "    .4byte ") with false.
    change (startswith ("    .2byte " +:+ py_str n) "    .8byte ") with false.
    unfold startswith. by rewrite prefixb_app, (sdrop_app "    .2byte "), sample_value_str.
  - intros n Hn. unfold sample_bytes.
    change (startswith ("    .byte  " +:+ py_str n) "    .4byte ") with false.
    change (startswith ("    .byte  " +:+ py_str n) "    .8byte ") with false.
    change (startswith ("    .byte  " +:+ py_str n) "    .2byte ") with false.
    cbn [negb]. destruct (String.eqb_spec ("    .byte  " +:+ py_str n)
                   "    .byte  0, 0, 0, 0, 0, 0, 0") as [He|_].
    + apply (sapp_inv_head "    .byte  " _ "0, 0, 0, 0, 0, 0, 0") in He.
      pose proof (py_str_digits n) as Hd. by rewrite He in Hd.
    + unfold startswith. by rewrite prefixb_app, (sdrop_app "    .byte  "), sample_value_str.
  - done.
  - intros w Hw. done.
  - done.
  - intros n. unfold sample_value, startswith, py_0x.
    rewrite prefixb_app, (sdrop_app "0x"). by rewrite hex_val_hex.
  - intros n. unfold sample_value, startswith, hex_word.
    rewrite prefixb_app, (sdrop_app "0x"). by rewrite hex_val_hex_pad.
Qed.

(** A case with one child, a pool and a device window, its image linked at
    0x80010000 with length 0x1234. *)
Definition sample_case : Case :=
  dict "map_into_child" "" (EStr "") true [k_children ["c"]; k_pool true; k_device true].

Definition sample_sym (e : string) : N :=
  if String.eqb e "_sos_child0_start" then 0x80010000 else 0x1234.

(** ** Properties *)

(** C8. The table a case's stitched assembly declares is the table the dumper
    reads: on every architecture, for every case the row builder accepts, the
    assembled bytes are the frozen version-2 layout of the case's regions, and
    dumping them prints exactly those regions, in order, with a good magic. *)
Theorem region_table_roundtrip `{R : Repo} {A : Assembler} (laws : AssemblerLaws A)
    (case : Case) (arch : Arch) (rows : list row) :
  arch ∈ ARCHES → _region_rows case arch = Ok rows → (length rows < 256)%nat →
  blobs_placed case arch →
  assemble (table_lines arch rows) = table_bytes (case_regions case arch) ∧
  SosimgDump.dump_regions (assemble (table_lines arch rows)) =
  (table_dump (case_regions case arch), Ok tt).
Proof. intros Harch. by apply case_table_roundtrip, ARCHES_layout. Qed.

Lemma region_table_roundtrip_witness :
  SosimgDump.dump_regions (assemble (A := sample_assembler sample_sym)
    (table_lines (@arch_riscv32 sample_repo)
      (match _region_rows sample_case (@arch_riscv32 sample_repo) with Ok rows => rows | _ => [] end))) =
  ([ "magic     0x4e475253 (ok)"; "version   2"; "regions   4";
     "  row 0: base 0x0000000080010000  len 0x1234 (4660)  kind 0 (ram)";
     "  row 1: base 0x0000000080240000  len 0x40000 (262144)  kind 0 (ram)";
     "  row 2: base 0x0000000080280000  len 0x40000 (262144)  kind 0 (ram)";
     "  row 3: base 0x0000000010000000  len 0x1000 (4096)  kind 1 (device)" ], Ok tt).
Proof.
  refine (proj2 (region_table_roundtrip (R := sample_repo) (sample_laws sample_sym)
    sample_case (@arch_riscv32 sample_repo) _ _ eq_refl _ _)).
  - apply elem_of_cons. by left.
  - apply Nat.ltb_lt. reflexivity.
  - intros [|i] Hi; [split; reflexivity | cbn in Hi; lia].
Defined.

(** C17. The row builder refuses a case exactly when its fixed windows would
    overlap: on every architecture, the destination regions, the pool and the
    device window of an accepted case are pairwise disjoint, and a refused
    case's are not. *)
Theorem region_rows_accepts_iff_disjoint `{R : Repo} (case : Case) (arch : Arch) :
  arch ∈ ARCHES →
  is_ok (_region_rows case arch) = true ↔ all_disjoint (windows case arch).
Proof.
  intros Hlo%ARCHES_layout. rewrite windows_disjoint, <-region_rows_refused by done.
  by rewrite not_false_iff_true.
Qed.

Lemma region_rows_accepts_iff_disjoint_witness :
  all_disjoint (windows sample_case arch_arm64).
Proof.
  apply (region_rows_accepts_iff_disjoint (R := sample_repo)).
  - apply elem_of_cons. right. apply elem_of_cons. by left.
  - reflexivity.
Defined.

(** Row order is the contract: for an accepted case with [n] children the
    first [n] rows are the image blobs in case order, the next [n] their
    destinations in the same order, then the pool and the device window when
    asked for, and nothing else. *)
Theorem region_rows_order (case : Case) (arch : Arch) (rows : list row) :
  _region_rows case arch = Ok rows →
  let n := length (children_of case) in
  let p := if truthy (c_pool case) then 1%nat else 0%nat in
  let d := if truthy (c_device case) then 1%nat else 0%nat in
  length rows = (n + n + p + d)%nat ∧
  (∀ i, (i < n)%nat → rows !! i = Some (blob_row i)) ∧
  (∀ i, (i < n)%nat → rows !! (n + i)%nat = Some (dest_row arch i)) ∧
  (p = 1%nat → rows !! (n + n)%nat = Some (pool_row arch)) ∧
  (d = 1%nat → rows !! (n + n + p)%nat = Some (device_row arch)).
Proof.
  intros ->%region_rows_Ok n p d. subst p d.
  assert (∀ (f : nat → row) i, (i < n)%nat → (f <$> seq 0 n) !! i = Some (f i)) as Hseq.
  { intros f i Hi. by rewrite list_lookup_fmap, lookup_seq_lt. }
  split_and!.
  - rewrite !length_app, !length_fmap, !length_seq. fold n.
    destruct (truthy (c_pool case)), (truthy (c_device case)); cbn; lia.
  - intros i Hi. rewrite lookup_app_l by (by rewrite length_fmap, length_seq). by apply Hseq.
  - intros i Hi. rewrite lookup_app_r; rewrite length_fmap, length_seq; [|fold n; lia].
    fold n. replace (n + i - n)%nat with i by lia.
    rewrite lookup_app_l by (by rewrite length_fmap, length_seq). by apply Hseq.
  - destruct (truthy (c_pool case)); [|done]. intros _.
    rewrite app_assoc, lookup_app_r; rewrite length_app, !length_fmap, length_seq; fold n; [|lia].
    by rewrite Nat.sub_diag.
  - destruct (truthy (c_device case)); [|done]. intros _.
    rewrite !app_assoc, lookup_app_r; rewrite !length_app, !length_fmap, length_seq; fold n.
    + by destruct (truthy (c_pool case)); cbn; rewrite ?Nat.sub_diag.
    + destruct (truthy (c_pool case)); cbn; lia.
Qed.

Lemma region_rows_order_witness :
  length (match _region_rows sample_case arch_arm64 with Ok r => r | _ => [] end) = 4%nat.
Proof.
  exact (proj1 (region_rows_order sample_case arch_arm64 _ eq_refl)).
Defined.

End RegionTable.
