(* ===== verification/Packages.v ===== *)
(** * The packages the cases boot

    The [*_PKG] constants of tools/sos_runner.py: the directory of each Blade
    package a case names as its root server or as a child. *)

From S2P Require Import Prelude PyStr PyPath Arches.
From stdpp Require Import base list strings.

Section packages.
  Context `{R : Repo}.

Definition ROOT_PKG : string := join2 REPO_ROOT "root".
Definition FAULT_ROOT_PKG : string := join2 TESTS_DIR "faulting-root".
Definition THREAD_BASICS_PKG : string := join2 TESTS_DIR "thread-basics".
Definition THREAD_PREEMPT_PKG : string := join2 TESTS_DIR "thread-preempt".
Definition EVENT_BASICS_PKG : string := join2 TESTS_DIR "event-basics".
Definition EVENT_WAKE_PKG : string := join2 TESTS_DIR "event-wake".
Definition EVENT_CONSUME_PKG : string := join2 TESTS_DIR "event-consume".
Definition EVENT_CONSUME_WAKE_PKG : string := join2 TESTS_DIR "event-consume-wake".
Definition EVENT_DUPKEY_PKG : string := join2 TESTS_DIR "event-dupkey".
Definition UART_ECHO_NS16550_PKG : string := join2 TESTS_DIR "uart-echo-ns16550".
Definition UART_ECHO_PL011_PKG : string := join2 TESTS_DIR "uart-echo-pl011".
Definition IRQ_BADLINE_PKG : string := join2 TESTS_DIR "irq-badline".
Definition IRQ_EARLYACK_PKG : string := join2 TESTS_DIR "irq-earlyack".
Definition WAIT_DEADLOCK_PKG : string := join2 TESTS_DIR "wait-deadlock".
Definition PROCESS_LIFECYCLE_PKG : string := join2 TESTS_DIR "process-lifecycle".
Definition PROCESS_ISOLATION_PKG : string := join2 TESTS_DIR "process-isolation".
Definition PROCESS_BADIMAGE_PKG : string := join2 TESTS_DIR "process-badimage".
Definition PROCESS_DOUBLESTART_PKG : string := join2 TESTS_DIR "process-doublestart".
Definition PROCESS_BOOTDRAIN_PKG : string := join2 TESTS_DIR "process-bootdrain".
Definition CHILD_FAULT_PKG : string := join2 TESTS_DIR "child-fault".
Definition CHILD_POKE_PKG : string := join2 TESTS_DIR "child-poke".
Definition HANDLE_REMINT_PKG : string := join2 TESTS_DIR "handle-remint".
Definition HANDLE_RELEASE_UNGATED_PKG : string := join2 TESTS_DIR "handle-release-ungated".
Definition HANDLE_RELEASE_NOTHING_PKG : string := join2 TESTS_DIR "handle-release-nothing".
Definition HANDLE_RELEASE_TWICE_PKG : string := join2 TESTS_DIR "handle-release-twice".
Definition HANDLE_MALFORMED_WORD_PKG : string := join2 TESTS_DIR "handle-malformed-word".
Definition HANDLE_DROP_RELEASE_PKG : string := join2 TESTS_DIR "handle-drop-release".
Definition PROCESS_RECLAIM_PKG : string := join2 TESTS_DIR "process-reclaim".
Definition GIVE_BOOT_DRAIN_PKG : string := join2 TESTS_DIR "give-boot-drain".
Definition GIVE_DUPLICATE_TAG_PKG : string := join2 TESTS_DIR "give-duplicate-tag".
Definition GIVE_AFTER_START_PKG : string := join2 TESTS_DIR "give-after-start".
Definition GIVE_NO_TRANSFER_PKG : string := join2 TESTS_DIR "give-no-transfer".
Definition START_BAD_TAG_PKG : string := join2 TESTS_DIR "start-bad-tag".
Definition GIVE_WORD_DEAD_PKG : string := join2 TESTS_DIR "give-word-dead".
Definition MINT_REVOKED_PKG : string := join2 TESTS_DIR "mint-revoked".
Definition CHILD_NO_SHUTDOWN_PKG : string := join2 TESTS_DIR "child-no-shutdown".
Definition CHILD_DRAIN_PKG : string := join2 TESTS_DIR "child-drain".
Definition CHILD_OVERSTEPS_PKG : string := join2 TESTS_DIR "child-oversteps".
Definition MEMORY_SPLIT_PKG : string := join2 TESTS_DIR "memory-split".
Definition MAP_BASICS_PKG : string := join2 TESTS_DIR "map-basics".
Definition MAP_UNMAP_PKG : string := join2 TESTS_DIR "map-unmap".
Definition MAP_INTO_CHILD_PKG : string := join2 TESTS_DIR "map-into-child".
Definition IOMEMORY_CARVE_PKG : string := join2 TESTS_DIR "iomemory-carve".
Definition CHILD_TOUCH_PKG : string := join2 TESTS_DIR "child-touch".
Definition QUOTA_EXCEEDED_PKG : string := join2 TESTS_DIR "quota-exceeded".
Definition QUOTA_VS_WALL_PKG : string := join2 TESTS_DIR "quota-vs-wall".
Definition REFCOUNT_FREE_PKG : string := join2 TESTS_DIR "refcount-free".
Definition INTERRUPT_UNBIND_PKG : string := join2 TESTS_DIR "interrupt-unbind".
Definition MAPPING_SLOT_FREE_PKG : string := join2 TESTS_DIR "mapping-slot-free".
Definition MEMORY_RECYCLE_PKG : string := join2 TESTS_DIR "memory-recycle".
Definition SLAB_DONATE_PKG : string := join2 TESTS_DIR "slab-donate".
Definition SLAB_DONATE_SHARED_PKG : string := join2 TESTS_DIR "slab-donate-shared".
Definition THREAD_DONATE_PKG : string := join2 TESTS_DIR "thread-donate".
Definition PIPE_DONATE_PKG : string := join2 TESTS_DIR "pipe-donate".
Definition SLAB_DONATE_MAPPED_PKG : string := join2 TESTS_DIR "slab-donate-mapped".
Definition SLAB_DONATE_MAPPED_CHILD_PKG : string := join2 TESTS_DIR "child-donor".
Definition SLAB_DONATE_NODES_PKG : string := join2 TESTS_DIR "slab-donate-free-nodes".
Definition PROCESS_DONATE_PKG : string := join2 TESTS_DIR "process-donate".
Definition ECHO_CHILD_PKG : string := join2 TESTS_DIR "echo-child".
Definition ECHO_CHILD2_PKG : string := join2 TESTS_DIR "echo-child2".
Definition ECHO_CHILD3_PKG : string := join2 TESTS_DIR "echo-child3".
Definition CHILD_QUOTA_PKG : string := join2 TESTS_DIR "child-quota".
Definition CHILD_MAPWALL_PKG : string := join2 TESTS_DIR "child-mapwall".
Definition DEATH_NOTIFY_PKG : string := join2 TESTS_DIR "death-notify".
Definition DEATH_FAULT_PKG : string := join2 TESTS_DIR "death-fault".
Definition DEATH_LATE_ATTACH_PKG : string := join2 TESTS_DIR "death-late-attach".
Definition CHILD_BYE_PKG : string := join2 TESTS_DIR "child-bye".
Definition DRIVER_CHILD_PKG : string := join2 TESTS_DIR "driver-child".
Definition CHILD_ECHO_NS16550_PKG : string := join2 TESTS_DIR "child-echo-ns16550".
Definition CHILD_ECHO_PL011_PKG : string := join2 TESTS_DIR "child-echo-pl011".
Definition SHARE_DOUBLE_MAP_PKG : string := join2 TESTS_DIR "share-double-map".
Definition MAP_PLACED_PKG : string := join2 TESTS_DIR "map-placed".
Definition CHILD_PLACED_PKG : string := join2 TESTS_DIR "child-placed".
Definition CHILD_SHARE_PKG : string := join2 TESTS_DIR "child-share".
Definition MAP_EXEC_GATED_PKG : string := join2 TESTS_DIR "map-exec-gated".
Definition MAP_WX_REFUSED_PKG : string := join2 TESTS_DIR "map-wx-refused".
Definition WAITER_REVOKED_PKG : string := join2 TESTS_DIR "waiter-revoked".
Definition PIPE_BASICS_PKG : string := join2 TESTS_DIR "pipe-basics".
Definition PIPE_PEER_GONE_PKG : string := join2 TESTS_DIR "pipe-peer-gone".
Definition PIPE_CHILD_PKG : string := join2 TESTS_DIR "pipe-child".
Definition CHILD_POST_PKG : string := join2 TESTS_DIR "child-post".
Definition PIPE_NO_POST_PKG : string := join2 TESTS_DIR "pipe-no-post".
Definition PIPE_OVERSIZED_PKG : string := join2 TESTS_DIR "pipe-oversized".
Definition PIPE_ONESHOT_PKG : string := join2 TESTS_DIR "pipe-oneshot".
Definition PIPE_ABANDON_PKG : string := join2 TESTS_DIR "pipe-abandon".
Definition PIPE_DELEGATE_PKG : string := join2 TESTS_DIR "pipe-delegate".
Definition CHILD_REPLY_PKG : string := join2 TESTS_DIR "child-reply".
Definition PIPE_NO_REPLY_PKG : string := join2 TESTS_DIR "pipe-no-reply".
Definition PIPE_BIG_REPLY_PKG : string := join2 TESTS_DIR "pipe-big-reply".
Definition PIPE_DEAD_CLAIM_PKG : string := join2 TESTS_DIR "pipe-dead-claim".
Definition PIPE_WAIT_REPLY_PKG : string := join2 TESTS_DIR "pipe-wait-reply".
Definition PIPE_WAIT_GIVE_PKG : string := join2 TESTS_DIR "pipe-wait-give".
Definition PIPE_WAIT_ROOM_PKG : string := join2 TESTS_DIR "pipe-wait-room".
Definition PIPE_WAIT_SERVER_PKG : string := join2 TESTS_DIR "pipe-wait-server".
Definition PIPE_SEND_MANUAL_PKG : string := join2 TESTS_DIR "pipe-send-manual".
Definition CHILD_SERVER_PKG : string := join2 TESTS_DIR "child-server".
Definition PIPE_NO_WAIT_PKG : string := join2 TESTS_DIR "pipe-no-wait".
Definition PIPE_BAD_MODE_PKG : string := join2 TESTS_DIR "pipe-bad-mode".
Definition PROCESS_STATS_PKG : string := join2 TESTS_DIR "process-stats".
Definition CHILD_STATS_PKG : string := join2 TESTS_DIR "child-stats".
Definition PIPE_PINGPONG_PKG : string := join2 TESTS_DIR "pipe-pingpong".
Definition CHILD_PINGPONG_PKG : string := join2 TESTS_DIR "child-pingpong".
Definition PIPE_CALL_ABANDON_PKG : string := join2 TESTS_DIR "pipe-call-abandon".
Definition CHILD_CALLER_PKG : string := join2 TESTS_DIR "child-caller".
Definition PIPE_CALL_ORPHAN_PKG : string := join2 TESTS_DIR "pipe-call-orphan".
Definition CHILD_ORPHAN_PKG : string := join2 TESTS_DIR "child-orphan".
Definition PIPE_RESOLVE_ORPHAN_PKG : string := join2 TESTS_DIR "pipe-resolve-orphan".
Definition CHILD_RESOLVER_PKG : string := join2 TESTS_DIR "child-resolver".
Definition PIPE_NO_CALL_PKG : string := join2 TESTS_DIR "pipe-no-call".
Definition PIPE_CALL_OVERSIZED_PKG : string := join2 TESTS_DIR "pipe-call-oversized".
Definition PIPE_REPLY_WAIT_DEAD_PKG : string := join2 TESTS_DIR "pipe-reply-wait-dead".
Definition PIPE_HANDLES_PKG : string := join2 TESTS_DIR "pipe-handles".
Definition PIPE_DELEGATE_MSG_PKG : string := join2 TESTS_DIR "pipe-delegate-msg".
Definition CHILD_HANDLES_PKG : string := join2 TESTS_DIR "child-handles".
Definition CHILD_SENDER_PKG : string := join2 TESTS_DIR "child-sender".
Definition PIPE_SEND_EXIT_PKG : string := join2 TESTS_DIR "pipe-send-exit".
Definition PIPE_TABLE_FULL_PKG : string := join2 TESTS_DIR "pipe-table-full".
Definition PIPE_CQ_PKG : string := join2 TESTS_DIR "pipe-cq".
Definition PIPE_RESOLVE_PARK_PKG : string := join2 TESTS_DIR "pipe-resolve-park".
Definition GIVE_KEEP_MASK_PKG : string := join2 TESTS_DIR "give-keep-mask".
Definition CHILD_NARROW_PKG : string := join2 TESTS_DIR "child-narrow".
Definition UART_SERVICE_PKG : string := join2 TESTS_DIR "uart-service".
Definition UART_CANCEL_PKG : string := join2 TESTS_DIR "uart-cancel".
Definition SVC_UART_NS16550_PKG : string := join2 TESTS_DIR "svc-uart-ns16550".
Definition SVC_UART_PL011_PKG : string := join2 TESTS_DIR "svc-uart-pl011".
Definition SVC_CLIENT_PKG : string := join2 TESTS_DIR "svc-client".
Definition DELEGATE_3P_PKG : string := join2 TESTS_DIR "delegate-3p".
Definition CHILD_FORWARD_PKG : string := join2 TESTS_DIR "child-forward".
Definition CHILD_FAR_PKG : string := join2 TESTS_DIR "child-far".
Definition CLOCK_BASICS_PKG : string := join2 TESTS_DIR "clock-basics".
Definition TIMER_ONESHOT_PKG : string := join2 TESTS_DIR "timer-oneshot".
Definition TIMER_INTERVAL_PKG : string := join2 TESTS_DIR "timer-interval".
Definition TIMER_DEADLOCK_PKG : string := join2 TESTS_DIR "timer-deadlock".
Definition TIMER_BADCLOCK_PKG : string := join2 TESTS_DIR "timer-badclock".
Definition TIMER_BADRECORD_PKG : string := join2 TESTS_DIR "timer-badrecord".
Definition TIER_WORD_PKG : string := join2 TESTS_DIR "tier-word".
Definition STATS_REGION_PKG : string := join2 TESTS_DIR "stats-region".
Definition STATS_READER_PKG : string := join2 TESTS_DIR "stats-reader".
Definition STATS_REGION_RO_PKG : string := join2 TESTS_DIR "stats-region-ro".
Definition ARENA_SMALL_PKG : string := join2 TESTS_DIR "arena-small".
Definition C_HELLO_PKG : string := join2 TESTS_DIR "c-hello".
Definition C_CHILD_PKG : string := join2 TESTS_DIR "c-child".
End packages.
