(* ===== verification/CasesA.v ===== *)
(** * The case table, part A

    Entries of [TEST_CASES] in tools/sos_runner.py, in the order of the source,
    from [no_root_image] to [wait_deadlock]. *)

From S2P Require Import Prelude PyStr PyPath Arches Packages Case.
From stdpp Require Import base list strings numbers.

Section cases.
  Context `{R : Repo}.

Definition case_no_root_image : Case :=
    dict "no_root_image" (join2 KERNEL_DIR "main.saw")
      (EList ["{banner}"; "bad root image: no root image appended"])
      false [].

Definition case_trap_fault : Case :=
    dict "trap_fault" (join2 TESTS_DIR "trap.saw")
      ENone
      false [].

Definition case_panic_seam : Case :=
    dict "panic_seam" (join2 TESTS_DIR "panic.saw")
      (EStr "SOS M0: deliberate panic")
      false [].

Definition case_panic_from_check : Case :=
    dict "panic_from_check" (join2 TESTS_DIR "panic_from_check.saw")
      (EList ["panic at "; "vector.saw:"; "Vector.[]: index out of range"])
      false [].

Definition case_task_dump : Case :=
    dict "task_dump" (join2 TESTS_DIR "taskdump.saw")
      (EList ["saw tasks: 2 live (unsynchronized snapshot)";
            "at taskdump.saw:93 in knap"; "at taskdump.saw:98 in ksleeper";
            "panic at taskdump.saw:114: SOS task dump: deliberate panic";
            "saw tasks: 1 live (as-of panic, unsynchronized)";
            "at taskdump.saw:93 in knap"; "at taskdump.saw:98 in ksleeper"])
      false [k_csrc "taskdump_stubs.c"].

Definition case_task_dump_empty : Case :=
    dict "task_dump_empty" (join2 TESTS_DIR "taskdump_empty.saw")
      (EList ["saw tasks: none live";
            "panic at taskdump_empty.saw:21: SOS task dump: no tasks here"])
      false [].

Definition case_umode_syscall : Case :=
    dict "umode_syscall" (join2 TESTS_DIR "umode.saw")
      (EList ["SOS M1: entering U-mode"; "SOS-U"])
      true [k_asm "payload_ok.S"].

Definition case_umode_access_fault : Case :=
    dict "umode_access_fault" (join2 TESTS_DIR "umode.saw")
      (EStr "fault store-access-fault")
      false [k_tier TIER_ISOLATED;
            k_tier_reason "a U-mode store into kernel .text must FAULT; a flat platform permits it and the line never appears";
            k_asm "payload_fault.S"].

Definition case_umode_bad_calls : Case :=
    dict "umode_bad_calls" (join2 TESTS_DIR "umode.saw")
      (EList ["SOS M1: entering U-mode"; "!"; "SOS: process fault: bad op";
            "SOS: process teardown handles={three} threads={one}"])
      false [k_asm "payload_badcall.S"; k_expect_status EXIT_PROCESS_FAULT].

Definition case_timer_tick : Case :=
    dict "timer_tick" (join2 TESTS_DIR "timer.saw")
      (EList ["SOS M2: timer armed"; "SOS M2: entering U-mode";
            "SOS: timer tick {one} at "; "SOS: timer tick {two} at "])
      true [k_asm "payload_spin.S"].

Definition case_timer_masked_in_kernel : Case :=
    dict "timer_masked_in_kernel" (join2 TESTS_DIR "timer_mask.saw")
      (EList ["SOS M2: kernel section begin";
            "SOS M2: kernel section end, timer expired, ticks taken={zero}";
            "SOS M2: entering U-mode"; "SOS: timer tick {one} at "])
      true [k_asm "payload_spin.S"].

Definition case_external_irq : Case :=
    dict "external_irq" (join2 TESTS_DIR "extirq.saw")
      (EList ["SOS M2: raised external irq {irq_line}"; "SOS M2: entering U-mode";
            "SOS: external irq {irq_line}"])
      true [k_asm "payload_spin.S"].

Definition case_preempt_tick : Case :=
    dict "preempt_tick" (join2 TESTS_DIR "preempt_tick.saw")
      (EList ["SOS M3: kernel section begin"; "SOS: timer tick {one} at {one}";
            "SOS M3: kernel section end, ticks taken={one}"; "SOS M3: entering U-mode"])
      true [k_asm "payload_spin.S"].

Definition case_preempt_extirq : Case :=
    dict "preempt_extirq" (join2 TESTS_DIR "preempt_extirq.saw")
      (EList ["SOS M3: raised external irq {irq_line}"; "SOS M3: kernel section begin";
            "SOS: external irq {irq_line}"; "SOS M3: kernel section end";
            "SOS M3: entering U-mode"])
      true [k_asm "payload_spin.S"].

Definition case_root_image_load : Case :=
    dict "root_image_load" (join2 KERNEL_DIR "main.saw")
      (EList ["{banner}"; "root image ok segments={one} entry={entry} prio={prio}";
            "SOS-R"])
      true [k_asm "payload_sosimg.S"].

Definition case_root_image_bad_magic : Case :=
    dict "root_image_bad_magic" (join2 KERNEL_DIR "main.saw")
      (EStr "bad root image: bad magic")
      false [k_asm "payload_badmagic.S"].

Definition case_root_image_bad_version : Case :=
    dict "root_image_bad_version" (join2 KERNEL_DIR "main.saw")
      (EStr "bad root image: unsupported version")
      false [k_asm "payload_badversion.S"].

Definition case_root_image_wrong_arch : Case :=
    dict "root_image_wrong_arch" (join2 KERNEL_DIR "main.saw")
      (EStr "bad root image: image is for another architecture")
      false [k_asm "payload_wrongarch.S"].

Definition case_root_image_bad_segment : Case :=
    dict "root_image_bad_segment" (join2 KERNEL_DIR "main.saw")
      (EStr "bad root image: segment loads below the root region")
      false [k_asm "payload_badsegment.S"].

Definition case_root_server_boot : Case :=
    dict "root_server_boot" (join2 KERNEL_DIR "main.saw")
      (EList ["{banner}"; "root image ok segments={two}"; "prio={prio}";
            "SOS root: hello from U-mode via a System op"; "SOS root: boot handle 1"])
      true [k_root_pkg ROOT_PKG].

Definition case_thread_basics : Case :=
    dict "thread_basics" (join2 KERNEL_DIR "main.saw")
      (EList ["{banner}"; "SOS threads: two workers, status word 0"; "ABABABAB";
            "SOS threads: joined a=11 b=22";
            "SOS: process teardown handles={ten} threads={three} events={zero} waiters={zero}"])
      true [k_root_pkg THREAD_BASICS_PKG].

Definition case_thread_preempt : Case :=
    dict "thread_preempt" (join2 TESTS_DIR "threads_timer.saw")
      (EList ["SOS M2: preemptive kernel up on"; "AB"; "BA"; "AB";
            "SOS preempt: joined a=33 b=44"])
      true [k_root_pkg THREAD_PREEMPT_PKG; k_strip_kernel_lines true;
            k_overlapping_matches true].

Definition case_umode_bad_handle : Case :=
    dict "umode_bad_handle" (join2 TESTS_DIR "umode.saw")
      (EList ["SOS M1: entering U-mode"; "SOS: process fault: bad handle";
            "SOS: process teardown handles={three} threads={one}"])
      false [k_asm "payload_badhandle.S"; k_expect_status EXIT_PROCESS_FAULT].

Definition case_event_basics : Case :=
    dict "event_basics" (join2 KERNEL_DIR "main.saw")
      (EList ["{banner}"; "SOS events: signal-then-wait key=11 at-wait=4 after=0";
            "SOS events: second key=22 at-wait=8 after=0";
            "SOS events: or key=11 at-wait=3 after=0"; "SOS events: detached word=8";
            "SOS events: counting key=33 at-wait=5 after=0 saturated=1";
            "SOS events: done";
            "SOS: process teardown handles={eight} threads={one} events={three} waiters={one}"])
      true [k_root_pkg EVENT_BASICS_PKG].

Definition case_event_wake : Case :=
    dict "event_wake" (join2 KERNEL_DIR "main.saw")
      (EList ["{banner}"; "SOS wake: worker started, parking";
            "SOS wake: worker signalling"; "SOS wake: woke key=77 at-wait=1 after=4";
            "SOS wake: joined worker=99"])
      true [k_root_pkg EVENT_WAKE_PKG].

Definition case_umode_not_waitable : Case :=
    dict "umode_not_waitable" (join2 TESTS_DIR "umode.saw")
      (EList ["SOS M1: entering U-mode"; "SOS: process fault: not a waitable";
            "SOS: process teardown handles={four} threads={one} events={zero} waiters={one}"])
      false [k_asm "payload_notwaitable.S"; k_expect_status EXIT_PROCESS_FAULT].

Definition case_event_dupkey : Case :=
    dict "event_dupkey" (join2 KERNEL_DIR "main.saw")
      (EList ["{banner}"; "SOS dupkey: first attach ok";
            "SOS: process fault: an attachment already uses that key";
            "SOS: process teardown handles={seven} threads={one} events={two} waiters={one}"])
      false [k_root_pkg EVENT_DUPKEY_PKG; k_expect_status EXIT_PROCESS_FAULT].

Definition case_umode_bad_wait_buffer : Case :=
    dict "umode_bad_wait_buffer" (join2 TESTS_DIR "umode.saw")
      (EList ["SOS M1: entering U-mode";
            "SOS: process fault: buffer is outside the process's memory";
            "SOS: process teardown handles={four} threads={one} events={zero} waiters={one}"])
      false [k_asm "payload_badbuffer.S"; k_expect_status EXIT_PROCESS_FAULT].

Definition case_umode_misaligned_wait_buffer : Case :=
    dict "umode_misaligned_wait_buffer" (join2 TESTS_DIR "umode.saw")
      (EList ["SOS M1: entering U-mode";
            "SOS: process fault: buffer is not word-aligned";
            "SOS: process teardown handles={four} threads={one} events={zero} waiters={one}"])
      false [k_asm "payload_misalignbuf.S"; k_expect_status EXIT_PROCESS_FAULT].

Definition case_uart_echo_ns16550 : Case :=
    dict "uart_echo_ns16550" (join2 KERNEL_DIR "main.saw")
      (EList ["{banner}"; "root image ok segments={two}"; "SOS: boot regions={one}";
            "SOS: console handover"; "SOS echo: window mapped"; "SOS echo: driver up";
            ECHO_INPUT; "SOS echo: done 4 bytes on line 10"])
      true [k_arches ["riscv32"; "riscv32-flat"]; k_root_pkg UART_ECHO_NS16550_PKG;
            k_device true; k_stdin ECHO_INPUT].

Definition case_uart_echo_pl011 : Case :=
    dict "uart_echo_pl011" (join2 KERNEL_DIR "main.saw")
      (EList ["{banner}"; "root image ok segments={two}"; "SOS: boot regions={one}";
            "SOS: console handover"; "SOS echo: window mapped"; "SOS echo: driver up";
            ECHO_INPUT; "SOS echo: done 4 bytes on line 33"])
      true [k_arches ["arm64"]; k_root_pkg UART_ECHO_PL011_PKG; k_device true;
            k_stdin ECHO_INPUT].

Definition case_irq_bad_line : Case :=
    dict "irq_bad_line" (join2 KERNEL_DIR "main.saw")
      (EList ["{banner}"; "SOS badline: binding a line this board lacks";
            "SOS: process fault: argument outside its domain";
            "SOS: process teardown handles={four} threads={one} events={zero} waiters={zero} interrupts={zero}"])
      false [k_root_pkg IRQ_BADLINE_PKG; k_expect_status EXIT_PROCESS_FAULT].

Definition case_irq_early_ack : Case :=
    dict "irq_early_ack" (join2 KERNEL_DIR "main.saw")
      (EList ["{banner}"; "SOS earlyack: bound, acking without a fire";
            "SOS: process fault: object in the wrong state";
            "SOS: process teardown handles={five} threads={one} events={zero} waiters={zero} interrupts={one}"])
      false [k_root_pkg IRQ_EARLYACK_PKG; k_expect_status EXIT_PROCESS_FAULT].

Definition case_wait_deadlock : Case :=
    dict "wait_deadlock" (join2 KERNEL_DIR "main.saw")
      (EList ["{banner}"; "SOS deadlock: waiting for a signal nobody sends";
            "SOS: process fault: every thread blocked";
            "SOS: process teardown handles={six} threads={one} events={one} waiters={one} interrupts={zero}"])
      false [k_root_pkg WAIT_DEADLOCK_PKG; k_expect_status EXIT_PROCESS_FAULT].

Definition cases_A : list Case :=
    [case_no_root_image; case_trap_fault; case_panic_seam; case_panic_from_check;
     case_task_dump; case_task_dump_empty; case_umode_syscall; case_umode_access_fault;
     case_umode_bad_calls; case_timer_tick; case_timer_masked_in_kernel;
     case_external_irq; case_preempt_tick; case_preempt_extirq; case_root_image_load;
     case_root_image_bad_magic; case_root_image_bad_version;
     case_root_image_wrong_arch; case_root_image_bad_segment; case_root_server_boot;
     case_thread_basics; case_thread_preempt; case_umode_bad_handle; case_event_basics;
     case_event_wake; case_umode_not_waitable; case_event_dupkey;
     case_umode_bad_wait_buffer; case_umode_misaligned_wait_buffer;
     case_uart_echo_ns16550; case_uart_echo_pl011; case_irq_bad_line;
     case_irq_early_ack; case_wait_deadlock].
End cases.
