(* ===== verification/CasesB.v ===== *)
(** * The case table, part B

    Entries of [TEST_CASES] in tools/sos_runner.py, in the order of the source,
    from [clock_basics] to [iomemory_carve]. *)

From S2P Require Import Prelude PyStr PyPath Arches Packages Case.
From stdpp Require Import base list strings numbers.

Section cases.
  Context `{R : Repo}.

Definition case_clock_basics : Case :=
    dict "clock_basics" (join2 KERNEL_DIR "main.saw")
      (EList ["{banner}"; "SOS clock: minted=1 differs=1"; "SOS clock: monotonic=1";
            "SOS clock: advanced=1 spanned=1"; "SOS clock: disarm_unarmed=1";
            "SOS clock: done";
            "SOS: process teardown handles={eight} threads={one} events={zero} waiters={zero} interrupts={zero} timers={one}"])
      true [k_root_pkg CLOCK_BASICS_PKG].

Definition case_timer_oneshot : Case :=
    dict "timer_oneshot" (join2 KERNEL_DIR "main.saw")
      (EList ["{banner}"; "SOS oneshot: parking on a timer";
            "SOS oneshot: woke key=55 fires=1 slept=1";
            "SOS oneshot: rearmed woke fires=1"; "SOS oneshot: done";
            "SOS: process teardown handles={seven} threads={one} events={zero} waiters={one} interrupts={zero} timers={one}"])
      true [k_root_pkg TIMER_ONESHOT_PKG].

Definition case_timer_interval : Case :=
    dict "timer_interval" (join2 KERNEL_DIR "main.saw")
      (EList ["{banner}"; "SOS interval: tick one fires=";
            "SOS interval: tick two fires="; "ackfree=1"; "SOS interval: coalesced=1";
            "SOS interval: drained fires=1"; "SOS interval: done";
            "SOS: process teardown handles={seven} threads={one} events={zero} waiters={one} interrupts={zero} timers={one}"])
      true [k_root_pkg TIMER_INTERVAL_PKG].

Definition case_timer_deadlock : Case :=
    dict "timer_deadlock" (join2 KERNEL_DIR "main.saw")
      (EList ["{banner}"; "SOS timerdead: waiting on a timer nobody armed";
            "SOS: process fault: every thread blocked";
            "SOS: process teardown handles={seven} threads={one} events={zero} waiters={one} interrupts={zero} timers={one}"])
      false [k_root_pkg TIMER_DEADLOCK_PKG; k_expect_status EXIT_PROCESS_FAULT].

Definition case_timer_badclock : Case :=
    dict "timer_badclock" (join2 KERNEL_DIR "main.saw")
      (EList ["{banner}"; "SOS badclock: asking for a domain that does not exist";
            "SOS: process fault: argument outside its domain";
            "SOS: process teardown handles={three} threads={one} events={zero} waiters={zero} interrupts={zero} timers={zero}"])
      false [k_root_pkg TIMER_BADCLOCK_PKG; k_expect_status EXIT_PROCESS_FAULT].

Definition case_timer_badrecord : Case :=
    dict "timer_badrecord" (join2 KERNEL_DIR "main.saw")
      (EList ["{banner}"; "SOS badrecord: arming with a short record";
            "SOS: process fault: argument outside its domain";
            "SOS: process teardown handles={five} threads={one} events={zero} waiters={zero} interrupts={zero} timers={one}"])
      false [k_root_pkg TIMER_BADRECORD_PKG; k_expect_status EXIT_PROCESS_FAULT].

Definition case_event_consume : Case :=
    dict "event_consume" (join2 KERNEL_DIR "main.saw")
      (EList ["{banner}"; "SOS consume: or key=11 at-wait=3 after=0";
            "SOS consume: newbits key=11 at-wait=8 after=0";
            "SOS consume: sum key=22 at-wait=3 after=0"; "SOS consume: done";
            "SOS: process teardown handles={seven} threads={one} events={two} waiters={one}"])
      true [k_root_pkg EVENT_CONSUME_PKG].

Definition case_event_consume_wake : Case :=
    dict "event_consume_wake" (join2 KERNEL_DIR "main.saw")
      (EList ["{banner}"; "SOS consumewake: initial parking";
            "SOS consumewake: worker signalling";
            "SOS consumewake: woke first key=41 at-wait=5 after=0";
            "SOS consumewake: worker second signal";
            "SOS consumewake: woke second key=41 at-wait=2";
            "SOS consumewake: joined worker=99"; "events={two} waiters={two}"])
      true [k_root_pkg EVENT_CONSUME_WAKE_PKG].

Definition case_root_server_oversteps : Case :=
    dict "root_server_oversteps" (join2 KERNEL_DIR "main.saw")
      (EList ["SOS root: reaching for the kernel"; "fault store-access-fault"])
      false [k_tier TIER_ISOLATED;
            k_tier_reason "root reaching into kernel memory must FAULT; a flat platform lets the store land";
            k_root_pkg FAULT_ROOT_PKG].

Definition case_process_lifecycle : Case :=
    dict "process_lifecycle" (join2 KERNEL_DIR "main.saw")
      (EList ["{banner}"; "SOS: boot regions={two}";
            "SOS lifecycle: boot regions tag0=0 tag1=1"; "SOS lifecycle: created";
            "SOS lifecycle: started"; "SOS: process fault: bad handle process={one}";
            "SOS: process teardown handles={zero} threads={one} events={zero} waiters={zero} interrupts={zero} timers={zero} process={one}";
            "SOS lifecycle: root survived child status=131073"; "SOS lifecycle: done"])
      true [k_root_pkg PROCESS_LIFECYCLE_PKG; k_children [CHILD_FAULT_PKG]].

Definition case_process_isolation : Case :=
    dict "process_isolation" (join2 KERNEL_DIR "main.saw")
      (EList ["{banner}"; "SOS isolation: started"; "SOS: fault ";
            "SOS: process teardown handles={zero} threads={one} events={zero} waiters={zero} interrupts={zero} timers={zero} process={one}";
            "SOS isolation: root survived child status=131072";
            "SOS isolation: child syscalls=0 faults=1"; "SOS isolation: done"])
      true [k_tier TIER_ISOLATED;
            k_tier_reason "peer isolation is the property the Flat tier disclaims BY NAME (design 19) — the child's poke would land";
            k_root_pkg PROCESS_ISOLATION_PKG; k_children [CHILD_POKE_PKG]].

Definition case_process_badimage : Case :=
    dict "process_badimage" (join2 KERNEL_DIR "main.saw")
      (EList ["{banner}"; "SOS badimage: create refused: not a loadable process image";
            "SOS badimage: still running, exiting clean"])
      true [k_root_pkg PROCESS_BADIMAGE_PKG; k_children [CHILD_FAULT_PKG]].

Definition case_process_doublestart : Case :=
    dict "process_doublestart" (join2 KERNEL_DIR "main.saw")
      (EList ["{banner}"; "SOS doublestart: started once";
            "SOS: process fault: object in the wrong state process={zero}";
            "SOS: process teardown handles="])
      false [k_root_pkg PROCESS_DOUBLESTART_PKG; k_children [CHILD_FAULT_PKG];
            k_expect_status EXIT_PROCESS_FAULT].

Definition case_process_bootdrain : Case :=
    dict "process_bootdrain" (join2 KERNEL_DIR "main.saw")
      (EList ["{banner}"; "SOS: boot regions={two}"; "SOS bootdrain: n=2 tags=1 kinds=0";
            "SOS bootdrain: exhausted, and still exhausted"; "SOS bootdrain: done"])
      true [k_root_pkg PROCESS_BOOTDRAIN_PKG; k_children [CHILD_FAULT_PKG]].

Definition case_handle_remint : Case :=
    dict "handle_remint" (join2 KERNEL_DIR "main.saw")
      (EList ["{banner}"; "SOS remint: differs=1 reused=1";
            "SOS remint: using the word we gave back";
            "SOS: process fault: bad handle process={zero}";
            "SOS: process teardown handles={five} threads={one} events={zero} waiters={zero} interrupts={zero} timers={zero} process={zero}"])
      false [k_root_pkg HANDLE_REMINT_PKG; k_expect_status EXIT_PROCESS_FAULT].

Definition case_handle_release_ungated : Case :=
    dict "handle_release_ungated" (join2 KERNEL_DIR "main.saw")
      (EList ["{banner}"; "SOS release: ungated=1 refilled=1"; "SOS release: done";
            "SOS: process teardown handles={five} threads={one} events={zero} waiters={zero} interrupts={zero} timers={zero} process={zero}"])
      true [k_root_pkg HANDLE_RELEASE_UNGATED_PKG].

Definition case_handle_release_nothing : Case :=
    dict "handle_release_nothing" (join2 KERNEL_DIR "main.saw")
      (EList ["{banner}"; "SOS releasenothing: releasing a word that names nothing";
            "SOS: process fault: bad handle process={zero}";
            "SOS: process teardown handles={three} threads={one} events={zero} waiters={zero} interrupts={zero} timers={zero} process={zero}"])
      false [k_root_pkg HANDLE_RELEASE_NOTHING_PKG; k_expect_status EXIT_PROCESS_FAULT].

Definition case_handle_release_twice : Case :=
    dict "handle_release_twice" (join2 KERNEL_DIR "main.saw")
      (EList ["{banner}"; "SOS releasetwice: first release ok=1";
            "SOS releasetwice: releasing the same word again";
            "SOS: process fault: bad handle process={zero}";
            "SOS: process teardown handles={three} threads={one} events={zero} waiters={zero} interrupts={zero} timers={zero} process={zero}"])
      false [k_root_pkg HANDLE_RELEASE_TWICE_PKG; k_expect_status EXIT_PROCESS_FAULT].

Definition case_handle_malformed_word : Case :=
    dict "handle_malformed_word" (join2 KERNEL_DIR "main.saw")
      (EList ["{banner}"; "SOS malformed: releasing a word whose index field is zero";
            "SOS: process fault: bad handle process={zero}";
            "SOS: process teardown handles={three} threads={one} events={zero} waiters={zero} interrupts={zero} timers={zero} process={zero}"])
      false [k_root_pkg HANDLE_MALFORMED_WORD_PKG; k_expect_status EXIT_PROCESS_FAULT].

Definition case_handle_drop_release : Case :=
    dict "handle_drop_release" (join2 KERNEL_DIR "main.saw")
      (EList ["{banner}"; "SOS droprelease: scoped=3 kept=1"; "SOS droprelease: done";
            "SOS: process teardown handles={five} threads={one} events={zero} waiters={zero} interrupts={zero} timers={zero} process={zero}"])
      true [k_root_pkg HANDLE_DROP_RELEASE_PKG].

Definition case_process_reclaim : Case :=
    dict "process_reclaim" (join2 KERNEL_DIR "main.saw")
      (EList ["{banner}"; "SOS: boot regions={two}"; "SOS reclaim: started";
            "SOS: process fault: bad handle process={one}";
            "SOS: process teardown handles={zero} threads={one} events={zero} waiters={zero} interrupts={zero} timers={zero} process={one}";
            "SOS reclaim: refused_before=1 reclaimed_after=1"; "SOS reclaim: done"])
      true [k_root_pkg PROCESS_RECLAIM_PKG; k_children [CHILD_FAULT_PKG]].

Definition case_give_boot_drain : Case :=
    dict "give_boot_drain" (join2 KERNEL_DIR "main.saw")
      (EList ["{banner}"; "SOS: boot regions={two}"; "SOS givedrain: created";
            "SOS givedrain: minted a masked System"; "SOS givedrain: gave 7 3 5";
            "SOS givedrain: started"; "SOS childdrain: n=2 tags=35 kinds=0";
            "SOS: process exit: code={two} process={one}";
            "SOS: process teardown handles={two} threads={one} events={zero} waiters={zero} interrupts={zero} timers={zero} process={one}";
            "SOS givedrain: root observed child status=65538"; "SOS givedrain: done"])
      true [k_root_pkg GIVE_BOOT_DRAIN_PKG; k_children [CHILD_DRAIN_PKG]].

Definition case_give_duplicate_tag : Case :=
    dict "give_duplicate_tag" (join2 KERNEL_DIR "main.saw")
      (EList ["{banner}"; "SOS givedup: first give ok";
            "SOS: process fault: an attachment already uses that key process={zero}";
            "SOS: process teardown handles="])
      false [k_root_pkg GIVE_DUPLICATE_TAG_PKG; k_children [CHILD_FAULT_PKG];
            k_expect_status EXIT_PROCESS_FAULT].

Definition case_give_after_start : Case :=
    dict "give_after_start" (join2 KERNEL_DIR "main.saw")
      (EList ["{banner}"; "SOS giveafter: started";
            "SOS: process fault: object in the wrong state process={zero}";
            "SOS: process teardown handles="])
      false [k_root_pkg GIVE_AFTER_START_PKG; k_children [CHILD_FAULT_PKG];
            k_expect_status EXIT_PROCESS_FAULT].

Definition case_give_no_transfer : Case :=
    dict "give_no_transfer" (join2 KERNEL_DIR "main.saw")
      (EList ["{banner}"; "SOS notransfer: minted without Transfer";
            "SOS: process fault: access denied process={zero}";
            "SOS: process teardown handles="])
      false [k_root_pkg GIVE_NO_TRANSFER_PKG; k_children [CHILD_FAULT_PKG];
            k_expect_status EXIT_PROCESS_FAULT].

Definition case_start_bad_tag : Case :=
    dict "start_bad_tag" (join2 KERNEL_DIR "main.saw")
      (EList ["{banner}"; "SOS badtag: gave tag 3";
            "SOS: process fault: argument outside its domain process={zero}";
            "SOS: process teardown handles="])
      false [k_root_pkg START_BAD_TAG_PKG; k_children [CHILD_FAULT_PKG];
            k_expect_status EXIT_PROCESS_FAULT].

Definition case_give_word_dead : Case :=
    dict "give_word_dead" (join2 KERNEL_DIR "main.saw")
      (EList ["{banner}"; "SOS worddead: gave the region, ok=1";
            "SOS worddead: using the word we gave away";
            "SOS: process fault: bad handle process={zero}";
            "SOS: process teardown handles="])
      false [k_root_pkg GIVE_WORD_DEAD_PKG; k_children [CHILD_FAULT_PKG];
            k_expect_status EXIT_PROCESS_FAULT].

Definition case_mint_revoked : Case :=
    dict "mint_revoked" (join2 KERNEL_DIR "main.saw")
      (EList ["{banner}"; "SOS mintrevoked: minted without Mint";
            "SOS: process fault: access denied process={zero}";
            "SOS: process teardown handles="])
      false [k_root_pkg MINT_REVOKED_PKG; k_expect_status EXIT_PROCESS_FAULT].

Definition case_child_no_shutdown : Case :=
    dict "child_no_shutdown" (join2 KERNEL_DIR "main.saw")
      (EList ["{banner}";
            "SOS noshutdown: started a child that may print and not stop the machine";
            "SOS childover: I can print, so Debug travelled";
            "SOS childover: now trying to stop the machine";
            "SOS: process fault: access denied process={one}";
            "SOS: process teardown handles={one} threads={one} events={zero} waiters={zero} interrupts={zero} timers={zero} process={one}";
            "SOS noshutdown: root survived child status=131075"; "SOS noshutdown: done"])
      true [k_root_pkg CHILD_NO_SHUTDOWN_PKG; k_children [CHILD_OVERSTEPS_PKG]].

Definition case_memory_split : Case :=
    dict "memory_split" (join2 KERNEL_DIR "main.saw")
      (EList ["{banner}"; "SOS: boot regions={one}";
            "SOS split: a=170 b=187 a-again=170"; "SOS split: cuts=20 refused=0";
            "SOS split: asking for more than is left";
            "SOS: process fault: argument outside its domain"; "SOS: process teardown"])
      false [k_root_pkg MEMORY_SPLIT_PKG; k_pool true; k_expect_status EXIT_PROCESS_FAULT].

Definition case_map_basics : Case :=
    dict "map_basics" (join2 KERNEL_DIR "main.saw")
      (EList ["{banner}"; "SOS: boot regions={one}"; "SOS mapbasics: wrote 0x5a read 90";
            "SOS mapbasics: double-mapped read-only"; "SOS mapbasics: still 90";
            "SOS mapbasics: done"])
      true [k_root_pkg MAP_BASICS_PKG; k_pool true].

Definition case_map_unmap : Case :=
    dict "map_unmap" (join2 KERNEL_DIR "main.saw")
      (EList ["{banner}"; "SOS: boot regions={one}"; "SOS mapunmap: wrote 0x77 read 119";
            "SOS mapunmap: unmapped"; "SOS: fault "])
      false [k_tier TIER_ISOLATED;
            k_tier_reason "unmap's revocation half is the other property Flat disclaims by name — the touch after unmap would succeed";
            k_root_pkg MAP_UNMAP_PKG; k_pool true].

Definition case_map_into_child : Case :=
    dict "map_into_child" (join2 KERNEL_DIR "main.saw")
      (EList ["{banner}"; "SOS: boot regions={three}"; "SOS mapchild: created";
            "SOS mapchild: mapped a page into it"; "SOS mapchild: started";
            "SOS childtouch: wrote 60 read 60";
            "SOS: process exit: code={touch_mark} process={one}";
            "SOS mapchild: root observed child status=65596"; "SOS mapchild: done"])
      true [k_root_pkg MAP_INTO_CHILD_PKG; k_children [CHILD_TOUCH_PKG]; k_pool true].

Definition case_iomemory_carve : Case :=
    dict "iomemory_carve" (join2 KERNEL_DIR "main.saw")
      (EList ["{banner}"; "SOS: boot regions={one}"; "SOS carve: carved twice";
            "SOS carve: mapped";
            "SOS carve: asking for a window this board cannot grant";
            "SOS: process fault: argument outside its domain"; "SOS: process teardown"])
      false [k_root_pkg IOMEMORY_CARVE_PKG; k_device true;
            k_expect_status EXIT_PROCESS_FAULT].

Definition cases_B : list Case :=
    [case_clock_basics; case_timer_oneshot; case_timer_interval; case_timer_deadlock;
     case_timer_badclock; case_timer_badrecord; case_event_consume;
     case_event_consume_wake; case_root_server_oversteps; case_process_lifecycle;
     case_process_isolation; case_process_badimage; case_process_doublestart;
     case_process_bootdrain; case_handle_remint; case_handle_release_ungated;
     case_handle_release_nothing; case_handle_release_twice;
     case_handle_malformed_word; case_handle_drop_release; case_process_reclaim;
     case_give_boot_drain; case_give_duplicate_tag; case_give_after_start;
     case_give_no_transfer; case_start_bad_tag; case_give_word_dead; case_mint_revoked;
     case_child_no_shutdown; case_memory_split; case_map_basics; case_map_unmap;
     case_map_into_child; case_iomemory_carve].
End cases.
