(* ===== verification/CasesC.v ===== *)
(** * The case table, part C

    Entries of [TEST_CASES] in tools/sos_runner.py, in the order of the source,
    from [refcount_free] to [process_stats]. *)

From S2P Require Import Prelude PyStr PyPath Arches Packages Case.
From stdpp Require Import base list strings numbers.

Section cases.
  Context `{R : Repo}.

Definition case_refcount_free : Case :=
    dict "refcount_free" (join2 KERNEL_DIR "main.saw")
      (EList ["{banner}"; "SOS refcount: sibling word=42";
            "SOS refcount: attached key=77 word=9"; "SOS refcount: done";
            "SOS: process teardown handles={five} threads={one} events={zero} waiters={one} interrupts={zero} timers={zero} process={zero}"])
      true [k_root_pkg REFCOUNT_FREE_PKG].

Definition case_interrupt_unbind : Case :=
    dict "interrupt_unbind" (join2 KERNEL_DIR "main.saw")
      (EList ["{banner}"; "SOS irqunbind: bound line 5"; "SOS irqunbind: rebound=1";
            "SOS: process teardown handles={five} threads={one} events={zero} waiters={zero} interrupts={one} timers={zero} process={zero}"])
      true [k_root_pkg INTERRUPT_UNBIND_PKG].

Definition case_mapping_slot_free : Case :=
    dict "mapping_slot_free" (join2 KERNEL_DIR "main.saw")
      (EList ["{banner}"; "SOS: boot regions={one}"; "SOS mapfree: rounds=12 refused=0";
            "SOS mapfree: husk wrote 94 read 94"; "SOS mapfree: recycled read 94";
            "SOS mapfree: done"; "SOS: process teardown"])
      true [k_root_pkg MAPPING_SLOT_FREE_PKG; k_pool true].

Definition case_quota_exceeded : Case :=
    dict "quota_exceeded" (join2 KERNEL_DIR "main.saw")
      (EList ["{banner}"; "SOS: boot regions={two}"; "SOS quotaex: created";
            "SOS quotaex: started"; "SOS childquota: made=4 quota=1 resumed=1";
            "SOS: process exit: code={four} process={one}";
            "SOS: process teardown handles={five} threads={one} events={three} waiters={zero} interrupts={zero} timers={zero} process={one}";
            "SOS quotaex: root observed child status=65540"; "SOS quotaex: done"])
      true [k_root_pkg QUOTA_EXCEEDED_PKG; k_children [CHILD_QUOTA_PKG]].

Definition case_quota_vs_wall : Case :=
    dict "quota_vs_wall" (join2 KERNEL_DIR "main.saw")
      (EList ["{banner}"; "SOS: boot regions={three}"; "SOS quotawall: created";
            "SOS quotawall: gave a page"; "SOS quotawall: started";
            "SOS childmapwall: maps=2 quota=1";
            "SOS: process exit: code={two} process={one}";
            "SOS quotawall: root observed child status=65538"; "SOS quotawall: done"])
      true [k_root_pkg QUOTA_VS_WALL_PKG; k_children [CHILD_MAPWALL_PKG]; k_pool true].

Definition case_death_notify : Case :=
    dict "death_notify" (join2 KERNEL_DIR "main.saw")
      (EList ["{banner}"; "SOS: boot regions={two}"; "SOS deathnotify: started";
            "SOS bye: exiting"; "SOS: process exit: code={five} process={one}";
            "SOS: process teardown handles={two} threads={one} events={zero} waiters={zero} interrupts={zero} timers={zero} process={one}";
            "SOS deathnotify: woke key=44 status=65541"; "SOS deathnotify: done"])
      true [k_root_pkg DEATH_NOTIFY_PKG; k_children [CHILD_BYE_PKG]].

Definition case_death_fault : Case :=
    dict "death_fault" (join2 KERNEL_DIR "main.saw")
      (EList ["{banner}"; "SOS: boot regions={two}"; "SOS deathfault: started";
            "SOS: process fault: bad handle process={one}";
            "SOS: process teardown handles={zero} threads={one} events={zero} waiters={zero} interrupts={zero} timers={zero} process={one}";
            "SOS deathfault: woke key=45 status=131073";
            "SOS deathfault: child syscalls=1 faults=0"; "SOS deathfault: done"])
      true [k_root_pkg DEATH_FAULT_PKG; k_children [CHILD_FAULT_PKG]].

Definition case_death_late_attach : Case :=
    dict "death_late_attach" (join2 KERNEL_DIR "main.saw")
      (EList ["{banner}"; "SOS: boot regions={two}"; "SOS deathlate: started";
            "SOS bye: exiting"; "SOS: process exit: code={five} process={one}";
            "SOS: process teardown handles={two} threads={one} events={zero} waiters={zero} interrupts={zero} timers={zero} process={one}";
            "SOS deathlate: first=65541 second=65541"; "SOS deathlate: held=1 freed=1";
            "SOS deathlate: done"])
      true [k_root_pkg DEATH_LATE_ATTACH_PKG; k_children [CHILD_BYE_PKG]].

Definition case_child_echo_ns16550 : Case :=
    dict "child_echo_ns16550" (join2 KERNEL_DIR "main.saw")
      (EList ["{banner}"; "root image ok segments={two}"; "SOS: boot regions={three}";
            "SOS: console handover"; "SOS driverchild: created";
            "SOS driverchild: gave the window"; "SOS driverchild: started";
            "SOS echo: window mapped"; "SOS echo: driver up"; ECHO_INPUT;
            "SOS echo: done 4 bytes on line 10";
            "SOS: process teardown handles={six} threads={one} events={zero} waiters={one} interrupts={one} timers={zero} process={one}";
            "SOS driverchild: root observed child status=65536"; "SOS driverchild: done"])
      true [k_arches ["riscv32"; "riscv32-flat"]; k_root_pkg DRIVER_CHILD_PKG;
            k_children [CHILD_ECHO_NS16550_PKG]; k_device true; k_stdin ECHO_INPUT].

Definition case_child_echo_pl011 : Case :=
    dict "child_echo_pl011" (join2 KERNEL_DIR "main.saw")
      (EList ["{banner}"; "root image ok segments={two}"; "SOS: boot regions={three}";
            "SOS: console handover"; "SOS driverchild: created";
            "SOS driverchild: gave the window"; "SOS driverchild: started";
            "SOS echo: window mapped"; "SOS echo: driver up"; ECHO_INPUT;
            "SOS echo: done 4 bytes on line 33";
            "SOS: process teardown handles={six} threads={one} events={zero} waiters={one} interrupts={one} timers={zero} process={one}";
            "SOS driverchild: root observed child status=65536"; "SOS driverchild: done"])
      true [k_arches ["arm64"]; k_root_pkg DRIVER_CHILD_PKG;
            k_children [CHILD_ECHO_PL011_PKG]; k_device true; k_stdin ECHO_INPUT].

Definition case_share_double_map : Case :=
    dict "share_double_map" (join2 KERNEL_DIR "main.saw")
      (EList ["{banner}"; "SOS: boot regions={three}"; "SOS sharemap: created";
            "SOS sharemap: mapped into both"; "SOS sharemap: wrote 165";
            "SOS sharemap: started"; "SOS childshare: saw 165 wrote 90";
            "SOS: process exit: code={share_mark} process={one}";
            "SOS: process teardown handles={two} threads={one} events={zero} waiters={zero} interrupts={zero} timers={zero} process={one}";
            "SOS sharemap: root observed child status=65701";
            "SOS sharemap: read back 90"; "SOS sharemap: done"])
      true [k_root_pkg SHARE_DOUBLE_MAP_PKG; k_children [CHILD_SHARE_PKG]; k_pool true].

Definition case_map_exec_gated : Case :=
    dict "map_exec_gated" (join2 KERNEL_DIR "main.saw")
      (EList ["{banner}"; "SOS: boot regions={one}"; "SOS execgate: mapped executable";
            "SOS execgate: minted a sibling without MapExecute";
            "SOS execgate: the sibling maps read-write";
            "SOS execgate: asking for execute through it";
            "SOS: process fault: access denied";
            "SOS: process teardown handles={nine} threads={one} events={zero} waiters={zero} interrupts={zero} timers={zero} process={zero}"])
      false [k_root_pkg MAP_EXEC_GATED_PKG; k_pool true;
            k_expect_status EXIT_PROCESS_FAULT].

Definition case_map_wx_refused : Case :=
    dict "map_wx_refused" (join2 KERNEL_DIR "main.saw")
      (EList ["{banner}"; "SOS: boot regions={one}";
            "SOS mapwx: read-write here, wrote 107 read 107";
            "SOS mapwx: read-execute there: one region, two rows";
            "SOS mapwx: asking for write and execute in one row";
            "SOS: process fault: argument outside its domain";
            "SOS: process teardown handles={eight} threads={one} events={zero} waiters={zero} interrupts={zero} timers={zero} process={zero}"])
      false [k_root_pkg MAP_WX_REFUSED_PKG; k_pool true;
            k_expect_status EXIT_PROCESS_FAULT].

Definition case_waiter_revoked : Case :=
    dict "waiter_revoked" (join2 KERNEL_DIR "main.saw")
      (EList ["{banner}"; "SOS revoked: a parking"; "SOS revoked: b parking";
            "SOS revoked: sibling released, nobody woke";
            "SOS revoked: b woke: what this call was waiting for is gone";
            "SOS revoked: a woke: what this call was waiting for is gone";
            "SOS revoked: joined a=41 b=42";
            "events={zero} waiters={zero} interrupts={zero} timers={zero}"])
      true [k_root_pkg WAITER_REVOKED_PKG].

Definition case_pipe_basics : Case :=
    dict "pipe_basics" (join2 KERNEL_DIR "main.saw")
      (EList ["{banner}"; "SOS pipebasics: created";
            "SOS pipebasics: round trip len=3 b=65,66,67";
            "SOS pipebasics: fifo order=123"; "SOS pipebasics: empty message len=0";
            "SOS pipebasics: ring depth=16"; "SOS pipebasics: drained=16";
            "SOS pipebasics: take empty is none"; "SOS pipebasics: done"])
      true [k_root_pkg PIPE_BASICS_PKG].

Definition case_pipe_peer_gone : Case :=
    dict "pipe_peer_gone" (join2 KERNEL_DIR "main.saw")
      (EList ["{banner}"; "SOS peergone: outlet dropped";
            "SOS peergone: post says the other end of this connection is gone";
            "SOS peergone: staged 2"; "SOS peergone: inlet dropped";
            "SOS peergone: drained a=7 b=8";
            "SOS peergone: take says the other end of this connection is gone";
            "SOS peergone: again says the other end of this connection is gone";
            "SOS peergone: done"])
      true [k_root_pkg PIPE_PEER_GONE_PKG].

Definition case_pipe_child : Case :=
    dict "pipe_child" (join2 KERNEL_DIR "main.saw")
      (EList ["{banner}"; "SOS: boot regions={two}"; "SOS pipechild: created";
            "SOS pipechild: gave the inlet"; "SOS pipechild: started";
            "SOS childpost: posted"; "SOS: process exit: code={four} process={one}";
            "SOS: process teardown handles={two} threads={one} events={zero} waiters={zero} interrupts={zero} timers={zero} process={one}";
            "SOS pipechild: received len=4 b=80,73,80,69"; "SOS pipechild: done"])
      true [k_root_pkg PIPE_CHILD_PKG; k_children [CHILD_POST_PKG]].

Definition case_pipe_no_post : Case :=
    dict "pipe_no_post" (join2 KERNEL_DIR "main.saw")
      (EList ["{banner}"; "SOS nopost: minted without Post";
            "SOS: process fault: access denied process={zero}";
            "SOS: process teardown handles="])
      false [k_root_pkg PIPE_NO_POST_PKG; k_expect_status EXIT_PROCESS_FAULT].

Definition case_pipe_oversized : Case :=
    dict "pipe_oversized" (join2 KERNEL_DIR "main.saw")
      (EList ["{banner}"; "SOS oversized: asking for 129";
            "SOS: process fault: argument outside its domain process={zero}";
            "SOS: process teardown handles="])
      false [k_root_pkg PIPE_OVERSIZED_PKG; k_expect_status EXIT_PROCESS_FAULT].

Definition case_pipe_oneshot : Case :=
    dict "pipe_oneshot" (join2 KERNEL_DIR "main.saw")
      (EList ["{banner}"; "SOS oneshot: created";
            "SOS oneshot: request len=3 b=65,66,67";
            "SOS oneshot: pending is not ready"; "SOS oneshot: reply len=2 b=90,89";
            "SOS oneshot: zero reply len=0"; "SOS oneshot: the exchange cost 5 traps";
            "SOS oneshot: fifo replies a=11 b=22 c=33";
            "SOS oneshot: depth with one in flight=15";
            "SOS oneshot: depth settled=16"; "SOS oneshot: done"])
      true [k_root_pkg PIPE_ONESHOT_PKG].

Definition case_pipe_abandon : Case :=
    dict "pipe_abandon" (join2 KERNEL_DIR "main.saw")
      (EList ["{banner}"; "SOS abandon: created";
            "SOS abandon: reply says the other end of this connection is gone";
            "SOS abandon: resolve says the other end of this connection is gone";
            "SOS abandon: staged claim says the other end of this connection is gone";
            "SOS abandon: done"])
      true [k_root_pkg PIPE_ABANDON_PKG].

Definition case_pipe_delegate : Case :=
    dict "pipe_delegate" (join2 KERNEL_DIR "main.saw")
      (EList ["{banner}"; "SOS: boot regions={two}"; "SOS delegate: created";
            "SOS delegate: gave the request"; "SOS childreply: replied";
            "SOS: process exit: code={four} process={one}";
            "SOS: process teardown handles={two} threads={one} events={zero} waiters={zero} interrupts={zero} timers={zero} process={one}";
            "SOS delegate: reply len=4 b=68,79,78,69"; "SOS delegate: done"])
      true [k_root_pkg PIPE_DELEGATE_PKG; k_children [CHILD_REPLY_PKG]].

Definition case_pipe_no_reply : Case :=
    dict "pipe_no_reply" (join2 KERNEL_DIR "main.saw")
      (EList ["{banner}"; "SOS noreply: minting a sibling of an obligation";
            "SOS: process fault: access denied process={zero}";
            "SOS: process teardown handles="])
      false [k_root_pkg PIPE_NO_REPLY_PKG; k_expect_status EXIT_PROCESS_FAULT].

Definition case_pipe_big_reply : Case :=
    dict "pipe_big_reply" (join2 KERNEL_DIR "main.saw")
      (EList ["{banner}"; "SOS bigreply: asking for 129";
            "SOS: process fault: argument outside its domain process={zero}";
            "SOS: process teardown handles="])
      false [k_root_pkg PIPE_BIG_REPLY_PKG; k_expect_status EXIT_PROCESS_FAULT].

Definition case_pipe_dead_claim : Case :=
    dict "pipe_dead_claim" (join2 KERNEL_DIR "main.saw")
      (EList ["{banner}"; "SOS deadclaim: the server let its obligation go";
            "SOS deadclaim: ready says the other end of this connection is gone";
            "SOS deadclaim: claim dropped unresolved";
            "SOS deadclaim: minting a sibling of a one-shot";
            "SOS: process fault: access denied process={zero}";
            "SOS: process teardown handles="])
      false [k_root_pkg PIPE_DEAD_CLAIM_PKG; k_expect_status EXIT_PROCESS_FAULT].

Definition case_pipe_wait_reply : Case :=
    dict "pipe_wait_reply" (join2 KERNEL_DIR "main.saw")
      (EList ["{banner}"; "SOS waitreply: created"; "SOS waitreply: reply len=2 b=90,89";
            "SOS waitreply: after delivery the other end of this connection is gone";
            "SOS waitreply: keyed a=11 b=22"; "SOS waitreply: done"])
      true [k_root_pkg PIPE_WAIT_REPLY_PKG].

Definition case_pipe_wait_give : Case :=
    dict "pipe_wait_give" (join2 KERNEL_DIR "main.saw")
      (EList ["{banner}"; "SOS waitgive: created"; "SOS waitgive: given reply len=1 b=7";
            "SOS waitgive: depth after delivery=16";
            "SOS waitgive: cancelled reply says the other end of this connection is gone";
            "SOS waitgive: done"])
      true [k_root_pkg PIPE_WAIT_GIVE_PKG].

Definition case_pipe_wait_room : Case :=
    dict "pipe_wait_room" (join2 KERNEL_DIR "main.saw")
      (EList ["{banner}"; "SOS waitroom: created";
            "SOS waitroom: filled=16 then room says there is space";
            "SOS waitroom: room says the peer is gone"; "SOS waitroom: done"])
      true [k_root_pkg PIPE_WAIT_ROOM_PKG].

Definition case_pipe_wait_server : Case :=
    dict "pipe_wait_server" (join2 KERNEL_DIR "main.saw")
      (EList ["{banner}"; "SOS waitserver: created";
            "SOS waitserver: readable says a message";
            "SOS waitserver: readable says the peer is gone";
            "SOS waitserver: abandoned"; "SOS waitserver: done"])
      true [k_root_pkg PIPE_WAIT_SERVER_PKG].

Definition case_pipe_send_manual : Case :=
    dict "pipe_send_manual" (join2 KERNEL_DIR "main.saw")
      (EList ["{banner}"; "SOS: boot regions={two}"; "SOS sendmanual: gave the outlet";
            "SOS childserver: replied"; "SOS sendmanual: reply len=4 b=80,79,78,71";
            "SOS sendmanual: the round trip cost 4 traps";
            "SOS: process exit: code={four} process={one}";
            "SOS: process teardown handles={four} threads={one} events={zero} waiters={one} interrupts={zero} timers={zero} process={one}";
            "SOS sendmanual: fused reply len=4 b=80,79,78,71";
            "SOS sendmanual: ops manual=3 fused=1";
            "SOS sendmanual: filled=16 then room says there is space";
            "SOS sendmanual: timed out";
            "SOS sendmanual: after cancel the other end of this connection is gone";
            "SOS sendmanual: done"])
      true [k_root_pkg PIPE_SEND_MANUAL_PKG; k_children [CHILD_SERVER_PKG]].

Definition case_pipe_no_wait : Case :=
    dict "pipe_no_wait" (join2 KERNEL_DIR "main.saw")
      (EList ["{banner}"; "SOS nowait: minted without Wait";
            "SOS: process fault: access denied process={zero}";
            "SOS: process teardown handles="])
      false [k_root_pkg PIPE_NO_WAIT_PKG; k_expect_status EXIT_PROCESS_FAULT].

Definition case_pipe_bad_mode : Case :=
    dict "pipe_bad_mode" (join2 KERNEL_DIR "main.saw")
      (EList ["{banner}"; "SOS badmode: asking for flags 4";
            "SOS: process fault: argument outside its domain process={zero}";
            "SOS: process teardown handles="])
      false [k_root_pkg PIPE_BAD_MODE_PKG; k_expect_status EXIT_PROCESS_FAULT].

Definition case_process_stats : Case :=
    dict "process_stats" (join2 KERNEL_DIR "main.saw")
      (EList ["{banner}"; "SOS: boot regions={two}";
            "SOS stats: self delta=9 over 8 probes";
            "SOS: process exit: code={seven} process={one}";
            "SOS stats: child syscalls=8 faults=0"; "SOS stats: minted without Stats";
            "SOS: process fault: access denied process={zero}";
            "SOS: process teardown handles="])
      false [k_root_pkg PROCESS_STATS_PKG; k_children [CHILD_STATS_PKG];
            k_expect_status EXIT_PROCESS_FAULT].

Definition cases_C : list Case :=
    [case_refcount_free; case_interrupt_unbind; case_mapping_slot_free;
     case_quota_exceeded; case_quota_vs_wall; case_death_notify; case_death_fault;
     case_death_late_attach; case_child_echo_ns16550; case_child_echo_pl011;
     case_share_double_map; case_map_exec_gated; case_map_wx_refused;
     case_waiter_revoked; case_pipe_basics; case_pipe_peer_gone; case_pipe_child;
     case_pipe_no_post; case_pipe_oversized; case_pipe_oneshot; case_pipe_abandon;
     case_pipe_delegate; case_pipe_no_reply; case_pipe_big_reply; case_pipe_dead_claim;
     case_pipe_wait_reply; case_pipe_wait_give; case_pipe_wait_room;
     case_pipe_wait_server; case_pipe_send_manual; case_pipe_no_wait;
     case_pipe_bad_mode; case_process_stats].
End cases.
