(* ===== verification/CasesD.v ===== *)
(** * The case table, part D

    Entries of [TEST_CASES] in tools/sos_runner.py, in the order of the source,
    from [pipe_pingpong] to [c_hello]. *)

From S2P Require Import Prelude PyStr PyPath Arches Packages Case.
From stdpp Require Import base list strings numbers.

Section cases.
  Context `{R : Repo}.

Definition case_pipe_pingpong : Case :=
    dict "pipe_pingpong" (join2 KERNEL_DIR "main.saw")
      (EList ["{banner}"; "SOS: boot regions={two}";
            "SOS: process exit: code={pingpong_mark} process={one}";
            "SOS pingpong: served=8 last request b=7,80,73,78";
            "SOS pingpong: client traps=11 for 8 round trips";
            "SOS pingpong: server traps=18 for 8 messages";
            "SOS pingpong: per RPC client=1 server=2"])
      true [k_root_pkg PIPE_PINGPONG_PKG; k_children [CHILD_PINGPONG_PKG]].

Definition case_pipe_call_abandon : Case :=
    dict "pipe_call_abandon" (join2 KERNEL_DIR "main.saw")
      (EList ["{banner}"; "SOS: boot regions={two}"; "SOS childcaller: calling";
            "SOS callabandon: dropped the obligation";
            "SOS callabandon: closed the server end";
            "SOS: process exit: code={caller_mark} process={one}";
            "SOS callabandon: child said both were closed"])
      true [k_root_pkg PIPE_CALL_ABANDON_PKG; k_children [CHILD_CALLER_PKG]].

Definition case_pipe_call_orphan : Case :=
    dict "pipe_call_orphan" (join2 KERNEL_DIR "main.saw")
      (EList ["{banner}"; "SOS: boot regions={two}";
            "SOS callorphan: two calls in flight"; "SOS callorphan: answered one";
            "SOS: process exit: code={orphan_mark} process={one}";
            "SOS callorphan: the orphaned claim answers the other end of this connection is gone"])
      true [k_root_pkg PIPE_CALL_ORPHAN_PKG; k_children [CHILD_ORPHAN_PKG]].

Definition case_pipe_no_call : Case :=
    dict "pipe_no_call" (join2 KERNEL_DIR "main.saw")
      (EList ["{banner}"; "SOS nocall: minted without Post";
            "SOS: process fault: access denied process={zero}"])
      false [k_root_pkg PIPE_NO_CALL_PKG; k_expect_status EXIT_PROCESS_FAULT].

Definition case_pipe_call_oversized : Case :=
    dict "pipe_call_oversized" (join2 KERNEL_DIR "main.saw")
      (EList ["{banner}"; "SOS calloversized: calling with 129 bytes";
            "SOS: process fault: argument outside its domain process={zero}"])
      false [k_root_pkg PIPE_CALL_OVERSIZED_PKG; k_expect_status EXIT_PROCESS_FAULT].

Definition case_pipe_reply_wait_dead : Case :=
    dict "pipe_reply_wait_dead" (join2 KERNEL_DIR "main.saw")
      (EList ["{banner}"; "SOS replywaitdead: the client let its claim go";
            "SOS replywaitdead: reply_wait says the reply did not land: the other end of this connection is gone";
            "SOS replywaitdead: done"])
      true [k_root_pkg PIPE_REPLY_WAIT_DEAD_PKG].

Definition case_pipe_send_exit : Case :=
    dict "pipe_send_exit" (join2 KERNEL_DIR "main.saw")
      (EList ["{banner}"; "SOS: boot regions={two}"; "SOS sendexit: created";
            "SOS: process teardown handles={two} threads={one} events={zero} waiters={zero} interrupts={zero} timers={zero} process={one}";
            "SOS sendexit: the sender is gone";
            "SOS sendexit: the dead sender's capability still works"])
      true [k_root_pkg PIPE_SEND_EXIT_PKG; k_children [CHILD_SENDER_PKG]].

Definition case_pipe_table_full : Case :=
    dict "pipe_table_full" (join2 KERNEL_DIR "main.saw")
      (EList ["{banner}"; "SOS tablefull: probes=7 of 7";
            "SOS tablefull: one free slot is not enough, two deliver both"])
      true [k_root_pkg PIPE_TABLE_FULL_PKG].

Definition case_pipe_handles : Case :=
    dict "pipe_handles" (join2 KERNEL_DIR "main.saw")
      (EList ["{banner}"; "SOS: boot regions={two}";
            "SOS handles: the post moved the entry and the take was the child's";
            "SOS handles: the answer came back through the subscription"])
      true [k_root_pkg PIPE_HANDLES_PKG; k_children [CHILD_HANDLES_PKG]].

Definition case_pipe_delegate_msg : Case :=
    dict "pipe_delegate_msg" (join2 KERNEL_DIR "main.saw")
      (EList ["{banner}"; "SOS: boot regions={two}";
            "SOS delegatemsg: forwarded the obligation";
            "SOS delegatemsg: reply len=4 b=68,79,78,69";
            "SOS delegatemsg: the answer came from a process root never told about the pipe";
            "SOS delegatemsg: the reply carried an end back"])
      true [k_root_pkg PIPE_DELEGATE_MSG_PKG; k_children [CHILD_HANDLES_PKG]].

Definition case_pipe_cq : Case :=
    dict "pipe_cq" (join2 KERNEL_DIR "main.saw")
      (EList ["{banner}"; "SOS: boot regions={two}";
            "SOS cq: served=8 last request b=7,80,73,78";
            "SOS cq: server traps=10 for 8 messages";
            "SOS cq: per RPC client=1 server=1"; "SOS cq: the delivery was the take"])
      true [k_root_pkg PIPE_CQ_PKG; k_children [CHILD_PINGPONG_PKG]].

Definition case_give_keep_mask : Case :=
    dict "give_keep_mask" (join2 KERNEL_DIR "main.saw")
      (EList ["{banner}"; "SOS: boot regions={two}";
            "SOS childnarrow: posted through the wide end";
            "SOS keepmask: a bit the source lacks was ignored, not refused";
            "SOS keepmask: the narrowed end could not post";
            "SOS keepmask: derived a Process handle without Stats";
            "SOS: process fault: access denied process={zero}"])
      false [k_root_pkg GIVE_KEEP_MASK_PKG; k_children [CHILD_NARROW_PKG];
            k_expect_status EXIT_PROCESS_FAULT].

Definition case_pipe_resolve_park : Case :=
    dict "pipe_resolve_park" (join2 KERNEL_DIR "main.saw")
      (EList ["{banner}"; "SOS: boot regions={two}"; "SOS resolvepark: gave the outlet";
            "SOS childserver: replied"; "SOS resolvepark: reply len=4 b=80,79,78,71";
            "SOS resolvepark: fused reply len=4 b=80,79,78,71";
            "SOS resolvepark: ops resolve=2 fused=1"; "SOS resolvepark: done"])
      true [k_root_pkg PIPE_RESOLVE_PARK_PKG; k_children [CHILD_SERVER_PKG]].

Definition case_pipe_resolve_orphan : Case :=
    dict "pipe_resolve_orphan" (join2 KERNEL_DIR "main.saw")
      (EList ["{banner}"; "SOS: boot regions={two}";
            "SOS resolveorphan: two resolves in flight";
            "SOS resolveorphan: answered one";
            "SOS: process exit: code={resolve_orphan_mark} process={one}";
            "SOS resolveorphan: the orphaned claim answers the other end of this connection is gone"])
      true [k_root_pkg PIPE_RESOLVE_ORPHAN_PKG; k_children [CHILD_RESOLVER_PKG]].

Definition case_uart_service_ns16550 : Case :=
    dict "uart_service_ns16550" (join2 KERNEL_DIR "main.saw")
      (EList ["{banner}"; "root image ok segments={two}"; "SOS: boot regions={five}";
            "SOS: console handover"; "SOS uartsvc: created";
            "SOS uartsvc: driver started"; "SOS uartsvc: read posted";
            "SOS uartsvc: client started"; ECHO_INPUT;
            "SOS uartsvc: root wrote this line through the driver";
            "SOS uartsvc: and root does not hold the device";
            "SOS uartsvc: root's claim answered byte 90";
            "SOS uartsvc: client traps=13 for 3 reads and 3 writes";
            "SOS uartsvc drv: served=13 abandoned=0 dropped=0";
            "SOS uartsvc drv: after the mark answered=2 discarded=2 traps=7";
            "SOS uartsvc drv: one trap per answered message, two per discarded";
            "SOS uartsvc: the driver served two clients and ended clean";
            "SOS uartsvc: done"])
      true [k_arches ["riscv32"; "riscv32-flat"]; k_root_pkg UART_SERVICE_PKG;
            k_children [SVC_UART_NS16550_PKG; SVC_CLIENT_PKG]; k_device true;
            k_stdin ECHO_INPUT].

Definition case_uart_service_pl011 : Case :=
    dict "uart_service_pl011" (join2 KERNEL_DIR "main.saw")
      (EList ["{banner}"; "root image ok segments={two}"; "SOS: boot regions={five}";
            "SOS: console handover"; "SOS uartsvc: created";
            "SOS uartsvc: driver started"; "SOS uartsvc: read posted";
            "SOS uartsvc: client started"; ECHO_INPUT;
            "SOS uartsvc: root wrote this line through the driver";
            "SOS uartsvc: and root does not hold the device";
            "SOS uartsvc: root's claim answered byte 90";
            "SOS uartsvc: client traps=13 for 3 reads and 3 writes";
            "SOS uartsvc drv: served=13 abandoned=0 dropped=0";
            "SOS uartsvc drv: after the mark answered=2 discarded=2 traps=7";
            "SOS uartsvc drv: one trap per answered message, two per discarded";
            "SOS uartsvc: the driver served two clients and ended clean";
            "SOS uartsvc: done"])
      true [k_arches ["arm64"]; k_root_pkg UART_SERVICE_PKG;
            k_children [SVC_UART_PL011_PKG; SVC_CLIENT_PKG]; k_device true;
            k_stdin ECHO_INPUT].

Definition case_uart_cancel_ns16550 : Case :=
    dict "uart_cancel_ns16550" (join2 KERNEL_DIR "main.saw")
      (EList ["{banner}"; "SOS: boot regions={three}"; "SOS: console handover";
            "SOS uartcancel: driver started"; "SOS uartcancel: read posted";
            "SOS uartcancel: timed out"; "SOS uartcancel: claim dropped";
            "SOS uartcancel: root wrote this line through the driver";
            "SOS uartcancel: one dead read did not wedge it";
            "SOS uartsvc drv: served=5 abandoned=1 dropped=0";
            "SOS uartsvc drv: after the mark answered=2 discarded=2 traps=7";
            "SOS uartsvc drv: one trap per answered message, two per discarded";
            "SOS uartcancel: done"])
      true [k_arches ["riscv32"; "riscv32-flat"]; k_root_pkg UART_CANCEL_PKG;
            k_children [SVC_UART_NS16550_PKG]; k_device true].

Definition case_uart_cancel_pl011 : Case :=
    dict "uart_cancel_pl011" (join2 KERNEL_DIR "main.saw")
      (EList ["{banner}"; "SOS: boot regions={three}"; "SOS: console handover";
            "SOS uartcancel: driver started"; "SOS uartcancel: read posted";
            "SOS uartcancel: timed out"; "SOS uartcancel: claim dropped";
            "SOS uartcancel: root wrote this line through the driver";
            "SOS uartcancel: one dead read did not wedge it";
            "SOS uartsvc drv: served=5 abandoned=1 dropped=0";
            "SOS uartsvc drv: after the mark answered=2 discarded=2 traps=7";
            "SOS uartsvc drv: one trap per answered message, two per discarded";
            "SOS uartcancel: done"])
      true [k_arches ["arm64"]; k_root_pkg UART_CANCEL_PKG;
            k_children [SVC_UART_PL011_PKG]; k_device true].

Definition case_pipe_delegate_3p : Case :=
    dict "pipe_delegate_3p" (join2 KERNEL_DIR "main.saw")
      (EList ["{banner}"; "SOS: boot regions={four}"; "SOS delegate3p: created";
            "SOS delegate3p: started far and middle";
            "SOS delegate3p: reply len=4 b=68,79,78,69";
            "SOS delegate3p: the answer crossed three processes";
            "SOS delegate3p: middle=65607 far=65617"; "SOS delegate3p: done"])
      true [k_root_pkg DELEGATE_3P_PKG; k_children [CHILD_FORWARD_PKG; CHILD_FAR_PKG]].

Definition case_memory_recycle : Case :=
    dict "memory_recycle" (join2 KERNEL_DIR "main.saw")
      (EList ["{banner}"; "SOS: boot regions={three}"; "SOS recycle: quarters=4";
            "SOS recycle: whole=1"; "SOS childtouch: wrote 60 read 60";
            "SOS: process exit: code={touch_mark} process={one}";
            "SOS recycle: reused read 60"; "SOS recycle: done"])
      true [k_root_pkg MEMORY_RECYCLE_PKG; k_children [CHILD_TOUCH_PKG]; k_pool true].

Definition case_slab_donate : Case :=
    dict "slab_donate" (join2 KERNEL_DIR "main.saw")
      (EList ["{banner}"; "SOS: boot regions={one}";
            "SOS slabdonate: floor=4 fifth refused: out of kernel objects";
            "SOS slabdonate: donated a page of waiters";
            "SOS slabdonate: fifth waiter created";
            "SOS slabdonate: extent waiter woke key=77 word=4"; "SOS slabdonate: done"])
      true [k_root_pkg SLAB_DONATE_PKG; k_pool true].

Definition case_slab_donate_shared : Case :=
    dict "slab_donate_shared" (join2 KERNEL_DIR "main.saw")
      (EList ["{banner}"; "SOS: boot regions={one}"; "SOS slabshared: minted a sibling";
            "SOS: process fault: object in the wrong state process={zero}";
            "SOS: process teardown handles="])
      false [k_root_pkg SLAB_DONATE_SHARED_PKG; k_pool true;
            k_expect_status EXIT_PROCESS_FAULT].

Definition case_map_placed : Case :=
    dict "map_placed" (join2 KERNEL_DIR "main.saw")
      (EList ["{banner}"; "SOS placed: created"; "SOS placed: spacer at 1076101120";
            "SOS placed: root sees 1076105216"; "SOS placed: wrote 195";
            "SOS placed: gave the region"; "SOS placed: started";
            "SOS childplaced: mapped at 1076101120";
            "SOS childplaced: saw 195 wrote 45";
            "SOS placed: root observed child status=65731"; "SOS placed: read back 45";
            "SOS placed: done"])
      true [k_root_pkg MAP_PLACED_PKG; k_children [CHILD_PLACED_PKG]; k_pool true;
            k_arches ["arm64"]].

Definition case_thread_donate : Case :=
    dict "thread_donate" (join2 KERNEL_DIR "main.saw")
      (EList ["{banner}"; "SOS: boot regions={one}";
            "SOS threaddonate: floor=8 ninth refused: out of kernel objects";
            "SOS threaddonate: donated a page of threads";
            "SOS threaddonate: extent thread created"; "TTT";
            "SOS threaddonate: extent thread joined code=33"; "SOS threaddonate: done"])
      true [k_root_pkg THREAD_DONATE_PKG; k_pool true].

Definition case_pipe_donate : Case :=
    dict "pipe_donate" (join2 KERNEL_DIR "main.saw")
      (EList ["{banner}"; "SOS: boot regions={one}";
            "SOS pipedonate: floor=4 fifth refused: out of kernel objects";
            "SOS pipedonate: donated a region of pipes";
            "SOS pipedonate: fifth connection created";
            "SOS pipedonate: server took len=5 byte0=80";
            "SOS pipedonate: client resolved len=3 byte0=90"; "SOS pipedonate: done"])
      true [k_root_pkg PIPE_DONATE_PKG; k_pool true].

Definition case_slab_donate_mapped : Case :=
    dict "slab_donate_mapped" (join2 KERNEL_DIR "main.saw")
      (EList ["{banner}"; "SOS: boot regions={three}";
            "SOS slabmapped: stamped witness=165";
            "SOS donor: donating a mapped region";
            "SOS: process fault: object in the wrong state process={one}";
            "SOS: process teardown handles={three} threads={one} events={zero} waiters={zero} interrupts={zero} timers={zero} process={one}";
            "SOS slabmapped: child faulted status=131077";
            "SOS slabmapped: witness still 165"; "SOS slabmapped: done"])
      true [k_root_pkg SLAB_DONATE_MAPPED_PKG;
            k_children [SLAB_DONATE_MAPPED_CHILD_PKG]; k_pool true].

Definition case_slab_donate_free_nodes : Case :=
    dict "slab_donate_free_nodes" (join2 KERNEL_DIR "main.saw")
      (EList ["{banner}"; "SOS: boot regions={one}";
            "SOS slabnodes: pool trimmed to the construction";
            "SOS slabnodes: fragmented holes=32";
            "SOS slabnodes: released one more past the node slab";
            "SOS slabnodes: donated a page of free ranges";
            "SOS slabnodes: the range came back";
            "SOS: process fault: argument outside its domain process={zero}";
            "SOS: process teardown handles="])
      false [k_root_pkg SLAB_DONATE_NODES_PKG; k_pool true;
            k_arches ["riscv32"; "riscv32-flat"]; k_expect_status EXIT_PROCESS_FAULT].

Definition case_process_donate : Case :=
    dict "process_donate" (join2 KERNEL_DIR "main.saw")
      (EList ["{banner}"; "SOS: boot regions={six}";
            "SOS procdonate: floor=3 third child refused: out of kernel objects";
            "SOS procdonate: donated a region of process slots";
            "SOS procdonate: third child created past the floor";
            "SOS procdonate: started three children"; "SOS echo0: alive";
            "SOS echo1: alive"; "SOS echo2: alive";
            "SOS procdonate: exits a=65577 b=65578 c=65579";
            "SOS procdonate: donated slot reused d=65579"; "SOS procdonate: done"])
      true [k_root_pkg PROCESS_DONATE_PKG;
            k_children [ECHO_CHILD_PKG; ECHO_CHILD2_PKG; ECHO_CHILD3_PKG]].

Definition case_tier_word : Case :=
    dict "tier_word" (join2 KERNEL_DIR "main.saw")
      (EList ["{banner}"; "SOS tier: {tier}"; "SOS tier: stable";
            "SOS tier: kernel boundary intact";
            "SOS: process fault: access denied process={zero}";
            "SOS: process teardown handles="])
      false [k_root_pkg TIER_WORD_PKG; k_expect_status EXIT_PROCESS_FAULT].

Definition case_stats_region : Case :=
    dict "stats_region" (join2 KERNEL_DIR "main.saw")
      (EList ["{banner}"; "SOS: boot regions={two}"; "SOS statsregion: self row 0";
            "SOS statsregion: region delta 8"; "SOS statsregion: op agrees";
            "SOS statsreader: my row 1"; "SOS statsreader: launcher busier";
            "SOS statsregion: child exit 65578"; "SOS statsregion: unmapped";
            "SOS statsregion: done"])
      true [k_root_pkg STATS_REGION_PKG; k_children [STATS_READER_PKG]].

Definition case_stats_region_ro : Case :=
    dict "stats_region_ro" (join2 KERNEL_DIR "main.saw")
      (EList ["{banner}"; "SOS statsro: read ok"; "SOS statsro: writing"; "SOS: fault "])
      false [k_tier TIER_ISOLATED;
            k_tier_reason "a store into the kernel's read-only counter page must FAULT; a flat platform lets the write land";
            k_root_pkg STATS_REGION_RO_PKG].

Definition case_arena_small : Case :=
    dict "arena_small" (join2 KERNEL_DIR "main.saw")
      (EList ["{banner}"; "SOS arenasmall: 2 KiB ok"; "SOS arenasmall: asking 16 KiB";
            "sos: out of arena memory"])
      false [k_root_pkg ARENA_SMALL_PKG; k_expect_status EXIT_ARENA_EXHAUSTED].

Definition case_c_hello : Case :=
    dict "c_hello" (join2 KERNEL_DIR "main.saw")
      (EList ["{banner}"; "SOS: boot regions={two}"; "SOS chello: started";
            "SOS cchild: hello from freestanding C"; "SOS cchild: wrote 38 bytes";
            "SOS chello: woke status=65591"; "SOS chello: done"])
      true [k_root_pkg C_HELLO_PKG; k_children [C_CHILD_PKG]].

Definition cases_D : list Case :=
    [case_pipe_pingpong; case_pipe_call_abandon; case_pipe_call_orphan;
     case_pipe_no_call; case_pipe_call_oversized; case_pipe_reply_wait_dead;
     case_pipe_send_exit; case_pipe_table_full; case_pipe_handles;
     case_pipe_delegate_msg; case_pipe_cq; case_give_keep_mask; case_pipe_resolve_park;
     case_pipe_resolve_orphan; case_uart_service_ns16550; case_uart_service_pl011;
     case_uart_cancel_ns16550; case_uart_cancel_pl011; case_pipe_delegate_3p;
     case_memory_recycle; case_slab_donate; case_slab_donate_shared; case_map_placed;
     case_thread_donate; case_pipe_donate; case_slab_donate_mapped;
     case_slab_donate_free_nodes; case_process_donate; case_tier_word;
     case_stats_region; case_stats_region_ro; case_arena_small; case_c_hello].
End cases.
