(* ===== verification/Host.v ===== *)
(** * The host the harness runs on

    Everything the tools do to the outside world goes through here: child
    processes, the file system and the two output streams.  The world itself is
    a parameter, the class [Host]; a computation of [M] threads its state, may
    raise, and keeps the log of every action it performed, in order. *)

From Stdlib Require Import Ascii.
From S2P Require Import Prelude PyStr PyPath.
From stdpp Require Import base list strings numbers option.

(** A pair whose first component is known. *)
Lemma pair_from_fst {X Y} (p : X * Y) (x : X) : p.1 = x → p = (x, p.2).
Proof. destruct p. by intros <-. Qed.

(** What a computation does to the world, or tells the operator. *)
Inductive action : Type :=
  | Run (argv : list string) (cwd : option string) (env : option (list (string * string)))
  | MakeDirs (path : string) (exist_ok : bool)
  | CopyFile (src dst : string)
  | WriteFile (path text : string)
  | RemoveFile (path : string)
  | RmTree (path : string)
  | Rename (src dst : string)
  | Boot (argv : list string) (typed : option (list (N * ascii)))
  | Print (line : string)
  | PrintErr (line : string).

#[export] Instance action_eq_dec : EqDecision action.
Proof. solve_decision. Defined.

(** A finished child process: return code, standard output, standard error. *)
Record proc := Proc { p_code : Z; p_stdout : string; p_stderr : string }.

(** The world: its state, what a child process does to it and returns, what a
    file-system action does, and the queries the tools make.  [None] for a
    child is a program that could not be started ([OSError]).  An emulator is a
    child that is also typed at, a character and its time in milliseconds each,
    and that may have to be killed: [h_boot] answers its output and, unless it
    ran into the time limit, its return code. *)
Class Host := {
  host : Type;
  h_run : list string → option string → option (list (string * string)) → host →
          option proc * host;
  h_boot : list string → option (list (N * ascii)) → host →
           option (option Z * string) * host;
  h_act : action → host → bool * host;
  h_isfile : string → host → bool;
  h_isdir : string → host → bool;
  h_exists : string → host → bool;
  h_executable : string → host → bool;
  h_listdir : string → host → list string;
  h_walk : string → host → list (string * list string);
  h_getsize : string → host → N;
  h_text : string → host → option string;
}.

(** A failed action and an unreadable file are both [OSError]. *)
Definition h_do `{Host} (a : action) (h : host) : res unit * host :=
  let '(ok, h) := h_act a h in (if ok : bool then Ok tt else Raise OSError, h).

Definition h_read `{Host} (p : string) (h : host) : res string :=
  match h_text p h with Some text => Ok text | None => Raise OSError end.

Section monad.
  Context `{H : Host}.

Record world := World { w_host : host; w_log : list action }.

Definition M (A : Type) : Type := world → res A * world.

#[global] Instance M_ret : MRet M := λ A a w, (Ok a, w).
#[global] Instance M_bind : MBind M := λ A B f m w,
  match m w with
  | (Ok a, w) => f a w
  | (Raise e, w) => (Raise e, w)
  end.

Definition raise {A} (e : exn) : M A := λ w, (Raise e, w).
Definition lift {A} (r : res A) : M A := λ w, (r, w).

(** A query: reads the world and leaves no trace. *)
Definition ask {A} (q : host → A) : M A := λ w, (Ok (q (w_host w)), w).

(** An action other than a child process. *)
Definition perform (a : action) : M unit := λ w,
  let '(r, h) := h_do a (w_host w) in (r, World h (w_log w ++ [a])).

Definition isfile (p : string) : M bool := ask (h_isfile p).
Definition isdir (p : string) : M bool := ask (h_isdir p).
(** [os.listdir], which raises on what is not a directory. *)
Definition listdir (p : string) : M (list string) := λ w,
  if h_isdir p (w_host w) then (Ok (h_listdir p (w_host w)), w) else (Raise OSError, w).
Definition getsize (p : string) : M N := λ w,
  if h_exists p (w_host w) then (Ok (h_getsize p (w_host w)), w) else (Raise OSError, w).
(** [os.walk(p)]: each directory below [p] with the files it holds. *)
Definition walk (p : string) : M (list (string * list string)) := ask (h_walk p).
Definition read_file (p : string) : M string := λ w, (h_read p (w_host w), w).

(** An action whose failure the source ignores. *)
Definition perform_ignore (a : action) : M unit := λ w,
  let '(_, h) := h_do a (w_host w) in (Ok tt, World h (w_log w ++ [a])).

(** [shutil.which(name, path=path)]: the first directory of the search path
    that holds an executable [name].  A [None] path is the process's own
    [PATH], and the system's default when that is unset too. *)
Definition find_program `{!ProcessEnv} (name : string) (path : option string)
    (h : host) : option string :=
  if negb (String.eqb (dirname name) "") then
    if h_executable name h then Some name else None
  else
    let path := match path with Some p => p | None => default default_path path_env end in
    if String.eqb path "" then None
    else head (filter (λ p, Is_true (h_executable p h))
                 ((λ dir, join2 dir name) <$> split_on ":"%char path)).

Definition which `{!ProcessEnv} (name : string) (path : option string) : M (option string) :=
  ask (find_program name path).

Definition print (line : string) : M unit := λ w,
  (Ok tt, World (w_host w) (w_log w ++ [Print line])).
Definition print_err (line : string) : M unit := λ w,
  (Ok tt, World (w_host w) (w_log w ++ [PrintErr line])).

(** [subprocess.run(argv, cwd=cwd, env=env, capture_output=True)] *)
Definition subprocess_run (argv : list string) (cwd : option string)
    (env : option (list (string * string))) : M proc := λ w,
  let '(r, h) := h_run argv cwd env (w_host w) in
  let w := World h (w_log w ++ [Run argv cwd env]) in
  match r with Some p => (Ok p, w) | None => (Raise OSError, w) end.

(** An emulator run: its return code, [None] when it was killed at the time
    limit, and what it wrote. *)
Definition boot (argv : list string) (typed : option (list (N * ascii))) : M (option Z * string) := λ w,
  let '(r, h) := h_boot argv typed (w_host w) in
  let w := World h (w_log w ++ [Boot argv typed]) in
  match r with Some a => (Ok a, w) | None => (Raise OSError, w) end.

(** [for x in l: body(x)] *)
Fixpoint for_each {A} (l : list A) (body : A → M unit) : M unit :=
  match l with
  | [] => mret tt
  | x :: l => body x ≫= λ _, for_each l body
  end.

(** [[f(x) for x in l]] *)
Fixpoint map_M {A B} (f : A → M B) (l : list A) : M (list B) :=
  match l with
  | [] => mret []
  | x :: l => f x ≫= λ y, map_M f l ≫= λ ys, mret (y :: ys)
  end.

(** [try: m except ToolError as e: handler(str(e))] *)
Definition try_tool {A} (m : M A) (handler : string → M A) : M A := λ w,
  match m w with
  | (Raise (ToolError msg), w) => handler msg w
  | r => r
  end.

(** [try: m except ToolError as e], with the message as a value; any other
    exception escapes. *)
Definition catch_tool {A} (m : M A) : M (A + string) := λ w,
  match m w with
  | (Ok a, w) => (Ok (inl a), w)
  | (Raise (ToolError msg), w) => (Ok (inr msg), w)
  | (Raise e, w) => (Raise e, w)
  end.

(** The outcome of [m] as a value: [try: m except ...]. *)
Definition attempt {A} (m : M A) : M (res A) := λ w,
  let '(r, w) := m w in (Ok r, w).

(** *** Running *)

Definition result {A} (m : M A) (w : world) : res A := (m w).1.
Definition final {A} (m : M A) (w : world) : world := (m w).2.

Lemma M_bind_unfold {A B} (m : M A) (f : A → M B) w :
  (m ≫= f) w = match m w with (Ok a, w) => f a w | (Raise e, w) => (Raise e, w) end.
Proof. done. Qed.

Lemma M_bind_Ok {A B} (m : M A) (f : A → M B) w a w' :
  m w = (Ok a, w') → (m ≫= f) w = f a w'.
Proof. unfold mbind, M_bind. by intros ->. Qed.

Lemma M_bind_Raise {A B} (m : M A) (f : A → M B) w e w' :
  m w = (Raise e, w') → (m ≫= f) w = (Raise e, w').
Proof. unfold mbind, M_bind. by intros ->. Qed.

Lemma M_bind_inv {A B} (m : M A) (f : A → M B) w b w' :
  (m ≫= f) w = (Ok b, w') → ∃ a w1, m w = (Ok a, w1) ∧ f a w1 = (Ok b, w').
Proof. unfold mbind, M_bind. destruct (m w) as [[a|e] w1]; [eauto | done]. Qed.

Lemma M_bind_assoc {A B C} (m : M A) (f : A → M B) (g : B → M C) w :
  ((m ≫= f) ≫= g) w = (m ≫= λ a, f a ≫= g) w.
Proof. unfold mbind, M_bind. by destruct (m w) as [[a|e] w1]. Qed.

(** The log only grows: what a computation adds to it. *)
Definition grows (w w' : world) : Prop := ∃ l, w_log w' = w_log w ++ l.

Lemma grows_refl w : grows w w.
Proof. exists []. by rewrite app_nil_r. Qed.

Lemma grows_trans w1 w2 w3 : grows w1 w2 → grows w2 w3 → grows w1 w3.
Proof. intros [l1 H1] [l2 H2]. exists (l1 ++ l2). by rewrite H2, H1, app_assoc. Qed.

(** [occurs w w' m r]: in the course of a computation from [w] to [w'], [m] was
    run and ended with [r]. *)
Definition occurs {A} (w w' : world) (m : M A) (r : res A) : Prop :=
  ∃ w1 w2, grows w w1 ∧ m w1 = (r, w2) ∧ grows w2 w'.

Lemma occurs_widen {A} w0 w w' w3 (m : M A) r :
  grows w0 w → grows w' w3 → occurs w w' m r → occurs w0 w3 m r.
Proof. intros H0 H3 (w1 & w2 & H1 & E & H2). exists w1, w2. eauto using grows_trans. Qed.

(** *** Invariants of a run

    [keeps P m]: [P] survives [m], whether it returns or raises. *)
Definition keeps {A} (P : world → Prop) (m : M A) : Prop :=
  ∀ w, P w → P (m w).2.

Lemma keeps_ret {A} P (a : A) : keeps P (mret a).
Proof. by intros w. Qed.

Lemma keeps_raise {A} P e : keeps P (raise (A := A) e).
Proof. by intros w. Qed.

Lemma keeps_ask {A} P (q : host → A) : keeps P (ask q).
Proof. by intros w. Qed.

Lemma keeps_lift {A} P (r : res A) : keeps P (lift r).
Proof. by intros w. Qed.

Lemma keeps_bind {A B} P (m : M A) (f : A → M B) :
  keeps P m → (∀ a, keeps P (f a)) → keeps P (m ≫= f).
Proof.
  intros Hm Hf w Hw. unfold mbind, M_bind. specialize (Hm w Hw).
  destruct (m w) as [[a|e] w1]; [|done]. by apply Hf.
Qed.

Lemma keeps_perform P a :
  (∀ w r h, P w → h_do a (w_host w) = (r, h) → P (World h (w_log w ++ [a]))) →
  keeps P (perform a) ∧ keeps P (perform_ignore a).
Proof.
  intros HP. split; intros w Hw; unfold perform, perform_ignore; specialize (HP w);
    destruct (h_do a (w_host w)) as [r h]; by eapply HP.
Qed.

Lemma keeps_subprocess_run P argv cwd env :
  (∀ w r h, P w → h_run argv cwd env (w_host w) = (r, h) →
            P (World h (w_log w ++ [Run argv cwd env]))) →
  keeps P (subprocess_run argv cwd env).
Proof.
  intros HP w Hw. unfold subprocess_run. specialize (HP w).
  destruct (h_run argv cwd env (w_host w)) as [[p|] h]; by eapply HP.
Qed.

(** What an action makes of the world, whatever it answers. *)
Definition effect (a : action) (h : host) : host :=
  match a with
  | Run argv cwd env => (h_run argv cwd env h).2
  | Boot argv typed => (h_boot argv typed h).2
  | Print _ | PrintErr _ => h
  | _ => (h_do a h).2
  end.

(** An invariant of the world that the actions a computation performs keep. *)
Definition keeps_host {A} (Q : host → Prop) (m : M A) : Prop := keeps (λ w, Q (w_host w)) m.

Lemma keeps_host_perform (Q : host → Prop) a :
  (match a with Run _ _ _ | Boot _ _ | Print _ | PrintErr _ => False | _ => True end) →
  (∀ h, Q h → Q (effect a h)) →
  keeps_host Q (perform a) ∧ keeps_host Q (perform_ignore a).
Proof.
  intros Ha HQ. apply keeps_perform. intros w r h Hw E. cbn.
  assert (h = effect a (w_host w)) as -> by (destruct a; cbn; by try rewrite E). auto.
Qed.

Lemma keeps_host_run (Q : host → Prop) argv cwd env :
  (∀ h, Q h → Q (effect (Run argv cwd env) h)) →
  keeps_host Q (subprocess_run argv cwd env).
Proof.
  intros HQ. apply keeps_subprocess_run. intros w r h Hw E. cbn.
  specialize (HQ _ Hw). cbn in HQ. by rewrite E in HQ.
Qed.

Lemma keeps_host_print Q s : keeps_host Q (print s).
Proof. by intros w. Qed.

(** *** What a computation may do

    [only P m]: every action [m] performs, however it ends, satisfies [P]. *)
Definition only {A} (P : action → Prop) (m : M A) : Prop :=
  ∀ w, ∃ l, w_log (m w).2 = w_log w ++ l ∧ Forall P l.

Lemma only_grows {A} P (m : M A) w r w' : only P m → m w = (r, w') → grows w w'.
Proof. intros Hm E. destruct (Hm w) as (l & El & _). exists l. by rewrite E in El. Qed.

Lemma only_quiet {A} P (m : M A) : (∀ w, w_log (m w).2 = w_log w) → only P m.
Proof. intros Hm w. exists []. by rewrite Hm, app_nil_r. Qed.

Lemma only_ret {A} P (a : A) : only P (mret a).
Proof. by apply only_quiet. Qed.

Lemma only_raise {A} P e : only P (raise (A := A) e).
Proof. by apply only_quiet. Qed.

Lemma only_lift {A} P (r : res A) : only P (lift r).
Proof. by apply only_quiet. Qed.

Lemma only_ask {A} P (q : host → A) : only P (ask q).
Proof. by apply only_quiet. Qed.

Lemma only_listdir P d : only P (listdir d).
Proof. apply only_quiet. intros w. unfold listdir. by destruct (h_isdir d (w_host w)). Qed.

Lemma only_getsize P d : only P (getsize d).
Proof. apply only_quiet. intros w. unfold getsize. by destruct (h_exists d (w_host w)). Qed.

Lemma only_bind {A B} P (m : M A) (f : A → M B) :
  only P m → (∀ a, only P (f a)) → only P (m ≫= f).
Proof.
  intros Hm Hf w. unfold mbind, M_bind. specialize (Hm w) as (l1 & E1 & H1).
  destruct (m w) as [[a|e] w1]; [|by exists l1]. cbn in E1.
  specialize (Hf a w1) as (l2 & E2 & H2). exists (l1 ++ l2).
  rewrite E2, E1, app_assoc. split; [done|by apply Forall_app].
Qed.

Lemma only_bind_lift {A B} P (r : res A) (f : A → M B) :
  (∀ a, r = Ok a → only P (f a)) → only P (lift r ≫= f).
Proof.
  intros Hf. destruct r as [a|e]; [|by apply (only_raise P e)].
  intros w. by destruct (Hf a eq_refl w) as (l & E & Hl); exists l.
Qed.

(** [yields Q m]: whatever [m] returns satisfies [Q]. *)
Definition yields {A} (Q : A → Prop) (m : M A) : Prop := ∀ w a, (m w).1 = Ok a → Q a.

Lemma yields_ret {A} (Q : A → Prop) a : Q a → yields Q (mret a).
Proof. by intros Ha w ? [= <-]. Qed.

Lemma yields_raise {A} (Q : A → Prop) e : yields Q (raise e).
Proof. by intros w ?. Qed.

Lemma yields_bind {A B} (Q : B → Prop) (m : M A) (f : A → M B) :
  (∀ a, yields Q (f a)) → yields Q (m ≫= f).
Proof.
  intros Hf w b. unfold mbind, M_bind. destruct (m w) as [[a|e] w1]; [apply Hf|done].
Qed.

Lemma only_bind_yields {A B} P (Q : A → Prop) (m : M A) (f : A → M B) :
  only P m → yields Q m → (∀ a, Q a → only P (f a)) → only P (m ≫= f).
Proof.
  intros Hm Hq Hf w. unfold mbind, M_bind. specialize (Hm w) as (l1 & E1 & H1).
  specialize (Hq w). destruct (m w) as [[a|e] w1]; [|by exists l1]. cbn in E1.
  destruct (Hf a (Hq a eq_refl) w1) as (l2 & E2 & H2). exists (l1 ++ l2).
  rewrite E2, E1, app_assoc. split; [done|by apply Forall_app].
Qed.

Lemma only_one {A} P (m : M A) a :
  (∀ w, w_log (m w).2 = w_log w ++ [a]) → P a → only P m.
Proof. intros Hm Ha w. exists [a]. split; [done|by constructor]. Qed.

Lemma only_perform (P : action → Prop) a : P a → only P (perform a).
Proof. apply only_one. intros w. unfold perform. by destruct (h_do a (w_host w)). Qed.

Lemma only_print (P : action → Prop) s : P (Print s) → only P (print s).
Proof. by apply only_one. Qed.

Lemma only_print_err (P : action → Prop) s : P (PrintErr s) → only P (print_err s).
Proof. by apply only_one. Qed.

Lemma only_subprocess_run (P : action → Prop) argv cwd env :
  P (Run argv cwd env) → only P (subprocess_run argv cwd env).
Proof.
  apply only_one. intros w. unfold subprocess_run.
  by destruct (h_run argv cwd env (w_host w)) as [[p|] h].
Qed.

Lemma only_boot (P : action → Prop) argv typed : P (Boot argv typed) → only P (boot argv typed).
Proof.
  apply only_one. intros w. unfold boot.
  by destruct (h_boot argv typed (w_host w)) as [[p|] h].
Qed.

Lemma only_for_each {A} P (l : list A) (body : A → M unit) :
  (∀ x, x ∈ l → only P (body x)) → only P (for_each l body).
Proof.
  induction l as [|x l IH]; intros Hb; [apply only_ret|]. cbn.
  apply only_bind; [by apply Hb, list_elem_of_here|].
  intros _. apply IH. intros y Hy. by apply Hb, list_elem_of_further.
Qed.

Lemma only_try_tool {A} P (m : M A) h :
  only P m → (∀ s, only P (h s)) → only P (try_tool m h).
Proof.
  intros Hm Hh w. unfold try_tool. specialize (Hm w) as (l1 & E1 & H1).
  destruct (m w) as [[a|[]] w1]; eauto. cbn in E1.
  specialize (Hh msg w1) as (l2 & E2 & H2). exists (l1 ++ l2).
  rewrite E2, E1, app_assoc. split; [done|by apply Forall_app].
Qed.

Lemma only_catch_tool {A} P (m : M A) : only P m → only P (catch_tool m).
Proof.
  intros Hm w. destruct (Hm w) as (l & E & Hl). exists l. split; [|done]. rewrite <-E.
  unfold catch_tool. by destruct (m w) as [[a|[]] w1].
Qed.

Lemma yields_catch_tool {A} (Q : A → Prop) (m : M A) :
  yields Q m → yields (λ r, match r with inl a => Q a | inr _ => True end) (catch_tool m).
Proof.
  intros Hm w r. specialize (Hm w). unfold catch_tool.
  destruct (m w) as [[a|[]] w1]; cbn in *; intros [= <-]; auto.
Qed.

Lemma only_attempt {A} P (m : M A) : only P m → only P (attempt m).
Proof. intros Hm w. specialize (Hm w). unfold attempt. by destruct (m w). Qed.

Lemma only_perform_ignore (P : action → Prop) a : P a → only P (perform_ignore a).
Proof.
  intros Ha w. unfold perform_ignore. exists [a]. split; [|by repeat constructor].
  by destruct (h_do a (w_host w)).
Qed.

Lemma only_read_file P p : only P (read_file p).
Proof. by apply only_quiet. Qed.

Lemma only_weaken {A} (P Q : action → Prop) (m : M A) :
  (∀ a, P a → Q a) → only P m → only Q m.
Proof.
  intros HPQ Hm w. destruct (Hm w) as (l & E & Hl). exists l. split; [done|].
  eapply list.Forall_impl; [exact Hl|done].
Qed.

Lemma only_map_M {A B} P (f : A → M B) (l : list A) :
  (∀ x, only P (f x)) → only P (map_M f l).
Proof.
  intros Hf. induction l as [|x l IH]; [apply only_ret|]. cbn.
  apply only_bind; [done|intros y]. apply only_bind; [done|intros ys]. apply only_ret.
Qed.

Lemma yields_map_M {A B} (f : A → M B) (l : list A) :
  yields (λ ys, length ys = length l) (map_M f l).
Proof.
  induction l as [|x l IH]; cbn; [by apply yields_ret|].
  apply yields_bind. intros y w ys. unfold mbind, M_bind. specialize (IH w).
  destruct (map_M f l w) as [[zs|e] w1]; [|done]. intros [= <-]. cbn. f_equal. by apply IH.
Qed.

(** A query answered the same in this world for every item. *)
Lemma map_M_query {A B} (f : A → M B) (g : A → res B) (l : list A) w :
  (∀ x, f x w = (g x, w)) → map_M f l w = (traverse g l, w).
Proof.
  intros Hf. induction l as [|x l IH]; [done|]. cbn. unfold mbind at 1, M_bind at 1. rewrite Hf.
  destruct (g x) as [y|e]; [|done]. unfold mbind at 1, M_bind at 1. rewrite IH.
  by destruct (traverse g l).
Qed.

(** Telling the operator something leaves the world alone. *)
Lemma for_each_told {A} (f : A → string) (l : list A) w :
  ∃ w', for_each l (λ x, print_err (f x)) w = (Ok tt, w') ∧ w_host w' = w_host w.
Proof.
  revert w. induction l as [|x l IH]; intros w; [by exists w|]. cbn.
  unfold mbind, M_bind, print_err at 1.
  destruct (IH (World (w_host w) (w_log w ++ [PrintErr (f x)]))) as (w' & E & Hh). by exists w'.
Qed.

Lemma for_each_told_log {A} (f : A → string) (l : list A) w :
  ∃ w', for_each l (λ x, print_err (f x)) w = (Ok tt, w') ∧ w_log w' = w_log w ++ (PrintErr <$> (f <$> l)).
Proof.
  revert w. induction l as [|x l IH]; intros w; [exists w; by rewrite app_nil_r|]. cbn.
  unfold mbind, M_bind, print_err at 1.
  destruct (IH (World (w_host w) (w_log w ++ [PrintErr (f x)]))) as (w' & E & Hl).
  exists w'. split; [done|]. rewrite Hl. cbn. by rewrite <-app_assoc.
Qed.

(** *** How a computation may fail

    [raises E m]: every exception that escapes [m] satisfies [E]. *)
Definition raises {A} (E : exn → Prop) (m : M A) : Prop :=
  ∀ w e w', m w = (Raise e, w') → E e.

(** The same of a value that may be an exception. *)
Definition res_raises {A} (E : exn → Prop) (r : res A) : Prop := ∀ e, r = Raise e → E e.

Lemma raises_ret {A} E (a : A) : raises E (mret a).
Proof. by intros w e w'. Qed.

Lemma raises_ask {A} E (q : host → A) : raises E (ask q).
Proof. by intros w e w'. Qed.

Lemma raises_print E s : raises E (print s).
Proof. by intros w e w'. Qed.

Lemma raises_print_err E s : raises E (print_err s).
Proof. by intros w e w'. Qed.

Lemma raises_raise {A} (E : exn → Prop) e : E e → raises E (raise (A := A) e).
Proof. by intros He w e' w' [= <- _]. Qed.

Lemma raises_lift {A} (E : exn → Prop) (r : res A) : res_raises E r → raises E (lift r).
Proof. intros Hr w e w' [= He _]. by apply Hr. Qed.

Lemma raises_bind {A B} E (m : M A) (f : A → M B) :
  raises E m → (∀ a, raises E (f a)) → raises E (m ≫= f).
Proof.
  intros Hm Hf w e w'. unfold mbind, M_bind. destruct (m w) as [[a|x] w1] eqn:Em; [apply Hf|].
  intros [= <- <-]. by eapply Hm.
Qed.

(** An exception that cannot come from the first part comes from the second. *)
Lemma raises_bind_inv {A B} (E : exn → Prop) (m : M A) (f : A → M B) w e w' :
  raises E m → ¬ E e → (m ≫= f) w = (Raise e, w') → ∃ a w1, m w = (Ok a, w1) ∧ f a w1 = (Raise e, w').
Proof.
  intros Hm He. unfold mbind, M_bind. destruct (m w) as [[a|x] w1] eqn:Em; [eauto|].
  intros [= -> ->]. by apply Hm in Em.
Qed.

(** The same, with what the first computation logged. *)
Lemma raises_bind_grows {A B P} (E : exn → Prop) (m : M A) (f : A → M B) w e w' :
  raises E m → only P m → ¬ E e → (m ≫= f) w = (Raise e, w') →
  ∃ a w1, m w = (Ok a, w1) ∧ grows w w1 ∧ f a w1 = (Raise e, w').
Proof.
  intros Hr Ho He Em. destruct (raises_bind_inv E _ _ _ _ _ Hr He Em) as (a & w1 & E1 & E2).
  exists a, w1. split_and!; [done|by eapply only_grows|done].
Qed.

Lemma raises_weaken {A} (E E' : exn → Prop) (m : M A) : (∀ e, E e → E' e) → raises E m → raises E' m.
Proof. intros HE Hm w e w' Hw. by eapply HE, Hm. Qed.

Lemma raises_OSError_listdir (E : exn → Prop) d : E OSError → raises E (listdir d).
Proof. intros HE w e w'. unfold listdir. destruct (h_isdir d (w_host w)); [done|]. by intros [= <- _]. Qed.

Lemma raises_OSError_getsize (E : exn → Prop) d : E OSError → raises E (getsize d).
Proof. intros HE w e w'. unfold getsize. destruct (h_exists d (w_host w)); [done|]. by intros [= <- _]. Qed.

Lemma raises_OSError_read (E : exn → Prop) d : E OSError → raises E (read_file d).
Proof.
  intros HE w e w'. unfold read_file, h_read. destruct (h_text d (w_host w)); [done|]. by intros [= <- _].
Qed.

Lemma raises_OSError_perform (E : exn → Prop) a : E OSError → raises E (perform a).
Proof.
  intros HE w e w'. unfold perform, h_do. destruct (h_act a (w_host w)) as [[] h]; [done|].
  by intros [= <- _].
Qed.

Lemma raises_perform_ignore E a : raises E (perform_ignore a).
Proof. intros w e w'. unfold perform_ignore, h_do. by destruct (h_act a (w_host w)). Qed.

Lemma raises_OSError_run (E : exn → Prop) argv cwd env : E OSError → raises E (subprocess_run argv cwd env).
Proof.
  intros HE w e w'. unfold subprocess_run. destruct (h_run argv cwd env (w_host w)) as [[p|] h]; [done|].
  by intros [= <- _].
Qed.

Lemma raises_OSError_boot (E : exn → Prop) argv typed : E OSError → raises E (boot argv typed).
Proof.
  intros HE w e w'. unfold boot. destruct (h_boot argv typed (w_host w)) as [[p|] h]; [done|].
  by intros [= <- _].
Qed.

Lemma raises_attempt {A} E (m : M A) : raises E (attempt m).
Proof. intros w e w'. unfold attempt. by destruct (m w). Qed.

(** After [try: m except ...], what was caught is what [m] raises. *)
Lemma raises_attempt_bind {A B} (E E' : exn → Prop) (m : M A) (f : res A → M B) :
  raises E m → (∀ r, res_raises E r → raises E' (f r)) → raises E' (attempt m ≫= f).
Proof.
  intros Hm Hf w e w'. unfold mbind, M_bind, attempt. specialize (Hm w).
  destruct (m w) as [r w1]. apply Hf. intros x ->. by eapply Hm.
Qed.

Lemma raises_catch_tool {A} E (m : M A) : raises E m → raises E (catch_tool m).
Proof.
  intros Hm w e w'. specialize (Hm w). unfold catch_tool.
  destruct (m w) as [[a|[]] w1]; intros [= <- <-]; by eapply Hm.
Qed.

Lemma raises_for_each {A} E (l : list A) (body : A → M unit) :
  (∀ x, raises E (body x)) → raises E (for_each l body).
Proof.
  intros Hb. induction l as [|x l IH]; [apply raises_ret|]. cbn.
  apply raises_bind; [done|by intros _].
Qed.

Lemma raises_map_M {A B} E (f : A → M B) (l : list A) :
  (∀ x, raises E (f x)) → raises E (map_M f l).
Proof.
  intros Hf. induction l as [|x l IH]; [apply raises_ret|]. cbn.
  apply raises_bind; [done|intros y]. apply raises_bind; [done|intros ys]. apply raises_ret.
Qed.

Lemma res_raises_bind {A B} E (r : res A) (f : A → res B) :
  res_raises E r → (∀ a, res_raises E (f a)) → res_raises E (r ≫= f).
Proof. intros Hr Hf e. destruct r as [a|x]; cbn; [apply Hf|]. intros [= <-]. by apply Hr. Qed.

(** *** What a computation tells the operator *)

Definition says (l : list action) : list string :=
  omap (λ a, match a with Print s => Some s | _ => None end) l.

Definition silent (a : action) : Prop := match a with Print _ => False | _ => True end.

Lemma says_app l1 l2 : says (l1 ++ l2) = says l1 ++ says l2.
Proof. unfold says. apply omap_app. Qed.

Lemma says_silent l : Forall silent l → says l = [].
Proof. induction 1 as [|a l Ha _ IH]; [done|]. cbn. by destruct a. Qed.

(** [tells lines m]: [m], when it returns, has printed the lines [lines a] of
    what it returns. *)
Definition tells {A} (lines : A → list string → Prop) (m : M A) : Prop :=
  ∀ w a w', m w = (Ok a, w') → ∃ l, w_log w' = w_log w ++ l ∧ lines a (says l).

Lemma tells_silent {A} (m : M A) : only silent m → tells (λ _ l, l = []) m.
Proof.
  intros Hm w a w' E. destruct (Hm w) as (l & El & Hl). rewrite E in El. exists l.
  split; [done|by apply says_silent].
Qed.

Lemma tells_print s : tells (λ _ l, l = [s]) (print s).
Proof. intros w a w' [= <- <-]. by exists [Print s]. Qed.

Lemma tells_bind {A B} (Q1 : A → list string → Prop) (Q : B → list string → Prop) (m : M A) (f : A → M B) :
  tells Q1 m → (∀ a l1, Q1 a l1 → tells (λ b l2, Q b (l1 ++ l2)) (f a)) → tells Q (m ≫= f).
Proof.
  intros Hm Hf w b w' E. apply M_bind_inv in E as (a & w1 & E1 & E2).
  apply Hm in E1 as (l1 & El1 & H1). apply (Hf a _ H1) in E2 as (l2 & El2 & H2).
  exists (l1 ++ l2). rewrite El2, El1, app_assoc, says_app. auto.
Qed.

Lemma tells_for_each {A} (f : A → string) (l : list A) (body : A → M unit) :
  (∀ x, tells (λ _ s, s = [f x]) (body x)) → tells (λ _ s, s = f <$> l) (for_each l body).
Proof.
  intros Hb. induction l as [|x l IH]; cbn.
  - intros w a w' [= <- <-]. exists []. by rewrite app_nil_r.
  - apply (tells_bind _ _ _ _ (Hb x)). intros _ ? ->. intros w a w' E.
    apply IH in E as (l1 & E & Hl). exists l1. by rewrite Hl.
Qed.

(** *** Plans

      A straight-line part of a tool is a plan: the actions it performs, in
      order, when nothing fails. *)

(** One action of a plan, carried out successfully.  Clearing a tree is done
    with errors ignored, everywhere in the source. *)
Definition succeeds (a : action) (h h' : host) : Prop :=
  match a with
  | Run argv cwd env => ∃ p, h_run argv cwd env h = (Some p, h') ∧ p_code p = 0%Z
  | Boot argv typed => ∃ a, h_boot argv typed h = (Some a, h')
  | Print _ | PrintErr _ => h' = h
  | RmTree _ => ∃ r, h_do a h = (r, h')
  | _ => h_do a h = (Ok tt, h')
  end.

Inductive plan_done : list action → host → host → Prop :=
  | plan_nil h : plan_done [] h h
  | plan_cons a l h1 h2 h3 :
      succeeds a h1 h2 → plan_done l h2 h3 → plan_done (a :: l) h1 h3.

Lemma plan_done_app l1 l2 h1 h2 h3 :
  plan_done l1 h1 h2 → plan_done l2 h2 h3 → plan_done (l1 ++ l2) h1 h3.
Proof. induction 1; intros; [done|]. econstructor; [done|auto]. Qed.

(** [m] carries out [plan]: when it returns, every action of it was performed
    in order and succeeded; when it raises, it had performed a part of it from
    the start, and at most the clean-up after that. *)
Definition follows {A} (cleanup plan : list action) (m : M A) : Prop :=
  ∀ w r w', m w = (r, w') →
    match r with
    | Ok _ => w_log w' = w_log w ++ plan ∧ plan_done plan (w_host w) (w_host w')
    | Raise _ => ∃ l tail, l `prefix_of` plan ∧ (tail = [] ∨ tail = cleanup) ∧
                           w_log w' = w_log w ++ l ++ tail
    end.

Lemma follows_ret {A} c (a : A) : follows c [] (mret a).
Proof. intros w r w' [= <- <-]. rewrite app_nil_r. split; [done|constructor]. Qed.

Lemma follows_bind {A B} c p1 p2 (m : M A) (f : A → M B) :
  follows c p1 m → (∀ a, follows c p2 (f a)) → follows c (p1 ++ p2) (m ≫= f).
Proof.
  intros Hm Hf w r w'. unfold mbind, M_bind.
  destruct (m w) as [[a|e] w1] eqn:E; apply Hm in E.
  - destruct E as [Hl Hp]. intros E%Hf. rewrite Hl in E. destruct r.
    + destruct E as [-> Hp']. rewrite app_assoc. split; [done|by eapply plan_done_app].
    + destruct E as (l & t & Hpre & Ht & ->). exists (p1 ++ l), t.
      rewrite !app_assoc. split_and!; [by apply prefix_app|done..].
  - intros [= <- <-]. destruct E as (l & t & Hpre & Ht & ->). exists l, t.
    split_and!; [by apply prefix_app_r|done..].
Qed.

Lemma follows_perform c a :
  (match a with Run _ _ _ | Boot _ _ | Print _ | PrintErr _ | RmTree _ => False | _ => True end) →
  follows c [a] (perform a).
Proof.
  intros Ha w r w'. unfold perform. destruct (h_do a (w_host w)) as [r' h] eqn:E.
  intros [= <- <-]. destruct r' as [[]|e].
  - split; [done|]. econstructor; [|constructor]. by destruct a.
  - exists [a], []. split_and!; [done|by left|by rewrite app_nil_r].
Qed.

Lemma follows_rmtree c p : follows c [RmTree p] (perform_ignore (RmTree p)).
Proof.
  intros w r w'. unfold perform_ignore.
  destruct (h_do (RmTree p) (w_host w)) as [r' h] eqn:E. intros [= <- <-].
  split; [done|]. econstructor; [by eexists|constructor].
Qed.

Lemma follows_print c s : follows c [Print s] (print s).
Proof. intros w r w' [= <- <-]. split; [done|]. econstructor; [done|constructor]. Qed.
End monad.

#[export] Hint Resolve keeps_ret keeps_raise keeps_ask keeps_lift keeps_bind : py.
#[export] Hint Resolve yields_ret yields_raise yields_bind : py.
#[export] Hint Resolve only_ret only_raise only_lift only_ask only_listdir only_getsize : py.
#[export] Hint Resolve follows_ret follows_perform follows_rmtree follows_print : py.

(** Peels the first action of a plan off a sequence. *)
Ltac plan_step :=
  lazymatch goal with
  | |- follows ?c (?a :: ?l) (mbind _ _) =>
      apply (follows_bind c [a] l); [auto with py|intros _]
  | |- follows ?c (?l1 ++ ?l2) (mbind _ _) => apply follows_bind; [|intros _]
  end.

(** The lemmas on the operations a component has already walked. *)
Create HintDb only discriminated.
Create HintDb raises discriminated.

(** Walks through a computation, leaving the actions it performs. *)
Ltac only_walk :=
  repeat first
    [ solve [auto 1 with only nocore]
    | apply only_ret | apply only_raise | apply only_lift | apply only_ask
    | apply only_listdir | apply only_getsize
    | apply only_bind; [|intros ?]
    | apply only_for_each; intros ? ?
    | apply only_map_M; intros ?
    | apply only_catch_tool | apply only_attempt | apply only_read_file
    | apply only_perform | apply only_perform_ignore | apply only_subprocess_run | apply only_boot
    | apply only_print | apply only_print_err
    | match goal with
      | |- only _ (match ?x with _ => _ end) => destruct x
      | |- only _ (let '(_, _) := ?x in _) => destruct x
      end ].

(** Walks through a computation, leaving the exceptions it raises itself. *)
Ltac raises_walk :=
  repeat first
    [ solve [auto 1 with raises nocore]
    | apply raises_ret | apply raises_ask | apply raises_print | apply raises_print_err
    | apply raises_perform_ignore | apply raises_attempt
    | apply raises_OSError_listdir; done | apply raises_OSError_getsize; done
    | apply raises_OSError_read; done | apply raises_OSError_perform; done
    | apply raises_OSError_run; done | apply raises_OSError_boot; done
    | apply raises_raise; done
    | apply raises_bind; [|intros ?]
    | apply raises_for_each; intros ?
    | apply raises_map_M; intros ?
    | apply raises_catch_tool
    | apply raises_lift
    | match goal with
      | |- raises _ (match ?x with _ => _ end) => destruct x
      | |- raises _ (let '(_, _) := ?x in _) => destruct x
      end ].

(** Sequencing, written as the source writes it. *)
Notation "m ';;' k" := (mbind (λ _ : unit, k) m)
  (at level 100, k at level 200, right associativity, only parsing) : py_scope.
