(* ===== verification/SampleHost.v ===== *)
(** * A concrete host

    A small file system with a program table: the host the witnesses run on.
    Files are an association list, a directory is a prefix of a file's path,
    and what a child process does is a function given by the witness. *)

From Stdlib Require Import Ascii.
From S2P Require Import Prelude PyStr PyPath Host.
From stdpp Require Import base list strings numbers option.

Open Scope nat_scope.
Open Scope py_scope.

Record fs := FS { fs_files : list (string * string); fs_exec : list string }.

Definition fs_get (f : fs) (p : string) : option string := dict_get (fs_files f) p.

Definition below (dir p : string) : bool := startswith p (dir +:+ "/").

Definition fs_put (f : fs) (p text : string) : fs :=
  FS ((p, text) :: filter (λ kv, kv.1 ≠ p) (fs_files f)) (fs_exec f).

(** Moves what is at or below [src] to [dst], replacing what was there. *)
Definition fs_move (src dst p : string) : string :=
  if String.eqb p src then dst
  else if below src p then dst +:+ sdrop (slen src) p else p.

Definition fs_do (a : action) (f : fs) : res unit * fs :=
  match a with
  | CopyFile src dst =>
      match fs_get f src with
      | Some text => (Ok tt, fs_put f dst text)
      | None => (Raise OSError, f)
      end
  | WriteFile p text => (Ok tt, fs_put f p text)
  | RemoveFile p =>
      match fs_get f p with
      | Some _ => (Ok tt, FS (filter (λ kv, kv.1 ≠ p) (fs_files f)) (fs_exec f))
      | None => (Raise OSError, f)
      end
  | RmTree p => (Ok tt, FS (filter (λ kv, below p kv.1 = false) (fs_files f)) (fs_exec f))
  | Rename src dst =>
      (Ok tt, FS ((λ kv, (fs_move src dst kv.1, kv.2)) <$> fs_files f) (fs_exec f))
  | MakeDirs _ _ | Run _ _ _ | Boot _ _ | Print _ | PrintErr _ => (Ok tt, f)
  end.

(** The names directly under [dir], each once. *)
Definition fs_listdir (dir : string) (f : fs) : list string :=
  remove_dups (omap (λ kv,
    if below dir kv.1
    then Some (cut_at "/" (sdrop (S (slen dir)) kv.1)).1 else None) (fs_files f)).

Definition programs := list string → option string → option (list (string * string)) → fs →
                       option proc * fs.

Definition fs_isfile (p : string) (f : fs) : bool := bool_decide (is_Some (fs_get f p)).
Definition fs_isdir (p : string) (f : fs) : bool := existsb (λ kv, below p kv.1) (fs_files f).

(** What an emulator answers, given its command line and what is typed at it. *)
Definition machines := list string → option (list (N * ascii)) → option Z * string.

(** Every file, as one directory's worth of the walk. *)
Definition fs_walk (dir : string) (f : fs) : list (string * list string) :=
  [(dir, fs_listdir dir f)].

Definition fs_machine (prog : programs) (boot : machines) : Host := {|
  host := fs;
  h_run := prog;
  h_boot := λ argv typed f, (Some (boot argv typed), f);
  h_walk := fs_walk;
  h_act := λ a f, (is_ok (fs_do a f).1, (fs_do a f).2);
  h_isfile := fs_isfile;
  h_isdir := fs_isdir;
  h_exists := λ p f, fs_isfile p f || fs_isdir p f;
  h_executable := λ p f, bool_decide (p ∈ fs_exec f);
  h_listdir := fs_listdir;
  h_getsize := λ p f, N.of_nat (slen (default "" (fs_get f p)));
  h_text := λ p f, fs_get f p;
|}.

Definition no_emulator : machines := λ _ _, (Some 0%Z, "").
Definition fs_host (prog : programs) : Host := fs_machine prog no_emulator.

(** Every program starts, changes nothing and answers the same. *)
Definition all_answer (p : proc) : programs := λ _ _ _ f, (Some p, f).

Definition sample_env : ProcessEnv := {|
  cwd := "/w"; home_env := Some "/home/u"; user_home := λ _, None;
  path_env := Some "/bin"; default_path := "/bin:/usr/bin"; executable := "/usr/bin/python3" |}.

(** ** What the sample host's actions leave alone *)

Lemma dict_get_filter (l : list (string * string)) (keep : string → bool) p :
  dict_get (filter (λ kv, keep kv.1 = false) l) p =
  if keep p then None else dict_get l p.
Proof.
  induction l as [|[k v] l IH]; [by destruct (keep p)|].
  rewrite filter_cons. cbn [fst]. destruct (decide (keep k = false)) as [Hk|Hk]; cbn [dict_get].
  - destruct (String.eqb_spec p k) as [->|]; [by rewrite Hk|done].
  - rewrite IH. destruct (String.eqb_spec p k) as [->|]; [|done].
    by destruct (keep k).
Qed.

(** Clearing a tree creates no file. *)
Lemma fs_rmtree_isfile dir p f : fs_isfile p f = false → fs_isfile p (fs_do (RmTree dir) f).2 = false.
Proof.
  unfold fs_isfile, fs_get. cbn [fs_do snd fs_files]. rewrite (dict_get_filter _ (below dir)).
  by destruct (below dir p).
Qed.
