(* ===== verification/Toolchain.v ===== *)
(** * tools/toolchain.py

    The resolver of the sawlang toolchain: the pin file, the version probe, the
    four resolution steps, the cached fetch and the refusal. *)

From Stdlib Require Import Ascii.
From S2P Require Import Prelude PyStr PyPath Host SampleHost.
From stdpp Require Import base list sets strings numbers option.

Open Scope nat_scope.
Open Scope py_scope.

Module Toolchain.

Definition UPSTREAM_URL : string := "https://github.com/swoodtke/sawlang.git".
Definition CACHE_ENV : string := "SAW_TOOLCHAIN_CACHE".
Definition DEFAULT_CACHE : string := path_join "~" [".cache"; "saw-toolchain"].
Definition PIN_FILE : string := "sawlang.pin".

Definition MODULE_DIRS : list (string * list string) :=
  [ ("imgformat", ["libs"; "imgformat"; "src"]);
    ("toml", ["libs"; "toml"; "src"]);
    ("semver", ["libs"; "semver"; "src"]) ].

(** [sorted(MODULE_DIRS)] *)
Definition sorted_modules : list string := ["imgformat"; "semver"; "toml"].

(** A process environment passed as a mapping. *)
Abbreviation env := (list (string * string)).

Definition env_get (e : env) (k : string) : option string := dict_get e k.

(** [d[k] = v]: replaces in place, appends a new key. *)
Fixpoint dict_set (d : env) (k v : string) : env :=
  match d with
  | [] => [(k, v)]
  | (k', v') :: d => if String.eqb k k' then (k, v) :: d else (k', v') :: dict_set d k v
  end.

(** ** The resolved object *)

Record toolchain := mk_toolchain {
  sawc_argv : list string;
  source : string;
  root : option string;
  _blade_bin : option string;
  notes : list string;
}.

Definition sawc (t : toolchain) : list string := sawc_argv t.
Definition sawc_env_value (t : toolchain) : string := py_join " " (sawc_argv t).
Definition blade_binary (t : toolchain) : option string := _blade_bin t.

Definition no_checkout (t : toolchain) (what : string) : exn :=
  ToolchainError ("no sawlang checkout is available, and " +:+ what +:+ " live INSIDE one." +:+ nl +:+
    nl +:+
    "The toolchain in use came from " +:+ source t +:+ ", which supplies the" +:+ nl +:+
    "`sawc` and `blade` PROGRAMS and nothing else — no install puts a" +:+ nl +:+
    "package's source directory on a $PATH." +:+ nl +:+
    nl +:+
    "Name a checkout with SAWLANG_ROOT=/path/to/sawlang, or add a" +:+ nl +:+
    PIN_FILE +:+ " so one can be fetched.").

Definition _require_root (t : toolchain) (what : string) : res string :=
  match root t with
  | Some r => if truthy r then Ok r else Raise (no_checkout t what)
  | None => Raise (no_checkout t what)
  end.

Definition blade_package_dir (t : toolchain) : res string :=
  r ← _require_root t "Blade's own sources"; Ok (join2 r "blade").

Definition module_source (t : toolchain) (name : string) : res string :=
  match dict_get MODULE_DIRS name with
  | None => Raise (ToolchainError ("`" +:+ name +:+ "` is not a sawlang package this resolver owns " +:+
      "(it owns: " +:+ py_join ", " sorted_modules +:+ ")"))
  | Some dirs =>
      r ← _require_root t ("the `" +:+ name +:+ "` package's sources");
      Ok (path_join r dirs)
  end.

Definition module_path_arg (t : toolchain) (name : string) : res string :=
  d ← module_source t name; Ok (name +:+ "=" +:+ d).

(** ** The pin file *)

Definition pin_line_error (path : string) (lineno : nat) (line : string) : exn :=
  ToolchainError (path +:+ ":" +:+ py_str (N.of_nat lineno) +:+
    ": expected `key = value`, got `" +:+ line +:+ "`").

Definition is_quote (c : ascii) : bool := Ascii.eqb c (ascii_of_nat 34).

(** One iteration of the loop over the file's lines. *)
Definition pin_line (path : string) (lineno : nat) (pin : env) (raw : string) : res env :=
  let line := py_strip (cut_at "#" raw).1 in
  if String.eqb line "" then Ok pin
  else match cut_at "=" line with
       | (_, None) => Raise (pin_line_error path lineno line)
       | (key, Some value) =>
           Ok (dict_set pin (py_strip key) (strip_by is_quote (py_strip value)))
       end.

Fixpoint pin_lines (path : string) (lineno : nat) (pin : env) (raws : list string) : res env :=
  match raws with
  | [] => Ok pin
  | raw :: raws => pin ← pin_line path lineno pin raw; pin_lines path (S lineno) pin raws
  end.

Section resolver.
  Context `{Hst : Host} `{P : ProcessEnv}.

Definition _looks_like_sawlang (path : string) : M bool :=
  if truthy path then isfile (path_join path ["sawc"; "sawc.py"]) else mret false.

Definition _read_pin (consumer_root : string) : M (option env) :=
  let path := join2 consumer_root PIN_FILE in
  ok ← isfile path;
  if negb ok then mret None
  else
    text ← read_file path;
    pin ← lift (pin_lines path 1 [] (file_lines text));
    mret (Some pin).

Definition _which (name : string) (e : env) : M (option string) :=
  which name (env_get e "PATH").

Definition _probe_version (argv : list string) : M (option string) :=
  r ← attempt (subprocess_run (argv ++ ["--version"]) None None);
  match r with
  | Raise _ => mret None
  | Ok p =>
      if negb (bool_decide (p_code p = 0%Z)) then mret None
      else
        let out := py_strip (if truthy (p_stdout p) then p_stdout p else p_stderr p) in
        match split_ws out with
        | [a; b] => if String.eqb a "sawc" then mret (Some b) else mret None
        | _ => mret None
        end
  end.

Definition not_a_checkout (named : string) : exn :=
  ToolchainError ("SAWLANG_ROOT=" +:+ named +:+ " is not a sawlang checkout " +:+
    "(no sawc/sawc.py under it)").

Definition _resolve_root (e : env) (consumer_root : string) : M (option string) :=
  if truthy (env_get e "SAWLANG_ROOT") then
    let named := abspath (expanduser (default "" (env_get e "SAWLANG_ROOT"))) in
    ok ← _looks_like_sawlang named;
    if negb ok then raise (not_a_checkout named) else mret (Some named)
  else
    ok ← _looks_like_sawlang consumer_root;
    if ok : bool then mret (Some consumer_root) else mret None.

Definition _sawc_from_root (r : string) : M (list string) :=
  let venv_py := path_join r [".venv"; "bin"; "python"] in
  ok ← isfile venv_py;
  let py := if ok : bool then venv_py else executable in
  mret [py; path_join r ["sawc"; "sawc.py"]].

Definition unpinned_note (where_ : string) (found : option string) : string :=
  "note: using the unpinned `sawc` at " +:+ where_ +:+
  (match found with
   | Some f => if truthy f then " (version " +:+ f +:+ ")" else ""
   | None => ""
   end) +:+
  " — no " +:+ PIN_FILE +:+ " states which version is required.".

Definition version_silent (where_ want : string) : exn :=
  ToolchainError ("the `sawc` at " +:+ where_ +:+ " would not say what version it is, and" +:+ nl +:+
    PIN_FILE +:+ " requires " +:+ want +:+ "." +:+ nl +:+ nl +:+
    "`sawc --version` must print `sawc <semver>`. A compiler that" +:+ nl +:+
    "cannot name itself is not one this build will trust.").

Definition version_mismatch (where_ found want : string) : exn :=
  ToolchainError ("the `sawc` on your PATH is version " +:+ found +:+ ", and " +:+ PIN_FILE +:+ nl +:+
    "requires " +:+ want +:+ "." +:+ nl +:+ nl +:+
    "  found:    " +:+ where_ +:+ " (" +:+ found +:+ ")" +:+ nl +:+
    "  required: " +:+ want +:+ nl +:+ nl +:+
    "Install the required version, point SAWLANG_ROOT at a checkout" +:+ nl +:+
    "of it, or unset your PATH entry so the pinned commit is fetched" +:+ nl +:+
    "instead.").

(** Returns the notes, with the one it adds for an unpinned compiler. *)
Definition _check_version (argv : list string) (pin : option env) (where_ : string)
    (ns : list string) : M (list string) :=
  found ← _probe_version argv;
  match (match pin with Some p => dict_get p "version" | None => None end) with
  | None => mret (ns ++ [unpinned_note where_ found])
  | Some want =>
      match found with
      | None => raise (version_silent where_ want)
      | Some f =>
          if String.eqb f want then mret ns else raise (version_mismatch where_ f want)
      end
  end.

Definition _cache_root (e : env) : string :=
  if truthy (env_get e CACHE_ENV)
  then abspath (expanduser (default "" (env_get e CACHE_ENV)))
  else expanduser DEFAULT_CACHE.

(** *** Step 3: the cached fetch *)

Definition fetch_needs (tool : string) : exn :=
  ToolchainError ("fetching the pinned sawlang toolchain needs `" +:+ tool +:+ "`, and" +:+ nl +:+
    "there is none on your PATH." +:+ nl +:+ nl +:+
    "Install " +:+ tool +:+ ", or supply a toolchain yourself with" +:+ nl +:+
    "SAWLANG_ROOT / SAWC / a `sawc` on your PATH.").

(** The nested [run]: a command whose failure clears the partial checkout. *)
Definition fetch_run (tmp : string) (argv : list string) (cwd : option string) : M unit :=
  p ← subprocess_run argv cwd None;
  if negb (bool_decide (p_code p = 0%Z)) then
    perform_ignore (RmTree tmp) ;;
    raise (ToolchainError ("fetching the pinned sawlang toolchain failed:" +:+ nl +:+
      "  $ " +:+ py_join " " argv +:+ nl +:+ p_stdout p +:+ p_stderr p))
  else mret tt.

Definition fetch_dest (sha : string) (e : env) : string := join2 (_cache_root e) sha.
Definition fetch_tmp (sha : string) (e : env) : string := fetch_dest sha e +:+ ".partial".

(** Everything before the final rename, all of it in the partial checkout. *)
Definition fetch_into (tmp dest sha : string) (verbose : bool) : M unit :=
  perform_ignore (RmTree tmp) ;;
  perform (MakeDirs (dirname dest) true) ;;
  (if verbose then print ("  fetching sawlang " +:+ stake 12 sha +:+ " -> " +:+ dest) else mret tt) ;;
  perform (MakeDirs tmp false) ;;
  fetch_run tmp ["git"; "init"; "--quiet"; tmp] None ;;
  fetch_run tmp ["git"; "remote"; "add"; "origin"; UPSTREAM_URL] (Some tmp) ;;
  fetch_run tmp ["git"; "fetch"; "--quiet"; "--depth"; "1"; "origin"; sha] (Some tmp) ;;
  fetch_run tmp ["git"; "checkout"; "--quiet"; "FETCH_HEAD"] (Some tmp) ;;
  fetch_run tmp ["python3"; "-m"; "venv"; join2 tmp ".venv"] None ;;
  fetch_run tmp [path_join tmp [".venv"; "bin"; "pip"]; "install"; "--quiet"; "llvmlite"] None.

Definition _fetch (sha : string) (e : env) (verbose : bool) : M string :=
  let dest := fetch_dest sha e in
  let tmp := fetch_tmp sha e in
  cached ← _looks_like_sawlang dest;
  if cached : bool then mret dest
  else
    for_each ["git"; "python3"] (λ tool,
      found ← _which tool e;
      if truthy found then mret tt else raise (fetch_needs tool)) ;;
    fetch_into tmp dest sha verbose ;;
    perform (Rename tmp dest) ;;
    mret dest.

(** *** Step 4: the refusal *)

Record tried := Tried { t_env : string; t_path : string; t_fetch : string }.

Definition _refusal (consumer_root : string) (t : tried) : exn :=
  ToolchainError (
    "no sawlang toolchain found — `sawc` is needed to build this repository." +:+ nl +:+ nl +:+
    "Three ways to supply one, tried in this order:" +:+ nl +:+ nl +:+
    "  1. NAME ONE." +:+ nl +:+
    "       SAWLANG_ROOT=/path/to/sawlang   a checkout to build against" +:+ nl +:+
    "       SAWC=" +:+ dq +:+ "python /path/to/sawlang/sawc/sawc.py" +:+ dq +:+ "   the compiler" +:+ nl +:+
    "       BLADE=/path/to/blade                          a built blade" +:+ nl +:+
    "     -> " +:+ t_env t +:+ nl +:+ nl +:+
    "  2. PUT `sawc` AND `blade` ON YOUR PATH." +:+ nl +:+
    "       `make install` in a sawlang checkout does this, into" +:+ nl +:+
    "       ~/.local/bin." +:+ nl +:+
    "     -> " +:+ t_path t +:+ nl +:+ nl +:+
    "  3. LET THIS REPOSITORY FETCH ONE." +:+ nl +:+
    "       Needs a `" +:+ PIN_FILE +:+ "` naming the commit, plus `git` and" +:+ nl +:+
    "       `python3`. The checkout is cached by SHA and reused." +:+ nl +:+
    "     -> " +:+ t_fetch t +:+ nl +:+ nl +:+
    "(looked for " +:+ PIN_FILE +:+ " in " +:+ consumer_root +:+ ")").

(** *** The four steps *)

Definition env_tried : string := "SAWLANG_ROOT, SAWC and BLADE are all unset".
Definition path_tried : string := "no `sawc` on your PATH".

(** Which variables step 1 credits. *)
Definition named_sources (e : env) (r : option string) : list string :=
  (if truthy (env_get e "SAWC") then ["SAWC"] else []) ++
  (if truthy (env_get e "BLADE") then ["BLADE"] else []) ++
  (if truthy (env_get e "SAWLANG_ROOT") then ["SAWLANG_ROOT"]
   else if truthy r then ["this checkout"] else []).

(** The compiler step 1 names: [None] for no answer. *)
Definition named_compiler (e : env) (r : option string) : M (option (list string)) :=
  if truthy (env_get e "SAWC") then mret (Some (split_ws (default "" (env_get e "SAWC"))))
  else match r with
       | Some r => if truthy r then argv ← _sawc_from_root r; mret (Some argv) else mret None
       | None => mret None
       end.

(** Steps 2 to 4, once step 1 has not answered. *)
Definition resolve_unnamed (e : env) (consumer_root : string) (pin : option env)
    (verbose : bool) : M toolchain :=
  path_sawc ← _which "sawc" e;
  path_blade ← _which "blade" e;
  match path_sawc with
  | Some s =>
      ns ← _check_version [s] pin s [];
      mret (mk_toolchain [s] "PATH" None
              (if truthy (env_get e "BLADE") then env_get e "BLADE" else path_blade) ns)
  | None =>
      match pin with
      | Some p =>
          match dict_get p "sha" with
          | Some sha =>
              if truthy sha then
                fetched ← _fetch sha e verbose;
                argv ← _sawc_from_root fetched;
                mret (mk_toolchain argv "fetch" (Some fetched) (env_get e "BLADE") [])
              else raise (_refusal consumer_root
                     (Tried env_tried path_tried (PIN_FILE +:+ " names no `sha`")))
          | None => raise (_refusal consumer_root
                     (Tried env_tried path_tried (PIN_FILE +:+ " names no `sha`")))
          end
      | None => raise (_refusal consumer_root
                  (Tried env_tried path_tried ("no " +:+ PIN_FILE +:+ " here")))
      end
  end.

Definition resolve (e : env) (consumer_root : string) (verbose : bool) : M toolchain :=
  pin ← _read_pin consumer_root;
  r ← _resolve_root e consumer_root;
  argv ← named_compiler e r;
  if truthy argv then
    mret (mk_toolchain (default [] argv) (py_join " + " (named_sources e r)) r
            (env_get e "BLADE") [])
  else resolve_unnamed e consumer_root pin verbose.

(** The repository a file of tools/ lives in. *)
Definition _repo_root (file : string) : string := dirname (dirname (abspath file)).

(** A call of [resolve] with its defaults: [environ] is the environment of the
    process, [file] the path of toolchain.py. *)
Definition resolve_call (environ : env) (file : string) (e : option env) (consumer_root : option string)
    (verbose : bool) : M toolchain :=
  resolve (default environ e) (if truthy consumer_root then default "" consumer_root else _repo_root file) verbose.

(** [python tools/toolchain.py]: the exit status of [main]. *)
Definition main (environ : env) (file : string) : M Z :=
  r ← attempt (resolve_call environ file None None true);
  match r with
  | Raise (ToolchainError msg) =>
      print_err (String (ascii_of_nat 27) "[1;31merror" +:+ String (ascii_of_nat 27) "[0m: " +:+ msg) ;;
      mret 1%Z
  | Raise x => raise x
  | Ok tc =>
      for_each (notes tc) print ;;
      print ("resolved via : " +:+ source tc) ;;
      print ("sawc         : " +:+ sawc_env_value tc) ;;
      print ("blade        : " +:+
        (if truthy (blade_binary tc) then default "" (blade_binary tc) else "(build from source)")) ;;
      print ("root         : " +:+
        (if truthy (root tc) then default "" (root tc) else "(none — executables only)")) ;;
      (if truthy (root tc) then
         for_each sorted_modules (λ name,
           d ← lift (module_source tc name);
           print ("  " +:+ py_ljust 11 name +:+ ": " +:+ d))
       else mret tt) ;;
      mret 0%Z
  end.
End resolver.

(** ** Specification of the pin file *)

(** A key or value a pin may hold without escaping. *)
Definition pin_char (c : ascii) : bool :=
  negb (is_space c) && negb (Ascii.eqb c "#") && negb (Ascii.eqb c "=") && negb (is_quote c).

Definition pin_word (s : string) : Prop := s ≠ "" ∧ all_chars pin_char s = true.

(** [key = "value"], as the repository's own pin writes it. *)
Definition pin_entry (kv : string * string) : string :=
  kv.1 +:+ " = " +:+ dq +:+ kv.2 +:+ dq.

Definition render_pin (entries : list (string * string)) : string :=
  foldr (λ kv text, pin_entry kv +:+ nl +:+ text) "" entries.

(** A line that is neither blank nor [key = value] once its comment is cut. *)
Definition malformed (raw : string) : Prop :=
  let line := py_strip (cut_at "#" raw).1 in line ≠ "" ∧ (cut_at "=" line).2 = None.

#[export] Instance malformed_dec raw : Decision (malformed raw).
Proof. unfold malformed. apply _. Defined.

(** ** Lemmas: the pin file *)

Lemma pin_char_impl (q : ascii → bool) s :
  (∀ c, pin_char c = true → q c = true) → all_chars pin_char s = true → all_chars q s = true.
Proof. apply all_chars_impl. Qed.

Lemma pin_char_inv c :
  pin_char c = true →
  is_space c = false ∧ Ascii.eqb c "#" = false ∧ Ascii.eqb c "=" = false ∧ is_quote c = false.
Proof. unfold pin_char. rewrite !andb_true_iff, !negb_true_iff. tauto. Qed.

Lemma pin_char_no_eol c : pin_char c = true → no_eol c = true.
Proof.
  intros (Hs & _)%pin_char_inv. unfold is_space in Hs. unfold no_eol.
  apply negb_true_iff, orb_false_iff. rewrite !orb_false_iff in Hs.
  destruct Hs as [Hs _]. unfold PyStr.between in Hs.
  split; apply N.eqb_neq; intros Hc; by rewrite Hc in Hs.
Qed.

Lemma pin_entry_chars kv (q : ascii → bool) :
  pin_word kv.1 → pin_word kv.2 → (∀ c, pin_char c = true → q c = true) →
  all_chars q (" = " +:+ dq) = true → all_chars q (pin_entry kv) = true.
Proof.
  intros [_ Hk] [_ Hv] Hq Hd. unfold pin_entry. rewrite all_chars_app in Hd.
  apply andb_true_iff in Hd as [Hd1 Hd2].
  rewrite !all_chars_app, Hd1, Hd2, !(pin_char_impl q) by done. done.
Qed.

Lemma pin_line_entry path lineno pin kv :
  pin_word kv.1 → pin_word kv.2 →
  pin_line path lineno pin (pin_entry kv) = Ok (dict_set pin kv.1 kv.2).
Proof.
  intros Hk Hv. unfold pin_line.
  rewrite cut_at_none.
  2: { apply pin_entry_chars; [done..| |done].
       intros c (_ & -> & _)%pin_char_inv. done. }
  cbn [fst].
  assert (py_strip (pin_entry kv) = pin_entry kv) as ->.
  { unfold py_strip, strip_by, pin_entry. destruct Hk as [Hk0 Hk].
    destruct kv as [[|c k] v]; [done|]. cbn [fst snd] in *.
    rewrite sapp_cons, lstrip_by_head by (cbn in Hk; apply andb_true_iff in Hk as [Hc _];
      by apply pin_char_inv in Hc as (-> & _)).
    rewrite <-sapp_cons, <-!sapp_assoc. by apply rstrip_by_last. }
  destruct (String.eqb_spec (pin_entry kv) "") as [He|_].
  { apply (f_equal slen) in He. unfold pin_entry in He. rewrite !slen_app in He. cbn in He. lia. }
  assert (pin_entry kv = (kv.1 +:+ " ") +:+ String "=" (" " +:+ dq +:+ kv.2 +:+ dq)) as ->.
  { unfold pin_entry. by rewrite sapp_assoc. }
  destruct Hk as [_ Hk], Hv as [_ Hv].
  rewrite cut_at_first.
  2: { rewrite all_chars_app. apply andb_true_iff. split; [|done].
       eapply all_chars_impl; [|exact Hk]. intros c (_ & _ & -> & _)%pin_char_inv. done. }
  assert (py_strip (kv.1 +:+ " ") = kv.1) as ->.
  { apply (strip_by_core is_space "" kv.1 " "); [done..|].
    eapply all_chars_impl; [|exact Hk]. intros c (-> & _)%pin_char_inv. done. }
  assert (py_strip (" " +:+ dq +:+ kv.2 +:+ dq) = dq +:+ kv.2 +:+ dq) as ->.
  { rewrite <-(sapp_nil_r (dq +:+ kv.2 +:+ dq)) at 1. apply strip_by_core; [done..|].
    rewrite !all_chars_app, (all_chars_impl pin_char _ kv.2); [done| |done].
    intros c (-> & _)%pin_char_inv. done. }
  rewrite strip_by_core; [done..|].
  eapply all_chars_impl; [|exact Hv]. intros c (_ & _ & _ & ->)%pin_char_inv. done.
Qed.

Lemma dict_set_fresh d k v : k ∉ d.*1 → dict_set d k v = d ++ [(k, v)].
Proof.
  induction d as [|[k' v'] d IH]; cbn; [done|]. rewrite elem_of_cons. intros Hk.
  destruct (String.eqb_spec k k'); [tauto|]. rewrite IH by tauto. done.
Qed.

Lemma file_lines_render entries :
  Forall (λ kv, pin_word kv.1 ∧ pin_word kv.2) entries →
  file_lines (render_pin entries) = pin_entry <$> entries.
Proof.
  induction 1 as [|kv entries [Hk Hv] _ IH]; [done|].
  cbn [render_pin foldr]. rewrite file_lines_cons.
  - cbn. by rewrite <-IH.
  - apply pin_entry_chars; [done..|apply pin_char_no_eol|done].
Qed.

Lemma pin_lines_render path lineno pin entries :
  Forall (λ kv, pin_word kv.1 ∧ pin_word kv.2) entries → NoDup ((pin ++ entries).*1) →
  pin_lines path lineno pin (pin_entry <$> entries) = Ok (pin ++ entries).
Proof.
  intros H. revert lineno pin. induction H as [|kv entries [Hk Hv] _ IH]; intros lineno pin Hnd; cbn.
  - by rewrite app_nil_r.
  - rewrite pin_line_entry by done. cbn [mbind res_bind].
    rewrite fmap_app in Hnd. cbn in Hnd.
    assert (kv.1 ∉ pin.*1) as Hfresh.
    { intros Hin. apply list.NoDup_app in Hnd as (_ & Hd & _).
      by apply (Hd _ Hin), list_elem_of_here. }
    rewrite dict_set_fresh by done. destruct kv as [k v]. cbn [fst snd].
    rewrite IH; rewrite <-app_assoc; [done|]. by rewrite fmap_app.
Qed.

Lemma pin_line_malformed path lineno pin raw :
  malformed raw →
  pin_line path lineno pin raw = Raise (pin_line_error path lineno (py_strip (cut_at "#" raw).1)).
Proof.
  unfold malformed, pin_line. intros [Hne Hcut].
  destruct (String.eqb_spec (py_strip (cut_at "#" raw).1) ""); [done|].
  destruct (cut_at "=" _) as [a [b|]]; done.
Qed.

Lemma pin_line_wellformed path lineno pin raw :
  ¬ malformed raw → ∃ pin', pin_line path lineno pin raw = Ok pin'.
Proof.
  unfold malformed, pin_line. intros Hm.
  destruct (String.eqb_spec (py_strip (cut_at "#" raw).1) ""); [eauto|].
  destruct (cut_at "=" _) as [a [b|]]; [eauto|]. by destruct Hm.
Qed.

Lemma pin_lines_first_error path lineno pin good raw rest :
  Forall (λ r, ¬ malformed r) good → malformed raw →
  pin_lines path lineno pin (good ++ raw :: rest) =
  Raise (pin_line_error path (lineno + length good) (py_strip (cut_at "#" raw).1)).
Proof.
  intros Hgood Hraw. revert lineno pin.
  induction Hgood as [|g good Hg _ IH]; intros lineno pin; cbn [app pin_lines length].
  - rewrite pin_line_malformed by done. by rewrite Nat.add_0_r.
  - destruct (pin_line_wellformed path lineno pin g Hg) as [pin' ->]. cbn [mbind res_bind].
    rewrite IH. do 2 f_equal. lia.
Qed.

Lemma pin_lines_total path lineno pin raws :
  Forall (λ r, ¬ malformed r) raws → ∃ pin', pin_lines path lineno pin raws = Ok pin'.
Proof.
  intros H. revert lineno pin. induction H as [|g raws Hg _ IH]; intros lineno pin; cbn; [eauto|].
  destruct (pin_line_wellformed path lineno pin g Hg) as [pin' ->]. cbn. apply IH.
Qed.

Lemma first_malformed raws :
  Forall (λ r, ¬ malformed r) raws ∨
  ∃ good raw rest, raws = good ++ raw :: rest ∧ Forall (λ r, ¬ malformed r) good ∧ malformed raw.
Proof.
  induction raws as [|x raws [IH|(g & r & rest & -> & Hg & Hr)]]; [by left| |];
    (destruct (decide (malformed x)) as [Hx|Hx]; [right; by eexists [], x, _|]).
  - left. by constructor.
  - right. exists (x :: g), r, rest. split_and!; [done|by constructor|done].
Qed.

(** ** Properties: the pin file *)

(** C38. A pin file written one [key = "value"] line per entry reads back as
    exactly those entries, in order. *)
Theorem pin_roundtrip (path : string) (entries : list (string * string)) :
  Forall (λ kv, pin_word kv.1 ∧ pin_word kv.2) entries → NoDup (entries.*1) →
  pin_lines path 1 [] (file_lines (render_pin entries)) = Ok entries.
Proof. intros Hw Hnd. rewrite file_lines_render by done. by apply (pin_lines_render _ _ []). Qed.

Lemma pin_roundtrip_witness :
  pin_lines "p" 1 [] (file_lines ("version = " +:+ dq +:+ "0.8.0" +:+ dq +:+ nl +:+
    "sha = " +:+ dq +:+ "449d24" +:+ dq +:+ nl)) = Ok [("version", "0.8.0"); ("sha", "449d24")].
Proof.
  apply (pin_roundtrip "p" [("version", "0.8.0"); ("sha", "449d24")]).
  - repeat constructor; done.
  - apply (bool_decide_unpack _). reflexivity.
Defined.

(** A pin file is refused exactly when some line is neither blank nor
    [key = value] after its comment is cut, and the refusal names the first
    such line by its one-based number and its text. *)
Theorem pin_refusal (path : string) (raws : list string) :
  (is_ok (pin_lines path 1 [] raws) = true ↔ Forall (λ r, ¬ malformed r) raws) ∧
  (∀ good raw rest, raws = good ++ raw :: rest → Forall (λ r, ¬ malformed r) good → malformed raw →
   pin_lines path 1 [] raws =
   Raise (pin_line_error path (1 + length good) (py_strip (cut_at "#" raw).1))).
Proof.
  split; [split|].
  - intros Hok. destruct (first_malformed raws) as [?|(g & r & rest & -> & Hg & Hr)]; [done|].
    by rewrite pin_lines_first_error in Hok.
  - intros H. by destruct (pin_lines_total path 1 [] raws H) as [pin' ->].
  - intros good raw rest -> Hg Hr. by apply pin_lines_first_error.
Qed.

Lemma pin_refusal_witness :
  pin_lines "p" 1 [] ["a = 1"; "# note"; "oops # x"; "b"] =
  Raise (pin_line_error "p" 3 "oops").
Proof.
  apply (proj2 (pin_refusal "p" ["a = 1"; "# note"; "oops # x"; "b"]) ["a = 1"; "# note"]
           "oops # x" ["b"] eq_refl); apply (bool_decide_unpack _); reflexivity.
Defined.


(** ** Specification of the resolver *)

Definition marker (p : string) : string := path_join p ["sawc"; "sawc.py"].

Section spec.
  Context `{Hst : Host} `{P : ProcessEnv}.

Definition is_checkout (h : host) (p : string) : bool := truthy p && h_isfile (marker p) h.

(** The words of [SAWC]; none when it is unset, empty or blank. *)
Definition sawc_words (e : env) : list string := split_ws (default "" (env_get e "SAWC")).

Definition pin_of (consumer_root : string) (h : host) : res (option env) :=
  let path := join2 consumer_root PIN_FILE in
  if h_isfile path h
  then text ← h_read path h; pin ← pin_lines path 1 [] (file_lines text); Ok (Some pin)
  else Ok None.

Definition root_of (e : env) (consumer_root : string) (h : host) : res (option string) :=
  if truthy (env_get e "SAWLANG_ROOT") then
    let named := abspath (expanduser (default "" (env_get e "SAWLANG_ROOT"))) in
    if is_checkout h named then Ok (Some named) else Raise (not_a_checkout named)
  else Ok (if is_checkout h consumer_root then Some consumer_root else None).

Definition compiler_in (r : string) (h : host) : list string :=
  [ if h_isfile (path_join r [".venv"; "bin"; "python"]) h
    then path_join r [".venv"; "bin"; "python"] else executable;
    marker r ].

Definition pinned (pin : option env) (k : string) : option string := pin ≫= λ p, dict_get p k.

(** Step 1 has no answer. *)
Definition unnamed (e : env) (r : option string) : Prop :=
  sawc_words e = [] ∧ (truthy (env_get e "SAWC") = true ∨ r = None).

(** What the pin asks of a compiler found on the search path. *)
Definition vetted (pin : option env) (s : string) (found : option string) (ns : list string) : Prop :=
  match pinned pin "version" with
  | Some want => found = Some want ∧ ns = []
  | None => ns = [unpinned_note s found]
  end.

(** The resolution order.  Each constructor is a step of [resolve], with what
    makes it answer and what it answers. *)
Inductive resolves (e : env) (consumer_root : string) (verbose : bool) (w : world) :
    toolchain → world → Prop :=
  | by_sawc pin r :
      pin_of consumer_root (w_host w) = Ok pin → root_of e consumer_root (w_host w) = Ok r →
      sawc_words e ≠ [] →
      resolves e consumer_root verbose w
        (mk_toolchain (sawc_words e) (py_join " + " (named_sources e r)) r
           (env_get e "BLADE") []) w
  | by_root pin r :
      pin_of consumer_root (w_host w) = Ok pin → root_of e consumer_root (w_host w) = Ok (Some r) →
      truthy (env_get e "SAWC") = false →
      resolves e consumer_root verbose w
        (mk_toolchain (compiler_in r (w_host w)) (py_join " + " (named_sources e (Some r))) (Some r)
           (env_get e "BLADE") []) w
  | by_path pin r s found ns w' :
      pin_of consumer_root (w_host w) = Ok pin → root_of e consumer_root (w_host w) = Ok r →
      unnamed e r →
      find_program "sawc" (env_get e "PATH") (w_host w) = Some s →
      _probe_version [s] w = (Ok found, w') → vetted pin s found ns →
      resolves e consumer_root verbose w
        (mk_toolchain [s] "PATH" None
           (if truthy (env_get e "BLADE") then env_get e "BLADE"
            else find_program "blade" (env_get e "PATH") (w_host w)) ns) w'
  | by_fetch pin r sha dest w' :
      pin_of consumer_root (w_host w) = Ok pin → root_of e consumer_root (w_host w) = Ok r →
      unnamed e r →
      find_program "sawc" (env_get e "PATH") (w_host w) = None →
      pinned pin "sha" = Some sha → sha ≠ "" →
      _fetch sha e verbose w = (Ok dest, w') →
      resolves e consumer_root verbose w
        (mk_toolchain (compiler_in dest (w_host w')) "fetch" (Some dest) (env_get e "BLADE") []) w'.

(** The commands of a fetch, and everything it does before it publishes. *)
Definition fetch_commands (tmp sha : string) : list (list string * option string) :=
  [ (["git"; "init"; "--quiet"; tmp], None);
    (["git"; "remote"; "add"; "origin"; UPSTREAM_URL], Some tmp);
    (["git"; "fetch"; "--quiet"; "--depth"; "1"; "origin"; sha], Some tmp);
    (["git"; "checkout"; "--quiet"; "FETCH_HEAD"], Some tmp);
    (["python3"; "-m"; "venv"; join2 tmp ".venv"], None);
    ([path_join tmp [".venv"; "bin"; "pip"]; "install"; "--quiet"; "llvmlite"], None) ].

Definition fetch_plan (sha : string) (e : env) (verbose : bool) : list action :=
  let dest := fetch_dest sha e in
  let tmp := fetch_tmp sha e in
  [RmTree tmp; MakeDirs (dirname dest) true] ++
  (if verbose then [Print ("  fetching sawlang " +:+ stake 12 sha +:+ " -> " +:+ dest)] else []) ++
  [MakeDirs tmp false] ++ ((λ c, Run c.1 c.2 None) <$> fetch_commands tmp sha).
End spec.

(** ** Lemmas: the queries *)

Section lemmas.
  Context `{Hst : Host} `{P : ProcessEnv}.

Lemma looks_like_run p w :
  _looks_like_sawlang p w = (Ok (is_checkout (w_host w) p), w).
Proof. unfold _looks_like_sawlang, is_checkout. by destruct (truthy p). Qed.

Lemma read_pin_run cr w : _read_pin cr w = (pin_of cr (w_host w), w).
Proof.
  unfold _read_pin, pin_of. cbn [mbind M_bind isfile ask]. unfold mbind, M_bind. cbn.
  destruct (h_isfile _ _); [|done]. cbn. unfold read_file.
  destruct (h_read _ _); [|done]. cbn. by destruct (pin_lines _ _ _ _).
Qed.

Lemma resolve_root_run e cr w : _resolve_root e cr w = (root_of e cr (w_host w), w).
Proof.
  unfold _resolve_root, root_of.
  destruct (truthy (env_get e "SAWLANG_ROOT")); unfold mbind, M_bind; rewrite looks_like_run;
    by destruct (is_checkout _ _).
Qed.

Lemma sawc_from_root_run r w : _sawc_from_root r w = (Ok (compiler_in r (w_host w)), w).
Proof. done. Qed.

(** A checkout is never at the empty path. *)
Lemma root_of_truthy e cr h r : root_of e cr h = Ok (Some r) → is_checkout h r = true ∧ truthy r = true.
Proof.
  unfold root_of. destruct (truthy (env_get e _)).
  - destruct (is_checkout h _) eqn:E; [|done]. intros [= <-]. split; [done|].
    by apply andb_true_iff in E as [? _].
  - destruct (is_checkout h cr) eqn:E; [|done]. intros [= <-]. split; [done|].
    by apply andb_true_iff in E as [? _].
Qed.

Lemma fetch_run_follows tmp argv c :
  follows [RmTree tmp] [Run argv c None] (fetch_run tmp argv c).
Proof.
  intros w r w'. unfold fetch_run, subprocess_run, mbind, M_bind.
  destruct (h_run argv c None (w_host w)) as [[p|] h] eqn:E; cbn.
  - destruct (bool_decide_reflect (p_code p = 0%Z)) as [H0|H0]; cbn.
    + intros [= <- <-]. split; [done|]. econstructor; [by eexists|constructor].
    + unfold perform_ignore. cbn. destruct (h_do _ h) as [r' h']. intros [= <- <-].
      exists [Run argv c None], [RmTree tmp]. cbn. rewrite <-app_assoc. auto.
  - intros [= <- <-]. exists [Run argv c None], []. cbn. auto.
Qed.
End lemmas.
#[export] Hint Resolve fetch_run_follows : py.


Section fetch_lemmas.
  Context `{Hst : Host} `{P : ProcessEnv}.

Lemma fetch_into_follows sha e verbose :
  follows [RmTree (fetch_tmp sha e)] (fetch_plan sha e verbose)
    (fetch_into (fetch_tmp sha e) (fetch_dest sha e) sha verbose).
Proof.
  unfold fetch_into, fetch_plan, fetch_commands. cbn [fmap list_fmap fst snd app].
  do 2 plan_step. plan_step; [by destruct verbose; auto with py|].
  repeat plan_step. auto with py.
Qed.

(** The tool check reads the world only. *)
Lemma fetch_tools_run e w :
  for_each ["git"; "python3"] (λ tool,
    found ← _which tool e;
    if truthy found then mret tt else raise (fetch_needs tool)) w =
  (if truthy (find_program "git" (env_get e "PATH") (w_host w)) then
     if truthy (find_program "python3" (env_get e "PATH") (w_host w)) then Ok tt
     else Raise (fetch_needs "python3")
   else Raise (fetch_needs "git"), w).
Proof.
  cbn. unfold mbind, M_bind. cbn.
  destruct (truthy (find_program "git" _ _)); [|done]. cbn.
  by destruct (truthy (find_program "python3" _ _)).
Qed.
End fetch_lemmas.


Section fetch_run.
  Context `{Hst : Host} `{P : ProcessEnv}.

(** The three ways through [_fetch]. *)
Lemma fetch_cases sha e verbose w :
  let dest := fetch_dest sha e in
  if is_checkout (w_host w) dest then _fetch sha e verbose w = (Ok dest, w)
  else (∃ tool, _fetch sha e verbose w = (Raise (fetch_needs tool), w)) ∨
       _fetch sha e verbose w =
       (fetch_into (fetch_tmp sha e) dest sha verbose ;;
        perform (Rename (fetch_tmp sha e) dest) ;; mret dest) w.
Proof.
  cbn zeta. unfold _fetch. rewrite (M_bind_Ok _ _ _ _ _ (looks_like_run _ _)).
  destruct (is_checkout _ _); [done|]. pose proof (fetch_tools_run e w) as Ht.
  destruct (truthy (find_program "git" _ _)); [|left; by eexists; apply M_bind_Raise].
  destruct (truthy (find_program "python3" _ _)); [|left; by eexists; apply M_bind_Raise].
  right. by rewrite (M_bind_Ok _ _ _ _ _ Ht).
Qed.

Lemma fetch_publish_follows sha e verbose :
  follows [RmTree (fetch_tmp sha e)]
    (fetch_plan sha e verbose ++ [Rename (fetch_tmp sha e) (fetch_dest sha e)])
    (fetch_into (fetch_tmp sha e) (fetch_dest sha e) sha verbose ;;
     perform (Rename (fetch_tmp sha e) (fetch_dest sha e)) ;; mret (fetch_dest sha e)).
Proof.
  apply follows_bind; [apply fetch_into_follows|intros _].
  apply (follows_bind _ [_] []); [by apply follows_perform|auto with py].
Qed.

Lemma fetch_into_keeps (Q : host → Prop) sha e verbose :
  (∀ a h, a ∈ fetch_plan sha e verbose → Q h → Q (effect a h)) →
  keeps_host Q (fetch_into (fetch_tmp sha e) (fetch_dest sha e) sha verbose).
Proof.
  intros HQ. unfold fetch_plan, fetch_commands in HQ. cbn [fmap list_fmap fst snd app] in HQ.
  assert (∀ argv c, keeps_host Q (subprocess_run argv c None) →
            keeps_host Q (fetch_run (fetch_tmp sha e) argv c)) as Hrun.
  { intros argv c Hr. apply keeps_bind; [done|]. intros p. destruct (negb _); [|auto with py].
    apply keeps_bind; [|intros _; auto with py].
    apply keeps_host_perform; [done|]. intros h. apply HQ. set_solver. }
  repeat (apply keeps_bind; [|intros _]);
    try (by destruct verbose; first [apply keeps_host_print | apply keeps_ret]);
    first [ apply Hrun, keeps_host_run | apply keeps_host_perform; [done|] ];
    intros h; apply HQ; destruct verbose; set_solver.
Qed.
End fetch_run.


(** ** Properties: the fetch *)

Section fetch_properties.
  Context `{Hst : Host} `{P : ProcessEnv}.

(** A fetch that is not answered from the cache: its plan, or a part of it. *)
Lemma fetch_afresh sha e verbose w :
  let dest := fetch_dest sha e in
  let plan := fetch_plan sha e verbose ++ [Rename (fetch_tmp sha e) dest] in
  is_checkout (w_host w) dest = false →
  match _fetch sha e verbose w with
  | (Ok d, w') => d = dest ∧ w_log w' = w_log w ++ plan ∧ plan_done plan (w_host w) (w_host w')
  | (Raise _, w') => ∃ done_part tail, done_part `prefix_of` plan ∧
      (tail = [] ∨ tail = [RmTree (fetch_tmp sha e)]) ∧ w_log w' = w_log w ++ done_part ++ tail
  end.
Proof.
  cbn zeta. intros Hc. pose proof (fetch_cases sha e verbose w) as Hcases. cbn zeta in Hcases. rewrite Hc in Hcases.
  destruct Hcases as [[tool ->]| ->].
  - exists [], []. rewrite app_nil_r. split_and!; [apply prefix_nil|by left|done].
  - pose proof (fetch_publish_follows sha e verbose w) as Hf.
    match goal with |- match ?m with _ => _ end => destruct m as [[d|x] w'] eqn:E end; specialize (Hf _ _ eq_refl); [|done].
    apply M_bind_inv in E as (? & ? & _ & E). apply M_bind_inv in E as (? & ? & _ & E).
    by injection E as <- <-.
Qed.

(** C30. What a fetch does to the world: a complete checkout in the cache is
    returned untouched; otherwise a fetch that returns has carried out its whole
    plan in order, every command exiting zero, the rename last of all; one that
    raises stopped part way, and did nothing after but clear the partial
    checkout. *)
Theorem fetch_outcome (sha : string) (e : env) (verbose : bool) (w : world) :
  let dest := fetch_dest sha e in
  let plan := fetch_plan sha e verbose ++ [Rename (fetch_tmp sha e) dest] in
  match _fetch sha e verbose w with
  | (Ok d, w') =>
      d = dest ∧
      if is_checkout (w_host w) dest then w' = w
      else w_log w' = w_log w ++ plan ∧ plan_done plan (w_host w) (w_host w')
  | (Raise _, w') =>
      is_checkout (w_host w) dest = false ∧
      ∃ done_part tail, done_part `prefix_of` plan ∧
        (tail = [] ∨ tail = [RmTree (fetch_tmp sha e)]) ∧
        w_log w' = w_log w ++ done_part ++ tail
  end.
Proof.
  cbn zeta. pose proof (fetch_cases sha e verbose w) as Hc. pose proof (fetch_afresh sha e verbose w) as Ha.
  cbn zeta in Hc, Ha. destruct (is_checkout _ _); [by rewrite Hc|]. specialize (Ha eq_refl).
  by destruct (_fetch sha e verbose w) as [[d|x] w'].
Qed.

(** C14. A fetch that fails publishes nothing: where the commands of the plan
    leave the destination's marker file alone, and a rename that fails moves
    nothing, a later run does not take what a failed fetch left for a
    checkout. *)
Theorem fetch_failure_invisible (sha : string) (e : env) (verbose : bool) (w w' : world) (x : exn)
    (confined : ∀ a h, a ∈ fetch_plan sha e verbose →
       h_isfile (marker (fetch_dest sha e)) h = false →
       h_isfile (marker (fetch_dest sha e)) (effect a h) = false)
    (rename_atomic : ∀ h h' y, h_do (Rename (fetch_tmp sha e) (fetch_dest sha e)) h = (Raise y, h') → h' = h) :
  _fetch sha e verbose w = (Raise x, w') →
  _looks_like_sawlang (fetch_dest sha e) w' = (Ok false, w').
Proof.
  intros Hf. rewrite looks_like_run. f_equal. f_equal.
  pose proof (fetch_cases sha e verbose w) as Hc. cbn zeta in Hc.
  destruct (is_checkout _ _) eqn:Hw; [by rewrite Hc in Hf|].
  rewrite Hf in Hc. destruct Hc as [[tool [= -> ->]]|Hc]; [done|]. symmetry in Hc.
  unfold is_checkout in *. destruct (truthy (fetch_dest sha e)); [|done]. cbn in *.
  pose proof (fetch_into_keeps _ sha e verbose confined w Hw) as Hk. cbn in Hk.
  unfold mbind at 1, M_bind at 1 in Hc.
  destruct (fetch_into _ _ _ _ w) as [[[]|y] w1]; [|by injection Hc as <- <-].
  unfold mbind, M_bind, perform in Hc. cbn in Hc.
  destruct (h_do _ (w_host w1)) as [[[]|y] h] eqn:Er; [done|].
  injection Hc as <- <-. by rewrite (rename_atomic _ _ _ Er).
Qed.

End fetch_properties.


(** A network that is down: the third command of the fetch fails. *)
Definition offline : programs := λ argv _ _ f,
  (Some (if bool_decide ("fetch" ∈ argv) then Proc 128 "" "could not resolve host" else Proc 0 "" ""), f).

Definition offline_host : Host := fs_host offline.
Definition fetch_env : env := [("PATH", "/bin"); (CACHE_ENV, "/c")].
Definition bare_machine : fs := FS [] ["/bin/git"; "/bin/python3"].

Lemma fetch_failure_invisible_witness :
  let w := @World offline_host bare_machine [] in
  let w' := (@_fetch offline_host sample_env "449d24" fetch_env false w).2 in
  w_log w' ≠ [] ∧
  @_looks_like_sawlang offline_host (@fetch_dest sample_env "449d24" fetch_env) w' = (Ok false, w').
Proof.
  cbn zeta. split; [by vm_compute|].
  eapply (@fetch_failure_invisible offline_host sample_env "449d24" fetch_env false
           (@World offline_host bare_machine [])).
  - intros a h Ha Hm. assert (∃ d, a = RmTree d ∨ effect a h = h) as [d [-> | ->]]; [|by apply fs_rmtree_isfile|done].
    cbn [fetch_plan app fmap list_fmap fetch_commands fst snd] in Ha.
    repeat (apply elem_of_cons in Ha as [->|Ha]; [first [eexists; left; reflexivity | exists ""; right; reflexivity]|]).
    by apply elem_of_nil in Ha.
  - done.
  - vm_compute. reflexivity.
Defined.


(** ** Lemmas: the four steps *)

Section resolve_lemmas.
  Context `{Hst : Host} `{P : ProcessEnv}.

Lemma words_nil_of_unset e : truthy (env_get e "SAWC") = false → sawc_words e = [].
Proof. unfold sawc_words. destruct (env_get e "SAWC") as [s|]; cbn; [|done]. by destruct s. Qed.

(** Step 1's compiler: the words of [SAWC], else the checkout's. *)
Lemma named_compiler_run e r w :
  named_compiler e r w =
  (Ok (if truthy (env_get e "SAWC") then Some (sawc_words e)
       else match r with
            | Some r => if truthy r then Some (compiler_in r (w_host w)) else None
            | None => None
            end), w).
Proof.
  unfold named_compiler, sawc_words. destruct (truthy (env_get e "SAWC")); [done|].
  destruct r as [r|]; [|done]. by destruct (truthy r).
Qed.

(** [resolve], once the pin and the root are read. *)
Lemma resolve_run e cr v w pin r :
  pin_of cr (w_host w) = Ok pin → root_of e cr (w_host w) = Ok r →
  resolve e cr v w =
  match sawc_words e, truthy (env_get e "SAWC"), r with
  | _ :: _, _, _ => (Ok (mk_toolchain (sawc_words e) (py_join " + " (named_sources e r)) r
                           (env_get e "BLADE") []), w)
  | [], false, Some c => (Ok (mk_toolchain (compiler_in c (w_host w))
                           (py_join " + " (named_sources e r)) r (env_get e "BLADE") []), w)
  | [], _, _ => resolve_unnamed e cr pin v w
  end.
Proof.
  intros Hp Hr. unfold resolve.
  rewrite (M_bind_Ok _ _ w pin w) by (by rewrite read_pin_run, Hp).
  rewrite (M_bind_Ok _ _ w r w) by (by rewrite resolve_root_run, Hr).
  rewrite (M_bind_Ok _ _ _ _ _ (named_compiler_run e r w)).
  destruct (truthy (env_get e "SAWC")) eqn:Es.
  - by destruct (sawc_words e).
  - rewrite (words_nil_of_unset e Es). destruct r as [c|]; [|done].
    by rewrite (proj2 (root_of_truthy _ _ _ _ Hr)).
Qed.

Lemma resolve_inv e cr v w tc w' :
  resolve e cr v w = (Ok tc, w') →
  ∃ pin r, pin_of cr (w_host w) = Ok pin ∧ root_of e cr (w_host w) = Ok r.
Proof.
  unfold resolve. intros (pin & w1 & Hp & H)%M_bind_inv. rewrite read_pin_run in Hp.
  injection Hp as Hp <-. apply M_bind_inv in H as (r & w1 & Hr & _).
  rewrite resolve_root_run in Hr. injection Hr as Hr _. eauto.
Qed.

(** A version is only ever read off a clean exit that printed two words. *)
Lemma probe_version_says argv w v w' :
  _probe_version argv w = (Ok (Some v), w') →
  ∃ answer h, h_run (argv ++ ["--version"]) None None (w_host w) = (Some answer, h) ∧
    p_code answer = 0%Z ∧
    split_ws (py_strip (if truthy (p_stdout answer) then p_stdout answer else p_stderr answer)) =
      ["sawc"; v].
Proof.
  unfold _probe_version, attempt, subprocess_run, mbind, M_bind.
  destruct (h_run _ _ _ _) as [[p|] h]; cbn; [|done].
  destruct (bool_decide_reflect (p_code p = 0%Z)); cbn; [|done].
  destruct (split_ws _) as [|a [|b [|]]] eqn:E; try done.
  destruct (String.eqb_spec a "sawc") as [->|]; [|done]. intros [= <- <-]. eauto.
Qed.

(** Step 2's check of a compiler on the search path. *)
Lemma check_version_run pin s w ns w' :
  _check_version [s] pin s [] w = (Ok ns, w') ↔
  ∃ found, _probe_version [s] w = (Ok found, w') ∧ vetted pin s found ns.
Proof.
  unfold _check_version, vetted, pinned. split.
  - intros (found & w1 & Hf & H)%M_bind_inv. exists found.
    change (pin ≫= _) with (match pin with Some p => dict_get p "version" | None => None end).
    destruct (match pin with Some _ => _ | None => _ end) as [want|]; [|by injection H as <- <-].
    destruct found as [f|]; [|done]. destruct (String.eqb_spec f want) as [->|]; [|done].
    by injection H as <- <-.
  - intros (found & Hf & H). rewrite (M_bind_Ok _ _ _ _ _ Hf).
    change (pin ≫= _) with (match pin with Some p => dict_get p "version" | None => None end) in H.
    destruct (match pin with Some _ => _ | None => _ end) as [want|]; [|by subst].
    destruct H as [-> ->]. by rewrite String.eqb_refl.
Qed.

(** Steps 2 to 4, with the queries resolved. *)
Lemma unnamed_run e cr pin v w :
  resolve_unnamed e cr pin v w =
  match find_program "sawc" (env_get e "PATH") (w_host w) with
  | Some s =>
      (ns ← _check_version [s] pin s [];
       mret (mk_toolchain [s] "PATH" None
         (if truthy (env_get e "BLADE") then env_get e "BLADE"
          else find_program "blade" (env_get e "PATH") (w_host w)) ns)) w
  | None =>
      if truthy (pinned pin "sha") then
        (fetched ← _fetch (default "" (pinned pin "sha")) e v;
         argv ← _sawc_from_root fetched;
         mret (mk_toolchain argv "fetch" (Some fetched) (env_get e "BLADE") [])) w
      else (Raise (_refusal cr (Tried env_tried path_tried
             (match pin with Some _ => PIN_FILE +:+ " names no `sha`"
              | None => "no " +:+ PIN_FILE +:+ " here" end))), w)
  end.
Proof.
  unfold resolve_unnamed. unfold mbind at 1 2, M_bind at 1 2. cbn [_which which ask].
  unfold _which, which, ask. destruct (find_program "sawc" _ _); [done|].
  destruct pin as [p|]; [|done]. cbn. destruct (dict_get p "sha") as [sha|]; [|done]. cbn.
  by destruct (truthy sha).
Qed.
End resolve_lemmas.


Section resolve_lemmas2.
  Context `{Hst : Host} `{P : ProcessEnv}.

Lemma resolve_when_unnamed e cr v w pin r :
  pin_of cr (w_host w) = Ok pin → root_of e cr (w_host w) = Ok r → unnamed e r →
  resolve e cr v w = resolve_unnamed e cr pin v w.
Proof.
  intros Hp Hr [Hw Hn]. rewrite (resolve_run e cr v w pin r Hp Hr), Hw.
  destruct Hn as [-> | ->]; [done|]. by destruct (truthy _).
Qed.

Lemma resolve_sound e cr v w tc w' : resolve e cr v w = (Ok tc, w') → resolves e cr v w tc w'.
Proof.
  intros H. destruct (resolve_inv _ _ _ _ _ _ H) as (pin & r & Hp & Hr).
  destruct (decide (sawc_words e = [])) as [Hw|Hw].
  2: { rewrite (resolve_run e cr v w pin r Hp Hr) in H.
       destruct (sawc_words e) eqn:E; [done|]. injection H as <- <-. rewrite <-E in *.
       by eapply by_sawc. }
  destruct (truthy (env_get e "SAWC")) eqn:Es; [|destruct r as [c|]].
  2: { rewrite (resolve_run e cr v w pin (Some c) Hp Hr), Hw, Es in H. injection H as <- <-.
       by eapply by_root. }
  all: match type of Hr with _ = Ok ?r0 => assert (unnamed e r0) as Hu by (split; auto) end.
  all: rewrite (resolve_when_unnamed _ _ _ _ _ _ Hp Hr Hu), unnamed_run in H.
  all: destruct (find_program "sawc" _ _) as [s|] eqn:Ef.
  1,3: apply M_bind_inv in H as (ns & w1 & (found & Hf & Hv)%check_version_run & H);
       injection H as <- <-; by eapply by_path.
  all: destruct (pinned pin "sha") as [sha|] eqn:Esha; cbn [truthy] in H; [|done].
  all: destruct (truthy (Some sha)) eqn:Et; [|done].
  all: apply M_bind_inv in H as (d & w1 & Hd & H); cbn in H; injection H as <- <-.
  all: eapply by_fetch; try done; by intros ->.
Qed.

Lemma resolve_complete e cr v w tc w' : resolves e cr v w tc w' → resolve e cr v w = (Ok tc, w').
Proof.
  destruct 1 as [pin r Hp Hr Hw | pin r Hp Hr Hs | pin r s found ns w' Hp Hr Hu Hf Hpr Hv
                | pin r sha d w' Hp Hr Hu Hf Hsha Hne Hd].
  - rewrite (resolve_run e cr v w pin r Hp Hr). by destruct (sawc_words e).
  - by rewrite (resolve_run e cr v w pin _ Hp Hr), (words_nil_of_unset e Hs), Hs.
  - rewrite (resolve_when_unnamed _ _ _ _ _ _ Hp Hr Hu), unnamed_run, Hf.
    by rewrite (M_bind_Ok _ _ _ _ _ (proj2 (check_version_run _ _ _ _ _) (ex_intro _ _ (conj Hpr Hv)))).
  - rewrite (resolve_when_unnamed _ _ _ _ _ _ Hp Hr Hu), unnamed_run, Hf, Hsha.
    destruct sha; [done|]. cbn. by rewrite (M_bind_Ok _ _ _ _ _ Hd).
Qed.
End resolve_lemmas2.


(** ** Properties: the four steps *)

Section resolve_properties.
  Context `{Hst : Host} `{P : ProcessEnv}.

(** C16. [resolve] implements the resolution order: it returns a toolchain
    exactly when one of the four ways to have one applies, a later one only
    where every earlier one is silent, and what it returns is what that way
    supplies.  A toolchain the operator named costs no process and no change
    to the machine. *)
Theorem resolve_refines (e : env) (consumer_root : string) (verbose : bool) (w w' : world)
    (tc : toolchain) :
  resolve e consumer_root verbose w = (Ok tc, w') ↔ resolves e consumer_root verbose w tc w'.
Proof. split; [apply resolve_sound | apply resolve_complete]. Qed.

(** C28. A compiler taken from the search path under a pin that states a version
    is one that was run, exited zero and named itself [sawc] with exactly that
    version; it comes with no note and no checkout. *)
Theorem path_compiler_pinned (e : env) (consumer_root : string) (verbose : bool) (w w' : world)
    (tc : toolchain) (p : env) (want : string) :
  resolve e consumer_root verbose w = (Ok tc, w') → source tc = "PATH" →
  pin_of consumer_root (w_host w) = Ok (Some p) → dict_get p "version" = Some want →
  ∃ s answer h,
    find_program "sawc" (env_get e "PATH") (w_host w) = Some s ∧
    sawc_argv tc = [s] ∧ notes tc = [] ∧ root tc = None ∧
    h_run [s; "--version"] None None (w_host w) = (Some answer, h) ∧ p_code answer = 0%Z ∧
    split_ws (py_strip (if truthy (p_stdout answer) then p_stdout answer else p_stderr answer)) =
      ["sawc"; want].
Proof.
  intros H Hsrc Hp Hv. apply resolve_sound in H.
  destruct H as [pin r _ _ Hw | pin r _ _ Hs | pin r s found ns w' Hpin _ _ Hf Hpr Hve | ]; try done.
  - unfold named_sources in Hsrc. cbn in Hsrc.
    by destruct (truthy (env_get e "SAWC")), (truthy (env_get e "BLADE")),
      (truthy (env_get e "SAWLANG_ROOT")), (truthy r).
  - unfold named_sources in Hsrc. cbn in Hsrc.
    by destruct (truthy (env_get e "SAWC")), (truthy (env_get e "BLADE")),
      (truthy (env_get e "SAWLANG_ROOT")), (truthy r).
  - rewrite Hp in Hpin. injection Hpin as <-. unfold vetted, pinned in Hve. cbn in Hve.
    rewrite Hv in Hve. destruct Hve as [-> ->].
    apply probe_version_says in Hpr as (answer & h & Hrun & Hcode & Hsplit).
    by exists s, answer, h.
Qed.

(** C35. When the operator named nothing that runs, no [sawc] is on the search
    path and the pin names no commit, [resolve] refuses, starts nothing and
    changes nothing; the refusal says which of the two reasons the pin gave. *)
Theorem resolve_refusal_exact (e : env) (consumer_root : string) (verbose : bool) (w : world)
    (pin : option env) (r : option string) :
  pin_of consumer_root (w_host w) = Ok pin → root_of e consumer_root (w_host w) = Ok r →
  unnamed e r → find_program "sawc" (env_get e "PATH") (w_host w) = None →
  truthy (pinned pin "sha") = false →
  resolve e consumer_root verbose w =
  (Raise (_refusal consumer_root (Tried env_tried path_tried
     (match pin with Some _ => PIN_FILE +:+ " names no `sha`"
      | None => "no " +:+ PIN_FILE +:+ " here" end))), w).
Proof.
  intros Hp Hr Hu Hf Hs. by rewrite (resolve_when_unnamed _ _ _ _ _ _ Hp Hr Hu), unnamed_run, Hf, Hs.
Qed.

(** C36. Where the sources of a package come from.  A resolved toolchain with a
    checkout answers for every package it owns with the directory under it, and
    the checkout was seen to hold the compiler before anything ran, or it is the
    cache entry of the pinned commit, put there by a fetch carried out to its
    end.  One without a checkout refuses every package, and it is one of two: a
    compiler from the search path, or one [SAWC] names where neither
    [SAWLANG_ROOT] nor the repository is a checkout. *)
Theorem sources_need_checkout (e : env) (consumer_root : string) (verbose : bool) (w w' : world)
    (tc : toolchain) (name : string) (dirs : list string) :
  resolve e consumer_root verbose w = (Ok tc, w') → dict_get MODULE_DIRS name = Some dirs →
  match root tc with
  | Some r =>
      module_source tc name = Ok (path_join r dirs) ∧
      (is_checkout (w_host w) r = true ∨
       source tc = "fetch" ∧ ∃ pin sha, pin_of consumer_root (w_host w) = Ok pin ∧
         pinned pin "sha" = Some sha ∧ r = fetch_dest sha e ∧
         plan_done (fetch_plan sha e verbose ++ [Rename (fetch_tmp sha e) r]) (w_host w) (w_host w'))
  | None =>
      module_source tc name = Raise (no_checkout tc ("the `" +:+ name +:+ "` package's sources")) ∧
      (source tc = "PATH" ∨ sawc_words e ≠ [] ∧ root_of e consumer_root (w_host w) = Ok None)
  end.
Proof.
  intros H Hd. apply resolve_sound in H. unfold module_source, _require_root. rewrite Hd.
  destruct H as [pin [r|] _ Hr Hw | pin r _ Hr _ | | pin r sha dest w' Hp _ _ _ Hsha Hne Hf]; cbn [root source]; auto.
  1, 2: destruct (root_of_truthy _ _ _ _ Hr) as [? Ht]; rewrite Ht; auto.
  assert (dest = fetch_dest sha e ∧ (is_checkout (w_host w) dest = true ∨
    plan_done (fetch_plan sha e verbose ++ [Rename (fetch_tmp sha e) dest]) (w_host w) (w_host w'))) as [-> Hdest].
  { pose proof (fetch_cases sha e verbose w) as Hc. pose proof (fetch_afresh sha e verbose w) as Ha.
    cbn zeta in Hc, Ha. destruct (is_checkout (w_host w) (fetch_dest sha e)) eqn:Ec.
    - rewrite Hf in Hc. injection Hc as -> ->. auto.
    - specialize (Ha eq_refl). rewrite Hf in Ha. destruct Ha as (-> & _ & Hdone). auto. }
  assert (truthy (fetch_dest sha e) = true) as ->.
  { pose proof (slen_join2_r (_cache_root e) sha) as Hl. fold (fetch_dest sha e) in Hl.
    destruct (fetch_dest sha e); [|done]. destruct sha; [done|]. cbn in Hl. lia. }
  split; [done|]. destruct Hdest as [?|?]; [by left|right]. split; [done|]. by exists pin, sha.
Qed.

(** C40. A [SAWC] that is set but blank silences step 1, whatever else the operator
    named: the checkout of [SAWLANG_ROOT] is looked at and then not used, so what
    is resolved is a compiler of the search path without sources, or the pinned
    commit; and where there is neither, the refusal says that [SAWLANG_ROOT],
    [SAWC] and [BLADE] are all unset. *)
Theorem blank_sawc_ignores_root (e : env) (consumer_root : string) (verbose : bool) (w : world)
    (pin : option env) (named : string) :
  truthy (env_get e "SAWC") = true → sawc_words e = [] →
  pin_of consumer_root (w_host w) = Ok pin → root_of e consumer_root (w_host w) = Ok (Some named) →
  (∀ tc w', resolve e consumer_root verbose w = (Ok tc, w') →
     (source tc = "PATH" ∧ root tc = None) ∨
     (source tc = "fetch" ∧ ∃ sha, pinned pin "sha" = Some sha ∧ root tc = Some (fetch_dest sha e))) ∧
  (find_program "sawc" (env_get e "PATH") (w_host w) = None → truthy (pinned pin "sha") = false →
   ∃ why, resolve e consumer_root verbose w =
          (Raise (_refusal consumer_root (Tried "SAWLANG_ROOT, SAWC and BLADE are all unset" path_tried why)), w)).
Proof.
  intros Hs Hw Hp Hr. assert (unnamed e (Some named)) as Hu by (split; auto). split.
  - intros tc w' H%resolve_sound.
    destruct H as [pin' r _ _ Hne | pin' r _ _ Hf | | pin' r sha dest w' Hp' _ _ _ Hsha _ Hf]; [done|congruence|auto|].
    right. split; [done|]. rewrite Hp in Hp'. injection Hp' as <-. exists sha. split; [done|]. cbn. f_equal.
    pose proof (fetch_cases sha e verbose w) as Hc. pose proof (fetch_afresh sha e verbose w) as Ha.
    cbn zeta in Hc, Ha. destruct (is_checkout (w_host w) (fetch_dest sha e)).
    + rewrite Hf in Hc. by injection Hc.
    + specialize (Ha eq_refl). rewrite Hf in Ha. by destruct Ha.
  - intros Hf Hsha. rewrite (resolve_when_unnamed _ _ _ _ _ _ Hp Hr Hu), unnamed_run, Hf, Hsha. by eexists.
Qed.

End resolve_properties.


(** A machine whose [sawc] answers 0.8.0, in a repository pinned to it. *)
Definition pinned_machine : fs :=
  FS [("/r/sawlang.pin", "version = " +:+ dq +:+ "0.8.0" +:+ dq +:+ nl)] ["/bin/sawc"].
Definition sawc_080 : Host := fs_host (all_answer (Proc 0 ("sawc 0.8.0" +:+ nl) "")).
Definition pinned_world : @world sawc_080 := @World sawc_080 pinned_machine [].

Lemma path_compiler_pinned_witness :
  ∃ s answer h,
    @find_program sawc_080 sample_env "sawc" (Some "/bin") (w_host pinned_world) = Some s ∧
    ["/bin/sawc"] = [s] ∧ @nil string = [] ∧ @None string = None ∧
    @h_run sawc_080 [s; "--version"] None None (w_host pinned_world) = (Some answer, h) ∧
    p_code answer = 0%Z ∧
    split_ws (py_strip (if truthy (p_stdout answer) then p_stdout answer else p_stderr answer)) =
      ["sawc"; "0.8.0"].
Proof.
  eapply (@path_compiler_pinned sawc_080 sample_env [("PATH", "/bin")] "/r" false pinned_world
    (@resolve sawc_080 sample_env [("PATH", "/bin")] "/r" false pinned_world).2
    (mk_toolchain ["/bin/sawc"] "PATH" None None []) [("version", "0.8.0")] "0.8.0");
    vm_compute; reflexivity.
Defined.

(** A checkout at [/s], a blank [SAWC] and a [BLADE]. *)
Definition checkout_machine : fs := FS [("/s/sawc/sawc.py", "")] [].
Definition quiet : Host := fs_host (all_answer (Proc 0 "" "")).
Definition checkout_world : @world quiet := @World quiet checkout_machine [].
Definition blank_env : env :=
  [("SAWC", " "); ("SAWLANG_ROOT", "/s"); ("BLADE", "/usr/bin/blade"); ("PATH", "/bin")].

Lemma resolve_refusal_exact_witness :
  @resolve quiet sample_env blank_env "/r" false checkout_world =
  (Raise (_refusal "/r" (Tried env_tried path_tried ("no " +:+ PIN_FILE +:+ " here"))), checkout_world).
Proof.
  apply (@resolve_refusal_exact quiet sample_env blank_env "/r" false checkout_world None (Some "/s"));
    try (vm_compute; reflexivity).
  split; [vm_compute; reflexivity|left; vm_compute; reflexivity].
Defined.

Lemma sources_need_checkout_witness :
  let tc := mk_toolchain ["/usr/bin/python3"; "/s/sawc/sawc.py"] "SAWLANG_ROOT" (Some "/s") None [] in
  module_source tc "toml" = Ok "/s/libs/toml/src".
Proof.
  apply (@sources_need_checkout quiet sample_env [("SAWLANG_ROOT", "/s")] "/r" false
    checkout_world checkout_world
    (mk_toolchain ["/usr/bin/python3"; "/s/sawc/sawc.py"] "SAWLANG_ROOT" (Some "/s") None [])
    "toml" ["libs"; "toml"; "src"]); [|done].
  vm_compute. reflexivity.
Defined.

(** The checkout named at [/s] is there, and the refusal says nothing was named. *)
Lemma blank_sawc_ignores_root_witness :
  @root_of quiet sample_env blank_env "/r" checkout_machine = Ok (Some "/s") ∧
  ∃ why, @resolve quiet sample_env blank_env "/r" false checkout_world =
    (Raise (_refusal "/r" (Tried "SAWLANG_ROOT, SAWC and BLADE are all unset" path_tried why)), checkout_world).
Proof.
  split; [vm_compute; reflexivity|].
  apply (proj2 (@blank_sawc_ignores_root quiet sample_env blank_env "/r" false checkout_world None "/s"
    ltac:(vm_compute; reflexivity) ltac:(vm_compute; reflexivity) ltac:(vm_compute; reflexivity)
    ltac:(vm_compute; reflexivity))); vm_compute; reflexivity.
Defined.

End Toolchain.
