(* ===== verification/Build.v ===== *)
(** * Building and booting one case (tools/sos_runner.py)

    From [_run] to [_run_qemu]: the shared objects of an architecture, Blade and
    the packages it builds, the stitched stubs, the ELF of a case and its boot,
    as computations over the abstract host. *)

From Stdlib Require Import Ascii.
From S2P Require Import Prelude PyStr PyPath Arches Case Check RegionTable Host Toolchain.
From stdpp Require Import base list sets strings numbers option pretty.

Open Scope nat_scope.
Open Scope py_scope.

Module Build.
Import Check RegionTable Toolchain.

(** [SERIAL_TYPE_DELAY_S], in milliseconds. *)
Definition SERIAL_TYPE_DELAY : N := 150.

(** What an architecture's package phase left in the case dictionary under the
    architecture's name: [_root_image] and [_child_images]. *)
Record case_images := CaseImages {
  i_root : option string;
  i_children : option (list string);
}.

Definition no_images : case_images := CaseImages None None.

(** The compiler driver's command line, up to its arguments. *)
Definition cc (clang : string) (arch : Arch) (args : list string) : list string :=
  clang :: ("--target=" +:+ a_triple arch) :: a_cc_args arch ++ args.

Definition run_failed (argv : list string) (p : proc) : exn :=
  ToolError ("command failed (" +:+ pretty (p_code p) +:+ "): " +:+ py_join " " argv +:+ nl +:+
    p_stdout p +:+ p_stderr p).

Section build.
Context `{Hst : Host} `{R : Repo}.

Definition _run (argv : list string) (cwd : option string) (e : option env) : M unit :=
  p ← subprocess_run argv cwd e;
  if bool_decide (p_code p = 0%Z) then mret tt else raise (run_failed argv p).

Definition run_cc (clang : string) (arch : Arch) (args : list string) : M unit :=
  _run (cc clang arch args) None None.

(** ** The objects every case of an architecture links *)

Definition boot_args (arch : Arch) (obj : string) : list string :=
  ["-nostdlib"; "-c"; join2 (d_hal_board (arch_dirs arch)) "boot.S"; "-o"; obj].

Definition hal_obj (arch : Arch) (rel : string) : string :=
  join2 (d_build (arch_dirs arch)) (py_replace (basename rel) ".S" ".o").

Definition c_args (src obj : string) : list string :=
  ["-ffreestanding"; "-fno-builtin"; "-ffunction-sections"; "-fdata-sections";
   "-nostdlib"; "-O2"; "-c"; src; "-o"; obj].

Definition _build_shared (arch : Arch) (clang : string) : M (list string) :=
  let dirs := arch_dirs arch in
  let build := d_build dirs in
  let boot_o := join2 build "boot.o" in
  let sink_o := join2 build "sink.o" in
  let support_o := join2 build "support.o" in
  perform (MakeDirs build true) ;;
  run_cc clang arch (boot_args arch boot_o) ;;
  for_each (a_hal_asm arch) (λ rel,
    run_cc clang arch ["-nostdlib"; "-c"; join2 HAL_DIR rel; "-o"; hal_obj arch rel]) ;;
  for_each [ (join2 (d_hal_native dirs) "sink.c", sink_o);
             (join2 RT_COMMON_C_DIR "support.c", support_o) ] (λ '(src, obj),
    run_cc clang arch (c_args src obj)) ;;
  mret ([boot_o] ++ (hal_obj arch <$> a_hal_asm arch) ++ [sink_o; support_o]).

(** ** Blade and the packages it builds *)

Definition _build_blade (T : toolchain) (build_dir : string) : M string :=
  if truthy (blade_binary T) then mret (default "" (blade_binary T))
  else
    let blade_bin := join2 build_dir "blade" in
    dir ← lift (blade_package_dir T);
    toml ← lift (module_path_arg T "toml");
    semver ← lift (module_path_arg T "semver");
    imgformat ← lift (module_path_arg T "imgformat");
    _run (sawc T ++ [path_join dir ["src"; "main.saw"]; "-o"; blade_bin;
            "--module-path"; toml; "--module-path"; semver; "--module-path"; imgformat])
      None None ;;
    mret blade_bin.

(** [environ] is the process environment the copy is taken of. *)
Definition _blade_env (environ : env) (T : toolchain) (clang : string) : env :=
  dict_set (dict_set environ "SAWC" (sawc_env_value T +:+ " -Oz")) "SOS_CLANG" clang.

Definition out_dir (pkg_dir : string) (arch : Arch) : string :=
  path_join pkg_dir [".build"; a_triple arch].

Definition is_sosimg (f : string) : bool := endswith f ".sosimg".

Definition one_image_expected (dir : string) (images : list string) : exn :=
  ToolError ("expected exactly one .sosimg in " +:+ dir +:+ ", found " +:+ py_repr_list images).

Definition _build_root_image (environ : env) (T : toolchain) (blade_bin pkg_dir : string)
    (arch : Arch) (clang : string) : M string :=
  let dir := out_dir pkg_dir arch in
  before ← isdir dir;
  (if before : bool then
     stale ← listdir dir;
     for_each (filter (λ f, Is_true (is_sosimg f)) stale) (λ f, perform (RemoveFile (join2 dir f)))
   else mret tt) ;;
  _run [blade_bin; "build"; "--force"; "--target"; a_triple arch]
    (Some pkg_dir) (Some (_blade_env environ T clang)) ;;
  after ← isdir dir;
  images ← (if after : bool then
              found ← listdir dir; mret (filter (λ f, Is_true (is_sosimg f)) found)
            else mret []);
  match images with
  | [image] => mret (join2 dir image)
  | _ => raise (one_image_expected dir images)
  end.

Definition _root_image_path (pkg_dir : string) (arch : Arch) : M string :=
  let dir := out_dir pkg_dir arch in
  found ← listdir dir;
  match filter (λ f, Is_true (is_sosimg f)) found with
  | image :: _ => mret (join2 dir image)
  | [] => raise IndexError
  end.

(** ** The stitched stubs *)

Definition artifact (arch : Arch) (name suffix : string) : string :=
  join2 (d_build (arch_dirs arch)) (name +:+ suffix).

Definition _stitch_root_image (image : string) (arch : Arch) (clang name : string) : M string :=
  let stage := artifact arch name ".rootimg" in
  let staged := join2 stage "root.sosimg" in
  let stub_o := artifact arch name ".rootimg.o" in
  perform (MakeDirs stage true) ;;
  perform (CopyFile image staged) ;;
  run_cc clang arch ["-nostdlib"; "-I"; stage; "-c"; join2 KERNEL_DIR "rootimg.S"; "-o"; stub_o] ;;
  mret stub_o.

(** [case["_child_images"][arch["name"]][i]] *)
Definition child_image (images : option (list string)) (i : nat) : res string :=
  match images with
  | None => Raise (KeyError "_child_images")
  | Some images => match images !! i with Some image => Ok image | None => Raise IndexError end
  end.

(** Stages the image of each child, in order. *)
Definition stage_children (case : Case) (arch : Arch) (images : option (list string)) : M unit :=
  for_each (seq 0 (length (children_of case))) (λ i,
    image ← lift (child_image images i);
    perform (CopyFile image (staged_child case arch i))).

Definition _stitch_regions (case : Case) (images : option (list string)) (arch : Arch)
    (clang : string) : M string :=
  let build := d_build (arch_dirs arch) in
  let stub_s := artifact arch (c_name case) ".regions.S" in
  let stub_o := artifact arch (c_name case) ".regions.o" in
  perform (MakeDirs build true) ;;
  stage_children case arch images ;;
  lines ← lift (regions_text case arch);
  perform (WriteFile stub_s (py_join nl lines)) ;;
  run_cc clang arch ["-nostdlib"; "-I"; build; "-c"; stub_s; "-o"; stub_o] ;;
  mret stub_o.

(** ** The ELF of a case *)

Definition compile_case (T : toolchain) (case : Case) (arch : Arch) (obj imgformat : string) : list string :=
  sawc T ++
  [c_src case; "-o"; obj; "-Oz"; "--freestanding"; "--no-hidden-alloc"; "--runtime-provider";
   "--target"; a_triple arch] ++
  (if truthy (a_features arch) then ["--target-features"; default "" (a_features arch)] else []) ++
  ["--module-path"; CORE_MODULE;
   "--module-path"; "hal=" +:+ d_hal_kernel (arch_dirs arch);
   "--module-path"; imgformat;
   "--module-path"; SOSRT_MODULE;
   "--module-path"; SOSABI_MODULE] ++
  concat ((λ extra, ["--module-path"; extra]) <$> a_hal_modules arch).

(** The case has region rows of its own. *)
Definition wants_regions (case : Case) : bool :=
  truthy (c_children case) || truthy (c_pool case) || truthy (c_device case).

(** An optional step that yields one more object. *)
Definition step_obj (b : bool) (m : M string) : M (list string) :=
  if b then o ← m; mret [o] else mret [].

Definition build_csrc (case : Case) (arch : Arch) (clang : string) : M string :=
  let c_obj := artifact arch (c_name case) ".stubs.o" in
  run_cc clang arch ["-nostdlib"; "-ffreestanding"; "-O2"; "-c";
    join2 TESTS_DIR (default "" (c_csrc case)); "-o"; c_obj] ;;
  mret c_obj.

Definition build_payload (case : Case) (arch : Arch) (clang : string) : M string :=
  let payload_o := artifact arch (c_name case) ".payload.o" in
  run_cc clang arch ["-nostdlib"; "-c";
    join2 (d_tests (arch_dirs arch)) (default "" (c_asm case)); "-o"; payload_o] ;;
  mret payload_o.

Definition link_args (arch : Arch) (lld elf : string) (objs : list string) : list string :=
  [lld; "-T"; join2 (d_hal_board (arch_dirs arch)) "virt.ld"; "--gc-sections"; "-o"; elf] ++ objs.

Definition _build_elf (T : toolchain) (case : Case) (images : case_images) (arch : Arch)
    (shared_objs : list string) (lld clang : string) : M string :=
  let name := c_name case in
  let obj := artifact arch name ".o" in
  let elf := artifact arch name ".elf" in
  perform (MakeDirs (d_build (arch_dirs arch)) true) ;;
  imgformat ← lift (module_path_arg T "imgformat");
  _run (compile_case T case arch obj imgformat) None None ;;
  stubs ← step_obj (truthy (c_csrc case)) (build_csrc case arch clang);
  payload ← step_obj (truthy (c_asm case)) (build_payload case arch clang);
  rootimg ← step_obj (truthy (c_root_pkg case))
    (match i_root images with
     | Some image => _stitch_root_image image arch clang name
     | None => raise (KeyError "_root_image")
     end);
  regions ← step_obj (wants_regions case) (_stitch_regions case (i_children images) arch clang);
  _run (link_args arch lld elf (shared_objs ++ [obj] ++ stubs ++ payload ++ rootimg ++ regions))
    None None ;;
  mret elf.

(** ** The boot *)

(** The bytes typed at the guest, each with its time: one at a time, a delay
    before each. *)
Definition keystrokes (feed : string) : list (N * ascii) :=
  imap (λ i c, ((N.of_nat i + 1) * SERIAL_TYPE_DELAY, c)%N) (String.list_ascii_of_string feed).

Definition qemu_argv (qemu : string) (arch : Arch) (elf : string) : list string :=
  [qemu] ++ a_qemu_args arch ++ ["-nographic"; "-kernel"; elf].

(** What the run captured: the exception at the time limit holds bytes, but of a
    guest that is typed at the output is collected after the kill, as text. *)
Definition captured (feed : option string) (timed_out : bool) (out : string) : output :=
  if timed_out && negb (bool_decide (is_Some feed)) && negb (String.eqb out "") then OBytes out else OText out.

(** (exit status, output, timed out) *)
Definition _run_qemu (qemu : string) (arch : Arch) (elf : string) (feed : option string)
    : M (option Z * output * bool) :=
  '(code, out) ← boot (qemu_argv qemu arch elf) (keystrokes <$> feed);
  let timed_out := bool_decide (code = None) in
  mret (code, captured feed timed_out out, timed_out).

End build.

(** Whether bytes or text was captured makes no difference to the verdict: it is
    bytes only of a run that is judged by its time alone. *)
Lemma check_captured case arch code feed out :
  _check case arch code (captured feed (bool_decide (code = None)) out) (bool_decide (code = None)) =
  _check case arch code (OText out) (bool_decide (code = None)).
Proof. unfold captured. by destruct code. Qed.
End Build.
