(* ===== verification/BuildPlan.v ===== *)
(** * What a build does, step by step

    The plans of the build steps of tools/sos_runner.py: the commands, copies
    and writes a case's ELF takes, in order; the freshness of the package image
    a case boots; and what a toolchain without a checkout makes of a build. *)

From Stdlib Require Import Ascii.
From S2P Require Import Prelude PyStr PyPath Arches Case RegionTable Host SampleHost Toolchain Build.
From stdpp Require Import base list sets strings numbers option.

Open Scope nat_scope.
Open Scope py_scope.

Module BuildPlan.
Import RegionTable Toolchain Build.

(** ** Specification *)

Section plans.
Context `{R : Repo}.

(** A compiler command as an action. *)
Definition Cc (clang : string) (arch : Arch) (args : list string) : action :=
  Run (cc clang arch args) None None.

Definition shared_plan (arch : Arch) (clang : string) : list action :=
  let build := d_build (arch_dirs arch) in
  [ MakeDirs build true; Cc clang arch (boot_args arch (join2 build "boot.o")) ] ++
  ((λ rel, Cc clang arch ["-nostdlib"; "-c"; join2 HAL_DIR rel; "-o"; hal_obj arch rel]) <$> a_hal_asm arch) ++
  [ Cc clang arch (c_args (join2 (d_hal_native (arch_dirs arch)) "sink.c") (join2 build "sink.o"));
    Cc clang arch (c_args (join2 RT_COMMON_C_DIR "support.c") (join2 build "support.o")) ].

(** The stub that carries the root image. *)
Definition root_plan (arch : Arch) (clang name image : string) : list action :=
  let stage := artifact arch name ".rootimg" in
  [ MakeDirs stage true; CopyFile image (join2 stage "root.sosimg");
    Cc clang arch ["-nostdlib"; "-I"; stage; "-c"; join2 KERNEL_DIR "rootimg.S"; "-o";
                   artifact arch name ".rootimg.o"] ].

(** The stub that carries the children and the region table. *)
Definition regions_plan (case : Case) (images : list string) (lines : list string) (arch : Arch)
    (clang : string) : list action :=
  let build := d_build (arch_dirs arch) in
  let stub_s := artifact arch (c_name case) ".regions.S" in
  [ MakeDirs build true ] ++
  imap (λ i image, CopyFile image (staged_child case arch i)) images ++
  [ WriteFile stub_s (py_join nl lines);
    Cc clang arch ["-nostdlib"; "-I"; build; "-c"; stub_s; "-o"; artifact arch (c_name case) ".regions.o"] ].

(** The objects a case links: the shared ones, its own, and one for each of the
    optional parts it asks for, in this order. *)
Definition case_objs (case : Case) (arch : Arch) (shared_objs : list string) : list string :=
  let a := artifact arch (c_name case) in
  shared_objs ++ [a ".o"] ++
  (if truthy (c_csrc case) then [a ".stubs.o"] else []) ++
  (if truthy (c_asm case) then [a ".payload.o"] else []) ++
  (if truthy (c_root_pkg case) then [a ".rootimg.o"] else []) ++
  (if wants_regions case then [a ".regions.o"] else []).

(** The objects [_build_shared] returns. *)
Definition shared_objs_of (arch : Arch) : list string :=
  let build := d_build (arch_dirs arch) in
  [join2 build "boot.o"] ++ (hal_obj arch <$> a_hal_asm arch) ++ [join2 build "sink.o"; join2 build "support.o"].

(** The whole of [_build_elf]. *)
Definition elf_plan (T : toolchain) (case : Case) (root_image : string) (children lines : list string)
    (arch : Arch) (shared_objs : list string) (imgformat lld clang : string) : list action :=
  let a := artifact arch (c_name case) in
  [ MakeDirs (d_build (arch_dirs arch)) true;
    Run (compile_case T case arch (a ".o") imgformat) None None ] ++
  (if truthy (c_csrc case) then
     [Cc clang arch ["-nostdlib"; "-ffreestanding"; "-O2"; "-c";
        join2 TESTS_DIR (default "" (c_csrc case)); "-o"; a ".stubs.o"]] else []) ++
  (if truthy (c_asm case) then
     [Cc clang arch ["-nostdlib"; "-c"; join2 (d_tests (arch_dirs arch)) (default "" (c_asm case));
        "-o"; a ".payload.o"]] else []) ++
  (if truthy (c_root_pkg case) then root_plan arch clang (c_name case) root_image else []) ++
  (if wants_regions case then regions_plan case children lines arch clang else []) ++
  [ Run (link_args arch lld (a ".elf") (case_objs case arch shared_objs)) None None ].
End plans.

(** ** Lemmas *)

Section lemmas.
Context `{Hst : Host} `{R : Repo}.

(** A plan run: its actions in order, up to the first that fails. *)
Definition do_action (a : action) : M unit :=
  match a with Run argv cwd e => _run argv cwd e | _ => perform a end.

Definition run_plan (plan : list action) : M unit := for_each plan do_action.

(** [m] is its plan and the value it then returns. *)
Definition carries {A} (plan : list action) (a : A) (m : M A) : Prop :=
  ∀ w, m w = (run_plan plan ≫= λ _, mret a) w.

Lemma run_plan_app p1 p2 w : run_plan (p1 ++ p2) w = (run_plan p1 ≫= λ _, run_plan p2) w.
Proof.
  revert w. unfold run_plan. induction p1 as [|a p1 IH]; intros w; [done|]. cbn.
  unfold mbind, M_bind in *. destruct (do_action a w) as [[[]|e] w1]; [apply IH|done].
Qed.

Lemma carries_ret {A} (a : A) : carries [] a (mret a).
Proof. done. Qed.

Lemma carries_bind {A B} p1 p2 (a : A) (b : B) (m : M A) (f : A → M B) :
  carries p1 a m → carries p2 b (f a) → carries (p1 ++ p2) b (m ≫= f).
Proof.
  intros Hm Hf w. rewrite !M_bind_unfold, Hm, M_bind_unfold, run_plan_app, M_bind_unfold.
  destruct (run_plan p1 w) as [[[]|e] w1]; [|done]. cbn. rewrite Hf, M_bind_unfold. done.
Qed.

Lemma carries_one a (m : M unit) : (∀ w, m w = do_action a w) → carries [a] tt m.
Proof.
  intros Hm w. rewrite Hm. unfold run_plan. cbn. unfold mbind, M_bind.
  by destruct (do_action a w) as [[[]|e] w1].
Qed.

Lemma carries_lift {A B} p (a : A) (b : B) (r : res A) (f : A → M B) :
  r = Ok a → carries p b (f a) → carries p b (lift r ≫= f).
Proof. by intros ->. Qed.

Lemma carries_for_each {A} (f : A → action) (l : list A) (body : A → M unit) :
  (∀ x, x ∈ l → carries [f x] tt (body x)) → carries (f <$> l) tt (for_each l body).
Proof.
  induction l as [|x l IH]; intros Hb; [apply carries_ret|].
  cbn [for_each fmap list_fmap]. apply (carries_bind [f x] _ tt); [by apply Hb, list_elem_of_here|].
  apply IH. intros y Hy. by apply Hb, list_elem_of_further.
Qed.

Lemma carries_step_obj {B} (b : bool) (m : M string) (o : string) p1 p2 (c : B) (f : list string → M B) :
  (b = true → carries p1 o m) → carries p2 c (f (if b then [o] else [])) →
  carries ((if b then p1 else []) ++ p2) c (step_obj b m ≫= f).
Proof.
  intros Hm Hf. apply (carries_bind _ _ (if b then [o] else [])); [|done]. unfold step_obj. destruct b; [|done].
  rewrite <-(app_nil_r p1). eapply carries_bind; [by apply Hm|apply carries_ret].
Qed.

(** What building does to the world: commands and files, no boot, no output. *)
Definition build_action (a : action) : Prop :=
  match a with Boot _ _ | Print _ | PrintErr _ | RmTree _ | Rename _ _ => False | _ => True end.

Lemma run_follows argv cwd e : follows [] [Run argv cwd e] (_run argv cwd e).
Proof.
  intros w r w'. unfold _run, subprocess_run, mbind, M_bind.
  destruct (h_run argv cwd e (w_host w)) as [[p|] h] eqn:E; cbn.
  - destruct (bool_decide_reflect (p_code p = 0%Z)) as [H0|H0]; cbn.
    + intros [= <- <-]. split; [done|]. econstructor; [by eexists|constructor].
    + intros [= <- <-]. exists [Run argv cwd e], []. rewrite app_nil_r. auto.
  - intros [= <- <-]. exists [Run argv cwd e], []. rewrite app_nil_r. auto.
Qed.

(** A plan that builds is followed. *)
Lemma carries_follows {A} plan (a : A) (m : M A) :
  Forall build_action plan → carries plan a m → follows [] plan m.
Proof.
  intros Hp Hm w r w'. rewrite Hm. revert w r w'.
  change (follows [] plan (run_plan plan ≫= λ _, mret a)). rewrite <-(app_nil_r plan) at 1.
  clear Hm. apply follows_bind; [|intros _; apply follows_ret]. unfold run_plan.
  induction Hp as [|x plan Hx _ IH]; [apply follows_ret|].
  apply (follows_bind _ [x]); [|done]. destruct x; try done; first [apply run_follows|by apply follows_perform].
Qed.

Lemma carries_perform a :
  (match a with Run _ _ _ => False | _ => True end) → carries [a] tt (perform a).
Proof. intros Ha. apply carries_one. by destruct a. Qed.

Lemma carries_run argv cwd e : carries [Run argv cwd e] tt (_run argv cwd e).
Proof. by apply carries_one. Qed.

Lemma carries_cc clang arch args : carries [Cc clang arch args] tt (run_cc clang arch args).
Proof. by apply carries_one. Qed.
End lemmas.

(** Peels the first action, or the first part, of a plan off. *)
Ltac carry :=
  lazymatch goal with
  | |- carries [?a] _ (mbind _ _) => apply (carries_bind [a] [] tt); [auto with py|]
  | |- carries (?a :: ?l) _ (mbind _ _) => apply (carries_bind [a] l tt); [auto with py|]
  | |- carries (?l1 ++ ?l2) _ (mbind _ _) => apply (carries_bind l1 l2 tt)
  end.

(** ** Lemmas: the parts of a build *)

Section parts.
Context `{Hst : Host} `{R : Repo}.
#[local] Hint Resolve carries_ret carries_run carries_cc carries_perform : py.

Lemma shared_carries arch clang :
  carries (shared_plan arch clang) (shared_objs_of arch) (_build_shared arch clang).
Proof.
  unfold _build_shared, shared_plan. cbn [app]. do 2 carry.
  carry; [apply carries_for_each; auto with py|].
  rewrite <-(app_nil_r [_; _]). carry; [|apply carries_ret].
  match goal with |- carries _ _ (for_each ?l _) =>
    apply (carries_for_each (λ '(src, obj), Cc clang arch (c_args src obj)) l) end.
  intros [] _. auto with py.
Qed.

Lemma root_carries arch clang name image :
  carries (root_plan arch clang name image) (artifact arch name ".rootimg.o")
    (_stitch_root_image image arch clang name).
Proof. unfold _stitch_root_image, root_plan. repeat carry. apply carries_ret. Qed.

(** What the package phase left matches the case's children. *)
Definition children_staged (case : Case) (images : option (list string)) : Prop :=
  length (default [] images) = length (children_of case).

Lemma stage_carries case arch images :
  children_staged case images →
  carries (imap (λ i image, CopyFile image (staged_child case arch i)) (default [] images)) tt
    (stage_children case arch images).
Proof.
  unfold children_staged, stage_children. destruct images as [images|]; cbn; intros <-; [|apply carries_ret].
  assert (imap (λ i image, CopyFile image (staged_child case arch i)) images =
          (λ i, CopyFile (default "" (images !! i)) (staged_child case arch i)) <$> seq 0 (length images)) as ->.
  { apply list_eq. intros i. rewrite list_lookup_imap, list_lookup_fmap.
    destruct (decide (i < length images)) as [Hi|Hi].
    - rewrite lookup_seq_lt by done. cbn. destruct (lookup_lt_is_Some_2 images i Hi) as [x ->]. done.
    - rewrite lookup_ge_None_2, lookup_seq_ge by lia. done. }
  apply carries_for_each. intros i Hi%elem_of_seq.
  destruct (lookup_lt_is_Some_2 images i) as [x Hx]; [lia|].
  apply (carries_lift _ x); [cbn; by rewrite Hx|]. rewrite Hx. cbn. auto with py.
Qed.

Lemma regions_carries case images lines arch clang :
  children_staged case images → regions_text case arch = Ok lines →
  carries (regions_plan case (default [] images) lines arch clang)
    (artifact arch (c_name case) ".regions.o") (_stitch_regions case images arch clang).
Proof.
  intros Hl Ht. unfold _stitch_regions, regions_plan. cbn [app]. carry.
  carry; [by apply stage_carries|]. apply (carries_lift _ lines); [done|].
  repeat carry. apply carries_ret.
Qed.
End parts.

(** ** Lemmas: the ELF *)

Section elf.
Context `{Hst : Host} `{R : Repo}.
#[local] Hint Resolve carries_ret carries_run carries_cc carries_perform : py.

(** The images a build is given are those its case asks for. *)
Definition images_ready (case : Case) (images : case_images) (root_image : string) : Prop :=
  (truthy (c_root_pkg case) = true → i_root images = Some root_image) ∧
  children_staged case (i_children images).

Lemma build_elf_carries T case images arch objs imgformat root_image lines lld clang :
  images_ready case images root_image →
  (wants_regions case = true → regions_text case arch = Ok lines) →
  module_path_arg T "imgformat" = Ok imgformat →
  carries (elf_plan T case root_image (default [] (i_children images)) lines arch objs imgformat lld clang)
    (artifact arch (c_name case) ".elf") (_build_elf T case images arch objs lld clang).
Proof.
  intros [Hr Hc] Ht Hi. unfold _build_elf, elf_plan. cbn [app]. carry.
  apply (carries_lift _ imgformat); [done|]. carry.
  apply (carries_step_obj _ _ (artifact arch (c_name case) ".stubs.o"));
    [intros _; unfold build_csrc; carry; apply carries_ret|].
  apply (carries_step_obj _ _ (artifact arch (c_name case) ".payload.o"));
    [intros _; unfold build_payload; carry; apply carries_ret|].
  apply (carries_step_obj _ _ (artifact arch (c_name case) ".rootimg.o"));
    [intros Hb; rewrite (Hr Hb); apply root_carries|].
  apply (carries_step_obj _ _ (artifact arch (c_name case) ".regions.o"));
    [intros Hb; by apply regions_carries; [|apply Ht]|].
  carry. apply carries_ret.
Qed.

Lemma elf_plan_builds T case root_image children lines arch objs imgformat lld clang :
  Forall build_action (elf_plan T case root_image children lines arch objs imgformat lld clang).
Proof.
  unfold elf_plan, root_plan, regions_plan. repeat apply Forall_app_2; repeat constructor.
  - by destruct (truthy (c_csrc case)); repeat constructor.
  - by destruct (truthy (c_asm case)); repeat constructor.
  - by destruct (truthy (c_root_pkg case)); repeat constructor.
  - destruct (wants_regions case); [|constructor]. repeat apply Forall_app_2; repeat constructor.
    apply list.Forall_forall. intros a Ha. apply elem_of_lookup_imap in Ha as (i & x & -> & _). done.
Qed.

Lemma build_elf_follows T case images arch objs imgformat root_image lines lld clang :
  images_ready case images root_image →
  (wants_regions case = true → regions_text case arch = Ok lines) →
  module_path_arg T "imgformat" = Ok imgformat →
  follows [] (elf_plan T case root_image (default [] (i_children images)) lines arch objs imgformat lld clang)
    (_build_elf T case images arch objs lld clang).
Proof. intros. eapply carries_follows; [apply elf_plan_builds|by apply build_elf_carries]. Qed.

Lemma build_elf_yields T case images arch objs lld clang :
  yields (λ elf, elf = artifact arch (c_name case) ".elf") (_build_elf T case images arch objs lld clang).
Proof. unfold _build_elf. repeat (apply yields_bind; intros ?). by apply yields_ret. Qed.
End elf.


(** ** Lemmas: the package image *)

Section image.
Context `{Hst : Host} `{R : Repo}.
#[local] Hint Resolve run_follows : py.

Definition images_in (dir : string) (h : host) : list string :=
  if h_isdir dir h then filter (λ f, Is_true (is_sosimg f)) (h_listdir dir h) else [].

(** What a package build does: drop every image an earlier one left, then run
    Blade in the package. *)
Definition image_plan (environ : env) (T : toolchain) (blade_bin pkg_dir : string) (arch : Arch)
    (clang : string) (stale : list string) : list action :=
  ((λ f, RemoveFile (join2 (out_dir pkg_dir arch) f)) <$> stale) ++
  [Run [blade_bin; "build"; "--force"; "--target"; a_triple arch]
     (Some pkg_dir) (Some (_blade_env environ T clang))].

(** The listing after the build, and the choice of the one image in it. *)
Definition pick_image (pkg_dir : string) (arch : Arch) : M string :=
  let dir := out_dir pkg_dir arch in
  after ← isdir dir;
  images ← (if after : bool then
              found ← listdir dir; mret (filter (λ f, Is_true (is_sosimg f)) found)
            else mret []);
  match images with
  | [image] => mret (join2 dir image)
  | _ => raise (one_image_expected dir images)
  end.

Lemma pick_image_run pkg_dir arch w :
  pick_image pkg_dir arch w =
  (match images_in (out_dir pkg_dir arch) (w_host w) with
   | [image] => Ok (join2 (out_dir pkg_dir arch) image)
   | images => Raise (one_image_expected (out_dir pkg_dir arch) images)
   end, w).
Proof.
  unfold pick_image, images_in, mbind, M_bind, isdir, ask, listdir. cbn.
  destruct (h_isdir _ _) eqn:E; cbn; [rewrite E; cbn|done].
  by destruct (filter _ _) as [|i [|j l]].
Qed.

(** A package build is its plan followed by the choice. *)
Lemma build_root_image_split environ T blade_bin pkg_dir arch clang w :
  ∃ m : M unit,
    follows [] (image_plan environ T blade_bin pkg_dir arch clang
                  (images_in (out_dir pkg_dir arch) (w_host w))) m ∧
    _build_root_image environ T blade_bin pkg_dir arch clang w =
    (m ≫= λ _, pick_image pkg_dir arch) w.
Proof.
  exists (for_each (images_in (out_dir pkg_dir arch) (w_host w))
            (λ f, perform (RemoveFile (join2 (out_dir pkg_dir arch) f))) ≫= λ _,
          _run [blade_bin; "build"; "--force"; "--target"; a_triple arch]
            (Some pkg_dir) (Some (_blade_env environ T clang))).
  split.
  - apply follows_bind; [|auto with py].
    apply (carries_follows _ tt); [by apply Forall_fmap, list.Forall_forall|].
    apply carries_for_each. intros f _. by apply carries_perform.
  - rewrite M_bind_assoc. unfold _build_root_image, images_in.
    unfold mbind at 1, M_bind at 1, isdir at 1, ask at 1.
    destruct (h_isdir (out_dir pkg_dir arch) (w_host w)) eqn:E; [|done].
    rewrite M_bind_assoc. unfold mbind at 1, M_bind at 1, listdir at 1. by rewrite E.
Qed.
End image.

(** ** Properties *)

Section properties.
Context `{Hst : Host} `{R : Repo}.

(** C15. Building the ELF of a case whose images are ready carries out one plan,
    a function of the case and the architecture alone: when it returns, it
    returns the case's ELF and every step of the plan was done in order and
    succeeded, the link last, over the shared objects and exactly the objects
    the case asks for; when it raises, it stopped within the plan. *)
Theorem build_elf_plan (T : toolchain) (case : Case) (images : case_images) (arch : Arch)
    (objs : list string) (imgformat root_image : string) (lines : list string) (lld clang : string)
    (w : world) :
  images_ready case images root_image →
  (wants_regions case = true → regions_text case arch = Ok lines) →
  module_path_arg T "imgformat" = Ok imgformat →
  let plan := elf_plan T case root_image (default [] (i_children images)) lines arch objs
                imgformat lld clang in
  match _build_elf T case images arch objs lld clang w with
  | (Ok elf, w') => elf = artifact arch (c_name case) ".elf" ∧
                    w_log w' = w_log w ++ plan ∧ plan_done plan (w_host w) (w_host w')
  | (Raise _, w') => ∃ part, part `prefix_of` plan ∧ w_log w' = w_log w ++ part
  end.
Proof.
  intros Hr Ht Hi. cbn zeta.
  pose proof (build_elf_follows T case images arch objs imgformat root_image lines lld clang Hr Ht Hi w) as Hf.
  pose proof (build_elf_yields T case images arch objs lld clang w) as Hy.
  destruct (_build_elf _ _ _ _ _ _ _ w) as [[elf|x] w']; specialize (Hf _ _ eq_refl).
  - split; [by apply Hy|done].
  - destruct Hf as (l & t & Hpre & [-> | ->] & E); rewrite app_nil_r in E; eauto.
Qed.

(** C18. A package image is fresh: [_build_root_image] returns a path only after
    it removed every image an earlier build had left, ran Blade to a zero exit
    in the package, and found in the output directory exactly the one image it
    names; otherwise it raises, and an earlier image is never returned. *)
Theorem root_image_fresh (environ : env) (T : toolchain) (blade_bin pkg_dir : string) (arch : Arch)
    (clang : string) (w : world) :
  let dir := out_dir pkg_dir arch in
  let plan := image_plan environ T blade_bin pkg_dir arch clang (images_in dir (w_host w)) in
  match _build_root_image environ T blade_bin pkg_dir arch clang w with
  | (Ok path, w') =>
      (∃ image, path = join2 dir image ∧ images_in dir (w_host w') = [image]) ∧
      w_log w' = w_log w ++ plan ∧ plan_done plan (w_host w) (w_host w')
  | (Raise _, w') => ∃ part, part `prefix_of` plan ∧ w_log w' = w_log w ++ part
  end.
Proof.
  cbn zeta. destruct (build_root_image_split environ T blade_bin pkg_dir arch clang w) as (m & Hm & ->).
  unfold mbind, M_bind. specialize (Hm w). destruct (m w) as [[[]|e] w1]; specialize (Hm _ _ eq_refl).
  - destruct Hm as [Hl Hp]. rewrite pick_image_run.
    destruct (images_in _ (w_host w1)) as [|image [|j l]] eqn:E; eauto 10.
  - destruct Hm as (l & t & Hpre & [-> | ->] & E); rewrite app_nil_r in E; eauto.
Qed.

(** C37. A toolchain without a checkout cannot build a case, although [resolve]
    returns one for a compiler found on the search path: the build raises the
    resolver's exception, which is no build error, before it starts a
    command. *)
Theorem checkoutless_build_raises (T : toolchain) (case : Case) (images : case_images) (arch : Arch)
    (objs : list string) (lld clang : string) (w : world) (h : host) :
  root T = None → h_do (MakeDirs (d_build (arch_dirs arch)) true) (w_host w) = (Ok tt, h) →
  _build_elf T case images arch objs lld clang w =
  (Raise (no_checkout T "the `imgformat` package's sources"),
   World h (w_log w ++ [MakeDirs (d_build (arch_dirs arch)) true])).
Proof.
  intros Hr Hd. unfold _build_elf. unfold mbind at 1, M_bind at 1, perform at 1. rewrite Hd.
  unfold module_path_arg, module_source, _require_root. rewrite Hr. done.
Qed.
End properties.

(** A case with a root package, a child and a pool, on the flat profile. *)
Definition demo_case : Case :=
  dict "demo" "/k/main.saw" ENone true
    [k_root_pkg "/t/root"; k_children ["/t/child"]; k_pool true].
Definition demo_toolchain : toolchain := mk_toolchain ["sawc"] "SAWLANG_ROOT" (Some "/s") None [].
Definition demo_host : Host := fs_host (all_answer (Proc 0 "" "")).
Definition demo_world : @world demo_host := @World demo_host (FS [("/i/root", "R"); ("/i/child", "C")] []) [].
Definition demo_images : case_images := CaseImages (Some "/i/root") (Some ["/i/child"]).

Lemma build_elf_plan_witness :
  match @_build_elf demo_host sample_repo demo_toolchain demo_case demo_images
          (@arch_riscv32_flat sample_repo) ["boot.o"] "ld.lld" "clang" demo_world with
  | (Ok elf, w') => length (w_log w') = 10 ∧ elf = "/sawos/.build/riscv32-unknown-none-elf-flat/sos/demo.elf"
  | (Raise _, _) => False
  end.
Proof.
  assert (∃ lines, @regions_text sample_repo demo_case (@arch_riscv32_flat sample_repo) = Ok lines) as [lines Hl]
    by (eexists; vm_compute; reflexivity).
  pose proof (@build_elf_plan demo_host sample_repo demo_toolchain demo_case demo_images
    (@arch_riscv32_flat sample_repo) ["boot.o"] "imgformat=/s/libs/imgformat/src" "/i/root" lines
    "ld.lld" "clang" demo_world) as H.
  specialize (H ltac:(split; done) (λ _, Hl) eq_refl). cbn zeta in H.
  set (r := _build_elf _ _ _ _ _ _ _ _) in *.
  assert (is_ok r.1 = true) as Hok by (vm_compute; reflexivity).
  destruct r as [[elf|x] w']; [|done]. destruct H as (-> & -> & _). split; vm_compute; reflexivity.
Defined.

Lemma checkoutless_build_raises_witness :
  (@_build_elf demo_host sample_repo (mk_toolchain ["/bin/sawc"] "PATH" None None []) demo_case
     demo_images (@arch_riscv32_flat sample_repo) ["boot.o"] "ld.lld" "clang" demo_world).1 =
  Raise (no_checkout (mk_toolchain ["/bin/sawc"] "PATH" None None [])
    "the `imgformat` package's sources").
Proof.
  by rewrite (@checkoutless_build_raises demo_host sample_repo
    (mk_toolchain ["/bin/sawc"] "PATH" None None []) demo_case demo_images
    (@arch_riscv32_flat sample_repo) ["boot.o"] "ld.lld" "clang" demo_world (w_host demo_world) eq_refl eq_refl).
Defined.

End BuildPlan.
