(* ===== verification/Isolation.v ===== *)
(** * Every case builds into files of its own

    The harness builds and boots several cases at a time, in one directory per
    architecture.  This file states which files the build of a case writes and
    shows that no two cases, on any two profiles, share one. *)

From Stdlib Require Import Ascii.
From S2P Require Import Prelude PyStr PyPath Arches Case RegionTable Host Toolchain Build.
From stdpp Require Import base list sets strings numbers option.

Open Scope nat_scope.
Open Scope py_scope.

Module Isolation.
Import RegionTable Toolchain Build.

(** ** Specification *)

(** The files a command line names as its outputs. *)
Fixpoint outputs (argv : list string) : list string :=
  match argv with
  | [] => []
  | a :: rest =>
      match rest with
      | o :: _ => if String.eqb a "-o" then o :: outputs rest else outputs rest
      | [] => []
      end
  end.

(** The files an action writes, moves or removes. *)
Definition writes (a : action) : list string :=
  match a with
  | Run argv _ _ => outputs argv
  | CopyFile _ dst => [dst]
  | WriteFile p _ => [p]
  | RemoveFile p | RmTree p => [p]
  | Rename src dst => [src; dst]
  | MakeDirs _ _ | Boot _ _ | Print _ | PrintErr _ => []
  end.

(** A case's name in a file name ends at the first dot. *)
Definition case_suffixes : list string :=
  [".o"; ".elf"; ".stubs.o"; ".payload.o"; ".rootimg.o"; ".regions.S"; ".regions.o"].

Section own.
Context `{R : Repo}.

Definition staged_root (arch : Arch) (name : string) : string :=
  join2 (artifact arch name ".rootimg") "root.sosimg".

(** The files the build of a case on an architecture writes. *)
Definition own (case : Case) (arch : Arch) : list string :=
  (artifact arch (c_name case) <$> case_suffixes) ++
  [staged_root arch (c_name case)] ++
  (staged_child case arch <$> seq 0 (length (children_of case))).

(** The files every case of an architecture links and none writes. *)
Definition shared (arch : Arch) : list string :=
  [join2 (d_build (arch_dirs arch)) "boot.o"] ++ (hal_obj arch <$> a_hal_asm arch) ++
  [join2 (d_build (arch_dirs arch)) "sink.o"; join2 (d_build (arch_dirs arch)) "support.o"].
End own.

(** A name that can be told from any suffix put after it. *)
Definition undotted (c : ascii) : bool := negb (Ascii.eqb c ".") && negb (is_slash c).
Definition simple_name (s : string) : Prop := s ≠ "" ∧ all_chars undotted s = true.

(** What the command lines are made of carries no [-o] of its own. *)
Record plain_tools (T : toolchain) (case : Case) (arch : Arch) (objs : list string)
    (lld clang : string) : Prop := {
  plain_sawc : "-o" ∉ sawc_argv T;
  plain_src : c_src case ≠ "-o";
  plain_lld : lld ≠ "-o";
  plain_clang : clang ≠ "-o";
  plain_objs : "-o" ∉ objs;
  plain_cc : "-o" ∉ a_cc_args arch;
  plain_triple : a_triple arch ≠ "-o";
  plain_features : a_features arch ≠ Some "-o";
  plain_modules : "-o" ∉ a_hal_modules arch;
}.

(** ** Lemmas: output files *)

Lemma outputs_none l : "-o" ∉ l → outputs l = [].
Proof.
  induction l as [|a [|b l] IH]; [done|done|]. rewrite elem_of_cons. intros Hn.
  change (outputs (a :: b :: l)) with
    (if String.eqb a "-o" then b :: outputs (b :: l) else outputs (b :: l)).
  destruct (String.eqb_spec a "-o") as [->|]; [tauto|]. apply IH. tauto.
Qed.

Lemma outputs_skip l l' : "-o" ∉ l → outputs (l ++ l') = outputs l'.
Proof.
  induction l as [|a l IH]; [done|]. rewrite elem_of_cons. intros Hn. cbn [app].
  destruct (l ++ l') as [|b r] eqn:E.
  - apply app_eq_nil in E as [-> ->]. done.
  - change (outputs (a :: b :: r)) with
      (if String.eqb a "-o" then b :: outputs (b :: r) else outputs (b :: r)).
    destruct (String.eqb_spec a "-o") as [->|]; [tauto|]. rewrite IH; tauto.
Qed.

Lemma outputs_one l o l' : "-o" ∉ l → o ≠ "-o" → "-o" ∉ l' → outputs (l ++ "-o" :: o :: l') = [o].
Proof.
  intros Hl Ho Hl'. rewrite outputs_skip by done.
  change (outputs ("-o" :: o :: l')) with (o :: outputs (o :: l')).
  rewrite outputs_none; [done|]. rewrite elem_of_cons. naive_solver.
Qed.

Section paths.
Context `{R : Repo}.

Lemma solid_build arch : solid (d_build (arch_dirs arch)).
Proof. cbn. by apply solid_join2. Qed.

Lemma build_not_option arch b : join2 (d_build (arch_dirs arch)) b ≠ "-o".
Proof.
  apply join2_not_short; [|done|done]. cbn. etransitivity; [|apply slen_join2_r]. cbn. lia.
Qed.

Lemma repo_dir_not_option a b : 3 ≤ slen b → ∀ c, join2 (join2 a b) c ≠ "-o".
Proof.
  intros Hb c. apply join2_not_short; [|done|done]. etransitivity; [done|apply slen_join2_r].
Qed.

(** ** Lemmas: whose file it is *)

Lemma simple_plain n suffix :
  simple_name n → no_slash suffix = true → plain (n +:+ suffix) = true.
Proof.
  intros [Hn Hc] Hs. apply plain_spec. split.
  - destruct n; [done|]. by rewrite sapp_cons.
  - rewrite no_slash_app, Hs, andb_true_r. clear Hn Hs. induction n as [|c n IH]; [done|].
    cbn in *. apply andb_true_iff in Hc as [Hc Hn]. unfold undotted in Hc.
    apply andb_true_iff in Hc as [_ Hc]. by rewrite Hc, IH.
Qed.

Lemma simple_name_dot n n' s s' :
  simple_name n → simple_name n' → n +:+ String "." s = n' +:+ String "." s' → n = n' ∧ s = s'.
Proof.
  assert (∀ n, simple_name n → all_chars (λ d, negb (Ascii.eqb d ".")) n = true) as Ha.
  { intros m [_ Hm]. eapply all_chars_impl; [|exact Hm]. intros c. unfold undotted.
    rewrite andb_true_iff. tauto. }
  intros Hn Hn' H. apply (f_equal (cut_at ".")) in H.
  rewrite !cut_at_first in H by auto. by injection H.
Qed.

(** A file of a case: directly in the build directory, or staged one below. *)
Inductive owned (arch : Arch) (n : string) : string → Prop :=
  | owned_flat s : no_slash s = true → s ≠ "sosimg" → owned arch n (artifact arch n (String "." s))
  | owned_staged : owned arch n (staged_root arch n).

Lemma owned_unique arch arch' n n' p :
  simple_name n → simple_name n' → owned arch n p → owned arch' n' p → n = n'.
Proof.
  assert (∀ (a a' : Arch) m m' s, simple_name m → simple_name m' → no_slash s = true → s ≠ "sosimg" →
    artifact a m (String "." s) ≠ staged_root a' m') as Hx.
  { intros a a' m m' s Hm Hm' Hs Hne He. unfold staged_root, artifact in He.
    apply join2_inj_both in He as [_ He]; [|apply solid_build| |by apply simple_plain|done].
    - apply (simple_name_dot m "root" s "sosimg") in He as [_ He]; [done|done|].
      split; [done|reflexivity].
    - apply solid_join2. by apply simple_plain. }
  intros Hn Hn' [s Hs Hne|] Hp; inversion Hp as [s' Hs' Hne' He|He].
  - apply join2_inj_both in He as [_ He]; [|apply solid_build..|by apply simple_plain|by apply simple_plain].
    symmetry in He. by apply simple_name_dot in He as [? _].
  - by destruct (Hx arch arch' n n' s).
  - by destruct (Hx arch' arch n' n s').
  - unfold staged_root in He.
    apply join2_inj_both in He as [He _]; [|apply solid_join2; by apply simple_plain..|done|done].
    apply join2_inj_both in He as [_ He]; [|apply solid_build..|by apply simple_plain|by apply simple_plain].
    symmetry in He. by apply simple_name_dot in He as [? _].
Qed.
End paths.


Section writes.
Context `{Hst : Host} `{R : Repo}.

Lemma no_slash_of_chars (p : ascii → bool) s :
  (∀ c, p c = true → is_slash c = false) → all_chars p s = true → no_slash s = true.
Proof.
  intros Hp. induction s as [|c s IH]; [done|]. cbn. rewrite andb_true_iff. intros [Hc Hs].
  by rewrite (Hp c Hc), IH.
Qed.

Lemma no_slash_number n : no_slash (py_str n) = true.
Proof.
  eapply no_slash_of_chars; [|apply py_str_digits]. intros c. unfold is_digit, is_slash, PyStr.between.
  intros Hc. destruct (Ascii.eqb_spec c "/") as [->|]; done.
Qed.

Lemma own_owned case arch p : p ∈ own case arch → owned arch (c_name case) p.
Proof.
  unfold own. rewrite !elem_of_app, list_elem_of_singleton, !list_elem_of_fmap.
  intros [(s & -> & Hs)|[->|(i & -> & _)]].
  - unfold case_suffixes in Hs. rewrite !elem_of_cons, elem_of_nil in Hs.
    repeat destruct Hs as [->|Hs]; try done; by constructor.
  - constructor.
  - change (staged_child case arch i) with
      (artifact arch (c_name case) (String "." ("child" +:+ py_str (N.of_nat i) +:+ ".sosimg"))).
    constructor.
    + rewrite !no_slash_app, no_slash_number. done.
    + intros He. apply (f_equal (prefixb "child")) in He. done.
Qed.

Definition within (case : Case) (arch : Arch) (a : action) : Prop := writes a ⊆ own case arch.

Lemma in_own_suffix case arch s : s ∈ case_suffixes → artifact arch (c_name case) s ∈ own case arch.
Proof. intros Hs. unfold own. apply elem_of_app. left. by apply list_elem_of_fmap_2. Qed.

Lemma in_own_child case arch i : i < length (children_of case) → staged_child case arch i ∈ own case arch.
Proof.
  intros Hi. unfold own. rewrite !elem_of_app. right. right. apply list_elem_of_fmap_2, elem_of_seq. lia.
Qed.

(** A command with one output within the case's files. *)
Lemma within_run case arch l o l' cwd e :
  "-o" ∉ l → o ≠ "-o" → "-o" ∉ l' → o ∈ own case arch →
  within case arch (Run (l ++ "-o" :: o :: l') cwd e).
Proof.
  intros. unfold within. cbn [writes]. rewrite outputs_one by done. by intros x ->%list_elem_of_singleton.
Qed.

Lemma only_run (P : action → Prop) argv cwd e : P (Run argv cwd e) → only P (_run argv cwd e).
Proof.
  intros. apply only_bind; [by apply only_subprocess_run|].
  intros p. destruct (bool_decide _); auto with py.
Qed.

Lemma only_run_cc case arch clang pre s :
  clang ≠ "-o" → a_triple arch ≠ "-o" → "-o" ∉ a_cc_args arch → "-o" ∉ pre → s ∈ case_suffixes →
  only (within case arch) (run_cc clang arch (pre ++ ["-o"; artifact arch (c_name case) s])).
Proof.
  intros Hc Ht Ha Hp Hs. apply only_run. unfold cc.
  replace (clang :: ("--target=" +:+ a_triple arch) :: a_cc_args arch ++ pre ++ ["-o"; artifact arch (c_name case) s])
    with ((clang :: ("--target=" +:+ a_triple arch) :: a_cc_args arch ++ pre) ++
          "-o" :: artifact arch (c_name case) s :: []) by (cbn; by rewrite <-app_assoc).
  apply within_run; [|apply build_not_option|by apply not_elem_of_nil|by apply in_own_suffix].
  rewrite !elem_of_cons, elem_of_app. intros [?|[?|[?|?]]]; done.
Qed.

Lemma module_path_arg_not_option T n d : 3 ≤ slen n → module_path_arg T n = Ok d → d ≠ "-o".
Proof.
  unfold module_path_arg. intros Hn (x & _ & H)%res_bind_Ok. injection H as <-. intros He.
  apply (f_equal slen) in He. rewrite !slen_app in He. cbn in He. lia.
Qed.


Lemma compile_within T case arch objs lld clang imgformat :
  plain_tools T case arch objs lld clang → module_path_arg T "imgformat" = Ok imgformat →
  within case arch (Run (compile_case T case arch (artifact arch (c_name case) ".o") imgformat) None None).
Proof.
  intros [] Hi. unfold compile_case.
  change (sawc T ++ [c_src case; "-o"; ?o; "-Oz"; ?a; ?b; ?c; ?d; ?e] ++ ?r) with
    (sawc T ++ [c_src case] ++ "-o" :: o :: ["-Oz"; a; b; c; d; e] ++ r).
  rewrite (app_assoc (sawc T)). apply within_run.
  - rewrite elem_of_app, list_elem_of_singleton. naive_solver.
  - apply build_not_option.
  - assert (imgformat ≠ "-o") by (by eapply (module_path_arg_not_option T "imgformat"); [cbn; lia|]).
    rewrite !elem_of_app, !elem_of_cons, !elem_of_nil.
    assert ("-o" ∉ concat ((λ extra, ["--module-path"; extra]) <$> a_hal_modules arch)) as Hm.
    { clear -plain_modules0. induction (a_hal_modules arch) as [|m ms IH]; [by apply not_elem_of_nil|].
      cbn. rewrite !elem_of_cons in *. naive_solver. }
    assert ("-o" ∉ (if truthy (a_features arch)
                    then ["--target-features"; default "" (a_features arch)] else [])) as Hf.
    { destruct (a_features arch) as [f|]; cbn; [|by apply not_elem_of_nil].
      destruct (truthy f); [|by apply not_elem_of_nil].
      rewrite !elem_of_cons, elem_of_nil. naive_solver. }
    unfold CORE_MODULE, SOSRT_MODULE, SOSABI_MODULE. naive_solver.
  - by apply in_own_suffix, list_elem_of_here.
Qed.


Definition not_option (l : list string) : Prop := "-o" ∉ l.

Lemma not_option_app l1 l2 : not_option l1 → not_option l2 → not_option (l1 ++ l2).
Proof. unfold not_option. rewrite elem_of_app. tauto. Qed.

(** An optional step: what it may do, and that the object it yields is no option. *)
Lemma step_obj_only {B} (P : action → Prop) (b : bool) (m : M string) (f : list string → M B) :
  only P m → yields (λ o, o ≠ "-o") m → (∀ l, not_option l → only P (f l)) →
  only P (step_obj b m ≫= f).
Proof.
  intros Hm Hy Hf. apply (only_bind_yields _ not_option); [| |done]; unfold step_obj; destruct b.
  - apply only_bind; auto with py.
  - auto with py.
  - intros w l. unfold mbind, M_bind. specialize (Hy w). destruct (m w) as [[o|e] w1]; [|done].
    intros [= <-]. unfold not_option. rewrite list_elem_of_singleton. intros He.
    by apply (Hy o).
  - apply yields_ret. by apply not_elem_of_nil.
Qed.

Lemma only_mkdirs case arch p b : only (within case arch) (perform (MakeDirs p b)).
Proof. apply only_perform. by intros x ?%elem_of_nil. Qed.

Lemma only_copy case arch src dst : dst ∈ own case arch → only (within case arch) (perform (CopyFile src dst)).
Proof. intros. apply only_perform. by intros x ->%list_elem_of_singleton. Qed.

Lemma stitch_root_only T case arch objs lld clang image :
  plain_tools T case arch objs lld clang →
  only (within case arch) (_stitch_root_image image arch clang (c_name case)).
Proof.
  intros []. unfold _stitch_root_image.
  apply only_bind; [apply only_mkdirs|intros _].
  apply only_bind; [apply only_copy; unfold own; rewrite !elem_of_app; right; left; by apply list_elem_of_here|intros _].
  apply only_bind; [|auto with py].
  apply (only_run_cc _ _ _ ["-nostdlib"; "-I"; _; "-c"; _]); try done.
  - rewrite !elem_of_cons, elem_of_nil.
    pose proof (build_not_option arch (c_name case +:+ ".rootimg")).
    assert (join2 KERNEL_DIR "rootimg.S" ≠ "-o") by (apply repo_dir_not_option; cbn; lia).
    naive_solver.
  - unfold case_suffixes. set_solver.
Qed.

Lemma stitch_regions_only T case arch objs lld clang images :
  plain_tools T case arch objs lld clang →
  only (within case arch) (_stitch_regions case images arch clang).
Proof.
  intros []. unfold _stitch_regions.
  apply only_bind; [apply only_mkdirs|intros _].
  apply only_bind; [|intros _].
  { apply only_for_each. intros i Hi%elem_of_seq.
    apply only_bind; [auto with py|intros image]. apply only_copy, in_own_child. lia. }
  apply only_bind; [auto with py|intros lines].
  apply only_bind; [apply only_perform; intros x ->%list_elem_of_singleton; apply in_own_suffix; unfold case_suffixes; set_solver|intros _].
  apply only_bind; [|auto with py].
  apply (only_run_cc _ _ _ ["-nostdlib"; "-I"; _; "-c"; _]); try done.
  - rewrite !elem_of_cons, elem_of_nil.
    pose proof (build_not_option arch (c_name case +:+ ".regions.S")).
    assert (d_build (arch_dirs arch) ≠ "-o").
    { intros He. apply (f_equal slen) in He. cbn in He.
      match type of He with slen (join2 ?a ?b) = _ => pose proof (slen_join2_r a b) as Hl end.
      rewrite He in Hl. cbn in Hl. lia. }
    naive_solver.
  - unfold case_suffixes. set_solver.
Qed.

Lemma artifact_yields {A} (m : M A) arch n s :
  yields (λ o, o ≠ "-o") (m ≫= λ _, mret (artifact arch n s)).
Proof. apply yields_bind. intros _. apply yields_ret, build_not_option. Qed.

Lemma build_elf_within T case images arch objs lld clang :
  plain_tools T case arch objs lld clang →
  only (within case arch) (_build_elf T case images arch objs lld clang).
Proof.
  intros Hp. pose proof Hp as []. unfold _build_elf.
  apply only_bind; [apply only_mkdirs|intros _].
  apply only_bind_lift. intros imgformat Hi.
  apply only_bind; [by eapply only_run, compile_within|intros _].
  apply step_obj_only; [|apply artifact_yields|intros stubs Hstubs].
  { apply only_bind; [|auto with py].
    apply (only_run_cc _ _ _ ["-nostdlib"; "-ffreestanding"; "-O2"; "-c"; _]); try done.
    - rewrite !elem_of_cons, elem_of_nil.
      assert (join2 TESTS_DIR (default "" (c_csrc case)) ≠ "-o") by (apply repo_dir_not_option; cbn; lia).
      naive_solver.
    - unfold case_suffixes. set_solver. }
  apply step_obj_only; [|apply artifact_yields|intros payload Hpayload].
  { apply only_bind; [|auto with py].
    apply (only_run_cc _ _ _ ["-nostdlib"; "-c"; _]); try done.
    - rewrite !elem_of_cons, elem_of_nil.
      assert (join2 (d_tests (arch_dirs arch)) (default "" (c_asm case)) ≠ "-o").
      { cbn. apply join2_join2_not_short; [|done|done]. etransitivity; [|apply slen_join2_r]. cbn. lia. }
      naive_solver.
    - unfold case_suffixes. set_solver. }
  apply step_obj_only; [| |intros rootimg Hrootimg].
  { destruct (i_root images); [by eapply stitch_root_only|apply only_raise]. }
  { destruct (i_root images); [|apply yields_raise]. unfold _stitch_root_image.
    do 2 (apply yields_bind; intros _). apply artifact_yields. }
  apply step_obj_only; [by eapply stitch_regions_only| |intros regions Hregions].
  { unfold _stitch_regions. do 2 (apply yields_bind; intros _). apply yields_bind. intros lines.
    apply yields_bind. intros _. apply artifact_yields. }
  apply only_bind; [|auto with py]. apply only_run. unfold link_args.
  apply (within_run _ _ [lld; "-T"; _; "--gc-sections"] _ (objs ++ _)).
  - rewrite !elem_of_cons, elem_of_nil.
    assert (join2 (d_hal_board (arch_dirs arch)) "virt.ld" ≠ "-o").
    { intros He. apply (f_equal slen) in He.
      pose proof (slen_join2_r (d_hal_board (arch_dirs arch)) "virt.ld") as Hl.
      rewrite He in Hl. cbn in Hl. lia. }
    naive_solver.
  - apply build_not_option.
  - repeat apply not_option_app; try done. unfold not_option.
    rewrite list_elem_of_singleton. intros He. symmetry in He. by apply build_not_option in He.
  - apply in_own_suffix. unfold case_suffixes. set_solver.
Qed.


(** The files a run of [m] from [w] writes. *)
Definition written {A} (m : M A) (w : world) : list string :=
  concat (writes <$> drop (length (w_log w)) (w_log (m w).2)).

Lemma written_only {A} (m : M A) (l : list string) w :
  only (λ a, writes a ⊆ l) m → written m w ⊆ l.
Proof.
  intros Hm. destruct (Hm w) as (acts & E & Ha). unfold written. rewrite E, drop_app_length.
  clear E. intros p Hp. induction Ha as [|x acts Hx _ IH]; cbn in Hp; [by apply elem_of_nil in Hp|].
  apply elem_of_app in Hp as [Hp|Hp]; auto.
Qed.

(** The names the shared objects take. *)
Definition shared_names : list string := ["boot"; "trap"; "sink"; "support"].

Lemma shared_owned arch p :
  arch ∈ ARCHES → p ∈ shared arch → ∃ n, n ∈ shared_names ∧ owned arch n p.
Proof.
  intros Ha. revert p. pattern arch. revert arch Ha. apply ARCHES_ind; intros p;
    unfold shared, shared_names; cbn [fmap list_fmap app a_hal_asm arch_riscv32 arch_arm64 arch_riscv32_flat];
    rewrite !elem_of_cons, elem_of_nil; intros Hp;
    repeat destruct Hp as [->|Hp]; try done;
    match goal with
    | |- ∃ n, _ ∧ owned ?a n (join2 _ "boot.o") => exists "boot"
    | |- ∃ n, _ ∧ owned ?a n (join2 _ "sink.o") => exists "sink"
    | |- ∃ n, _ ∧ owned ?a n (join2 _ "support.o") => exists "support"
    | |- ∃ n, _ ∧ owned ?a n (hal_obj _ _) => exists "trap"
    end; (split; [set_solver|]);
    match goal with |- owned ?a ?n _ => by apply (owned_flat a n "o") end.
Qed.
End writes.

(** Two cases with different names never write a common file, and neither writes
    an object every case links. *)
Lemma builds_disjoint `{Hst : Host} `{R : Repo} T c1 c2 a1 a2 i1 i2 objs1 objs2 lld clang w1 w2 :
  plain_tools T c1 a1 objs1 lld clang → plain_tools T c2 a2 objs2 lld clang →
  simple_name (c_name c1) → simple_name (c_name c2) → c_name c1 ≠ c_name c2 →
  ∀ p, p ∈ written (_build_elf T c1 i1 a1 objs1 lld clang) w1 →
       p ∉ written (_build_elf T c2 i2 a2 objs2 lld clang) w2.
Proof.
  intros H1 H2 S1 S2 Hne p P1 P2.
  apply (written_only _ _ _ (build_elf_within T c1 i1 a1 objs1 lld clang H1)), own_owned in P1.
  apply (written_only _ _ _ (build_elf_within T c2 i2 a2 objs2 lld clang H2)), own_owned in P2.
  by eapply Hne, owned_unique.
Qed.

Lemma builds_spare_shared `{Hst : Host} `{R : Repo} T c a a' i objs lld clang w :
  plain_tools T c a objs lld clang → simple_name (c_name c) → c_name c ∉ shared_names → a' ∈ ARCHES →
  ∀ p, p ∈ shared a' → p ∉ written (_build_elf T c i a objs lld clang) w.
Proof.
  intros H1 S1 Hn Ha p Hs P1.
  apply (written_only _ _ _ (build_elf_within T c i a objs lld clang H1)), own_owned in P1.
  destruct (shared_owned a' p Ha Hs) as (n & Hin & Ho). apply Hn.
  assert (simple_name n) as Sn.
  { unfold shared_names in Hin. rewrite !elem_of_cons, elem_of_nil in Hin.
    repeat destruct Hin as [->|Hin]; by try (split; [done|reflexivity]). }
  by rewrite (owned_unique a a' _ _ p S1 Sn P1 Ho).
Qed.

End Isolation.
