(* ===== verification/Files.v ===== *)
(** * What a program does to files

    The interface the parallel cases are proved against: which paths an action
    of a case's build or boot reads and writes, and what follows for two hosts
    that agree on some of them.  And a machine that satisfies it: files,
    directories that have to be there before a file can be put in them, a
    compiler that leaves temporary files behind, a package manager that writes
    where no option names. *)

From Stdlib Require Import Ascii.
From S2P Require Import Prelude PyStr PyPath Host Isolation.
From stdpp Require Import base list sets gmap strings numbers option.

Open Scope nat_scope.

(** ** The actions of a case *)

(** What a case's build and its boot consist of: commands that name their
    outputs with [-o], directories made where they are missing, files copied and
    written, and the emulator.  A package build is none of them. *)
Definition case_action (a : action) : Prop :=
  match a with
  | Run argv _ _ => Isolation.outputs argv ≠ []
  | MakeDirs _ exist_ok => exist_ok = true
  | CopyFile _ _ | WriteFile _ _ | Boot _ _ => True
  | _ => False
  end.

(** What an action answers. *)
Inductive answer :=
  | Ran (r : option proc)
  | Booted (r : option (option Z * string))
  | Did (ok : bool).

Section acts.
Context `{Hst : Host}.

Definition acts (a : action) (h : host) : answer * host :=
  match a with
  | Run argv cwd e => let '(r, h) := h_run argv cwd e h in (Ran r, h)
  | Boot argv typed => let '(r, h) := h_boot argv typed h in (Booted r, h)
  | _ => let '(ok, h) := h_act a h in (Did ok, h)
  end.
End acts.

(** ** The interface

    [agree S h1 h2]: at the paths in [S] the two hosts hold the same.  [reads a]:
    the paths the action looks at, directories and absent files included.
    [scratch]: where programs keep temporary files.  An action that reads within
    [S] answers the same on hosts that agree there and leaves them agreeing; an
    action changes the paths it names as outputs, and scratch, and nothing else;
    making a directory that is there changes nothing, and making one in a
    directory that is there changes that one path. *)
Class FileView `{Hst : Host} := {
  agree : (string → Prop) → host → host → Prop;
  reads : action → string → Prop;
  scratch : string → Prop;
  agree_equivalence S :: Equivalence (agree S);
  agree_isdir S p h1 h2 : S p → agree S h1 h2 → h_isdir p h1 = h_isdir p h2;
  acts_within S a h1 h2 :
    case_action a → (∀ p, reads a p → S p) → agree S h1 h2 →
    (acts a h1).1 = (acts a h2).1 ∧ agree S (acts a h1).2 (acts a h2).2;
  acts_outside S a h :
    case_action a → (∀ d b, a ≠ MakeDirs d b) →
    (∀ p, p ∈ Isolation.writes a ∨ scratch p → ¬ S p) → agree S h (acts a h).2;
  makedirs_there S d h : h_isdir d h = true → agree S h (acts (MakeDirs d true) h).2;
  makedirs_under S d n h :
    h_isdir d h = true → solid d → plain n = true → ¬ S (join2 d n) →
    agree S h (acts (MakeDirs (join2 d n) true) h).2;
}.

(** ** A machine with files and directories *)

Record disk := Disk { k_files : gmap string string; k_dirs : gset string }.

Definition put (p text : string) (k : disk) : disk := Disk (<[p := text]> (k_files k)) (k_dirs k).

(** A file can be put where its directory is. *)
Definition put_in (p text : string) (k : disk) : bool * disk :=
  if decide (dirname p ∈ k_dirs k) then (true, put p text k) else (false, k).

(** The missing directories on the way to [p]. *)
Fixpoint mkdirs (fuel : nat) (p : string) (k : disk) : disk :=
  match fuel with
  | O => k
  | S fuel =>
      if decide (p ∈ k_dirs k) then k
      else let k := mkdirs fuel (dirname p) k in Disk (k_files k) ({[p]} ∪ k_dirs k)
  end.

Definition disk_act (a : action) (k : disk) : bool * disk :=
  match a with
  | CopyFile src dst => match k_files k !! src with Some text => put_in dst text k | None => (false, k) end
  | WriteFile p text => put_in p text k
  | MakeDirs p _ => (true, mkdirs (S (slen p)) p k)
  | _ => (true, k)
  end.

(** The text of the files a command line names, put together. *)
Definition contents (argv : list string) (k : disk) : string :=
  py_join "" ((λ p, default "" (k_files k !! p)) <$> argv).

Definition compiler_temp : string := "/tmp/cc.o".

(** A command that names an output puts its inputs together there, by way of a
    temporary file; one that names none is a package build. *)
Definition disk_run (argv : list string) (cwd : option string) (k : disk) : option proc * disk :=
  match Isolation.outputs argv with
  | o :: _ =>
      let text := contents argv k in
      let '(ok, k) := put_in o text (put compiler_temp text k) in
      (Some (if ok : bool then Proc 0 "" "" else Proc 1 "" "no such directory"), k)
  | [] => (Some (Proc 0 "" ""), put (join2 (default "" cwd) "out.sosimg") "image" k)
  end.

Definition disk_host : Host := {|
  host := disk;
  h_run := λ argv cwd _ k, disk_run argv cwd k;
  h_boot := λ argv _ k, (Some (Some 0%Z, contents argv k), k);
  h_act := disk_act;
  h_isfile := λ p k, bool_decide (is_Some (k_files k !! p));
  h_isdir := λ p k, bool_decide (p ∈ k_dirs k);
  h_exists := λ p k, bool_decide (is_Some (k_files k !! p)) || bool_decide (p ∈ k_dirs k);
  h_executable := λ _ _, false;
  h_listdir := λ d k, basename <$> filter (λ p, dirname p = d) (map_to_list (k_files k)).*1;
  h_walk := λ d k, [(d, basename <$> filter (λ p, dirname p = d) (map_to_list (k_files k)).*1)];
  h_getsize := λ p k, N.of_nat (slen (default "" (k_files k !! p)));
  h_text := λ p k, k_files k !! p |}.

Definition disk_agree (S : string → Prop) (k1 k2 : disk) : Prop :=
  ∀ p, S p → k_files k1 !! p = k_files k2 !! p ∧ (p ∈ k_dirs k1 ↔ p ∈ k_dirs k2).

(** The paths an action of a case looks at. *)
Definition looked_at (a : action) : list string :=
  match a with
  | Run argv _ _ => argv ++ (dirname <$> Isolation.outputs argv)
  | Boot argv _ => argv
  | CopyFile src dst => [src; dirname dst]
  | WriteFile p _ => [dirname p]
  | MakeDirs p _ => p :: imap (λ i _, Nat.iter (S i) dirname p) (replicate (slen p) ())
  | _ => []
  end.

#[export] Instance disk_agree_equivalence S : Equivalence (disk_agree S).
Proof.
  split; [done| |].
  - intros k1 k2 H p Hp. destruct (H p Hp) as [-> ->]. done.
  - intros k1 k2 k3 H1 H2 p Hp. destruct (H1 p Hp) as [-> ->]. by apply H2.
Qed.

Lemma disk_agree_put S k1 k2 p text : disk_agree S k1 k2 → disk_agree S (put p text k1) (put p text k2).
Proof.
  intros H q Hq. destruct (H q Hq) as [Hf Hd]. split; [|done]. cbn.
  destruct (decide (p = q)) as [->|]; [by rewrite !lookup_insert_eq|by rewrite !lookup_insert_ne].
Qed.

Lemma disk_agree_put_outside (S : string → Prop) k p text : ¬ S p → disk_agree S k (put p text k).
Proof. intros Hp q Hq. split; [|done]. cbn. rewrite lookup_insert_ne; [done|]. by intros ->. Qed.

Lemma put_in_within (S : string → Prop) k1 k2 p text :
  S (dirname p) → disk_agree S k1 k2 →
  (put_in p text k1).1 = (put_in p text k2).1 ∧ disk_agree S (put_in p text k1).2 (put_in p text k2).2.
Proof.
  intros Hp H. destruct (H _ Hp) as [_ Hd]. unfold put_in.
  destruct (decide (dirname p ∈ k_dirs k1)), (decide (dirname p ∈ k_dirs k2)); try tauto.
  split; [done|by apply disk_agree_put].
Qed.

Lemma put_in_outside (S : string → Prop) k p text : ¬ S p → disk_agree S k (put_in p text k).2.
Proof. intros Hp. unfold put_in. destruct (decide _); [by apply disk_agree_put_outside|done]. Qed.

Lemma contents_agree (S : string → Prop) argv k1 k2 :
  (∀ p, p ∈ argv → S p) → disk_agree S k1 k2 → contents argv k1 = contents argv k2.
Proof.
  intros Hs H. unfold contents. f_equal. apply list_fmap_ext. intros i p Hp%list_elem_of_lookup_2.
  by rewrite (proj1 (H p (Hs p Hp))).
Qed.

Lemma mkdirs_within (S : string → Prop) fuel p k1 k2 :
  (∀ i, i < fuel → S (Nat.iter i dirname p)) → disk_agree S k1 k2 →
  disk_agree S (mkdirs fuel p k1) (mkdirs fuel p k2).
Proof.
  intros Hp H. revert p Hp. induction fuel as [|fuel IH]; intros p Hp; [done|]. cbn [mkdirs].
  pose proof (proj2 (H p (Hp 0 ltac:(lia)))) as Hd.
  destruct (decide (p ∈ k_dirs k1)), (decide (p ∈ k_dirs k2)); try tauto.
  assert (disk_agree S (mkdirs fuel (dirname p) k1) (mkdirs fuel (dirname p) k2)) as IHp.
  { apply IH. intros i Hi. rewrite <-Nat.iter_succ_r. apply Hp. lia. }
  intros q Hq. destruct (IHp q Hq) as [Hf Hds]. cbn. split; [done|]. set_solver.
Qed.

Lemma mkdirs_there fuel p k : p ∈ k_dirs k → mkdirs fuel p k = k.
Proof. intros Hp. destruct fuel; [done|]. cbn. by rewrite decide_True. Qed.

(** The steps of a case on this machine: it satisfies the interface. *)
#[export] Instance disk_view : @FileView disk_host.
Proof.
  refine (@Build_FileView disk_host disk_agree (λ a p, p ∈ looked_at a) (λ p, p = compiler_temp)
            disk_agree_equivalence _ _ _ _ _).
  - intros S p k1 k2 Hp H. cbn. apply bool_decide_ext. by apply H.
  - intros S a k1 k2 Ha Hr H. destruct a as [argv cwd e|d b|src dst|p text| | | |argv typed| |]; try done; cbn -[mkdirs] in *.
    + unfold disk_run. destruct (Isolation.outputs argv) as [|o os] eqn:Eo; [done|].
      rewrite (contents_agree S argv k1 k2) by (done || intros; apply Hr; set_solver).
      pose proof (put_in_within S (put compiler_temp (contents argv k2) k1) (put compiler_temp (contents argv k2) k2)
        o (contents argv k2)) as [E Hag]; [apply Hr; set_solver|by apply disk_agree_put|].
      destruct (put_in _ _ _) as [ok1 h1], (put_in _ _ (put _ _ k2)) as [ok2 h2]. cbn in *. by subst ok2.
    + split; [done|]. apply mkdirs_within; [|done]. intros [|i] Hi; apply Hr; [apply list_elem_of_here|].
      apply list_elem_of_further. apply list_elem_of_lookup. exists i. rewrite list_lookup_imap.
      rewrite lookup_replicate_2 by lia. done.
    + destruct (H src) as [-> _]; [apply Hr; set_solver|].
      destruct (k_files k2 !! src) as [text|]; [|done].
      pose proof (put_in_within S k1 k2 dst text) as [E Hag]; [apply Hr; set_solver|done|].
      destruct (put_in _ _ k1), (put_in _ _ k2). cbn in *. by subst.
    + pose proof (put_in_within S k1 k2 p text) as [E Hag]; [apply Hr; set_solver|done|].
      destruct (put_in _ _ k1), (put_in _ _ k2). cbn in *. by subst.
    + split; [|done]. do 3 f_equal. by apply (contents_agree S).
  - intros S a k Ha Hd Hs. destruct a as [argv cwd e|d b|src dst|p text| | | |argv typed| |]; try done; cbn -[mkdirs] in *.
    + unfold disk_run. destruct (Isolation.outputs argv) as [|o os] eqn:Eo; [done|].
      assert (disk_agree S k (put compiler_temp (contents argv k) k)) as H1
        by (apply disk_agree_put_outside, Hs; by right).
      pose proof (put_in_outside S (put compiler_temp (contents argv k) k) o (contents argv k)) as H2.
      destruct (put_in _ _ _) as [ok k']. cbn in *. etransitivity; [exact H1|]. apply H2, Hs. left. set_solver.
    + by destruct (Hd d b).
    + destruct (k_files k !! src) as [text|]; [|done].
      pose proof (put_in_outside S k dst text) as H2. destruct (put_in _ _ _). apply H2, Hs. left. set_solver.
    + pose proof (put_in_outside S k p text) as H2. destruct (put_in _ _ _). apply H2, Hs. left. set_solver.
  - intros S d k Hd. apply bool_decide_eq_true in Hd. cbn [acts h_act disk_host disk_act].
    by rewrite mkdirs_there.
  - intros S d n k Hd Hsol Hn HS. apply bool_decide_eq_true in Hd. cbn [acts h_act disk_host disk_act mkdirs snd].
    destruct (decide _); [done|]. rewrite dirname_join2, mkdirs_there by done.
    intros q Hq. cbn. split; [done|]. rewrite elem_of_union, elem_of_singleton.
    split; [tauto|]. intros [->|]; [done|done].
Defined.
