(* ===== verification/MapOrdered.v ===== *)
(** * Work in parallel, results in order (tools/sos_runner.py: [_map_ordered])

    The generator that runs [work] over a list of items, [jobs] at a time, and
    yields the results in item order: a pool of workers that start, finish and
    are cancelled in any interleaving, and a consumer that takes the results one
    by one and may stop early. *)

From S2P Require Import Prelude.
From stdpp Require Import base list sets relations numbers option.

Open Scope nat_scope.

Module MapOrdered.
Section pool.
(** The items, what a worker makes of one, how many workers there are, and when
    the consumer, having received a list of results, breaks out. *)
Context {A B : Type} (work : A → res B) (jobs : nat) (stop : list B → bool).

(** How the generator ends: exhausted, closed by its consumer, or raising what a
    worker raised. *)
Inductive outcome := Exhausted | Stopped | Failed (e : exn).

(** ** The inline path: [for item in items: yield work(item)] *)
Fixpoint inline (ys : list B) (items : list A) : list B * outcome :=
  match items with
  | [] => (ys, Exhausted)
  | item :: items =>
      match work item with
      | Raise e => (ys, Failed e)
      | Ok y => if stop (ys ++ [y]) then (ys ++ [y], Stopped) else inline (ys ++ [y]) items
      end
  end.

(** ** The pool

    Futures are named by their position.  [queue] holds those submitted and not
    started, in order; the consumer waits for the future after the last result
    it got; once it is through, [finally] cancels the futures one by one, and
    the pool's own exit then waits for what is running. *)
Inductive phase :=
  | Consuming
  | Cancelling (k : nat) (o : outcome)
  | Waiting (o : outcome).

Record state := State {
  queue : list nat;
  running : list nat;
  finished : list nat;
  cancelled : list nat;
  yielded : list B;
  mode : phase;
}.

(** [futures = [pool.submit(work, item) for item in items]] *)
Definition submit_all (items : list A) : state :=
  State (seq 0 (length items)) [] [] [] [] Consuming.

(** [yield fut.result()]: the result, or the exception, of the awaited future,
    and what the consumer does with it. *)
Definition receive (s : state) (r : res B) : state :=
  match r with
  | Raise e => State (queue s) (running s) (finished s) (cancelled s) (yielded s) (Cancelling 0 (Failed e))
  | Ok y =>
      let ys := yielded s ++ [y] in
      State (queue s) (running s) (finished s) (cancelled s) ys
        (if stop ys then Cancelling 0 Stopped else Consuming)
  end.

(** [fut.cancel()]: takes a future that has not started out of the queue. *)
Definition cancel (s : state) (k : nat) (o : outcome) : state :=
  if bool_decide (k ∈ queue s) then
    State (filter (λ i, i ≠ k) (queue s)) (running s) (finished s) (cancelled s ++ [k]) (yielded s)
      (Cancelling (S k) o)
  else State (queue s) (running s) (finished s) (cancelled s) (yielded s) (Cancelling (S k) o).

Inductive step (items : list A) : state → state → Prop :=
  | step_start q i r f c y m :
      length r < jobs →
      step items (State (i :: q) r f c y m) (State q (r ++ [i]) f c y m)
  | step_finish q r1 i r2 f c y m :
      step items (State q (r1 ++ i :: r2) f c y m) (State q (r1 ++ r2) (f ++ [i]) c y m)
  | step_yield s item :
      mode s = Consuming → items !! length (yielded s) = Some item →
      length (yielded s) ∈ finished s → step items s (receive s (work item))
  | step_exhaust q r f c y :
      length y = length items →
      step items (State q r f c y Consuming) (State q r f c y (Cancelling 0 Exhausted))
  | step_cancel s k o :
      mode s = Cancelling k o → k < length items → step items s (cancel s k o)
  | step_shutdown q r f c y o :
      step items (State q r f c y (Cancelling (length items) o)) (State q r f c y (Waiting o)).

(** The [with] block is left. *)
Definition closed (s : state) (o : outcome) : Prop := mode s = Waiting o ∧ queue s = [] ∧ running s = [].

(** [_map_ordered(jobs, items, work)] may end with these results. *)
Definition _map_ordered (items : list A) (r : list B * outcome) : Prop :=
  if (jobs <=? 1) || (length items <=? 1) then r = inline [] items
  else ∃ s, rtc (step items) (submit_all items) s ∧ closed s r.2 ∧ yielded s = r.1.

(** ** The invariant *)

Record wf (items : list A) (s : state) : Prop := {
  wf_parts : queue s ++ running s ++ finished s ++ cancelled s ≡ₚ seq 0 (length items);
  wf_running : length (running s) ≤ jobs;
  wf_done : ∀ i, i < length (yielded s) → i ∈ finished s;
  wf_mode :
    match mode s with
    | Consuming => cancelled s = [] ∧ length (yielded s) ≤ length items ∧
                   inline [] items = inline (yielded s) (drop (length (yielded s)) items)
    | Cancelling k o => k ≤ length items ∧ inline [] items = (yielded s, o) ∧
                        (o = Exhausted → length (yielded s) = length items) ∧
                        Forall (λ i, k ≤ i) (queue s)
    | Waiting o => inline [] items = (yielded s, o) ∧ queue s = [] ∧
                   (o = Exhausted → length (yielded s) = length items)
    end;
}.

Lemma inline_prefix ys items : ys `prefix_of` (inline ys items).1.
Proof.
  revert ys. induction items as [|item items IH]; intros ys; cbn; [done|].
  destruct (work item) as [y|e]; [|done]. destruct (stop _); cbn; [by apply prefix_app_r|].
  etransitivity; [|apply IH]. by apply prefix_app_r.
Qed.

Lemma submit_wf items : wf items (submit_all items).
Proof. split; cbn; [by rewrite app_nil_r|lia|lia|]. split_and!; [done|lia|done]. Qed.

Lemma filter_ne_perm (k : nat) l : NoDup l → k ∈ l → k :: filter (λ i, i ≠ k) l ≡ₚ l.
Proof.
  induction l as [|x l IH]; [by intros _ ?%elem_of_nil|].
  rewrite list.NoDup_cons, elem_of_cons. intros [Hx Hnd] [->|Hk].
  - rewrite filter_cons, decide_False by tauto. constructor.
    clear IH Hnd. induction l as [|y l IH]; [done|]. rewrite elem_of_cons in Hx.
    rewrite filter_cons, decide_True by (intros ->; tauto). constructor. tauto.
  - rewrite filter_cons, decide_True by (by intros ->).
    etransitivity; [apply perm_swap|]. constructor. auto.
Qed.

Lemma perm_move {X} (l1 l2 l3 : list X) i : l1 ++ i :: l2 ++ l3 ≡ₚ l1 ++ l2 ++ i :: l3.
Proof. apply Permutation_app_head, Permutation_middle. Qed.

Lemma wf_NoDup items s : wf items s → NoDup (queue s ++ running s ++ finished s ++ cancelled s).
Proof. intros [Hp _ _ _]. rewrite Hp. apply NoDup_seq. Qed.

Lemma inline_cons ys item items :
  inline ys (item :: items) =
  match work item with
  | Raise e => (ys, Failed e)
  | Ok y => if stop (ys ++ [y]) then (ys ++ [y], Stopped) else inline (ys ++ [y]) items
  end.
Proof. done. Qed.

Lemma receive_wf items s item :
  wf items s → mode s = Consuming → items !! length (yielded s) = Some item →
  length (yielded s) ∈ finished s → wf items (receive s (work item)).
Proof.
  intros [Hp Hr Hd Hm] Hc Hi Hf. rewrite Hc in Hm. destruct Hm as (Hcan & Hle & Heq).
  pose proof (lookup_lt_Some _ _ _ Hi) as Hlt.
  rewrite (drop_S _ _ _ Hi), inline_cons in Heq.
  unfold receive. destruct (work item) as [y|e]; split; cbn; try done.
  - intros i. rewrite length_app. cbn. intros Hlti.
    destruct (decide (i = length (yielded s))) as [->|]; [done|]. apply Hd. lia.
  - destruct (stop (yielded s ++ [y])).
    + split_and!; [lia|done|done|apply Forall_forall; lia].
    + rewrite length_app. cbn. split_and!; [done|lia|].
      replace (length (yielded s) + 1) with (S (length (yielded s))) by lia. done.
  - split_and!; [lia|done|done|apply Forall_forall; lia].
Qed.

(** Every future is in one place, whatever the workers make of their items. *)
Definition parts (items : list A) (s : state) : Prop :=
  queue s ++ running s ++ finished s ++ cancelled s ≡ₚ seq 0 (length items).

Lemma parts_NoDup items s : parts items s → NoDup (queue s ++ running s ++ finished s ++ cancelled s).
Proof. unfold parts. intros ->. apply NoDup_seq. Qed.

Lemma cancel_parts items s k o : parts items s → parts items (cancel s k o).
Proof.
  intros Hp. pose proof (parts_NoDup _ _ Hp) as Hnd. unfold parts, cancel in *.
  case_bool_decide as Hin; [|done]. cbn.
  rewrite <-Hp. rewrite <-(filter_ne_perm k (queue s)) at 2; [|by apply list.NoDup_app in Hnd as (? & _)|done].
  rewrite <-Permutation_cons_append.
  pose proof (perm_move [] (filter (λ i, i ≠ k) (queue s) ++ running s ++ finished s) (cancelled s) k) as Hm.
  cbn in Hm. rewrite <-!app_assoc in Hm. by symmetry.
Qed.

Lemma step_parts items s s' : step items s s' → parts items s → parts items s'.
Proof.
  destruct 1 as [q i r f c y m Hl | q r1 i r2 f c y m | s item Hc Hi Hf | q r f c y Hl
                | s k o Hk Hlt | q r f c y o]; intros Hp; try done.
  - unfold parts in *. cbn in *. rewrite <-Hp. pose proof (perm_move [] (q ++ r) (f ++ c) i) as Hm'.
    cbn in Hm'. rewrite <-!app_assoc in *. by symmetry.
  - unfold parts in *. cbn in *. rewrite <-Hp. pose proof (perm_move (q ++ r1) (r2 ++ f) c i) as Hm'.
    rewrite <-!app_assoc in *. cbn. by symmetry.
  - unfold parts, receive in *. by destruct (work item).
  - by apply cancel_parts.
Qed.

Lemma cancel_wf items s k o :
  wf items s → mode s = Cancelling k o → k < length items → wf items (cancel s k o).
Proof.
  intros Hwf Hk Hlt. pose proof (cancel_parts items s k o (wf_parts _ _ Hwf)) as Hp'.
  destruct Hwf as [_ Hr Hd Hm]. rewrite Hk in Hm. destruct Hm as (Hle & Heq & Hex & Hq).
  unfold cancel in *. case_bool_decide as Hin; split; cbn; try done.
  - split_and!; [lia|done|done|]. apply list.Forall_forall. intros i Hi.
    apply list_elem_of_filter in Hi as [Hne Hi]. rewrite list.Forall_forall in Hq.
    specialize (Hq i Hi). lia.
  - split_and!; [lia|done|done|]. apply list.Forall_forall. intros i Hi.
    rewrite list.Forall_forall in Hq. specialize (Hq i Hi).
    destruct (decide (i = k)) as [->|]; [done|lia].
Qed.

Lemma step_wf items s s' : wf items s → step items s s' → wf items s'.
Proof.
  intros Hwf Hs. pose proof (step_parts _ _ _ Hs (wf_parts _ _ Hwf)) as Hp'.
  pose proof Hwf as [Hp Hr Hd Hm].
  destruct Hs as [q i r f c y m Hl | q r1 i r2 f c y m | s item Hc Hi Hf | q r f c y Hl
                 | s k o Hk Hlt | q r f c y o]; cbn in *.
  - split; cbn; [done|rewrite length_app; cbn; lia|done|].
    + destruct m; try done; [|by destruct Hm as (_ & ? & _)].
      destruct Hm as (? & ? & ? & Hq). split_and!; try done. by inversion Hq.
  - split; cbn; [done|rewrite length_app in *; cbn in Hr; lia|set_solver|done].
  - by apply receive_wf.
  - split; cbn; [done..|]. destruct Hm as (Hcan & _ & Heq). rewrite Hl, drop_ge in Heq by lia.
    split_and!; [lia|done|done|apply list.Forall_forall; lia].
  - by apply cancel_wf.
  - split; cbn; [done..|]. destruct Hm as (_ & Heq & Hex & Hq). split_and!; [done| |done].
    destruct q as [|i q]; [done|]. inversion Hq as [|? ? Hi _]; subst.
    assert (i ∈ seq 0 (length items)) as Hin%elem_of_seq by (rewrite <-Hp; set_solver). lia.
Qed.

Lemma steps_wf items s s' : wf items s → rtc (step items) s s' → wf items s'.
Proof. induction 2 as [|s1 s2 s3 Hs _ IH]; [done|]. apply IH. by eapply step_wf. Qed.

(** ** Progress and termination *)

Lemma progress items s :
  0 < jobs → wf items s → (∃ s', step items s s') ∨ ∃ o, closed s o.
Proof.
  intros Hj Hwf. pose proof Hwf as [Hp Hr _ Hm]. destruct s as [q r f c y m]. cbn in *.
  destruct r as [|i r]; [|left; eexists; by apply (step_finish _ _ [])].
  destruct m as [|k o|o].
  - destruct Hm as (-> & Hle & _). left.
    destruct (decide (length y = length items)) as [He|Hne]; [eexists; by apply step_exhaust|].
    assert (length y ∈ q ++ [] ++ f ++ []) as Hin by (rewrite Hp; apply elem_of_seq; lia).
    destruct (lookup_lt_is_Some_2 items (length y)) as [item Hitem]; [lia|].
    destruct (decide (length y ∈ f)) as [Hf|Hf]; [eexists; by eapply step_yield|].
    destruct q as [|i q]; [|eexists; by apply step_start].
    rewrite app_nil_r in Hin. done.
  - destruct Hm as (Hle & _). left. destruct (decide (k = length items)) as [->|].
    + eexists. apply step_shutdown.
    + eexists. apply step_cancel; [done|lia].
  - destruct Hm as (_ & -> & _). right. by exists o.
Qed.

(** What is left to do. *)
Definition todo (items : list A) (s : state) : nat :=
  2 * length (queue s) + length (running s) +
  match mode s with
  | Consuming => (length items - length (yielded s)) + length items + 2
  | Cancelling k _ => (length items - k) + 1
  | Waiting _ => 0
  end.

Lemma step_todo items s s' : step items s s' → todo items s' < todo items s.
Proof.
  destruct 1 as [q i r f c y m Hl | q r1 i r2 f c y m | s item Hc Hi Hf | q r f c y Hl
                | s k o Hk Hlt | q r f c y o]; unfold todo; cbn -[Nat.mul].
  - rewrite length_app. cbn. lia.
  - rewrite !length_app. cbn. lia.
  - pose proof (lookup_lt_Some _ _ _ Hi). rewrite Hc. unfold receive.
    destruct (work item); cbn -[Nat.mul]; [|lia].
    destruct (stop _); [|rewrite length_app; cbn -[Nat.mul]]; lia.
  - lia.
  - rewrite Hk. unfold cancel. case_bool_decide; cbn -[Nat.mul]; [|lia].
    pose proof (length_filter (λ i, i ≠ k) (queue s)). lia.
  - lia.
Qed.

Lemma nsteps_todo items n s s' : nsteps (step items) n s s' → n + todo items s' ≤ todo items s.
Proof. induction 1 as [|n s1 s2 s3 Hs _ IH]; [lia|]. apply step_todo in Hs. lia. Qed.

Lemma runs_to_close items s : 0 < jobs → wf items s → ∃ s' o, rtc (step items) s s' ∧ closed s' o.
Proof.
  intros Hj. remember (todo items s) as n eqn:En. revert s En.
  induction (lt_wf n) as [n _ IH]. intros s -> Hwf.
  destruct (progress items s Hj Hwf) as [[s1 Hs]|[o Ho]]; [|by exists s, o].
  destruct (IH (todo items s1)) with (s := s1) as (s' & o & Hr & Ho); try done.
  - by apply step_todo.
  - by eapply step_wf.
  - exists s', o. split; [by eapply rtc_l|done].
Qed.

Lemma closed_inline items s o : wf items s → closed s o → inline [] items = (yielded s, o).
Proof. intros [_ _ _ Hm] (Hc & _). rewrite Hc in Hm. by destruct Hm. Qed.

(** ** Properties *)

(** C7. The transcript of a parallel run is that of the serial one.  However the
    workers interleave, and with however many of them, the results the consumer
    received, in order, and the way the generator ended are those of the inline
    loop: a consumer that breaks out, and a worker that raises, cut it at the
    first item in list order and nowhere else. *)
Theorem map_ordered_is_serial (items : list A) (r : list B * outcome) :
  0 < jobs → _map_ordered items r ↔ r = inline [] items.
Proof.
  intros Hj. unfold _map_ordered. destruct (_ || _); [done|]. split.
  - intros (s & Hr & Hc & Hy). pose proof (steps_wf _ _ _ (submit_wf items) Hr) as Hwf.
    rewrite (closed_inline _ _ _ Hwf Hc), Hy. by destruct r.
  - intros ->. destruct (runs_to_close items _ Hj (submit_wf items)) as (s & o & Hr & Hc).
    pose proof (steps_wf _ _ _ (submit_wf items) Hr) as Hwf.
    rewrite (closed_inline _ _ _ Hwf Hc). eauto.
Qed.

(** C22. At every moment of a parallel run at most [jobs] items are being worked
    on, every item is in exactly one place, waiting, running, done or
    cancelled, none being started twice, and what was yielded so far is a
    beginning of the serial transcript. *)
Theorem map_ordered_safe (items : list A) (s : state) :
  rtc (step items) (submit_all items) s →
  length (running s) ≤ jobs ∧
  queue s ++ running s ++ finished s ++ cancelled s ≡ₚ seq 0 (length items) ∧
  yielded s `prefix_of` (inline [] items).1 ∧
  (∀ o, closed s o → o = Exhausted → finished s ≡ₚ seq 0 (length items)).
Proof.
  intros Hr. pose proof (steps_wf _ _ _ (submit_wf items) Hr) as Hwf.
  pose proof Hwf as [Hp Hl Hd Hm]. split_and!; [done..| |].
  - destruct (mode s).
    + destruct Hm as (_ & _ & ->). apply inline_prefix.
    + by destruct Hm as (_ & -> & _).
    + by destruct Hm as (-> & _).
  - intros o (Hc & _ & _) ->. rewrite Hc in Hm. destruct Hm as (_ & _ & Hex).
    rewrite Hex in Hd by done. pose proof (wf_NoDup _ _ Hwf) as Hnd.
    apply NoDup_Permutation; [|apply NoDup_seq|].
    + do 2 apply list.NoDup_app in Hnd as (_ & _ & Hnd). by apply list.NoDup_app in Hnd as (? & _).
    + intros i. rewrite elem_of_seq. split; [|intros; apply Hd; lia].
      intros Hi. assert (i ∈ seq 0 (length items)) as ?%elem_of_seq by (rewrite <-Hp; set_solver). lia.
Qed.

(** C21. A parallel run never gets stuck and always ends: as long as it is not
    closed some worker, the consumer or the clean-up can move, and no
    interleaving moves more than four times per item and twice. *)
Theorem map_ordered_terminates (items : list A) (s : state) (n : nat) :
  0 < jobs → nsteps (step items) n (submit_all items) s →
  n ≤ 4 * length items + 2 ∧ ((∃ s', step items s s') ∨ ∃ o, closed s o).
Proof.
  intros Hj Hn. split.
  - apply nsteps_todo in Hn. unfold todo in Hn at 2. cbn -[Nat.mul] in Hn.
    rewrite length_seq in Hn. lia.
  - apply progress; [done|]. eapply steps_wf; [apply submit_wf|]. by eapply rtc_nsteps_2.
Qed.
End pool.

(** ** Witnesses: doubling, with a worker that raises and a consumer that stops *)

Definition double (n : nat) : res nat := if n =? 7 then Raise OSError else Ok (n * 2).
Definition never (ys : list nat) : bool := false.

Lemma map_ordered_is_serial_witness :
  _map_ordered double 4 never [1; 2; 7; 3] ([2; 4], Failed OSError).
Proof. apply (map_ordered_is_serial double 4 never [1; 2; 7; 3]); [lia|reflexivity]. Defined.

(** Two workers; the second item is done first. *)
Definition midway : state := State [2] [0] [1] [] ([] : list nat) Consuming.

Lemma midway_reached : rtc (step double 2 never [1; 2; 3]) (submit_all [1; 2; 3]) midway.
Proof.
  eapply rtc_l; [apply step_start; cbn; lia|].
  eapply rtc_l; [apply step_start; cbn; lia|].
  eapply rtc_l; [apply (step_finish double 2 never _ [2] [0] 1 [])|]. apply rtc_refl.
Defined.

Lemma map_ordered_safe_witness : length (running midway) ≤ 2 ∧ @nil nat `prefix_of` [2; 4; 6].
Proof.
  pose proof (map_ordered_safe double 2 never [1; 2; 3] midway midway_reached) as (H1 & _ & H2 & _).
  split; [exact H1|exact H2].
Defined.

Lemma map_ordered_terminates_witness :
  0 ≤ 4 * 3 + 2 ∧
  ((∃ s', step double 2 never [1; 2; 3] (submit_all [1; 2; 3]) s') ∨
   ∃ o, closed (submit_all [1; 2; 3] : @state nat) o).
Proof.
  apply (map_ordered_terminates double 2 never [1; 2; 3] (submit_all [1; 2; 3]) 0); [lia|apply nsteps_O].
Defined.

End MapOrdered.
