(* ===== verification/Threads.v ===== *)
(** * Workers on one world (tools/sos_runner.py: [_map_ordered] over real work)

    [MapOrdered.v] takes a worker for a function of its item.  Here a worker is a
    program of steps on the one world all workers share, the pool lets any
    running worker take its next step at any moment, and a frame condition on
    the steps is what makes the parallel run the serial one: no worker can tell
    what the others did. *)

From S2P Require Import Prelude PyStr Host MapOrdered.
From stdpp Require Import base list sets relations strings numbers option functions.

Open Scope nat_scope.

Module Threads.
Import MapOrdered.

(** ** Programs of steps *)

Lemma says_prints (l : list string) : says (Print <$> l) = l.
Proof. induction l as [|x l IH]; [done|]. cbn. by rewrite <-IH at 2. Qed.

Section programs.
Context `{Hst : Host}.

(** A worker: finished, or a step on the world and what follows its result. *)
Inductive prog (B : Type) : Type :=
  | Done (r : res B)
  | Do (X : Type) (m : M X) (k : res X → prog B).
#[global] Arguments Done {_} _.
#[global] Arguments Do {_ _} _ _.

(** The worker run by itself. *)
Fixpoint denote {B} (p : prog B) : M B := λ w,
  match p with
  | Done r => (r, w)
  | Do m k => let '(r, w) := m w in denote (k r) w
  end.

Fixpoint all_steps {B} (Q : ∀ X, M X → Prop) (p : prog B) : Prop :=
  match p with
  | Done _ => True
  | Do m k => Q _ m ∧ ∀ r, all_steps Q (k r)
  end.

(** A worker written as the source writes it: one step after the other. *)
#[global] Instance prog_ret : MRet prog := λ B b, Done (Ok b).
Fixpoint followed_by {B C} (f : B → prog C) (p : prog B) : prog C :=
  match p with
  | Done (Ok b) => f b
  | Done (Raise e) => Done (Raise e)
  | Do m k => Do m (λ r, followed_by f (k r))
  end.
#[global] Instance prog_bind : MBind prog := @followed_by.
Definition act {X} (m : M X) : prog X := Do m Done.

Fixpoint each {X} (l : list X) (body : X → prog unit) : prog unit :=
  match l with [] => mret tt | x :: l => body x ≫= λ _, each l body end.

(** [try: p except ToolError as e], with the message as a value. *)
Fixpoint catching_tool {B} (p : prog B) : prog (B + string) :=
  match p with
  | Done (Ok b) => Done (Ok (inl b))
  | Done (Raise (ToolError msg)) => Done (Ok (inr msg))
  | Done (Raise e) => Done (Raise e)
  | Do m k => Do m (λ r, catching_tool (k r))
  end.

Lemma denote_act {X} (m : M X) w : denote (act m) w = m w.
Proof. cbn. by destruct (m w). Qed.

Lemma denote_bind {B C} (p : prog B) (f : B → prog C) w :
  denote (p ≫= f) w = (denote p ≫= λ b, denote (f b)) w.
Proof.
  revert w. induction p as [[b|e]|X m k IH]; intros w; [done..|]. rewrite M_bind_unfold. cbn.
  destruct (m w) as [r w1]. apply IH.
Qed.

Lemma denote_each {X} (l : list X) (body : X → prog unit) (body' : X → M unit) w :
  (∀ x w, denote (body x) w = body' x w) → denote (each l body) w = for_each l body' w.
Proof.
  intros Hb. revert w. induction l as [|x l IH]; intros w; [done|]. cbn [each for_each].
  rewrite denote_bind, !M_bind_unfold, Hb. by destruct (body' x w) as [[[]|e] w1].
Qed.

Lemma denote_catching_tool {B} (p : prog B) w : denote (catching_tool p) w = catch_tool (denote p) w.
Proof.
  revert w. induction p as [[b|[]]|X m k IH]; intros w; [done..|]. unfold catch_tool in *. cbn.
  destruct (m w) as [r w1]. by rewrite IH.
Qed.

(** *** Every step of such a worker *)

Lemma steps_ret {B} (Q : ∀ X, M X → Prop) (b : B) : all_steps Q (mret b).
Proof. done. Qed.

Lemma steps_act {X} (Q : ∀ X, M X → Prop) (m : M X) : Q X m → all_steps Q (act m).
Proof. by split. Qed.

Lemma steps_raise {B} (Q : ∀ X, M X → Prop) e : all_steps Q (Done (B := B) (Raise e)).
Proof. done. Qed.

Lemma steps_bind {B C} (Q : ∀ X, M X → Prop) (p : prog B) (f : B → prog C) :
  all_steps Q p → (∀ b, all_steps Q (f b)) → all_steps Q (p ≫= f).
Proof. intros Hp Hf. induction p as [[b|e]|X m k IH]; [apply Hf|done|]. split; [apply Hp|]. intros r. by apply IH, Hp. Qed.

Lemma steps_each {X} (Q : ∀ X, M X → Prop) (l : list X) (body : X → prog unit) :
  (∀ x, all_steps Q (body x)) → all_steps Q (each l body).
Proof. intros Hb. induction l as [|x l IH]; [done|]. cbn. by apply steps_bind. Qed.

Lemma steps_catching_tool {B} (Q : ∀ X, M X → Prop) (p : prog B) : all_steps Q p → all_steps Q (catching_tool p).
Proof. induction p as [[b|[]]|X m k IH]; [done..|]. intros [Hm Hk]. split; [done|]. eauto. Qed.

Lemma steps_weaken {B} (Q Q' : ∀ X, M X → Prop) (p : prog B) :
  (∀ X m, Q X m → Q' X m) → all_steps Q p → all_steps Q' p.
Proof. intros HQ. induction p as [r|X m k IH]; [done|]. intros [Hm Hk]. split; [by apply HQ|]. eauto. Qed.

(** What a worker pledges of its result, from wherever its steps are taken: the
    worlds between its steps are the others' doing, and only the log is known to
    grow. *)
Fixpoint pledges {B} (Q : res B → world → Prop) (p : prog B) : world → Prop := λ w,
  match p with
  | Done r => Q r w
  | Do m k => ∀ w1, grows w w1 → pledges Q (k (m w1).1) (m w1).2
  end.

Lemma pledges_grows {B} (Q : res B → world → Prop) p w w' :
  (∀ r w w', grows w w' → Q r w → Q r w') → grows w w' → pledges Q p w → pledges Q p w'.
Proof.
  intros HQ Hg. destruct p as [r|X m k]; cbn; [by apply HQ|].
  intros Hp w1 Hw1. apply Hp. by eapply grows_trans.
Qed.

Lemma pledges_weaken {B} (Q Q' : res B → world → Prop) p w :
  (∀ r w, Q r w → Q' r w) → pledges Q p w → pledges Q' p w.
Proof. intros HQ. revert w. induction p as [r|X m k IH]; intros w; cbn; [apply HQ|]. eauto. Qed.

Lemma pledges_True {B} (p : prog B) w : pledges (λ _ _, True) p w.
Proof. revert w. induction p as [r|X m k IH]; intros w; cbn; auto. Qed.

Lemma pledges_and {B} (Q Q' : res B → world → Prop) p w :
  pledges Q p w → pledges Q' p w → pledges (λ r w, Q r w ∧ Q' r w) p w.
Proof. revert w. induction p as [r|X m k IH]; intros w; cbn; auto. Qed.

Lemma denote_pledges {B} (Q : res B → world → Prop) p w :
  pledges Q p w → Q (denote p w).1 (denote p w).2.
Proof.
  revert w. induction p as [r|X m k IH]; intros w; [done|]. cbn. intros Hp.
  specialize (Hp w (grows_refl w)). destruct (m w) as [r w1]. by apply IH.
Qed.

(** [safe E p]: wherever its steps are taken, what [p] raises satisfies [E]. *)
Definition safe {B} (E : exn → Prop) (p : prog B) : Prop := ∀ w, pledges (λ r _, res_raises E r) p w.

Lemma safe_ret {B} E (b : B) : safe E (mret b).
Proof. by intros w e. Qed.

Lemma safe_raise {B} (E : exn → Prop) e : E e → safe E (Done (B := B) (Raise e)).
Proof. intros He w e' [= <-]. done. Qed.

Lemma safe_do {B X} E (m : M X) (k : res X → prog B) : (∀ w, safe E (k (m w).1)) → safe E (Do m k).
Proof. intros Hk w w1 _. apply Hk. Qed.

Lemma safe_act {X} E (m : M X) : raises E m → safe E (act m).
Proof.
  intros Hm w w1 _ e. cbn. intros Hr. destruct (m w1) as [r w2] eqn:Em. cbn in Hr. subst r. by eapply Hm.
Qed.

Lemma safe_bind {B C} E (p : prog B) (f : B → prog C) : safe E p → (∀ b, safe E (f b)) → safe E (p ≫= f).
Proof.
  intros Hp Hf w. specialize (Hp w). revert w Hp. induction p as [[b|e]|X m k IH]; intros w Hp.
  - apply Hf.
  - intros e' [= <-]. by apply Hp.
  - intros w1 Hw. apply IH. by apply Hp.
Qed.

Lemma safe_each {X} E (l : list X) (body : X → prog unit) : (∀ x, safe E (body x)) → safe E (each l body).
Proof. intros Hb. induction l as [|x l IH]; [apply safe_ret|]. cbn. by apply safe_bind. Qed.

Lemma safe_catching_tool {B} E (p : prog B) : safe E p → safe E (catching_tool p).
Proof.
  intros Hp w. specialize (Hp w). revert w Hp. induction p as [[b|e]|X m k IH]; intros w Hp.
  - by intros e.
  - specialize (Hp e eq_refl). by destruct e; intros e' [= <-].
  - intros w1 Hw. apply IH. by apply Hp.
Qed.

Lemma denote_adds {B} P (p : prog B) : all_steps (λ _ m, only P m) p → only P (denote p).
Proof.
  induction p as [r|X m k IH]; [intros _ w; exists []; by rewrite app_nil_r|]. intros [Hm Hk] w. cbn.
  destruct (Hm w) as (l1 & E1 & H1). destruct (m w) as [r w1]. cbn in E1.
  destruct (IH r (Hk r) w1) as (l2 & E2 & H2). exists (l1 ++ l2).
  rewrite E2, E1, app_assoc. split; [done|by apply Forall_app].
Qed.

(** ** What a worker can tell

    [alike i h h']: the [i]-th worker cannot tell [h] from [h'].  On hosts that
    satisfy [inv], a step is local to worker [i] when it does the same on hosts
    [i] cannot tell apart, when no other worker can tell whether it was taken,
    and when it leaves a host that satisfies [inv]. *)
Context (inv : host → Prop) (alike : nat → host → host → Prop) `{!∀ i, Equivalence (alike i)}.

Record local (i : nat) (X : Type) (m : M X) : Prop := {
  local_own w1 w2 : inv (w_host w1) → inv (w_host w2) → alike i (w_host w1) (w_host w2) →
    (m w1).1 = (m w2).1 ∧ alike i (w_host (m w1).2) (w_host (m w2).2);
  local_frame j w : inv (w_host w) → j ≠ i → alike j (w_host w) (w_host (m w).2);
  local_inv w : inv (w_host w) → inv (w_host (m w).2);
}.

Lemma denote_own {B} i (p : prog B) w1 w2 :
  all_steps (local i) p → inv (w_host w1) → inv (w_host w2) → alike i (w_host w1) (w_host w2) →
  (denote p w1).1 = (denote p w2).1 ∧ alike i (w_host (denote p w1).2) (w_host (denote p w2).2).
Proof.
  revert w1 w2. induction p as [r|X m k IH]; intros w1 w2; [done|].
  intros [Hm Hk] H1 H2 Ha. apply (local_own _ _ _ Hm _ _ H1 H2) in Ha.
  apply (local_inv _ _ _ Hm) in H1, H2. cbn.
  destruct (m w1) as [r1 v1], (m w2) as [r2 v2]. cbn in Ha, H1, H2. destruct Ha as [-> Ha]. by apply IH.
Qed.

Lemma denote_inv {B} i (p : prog B) w :
  all_steps (local i) p → inv (w_host w) → inv (w_host (denote p w).2).
Proof.
  revert w. induction p as [r|X m k IH]; intros w; [done|].
  intros [Hm Hk] Hw. apply (local_inv _ _ _ Hm) in Hw. cbn. destruct (m w) as [r v]. by apply IH.
Qed.

Lemma denote_frame {B} i j (p : prog B) w :
  all_steps (local i) p → inv (w_host w) → j ≠ i → alike j (w_host w) (w_host (denote p w).2).
Proof.
  revert w. induction p as [r|X m k IH]; intros w; [done|].
  intros [Hm Hk] Hw Hj. pose proof (local_frame _ _ _ Hm j w Hw Hj) as Ha. apply (local_inv _ _ _ Hm) in Hw. cbn.
  destruct (m w) as [r v]. etransitivity; [exact Ha|]. by apply IH.
Qed.
End programs.

(** ** The pool *)

Section pool.
Context `{Hst : Host} {A B : Type} (code : A → prog B) (jobs : nat) (stop : list B → bool) (say : nat → B → list string).

(** The consumer prints its lines of a result as it receives it. *)
Definition told (n : nat) (y : B) (w : world) : world := World (w_host w) (w_log w ++ (Print <$> say n y)).
Definition tell (n : nat) (r : res B) (w : world) : world := match r with Ok y => told n y w | Raise _ => w end.

Lemma w_host_tell n r w : w_host (tell n r w) = w_host w.
Proof. by destruct r. Qed.

(** The futures as in [MapOrdered], the program each has left, and the world. *)
Record pool := Pool { base : @state B; threads : nat → prog B; now : world }.

Inductive pstep (items : list A) : pool → pool → Prop :=
  | pstep_start q i r f c y m ts w item :
      length r < jobs → items !! i = Some item →
      pstep items (Pool (State (i :: q) r f c y m) ts w)
        (Pool (State q (r ++ [i]) f c y m) (<[i := code item]> ts) w)
  | pstep_exec s ts w i X (m : M X) k r w' :
      i ∈ running s → ts i = Do m k → m w = (r, w') →
      pstep items (Pool s ts w) (Pool s (<[i := k r]> ts) w')
  | pstep_finish q r1 i r2 f c y m ts w r :
      ts i = Done r →
      pstep items (Pool (State q (r1 ++ i :: r2) f c y m) ts w)
        (Pool (State q (r1 ++ r2) (f ++ [i]) c y m) ts w)
  | pstep_yield s ts w r :
      mode s = Consuming → length (yielded s) < length items → length (yielded s) ∈ finished s →
      ts (length (yielded s)) = Done r →
      pstep items (Pool s ts w) (Pool (receive stop s r) ts (tell (length (yielded s)) r w))
  | pstep_exhaust q r f c y ts w :
      length y = length items →
      pstep items (Pool (State q r f c y Consuming) ts w) (Pool (State q r f c y (Cancelling 0 Exhausted)) ts w)
  | pstep_cancel s k o ts w :
      mode s = Cancelling k o → k < length items → pstep items (Pool s ts w) (Pool (cancel s k o) ts w)
  | pstep_shutdown q r f c y o ts w :
      pstep items (Pool (State q r f c y (Cancelling (length items) o)) ts w)
        (Pool (State q r f c y (Waiting o)) ts w).

Definition idle : nat → prog B := λ _, Done (Raise OSError).

Definition submitted (items : list A) (w : world) : pool := Pool (submit_all items) idle w.

(** The loop [for item in items: yield work(item)], the workers in turn. *)
Fixpoint serial (ys : list B) (items : list A) (w : world) : (list B * outcome) * world :=
  match items with
  | [] => ((ys, Exhausted), w)
  | item :: items =>
      match denote (code item) w with
      | (Raise e, w) => ((ys, Failed e), w)
      | (Ok y, w) =>
          let w := told (length ys) y w in
          if stop (ys ++ [y]) then ((ys ++ [y], Stopped), w) else serial (ys ++ [y]) items w
      end
  end.

(** [_map_ordered(jobs, items, work)] and the loop that consumes it: from [w] it
    may end with these results, in this way, at [w']. *)
Definition map_ordered (items : list A) (w : world) (r : list B * outcome) (w' : world) : Prop :=
  if (jobs <=? 1) || (length items <=? 1) then serial [] items w = (r, w')
  else ∃ s, rtc (pstep items) (submitted items w) s ∧ closed (base s) r.2 ∧
            yielded (base s) = r.1 ∧ now s = w'.

(** ** The serial run is one of the pool's

    With no assumption on the workers: the pool may also start each worker when
    the one before it is through, and wait. *)

Section schedule.
Context (items : list A).

Lemma thread_runs b ts w i r w' :
  i ∈ running b → denote (ts i) w = (r, w') →
  ∃ ts', rtc (pstep items) (Pool b ts w) (Pool b ts' w') ∧ ts' i = Done r.
Proof.
  intros Hi. remember (ts i) as p eqn:Ep. revert ts w Ep.
  induction p as [r0|X m k IH]; intros ts w Ep.
  - intros [= -> ->]. exists ts. split; [apply rtc_refl|done].
  - cbn. destruct (m w) as [r1 w1] eqn:Em. intros Hd.
    destruct (IH r1 (<[i := k r1]> ts) w1) as (ts' & Hr & Ht); [by rewrite fn_lookup_insert|done|].
    exists ts'. split; [|done]. eapply rtc_l; [by eapply pstep_exec|done].
Qed.

(** [finally]: with nothing running, what is left is cancelled, and the pool
    closes. *)
Lemma cancels q f c ys o ts w k d :
  k + d = length items → Forall (λ i, k ≤ i < length items) q →
  ∃ c', rtc (pstep items) (Pool (State q [] f c ys (Cancelling k o)) ts w)
                          (Pool (State [] [] f c' ys (Waiting o)) ts w).
Proof.
  revert q c k. induction d as [|d IH]; intros q c k Hk Hq.
  - assert (q = []) as -> by (destruct Hq; [done|lia]). exists c. assert (k = length items) as -> by lia.
    apply rtc_once, pstep_shutdown.
  - set (s := State q [] f c ys (Cancelling k o)).
    assert (∃ q' c1, cancel s k o = State q' [] f c1 ys (Cancelling (S k) o) ∧
                     Forall (λ i, S k ≤ i < length items) q') as (q' & c1 & E & Hq').
    { unfold cancel. case_bool_decide as Hin; do 2 eexists; (split; [reflexivity|]); cbn [queue s];
        rewrite list.Forall_forall in Hq |- *; intros i Hi.
      - apply list_elem_of_filter in Hi as [Hne Hi]. specialize (Hq i Hi). lia.
      - specialize (Hq i Hi). assert (i ≠ k) by (intros ->; done). lia. }
    destruct (IH q' c1 (S k)) as (c' & Hr); [lia|done|]. exists c'.
    eapply rtc_l; [apply (pstep_cancel items s k o); [done|lia]|]. by rewrite E.
Qed.

Lemma closes_after f ys o q ts w :
  Forall (λ i, i < length items) q →
  ∃ s, rtc (pstep items) (Pool (State q [] f [] ys (Cancelling 0 o)) ts w) s ∧
       closed (base s) o ∧ yielded (base s) = ys ∧ now s = w.
Proof.
  intros Hq. destruct (cancels q f [] ys o ts w 0 (length items)) as (c & Hr); [done| |].
  - eapply list.Forall_impl; [exact Hq|]. cbn. lia.
  - eexists. by split.
Qed.

Lemma serial_possible rest ys pre ts w r w' :
  0 < jobs → items = pre ++ rest → length ys = length pre → serial ys rest w = (r, w') →
  ∃ s, rtc (pstep items)
         (Pool (State (seq (length pre) (length rest)) [] (seq 0 (length pre)) [] ys Consuming) ts w) s ∧
       closed (base s) r.2 ∧ yielded (base s) = r.1 ∧ now s = w'.
Proof.
  intros Hj. revert ys pre ts w. induction rest as [|a rest IH]; intros ys pre ts w Hi Hl E.
  { cbn in E. injection E as <- <-. rewrite app_nil_r in Hi.
    destruct (closes_after (seq 0 (length pre)) ys Exhausted [] ts w) as (s & Hr & Hs); [constructor|].
    exists s. split; [|done]. eapply rtc_l; [apply pstep_exhaust; by rewrite Hi|done]. }
  assert (items !! length pre = Some a) as Ha by (by rewrite Hi, list_lookup_middle).
  assert (length items = length pre + S (length rest)) as Hlen by (rewrite Hi, length_app; done).
  cbn [serial] in E. destruct (denote (code a) w) as [r1 w1] eqn:Ed.
  set (k := length pre) in *. set (q := seq (S k) (length rest)).
  assert (Forall (λ i, i < length items) q) as Hq.
  { apply list.Forall_forall. intros i Hin%elem_of_seq. lia. }
  destruct (thread_runs (State q [k] (seq 0 k) [] ys Consuming) (<[k := code a]> ts) w k r1 w1)
    as (ts1 & Hrun & Ht1); [apply list_elem_of_here|by rewrite fn_lookup_insert|].
  assert (rtc (pstep items) (Pool (State (seq k (length (a :: rest))) [] (seq 0 k) [] ys Consuming) ts w)
    (Pool (receive stop (State q [] (seq 0 (S k)) [] ys Consuming) r1) ts1 (tell (length ys) r1 w1))) as Hreach.
  { eapply rtc_l; [by apply (pstep_start items q k [] _ _ _ _ _ _ a)|].
    etransitivity; [exact Hrun|]. eapply rtc_l; [eapply (pstep_finish items q [] k []); exact Ht1|].
    rewrite seq_S. cbn [app]. apply rtc_once.
    apply (pstep_yield items (State q [] (seq 0 k ++ [k]) [] ys Consuming) ts1 w1 r1); cbn; rewrite ?Hl; try done; [lia|].
    apply elem_of_app. right. apply list_elem_of_here. }
  destruct r1 as [y|e].
  2: { injection E as <- <-. cbn [receive tell] in Hreach.
       destruct (closes_after (seq 0 (S k)) ys (Failed e) q ts1 w1 Hq) as (s & Hr & Hs).
       exists s. split; [by etransitivity|done]. }
  cbn [receive tell queue running finished cancelled yielded] in Hreach.
  destruct (stop (ys ++ [y])).
  - injection E as <- <-.
    destruct (closes_after (seq 0 (S k)) (ys ++ [y]) Stopped q ts1 (told (length ys) y w1) Hq) as (s & Hr & Hs).
    exists s. split; [by etransitivity|done].
  - destruct (IH (ys ++ [y]) (pre ++ [a]) ts1 (told (length ys) y w1)) as (s & Hr & Hs);
      [by rewrite <-app_assoc|rewrite !length_app; cbn; lia|done|].
    exists s. split; [|done]. etransitivity; [exact Hreach|].
    rewrite length_app, Nat.add_1_r in Hr. exact Hr.
Qed.

Lemma serial_map_ordered w r w' : 0 < jobs → serial [] items w = (r, w') → map_ordered items w r w'.
Proof.
  intros Hj E. unfold map_ordered. destruct (_ || _); [done|].
  destruct (serial_possible items [] [] idle w r w' Hj eq_refl eq_refl E) as (s & Hr & Hs). by exists s.
Qed.
End schedule.

(** ** Every run ends

    Again with no assumption on the workers: a worker is a finite program, so
    the scheduler cannot keep a run going for ever, and it never has to stop
    before the pool is closed. *)

Section termination.
Context (items : list A).

(** A step of a worker. *)
Definition next (p q : prog B) : Prop :=
  match p with Done _ => False | Do m k => ∃ r, q = k r end.
Definition advances (l : list nat) (ts' ts : nat → prog B) : Prop :=
  ∃ i q, i ∈ l ∧ next (ts i) q ∧ ts' = <[i := q]> ts.

(** A step of the pool is a step of a worker, or one of [MapOrdered]'s. *)
Lemma pstep_base s s' :
  pstep items s s' →
  (base s' = base s ∧ advances (running (base s)) (threads s') (threads s)) ∨
  (∃ work, step work jobs stop items (base s) (base s')).
Proof.
  destruct 1 as [q i r f c y m ts w item Hl Hi | b ts w i X m k r w' Hin Ht Hm
                | q r1 i r2 f c y m ts w r Ht | b ts w r Hc Hlt Hin Ht | q r f c y ts w Hl
                | b k o ts w Hk Hlt | q r f c y o ts w]; cbn [base threads].
  2: { left. split; [done|]. exists i, (k r). rewrite Ht. split_and!; [done|by exists r|done]. }
  3: { right. destruct (lookup_lt_is_Some_2 items _ Hlt) as [item Hi]. exists (λ _, r).
       by apply (step_yield (λ _, r) jobs stop items b item). }
  all: right; exists (λ _, Raise OSError); by constructor.
Qed.

(** The workers' steps alone come to an end. *)
Lemma advances_wf l ts : Acc (advances l) ts.
Proof.
  revert ts. induction l as [|i l IH]; intros ts; [constructor; by intros ? (? & ? & ?%elem_of_nil & _)|].
  remember (ts i) as p eqn:Ep. revert ts Ep. induction p as [r|X m k IHp]; intros ts Ep.
  all: induction (IH ts) as [ts _ IHl]; constructor; intros ts' (j & q & Hj & Hq & ->).
  all: destruct (decide (j = i)) as [->|Hne]; [rewrite <-Ep in Hq|].
  2, 4: apply IHl; [exists j, q; split_and!; [set_solver|done..]|by rewrite fn_lookup_insert_ne].
  - done.
  - destruct Hq as [r ->]. apply (IHp r). by rewrite fn_lookup_insert.
Qed.

Lemma pool_terminates s : Acc (λ s' s, pstep items s s') s.
Proof.
  remember (todo items (base s)) as n eqn:En. revert s En. induction (lt_wf n) as [n _ IHn]. intros [b ts w0] ->.
  cbn [base] in IHn. generalize w0 as w. clear w0. induction (advances_wf (running b) ts) as [ts _ IHt]. intros w.
  constructor. intros s' Hs. destruct (pstep_base _ _ Hs) as [[Hb Ha]|[work Hb]]; cbn [base threads] in *.
  - destruct s' as [b' ts' w']. cbn in *. subst b'. by apply IHt.
  - by eapply IHn, eq_refl; eapply step_todo.
Qed.

(** What holds of every state a run reaches. *)
Record sane (s : pool) : Prop := {
  sane_parts : parts items (base s);
  sane_done i : i ∈ finished (base s) → ∃ r, threads s i = Done r;
  sane_mode :
    match mode (base s) with
    | Consuming => cancelled (base s) = [] ∧ length (yielded (base s)) ≤ length items
    | Cancelling k _ => k ≤ length items
    | Waiting _ => True
    end;
}.

Lemma submitted_sane w : sane (submitted items w).
Proof. split; cbn; [unfold parts; cbn; by rewrite app_nil_r|by intros i ?%elem_of_nil|split; [done|lia]]. Qed.

Lemma pstep_sane s s' : pstep items s s' → sane s → sane s'.
Proof.
  intros Hs [Hp Hd Hm].
  assert (parts items (base s')) as Hp'.
  { destruct (pstep_base _ _ Hs) as [[-> _]|[work Hb]]; [done|by eapply step_parts]. }
  pose proof (parts_NoDup _ _ Hp) as Hnd. rewrite !list.NoDup_app in Hnd. destruct Hnd as (_ & Hq & _ & Hr & _).
  destruct Hs as [q i r f c y m ts w item Hl Hi | b ts w i X m k r w' Hin Ht He
                 | q r1 i r2 f c y m ts w r Ht | b ts w r Hc Hlt Hin Ht | q r f c y ts w Hl
                 | b k o ts w Hk Hlt | q r f c y o ts w]; cbn [base threads] in *.
  - split; cbn in *; [done| |done]. intros j Hj. rewrite fn_lookup_insert_ne; [by apply Hd|].
    intros ->. apply (Hq j); [apply list_elem_of_here|]. set_solver.
  - split; cbn; [done| |done]. intros j Hj. rewrite fn_lookup_insert_ne; [by apply Hd|].
    intros ->. apply (Hr j); [done|]. set_solver.
  - split; cbn in *; [done| |done]. intros j [Hj|Hj%list_elem_of_singleton]%elem_of_app; [by apply Hd|].
    subst j. by exists r.
  - rewrite Hc in Hm. destruct Hm as [Hcan Hle]. unfold receive in *. destruct r as [y|e].
    + split; cbn in *; [done..|]. destruct (stop _); [lia|]. rewrite length_app. cbn. split; [done|lia].
    + split; cbn in *; [done..|lia].
  - split; cbn in *; [done..|lia].
  - unfold cancel in *. case_bool_decide; split; cbn in *; try done; lia.
  - by split.
Qed.

Lemma psteps_sane s s' : rtc (pstep items) s s' → sane s → sane s'.
Proof. induction 1; eauto using pstep_sane. Qed.

Lemma pool_progress s : 0 < jobs → sane s → (∃ s', pstep items s s') ∨ ∃ o, closed (base s) o.
Proof.
  intros Hj [Hp Hd Hm]. destruct s as [[q r f c y m] ts w]. unfold parts in Hp. cbn in *.
  destruct r as [|i r].
  2: { left. destruct (ts i) as [r0|X m0 k] eqn:Et.
       - eexists. by apply (pstep_finish items q [] i r f c y m ts w r0).
       - destruct (m0 w) as [r0 w'] eqn:Em. eexists. eapply pstep_exec; [apply list_elem_of_here|done|done]. }
  destruct q as [|i q].
  2: { left. assert (i ∈ seq 0 (length items)) as [_ Hi]%elem_of_seq by (rewrite <-Hp; apply list_elem_of_here).
       destruct (lookup_lt_is_Some_2 items i Hi) as [item Hitem]. eexists. by eapply pstep_start. }
  destruct m as [|k o|o]; [| |right; by exists o]; left.
  - destruct Hm as [-> Hle]. destruct (decide (length y = length items)) as [He|Hne]; [eexists; by apply pstep_exhaust|].
    assert (length y ∈ f) as Hf.
    { assert (length y ∈ [] ++ [] ++ f ++ []) as Hin by (rewrite Hp; apply elem_of_seq; lia).
      by rewrite app_nil_r in Hin. }
    destruct (Hd _ Hf) as [r0 Hr0]. eexists. apply pstep_yield; cbn; [done|lia|done..].
  - destruct (decide (k = length items)) as [->|]; [eexists; apply pstep_shutdown|].
    eexists. eapply pstep_cancel; [done|lia].
Qed.

Lemma pool_ends s :
  0 < jobs → sane s → ∃ s' o, rtc (pstep items) s s' ∧ closed (base s') o.
Proof.
  intros Hj. induction (pool_terminates s) as [s _ IH]. intros Hs.
  destruct (pool_progress s Hj Hs) as [[s1 H1]|[o Ho]]; [|by exists s, o].
  destruct (IH s1 H1 (pstep_sane _ _ H1 Hs)) as (s' & o & Hr & Ho).
  exists s', o. split; [by eapply rtc_l|done].
Qed.
End termination.

(** ** What the results stand for

    With no assumption on what the workers can tell of each other: whatever each
    worker pledges of its result, from any worlds its steps may meet, the pool
    delivers. *)

Section pledged.
Context (Q : A → res B → world → Prop) (w0 : world) (items : list A).
Hypothesis Q_grows : ∀ a r w w', grows w w' → Q a r w → Q a r w'.
Hypothesis code_adds : ∀ a, a ∈ items → all_steps (λ _ m, only silent m) (code a).
Hypothesis code_pledges : ∀ a w, a ∈ items → grows w0 w → pledges (Q a) (code a) w.

(** How a run may end. *)
Definition ended (ys : list B) (o : outcome) (w : world) : Prop :=
  match o with
  | Exhausted => length ys = length items
  | Stopped => stop ys = true
  | Failed e => ∃ a, a ∈ items ∧ Q a (Raise e) w
  end.

Lemma ended_grows ys o w w' : grows w w' → ended ys o w → ended ys o w'.
Proof. intros Hg. destruct o as [| |e]; [done..|]. intros (a & Ha & HQ). exists a. eauto. Qed.

(** The loop went on after every result but, perhaps, the last. *)
Definition went_on (ys : list B) : Prop := ∀ k, 0 < k < length ys → stop (take k ys) = false.

Lemma went_on_snoc ys y : went_on ys → (ys ≠ [] → stop ys = false) → went_on (ys ++ [y]).
Proof.
  intros Hw Hs k. rewrite length_app. cbn. intros Hk. rewrite take_app_le by lia.
  destruct (decide (k = length ys)) as [->|]; [|apply Hw; lia].
  rewrite take_ge by done. apply Hs. intros ->. cbn in Hk. lia.
Qed.

Record pays (s : pool) : Prop := {
  pays_now : ∃ l, w_log (now s) = w_log w0 ++ l ∧ says l = concat (imap say (yielded (base s)));
  pays_live i : i ∈ running (base s) ++ finished (base s) →
    ∃ a, items !! i = Some a ∧ all_steps (λ _ m, only silent m) (threads s i) ∧
         pledges (Q a) (threads s i) (now s);
  pays_yielded k b : yielded (base s) !! k = Some b → ∃ a, items !! k = Some a ∧ Q a (Ok b) (now s);
  pays_end o : mode (base s) = Waiting o ∨ (∃ k, mode (base s) = Cancelling k o) →
    ended (yielded (base s)) o (now s);
  pays_going : went_on (yielded (base s)) ∧
    (mode (base s) = Consuming → yielded (base s) ≠ [] → stop (yielded (base s)) = false);
}.

Lemma pays_grows s : pays s → grows w0 (now s).
Proof. intros [(l & Hl & _) _ _ _ _]. by exists l. Qed.

Lemma submitted_pays : pays (submitted items w0).
Proof.
  split; cbn; [exists []; by rewrite app_nil_r|by intros i ?%elem_of_nil|done| |].
  - by intros o [?|[? ?]].
  - split; [|done]. intros k Hk. cbn in Hk. lia.
Qed.

(** Another worker's step, or the consumer's: what is pledged stays so. *)
Lemma live_grows i a p w w' :
  grows w w' →
  items !! i = Some a ∧ all_steps (λ _ m, only silent m) p ∧ pledges (Q a) p w →
  items !! i = Some a ∧ all_steps (λ _ m, only silent m) p ∧ pledges (Q a) p w'.
Proof.
  intros Hg (Hi & Hs & Hp). split_and!; [done..|].
  eapply (pledges_grows (Q a)); [intros; by eapply Q_grows|exact Hg|done].
Qed.

Lemma told_grows n b w : grows w (told n b w).
Proof. by eexists. Qed.

Lemma exec_pays b ts w i X (m : M X) k r w' :
  i ∈ running b → ts i = Do m k → m w = (r, w') →
  pays (Pool b ts w) → pays (Pool b (<[i := k r]> ts) w').
Proof.
  intros Hin Ht Hm [Hn Hl Hy Ha Hgo]. cbn [base threads now] in *.
  destruct (Hl i) as (a & Hi & Hsteps & Hpl); [set_solver|]. rewrite Ht in Hsteps, Hpl.
  destruct Hsteps as [Hm1 Hk]. cbn in Hpl. specialize (Hpl w (grows_refl w)).
  destruct (Hm1 w) as (l1 & El1 & Hl1). rewrite Hm in Hpl, El1. cbn in Hpl, El1.
  assert (grows w w') as Hw by (by exists l1).
  split; cbn.
  - destruct Hn as (l & El & Hsay). exists (l ++ l1). rewrite El1, El, <-app_assoc.
    split; [done|]. by rewrite says_app, (says_silent l1), app_nil_r.
  - intros j Hj. destruct (decide (j = i)) as [->|Hne]; [exists a; by rewrite fn_lookup_insert|].
    rewrite fn_lookup_insert_ne by done. destruct (Hl j Hj) as (a' & Hlive). exists a'. by eapply live_grows.
  - intros n b' Hb. destruct (Hy n b' Hb) as (a' & Hi' & HQ). exists a'. eauto.
  - intros o Ho. eapply ended_grows; [exact Hw|by apply Ha].
  - exact Hgo.
Qed.

(** What the consumer has been told, after one more result. *)
Lemma told_so_far n ys y w1 :
  n = length ys → (∃ l, w_log w1 = w_log w0 ++ l ∧ says l = concat (imap say ys)) →
  ∃ l, w_log (told n y w1) = w_log w0 ++ l ∧ says l = concat (imap say (ys ++ [y])).
Proof.
  intros -> (l & El & Hl). exists (l ++ (Print <$> say (length ys) y)). cbn.
  rewrite El, <-app_assoc. split; [done|].
  rewrite says_app, says_prints, Hl, imap_app, concat_app. cbn. by rewrite app_nil_r, Nat.add_0_r.
Qed.

(** The results, after one more as pledged. *)
Lemma yielded_snoc (ys : list B) y a w w' :
  items !! length ys = Some a → grows w w' → Q a (Ok y) w' →
  (∀ k b, ys !! k = Some b → ∃ a, items !! k = Some a ∧ Q a (Ok b) w) →
  ∀ k b, (ys ++ [y]) !! k = Some b → ∃ a, items !! k = Some a ∧ Q a (Ok b) w'.
Proof.
  intros Ha Hw HQ Hy k b [[_ Hk]|[-> <-]]%lookup_snoc_Some; [|by exists a].
  destruct (Hy k b Hk) as (a' & Hi' & HQ'). exists a'. eauto.
Qed.

Lemma yield_pays b ts w r :
  mode b = Consuming → length (yielded b) ∈ finished b → ts (length (yielded b)) = Done r →
  pays (Pool b ts w) → pays (Pool (receive stop b r) ts (tell (length (yielded b)) r w)).
Proof.
  intros Hc Hin Ht Hp. pose proof (pays_grows _ Hp) as Hg. destruct Hp as [Hn Hl Hy Ha Hgo].
  cbn [base threads now] in *.
  destruct (Hl (length (yielded b))) as (a & Hi & _ & Hpl); [set_solver|]. rewrite Ht in Hpl.
  unfold receive. destruct r as [y|e]; cbn [tell].
  - pose proof (told_grows (length (yielded b)) y w) as Hw. cbn in Hpl.
    split; cbn [base threads now yielded running finished mode].
    + by apply told_so_far.
    + intros j Hj. destruct (Hl j Hj) as (a' & Hlive). exists a'. by eapply live_grows.
    + eapply yielded_snoc; [done|exact Hw|by eapply Q_grows|done].
    + intros o Hm. destruct (stop (yielded b ++ [y])) eqn:Es; destruct Hm as [|[k [= _ <-]]]; done.
    + split; [by apply went_on_snoc; apply Hgo|]. intros Hm _. by destruct (stop (yielded b ++ [y])).
  - split; cbn; [done|done|done| |split; [apply Hgo|done]]. intros o [?|[k [= _ <-]]]; [done|]. exists a.
    split; [by eapply list_elem_of_lookup_2|done].
Qed.

Lemma pstep_pays s s' : pstep items s s' → pays s → pays s'.
Proof.
  intros Hs Hp. pose proof (pays_grows _ Hp) as Hg. pose proof Hp as [Hn Hl Hy Ha Hgo].
  destruct Hs as [q i r f c y m ts w item Hlt Hi | b ts w i X m k r w' Hin Ht Hm
                 | q r1 i r2 f c y m ts w r Ht | b ts w r Hc Hlt Hin Ht | q r f c y ts w Hlen
                 | b k o ts w Hk Hlt | q r f c y o ts w]; cbn [base threads now] in *.
  - split; cbn in *; [done| |done..]. intros j Hj. destruct (decide (j = i)) as [->|Hne].
    + exists item. rewrite fn_lookup_insert. pose proof (list_elem_of_lookup_2 _ _ _ Hi).
      split_and!; [done|by apply code_adds|by apply code_pledges].
    + rewrite fn_lookup_insert_ne by done. apply Hl. set_solver.
  - by eapply exec_pays.
  - split; cbn in *; [done| |done..]. intros j Hj. apply Hl. set_solver.
  - by apply yield_pays.
  - split; cbn in *; [done|done|done| |split; [apply Hgo|done]]. by intros o [?|[k [= _ <-]]].
  - assert (yielded (cancel b k o) = yielded b ∧ running (cancel b k o) = running b ∧
            finished (cancel b k o) = finished b ∧ mode (cancel b k o) = Cancelling (S k) o) as (E1 & E2 & E3 & E4).
    { unfold cancel. by case_bool_decide. }
    split; cbn [base threads now]; rewrite ?E1, ?E2, ?E3, ?E4; [done..| |split; [apply Hgo|done]].
    intros o' [?|[? [= _ <-]]]; [done|]. apply Ha. right. by exists k.
  - split; cbn in *; [done|done|done| |split; [apply Hgo|done]].
    intros o' [[= <-]|[? ?]]; [|done]. apply Ha. right. by eexists.
Qed.

Lemma serial_pays ys pre rest w r w' :
  items = pre ++ rest → grows w0 w → length ys = length pre → serial ys rest w = (r, w') →
  (∀ k b, ys !! k = Some b → ∃ a, items !! k = Some a ∧ Q a (Ok b) w) →
  (∃ l, w_log w = w_log w0 ++ l ∧ says l = concat (imap say ys)) →
  went_on ys → (ys ≠ [] → stop ys = false) →
  (∃ l, w_log w' = w_log w0 ++ l ∧ says l = concat (imap say r.1)) ∧
  (∀ k b, r.1 !! k = Some b → ∃ a, items !! k = Some a ∧ Q a (Ok b) w') ∧
  ended r.1 r.2 w' ∧ went_on r.1.
Proof.
  revert ys pre w. induction rest as [|a rest IH]; intros ys pre w Hi Hg Hlen E Hys Hlog Hgo Hon.
  { cbn in E. injection E as <- <-. cbn. split_and!; [done|done| |done].
    by rewrite Hi, length_app, Nat.add_0_r. }
  cbn in E. assert (a ∈ items) as Ha by (rewrite Hi; set_solver).
  assert (items !! length ys = Some a) as Hia by (by rewrite Hi, Hlen, list_lookup_middle).
  pose proof (denote_pledges (Q a) _ w (code_pledges a w Ha Hg)) as Hp.
  destruct (denote_adds silent _ (code_adds a Ha) w) as (l1 & El1 & Hl1).
  destruct (denote (code a) w) as [[y|e] w1]; cbn [fst snd] in *.
  2: { injection E as <- <-. cbn. destruct Hlog as (l & El & Hl). split_and!; [|intros k b Hb|by exists a|done].
       - exists (l ++ l1). rewrite El1, El, <-app_assoc. split; [done|]. by rewrite says_app, (says_silent l1), app_nil_r.
       - destruct (Hys k b Hb) as (a' & Hk & HQ). exists a'. split; [done|]. eapply Q_grows, HQ. by exists l1. }
  assert (grows w w1) as Hw1 by (by exists l1). pose proof (told_grows (length ys) y w1) as Hw2.
  set (w2 := told (length ys) y w1) in *.
  assert (∀ k b, (ys ++ [y]) !! k = Some b → ∃ a, items !! k = Some a ∧ Q a (Ok b) w2) as Hys'
    by (eapply (yielded_snoc _ _ _ w); [done|by eapply grows_trans|by eapply Q_grows|done]).
  assert (∃ l, w_log w2 = w_log w0 ++ l ∧ says l = concat (imap say (ys ++ [y]))) as Hlog'.
  { apply told_so_far; [done|]. destruct Hlog as (l & El & Hl). exists (l ++ l1).
    rewrite El1, El, <-app_assoc. split; [done|]. by rewrite says_app, (says_silent l1), app_nil_r. }
  pose proof (went_on_snoc ys y Hgo Hon) as Hgo'.
  destruct (stop (ys ++ [y])) eqn:Es.
  - injection E as <- <-. cbn. done.
  - apply (IH (ys ++ [y]) (pre ++ [a]) w2); try done.
    + by rewrite <-app_assoc.
    + by do 2 (eapply grows_trans; [|eassumption]).
    + rewrite !length_app. cbn. lia.
Qed.

(** What the consumer was told, and that every result is as pledged. *)
Lemma map_ordered_pays r w' :
  map_ordered items w0 r w' →
  (∃ l, w_log w' = w_log w0 ++ l ∧ says l = concat (imap say r.1)) ∧
  (∀ k b, r.1 !! k = Some b → ∃ a, items !! k = Some a ∧ Q a (Ok b) w') ∧
  ended r.1 r.2 w' ∧ went_on r.1.
Proof.
  unfold map_ordered. destruct (_ || _).
  - intros E. eapply (serial_pays [] [] items w0); try done.
    + apply grows_refl.
    + exists []. by rewrite app_nil_r.
    + intros k Hk. cbn in Hk. lia.
  - intros (s & Hs & (Hc & _ & _) & Hy & Hw).
    assert (pays s) as [Hn _ Hyd Ha [Hgo _]].
    { remember (submitted items w0) as s0 eqn:E0. assert (pays s0) as H0 by (subst; apply submitted_pays).
      clear E0. induction Hs as [|s1 s2 s3 H12 _ IH]; [done|]. eauto using pstep_pays. }
    rewrite <-Hy, <-Hw. split_and!; [done..| |done]. apply Ha. by left.
Qed.
End pledged.

(** ** What the workers and the consumer do *)

Section performed.
Context (P : action → Prop) (items : list A).
Hypothesis code_only : ∀ a, a ∈ items → all_steps (λ _ m, only P m) (code a).
Hypothesis told_only : ∀ line, P (Print line).

(** Every action since [w] satisfies [P]. *)
Definition performed (w w' : world) : Prop := ∃ l, w_log w' = w_log w ++ l ∧ Forall P l.

Lemma performed_refl w : performed w w.
Proof. exists []. by rewrite app_nil_r. Qed.

Lemma performed_trans w1 w2 w3 : performed w1 w2 → performed w2 w3 → performed w1 w3.
Proof. intros (l1 & E1 & H1) (l2 & E2 & H2). exists (l1 ++ l2). rewrite E2, E1, <-app_assoc. split; [done|by apply Forall_app]. Qed.

Lemma performed_tell n r w : performed w (tell n r w).
Proof.
  destruct r as [y|e]; [|apply performed_refl]. exists (Print <$> say n y). split; [done|].
  apply Forall_fmap, list.Forall_forall. intros line _. apply told_only.
Qed.

Lemma pstep_performed w0 s s' :
  pstep items s s' → performed w0 (now s) ∧ (∀ i, i ∈ running (base s) → all_steps (λ _ m, only P m) (threads s i)) →
  performed w0 (now s') ∧ (∀ i, i ∈ running (base s') → all_steps (λ _ m, only P m) (threads s' i)).
Proof.
  intros Hs [Hn Hr].
  destruct Hs as [q i r f c y m ts w item Hlt Hi | b ts w i X m k r w' Hin Ht Hm
                 | q r1 i r2 f c y m ts w r Ht | b ts w r Hc Hlt Hin Ht | q r f c y ts w Hlen
                 | b k o ts w Hk Hlt | q r f c y o ts w]; cbn [base threads now running] in *.
  - split; [done|]. intros j Hj. destruct (decide (j = i)) as [->|Hne].
    + rewrite fn_lookup_insert. by apply code_only, list_elem_of_lookup_2 with i.
    + rewrite fn_lookup_insert_ne by done. apply Hr. set_solver.
  - pose proof (Hr i Hin) as Hsteps. rewrite Ht in Hsteps. destruct Hsteps as [Hm1 Hk]. split.
    + eapply performed_trans; [exact Hn|]. specialize (Hm1 w). by rewrite Hm in Hm1.
    + intros j Hj. destruct (decide (j = i)) as [->|Hne]; [by rewrite fn_lookup_insert|].
      rewrite fn_lookup_insert_ne by done. by apply Hr.
  - split; [done|]. intros j Hj. apply Hr. set_solver.
  - split; [eapply performed_trans; [exact Hn|apply performed_tell]|].
    assert (running (receive stop b r) = running b) as -> by (unfold receive; by destruct r). done.
  - done.
  - assert (running (cancel b k o) = running b) as -> by (unfold cancel; by case_bool_decide). done.
  - done.
Qed.

Lemma serial_performed ys rest w :
  (∀ a, a ∈ rest → a ∈ items) → performed w (serial ys rest w).2.
Proof.
  revert ys w. induction rest as [|a rest IH]; intros ys w Hin; [apply performed_refl|]. cbn [serial].
  pose proof (denote_adds P (code a) (code_only a (Hin a (list_elem_of_here _ _))) w) as Hd.
  destruct (denote (code a) w) as [[y|e] w1]; cbn in Hd; [|exact Hd].
  pose proof (performed_tell (length ys) (Ok y) w1) as Ht. cbn [tell] in Ht.
  assert (performed w (told (length ys) y w1)) as Hw by (eapply performed_trans; [exact Hd|exact Ht]).
  destruct (stop (ys ++ [y])); [exact Hw|]. eapply performed_trans; [exact Hw|].
  apply IH. intros b Hb. by apply Hin, list_elem_of_further.
Qed.

Lemma map_ordered_performed w r w' : map_ordered items w r w' → performed w w'.
Proof.
  unfold map_ordered. destruct (_ || _).
  - intros E. pose proof (serial_performed [] items w (λ _ H, H)) as Hs. by rewrite E in Hs.
  - intros (s & Hs & _ & _ & <-).
    assert (performed w (now s) ∧ (∀ i, i ∈ running (base s) → all_steps (λ _ m, only P m) (threads s i))) as [? _];
      [|done].
    remember (submitted items w) as s0 eqn:E0.
    assert (performed w (now s0) ∧ (∀ i, i ∈ running (base s0) → all_steps (λ _ m, only P m) (threads s0 i))) as H0.
    { subst s0. cbn. split; [apply performed_refl|by intros i ?%elem_of_nil]. }
    clear E0. induction Hs as [|s1 s2 s3 H12 _ IH]; [done|]. eauto using pstep_performed.
Qed.
End performed.

(** ** The simulation *)

Context (inv : host → Prop) (alike : nat → host → host → Prop) `{Heq : !∀ i, Equivalence (alike i)}.
Context (items : list A).
Hypothesis code_local : ∀ i item, items !! i = Some item → all_steps (local inv alike i) (code item).

(** What each worker makes of its item when it starts from [w]. *)
Definition solo (w : world) (item : A) : res B := (denote (code item) w).1.

(** The worker [i] is on its way from [w0] to its result. *)
Definition on_course (w0 : world) (s : pool) (i : nat) : Prop :=
  ∃ item, items !! i = Some item ∧ all_steps (local inv alike i) (threads s i) ∧
          (denote (threads s i) (now s)).1 = solo w0 item.

Record tracks (w0 : world) (s : pool) : Prop := {
  tracks_wf : wf (solo w0) jobs stop items (base s);
  tracks_queue i : i ∈ queue (base s) → alike i (w_host w0) (w_host (now s));
  tracks_running i : i ∈ running (base s) → on_course w0 s i;
  tracks_finished i : i ∈ finished (base s) →
    ∃ item, items !! i = Some item ∧ threads s i = Done (solo w0 item);
  tracks_start : inv (w_host w0);
  tracks_inv : inv (w_host (now s));
}.

Lemma code_own w1 w2 i item :
  items !! i = Some item → inv (w_host w1) → inv (w_host w2) → alike i (w_host w1) (w_host w2) →
  solo w1 item = solo w2 item.
Proof. intros Hi H1 H2 Ha. by apply (denote_own inv alike i); [apply code_local|..]. Qed.

Lemma on_course_step w0 s s' i :
  threads s' i = threads s i → inv (w_host (now s)) → inv (w_host (now s')) →
  alike i (w_host (now s)) (w_host (now s')) → on_course w0 s i → on_course w0 s' i.
Proof.
  intros Ht H1 H2 Ha (item & Hi & Hl & Hr). exists item. rewrite Ht. split_and!; [done..|].
  rewrite <-Hr. symmetry. by apply (denote_own inv alike i).
Qed.

Lemma submitted_tracks w0 : inv (w_host w0) → tracks w0 (submitted items w0).
Proof. intros Hw. split; cbn; [apply submit_wf|done|by intros i ?%elem_of_nil..|done|done]. Qed.

(** Where a future is, it is nowhere else. *)
Lemma apart s w0 i :
  wf (solo w0) jobs stop items s →
  (i ∈ queue s → (i ∉ running s) ∧ (i ∉ finished s)) ∧ (i ∈ running s → i ∉ finished s).
Proof.
  intros Hwf%wf_NoDup. rewrite !list.NoDup_app in Hwf.
  destruct Hwf as (_ & Hq & _ & Hr & _).
  split; intros Hi; [apply Hq in Hi|apply Hr in Hi]; rewrite !elem_of_app in Hi; tauto.
Qed.

(** A step that moves no thread and no file leaves the workers on their way. *)
Lemma tracks_apart w0 s s' :
  tracks w0 s → wf (solo w0) jobs stop items (base s') →
  threads s' = threads s → w_host (now s') = w_host (now s) →
  queue (base s') ⊆ queue (base s) → running (base s') ⊆ running (base s) →
  finished (base s') = finished (base s) → tracks w0 s'.
Proof.
  intros [_ Hq Hr Hf H0 Hn] Hwf Ht Hw Eq Er Ef. split; [done| | | |done|by rewrite Hw].
  - intros i Hi. rewrite Hw. by apply Hq, Eq.
  - intros i Hi. apply (on_course_step w0 s); [by rewrite Ht|done|by rewrite Hw|by rewrite Hw|by apply Hr, Er].
  - intros i Hi. rewrite Ht. apply Hf. by rewrite <-Ef.
Qed.

Lemma receive_parts b r :
  queue (receive stop b r) = queue b ∧ running (receive stop b r) = running b ∧
  finished (receive stop b r) = finished b.
Proof. unfold receive. by destruct r. Qed.

Lemma cancel_leaves (b : state (B:=B)) k o :
  queue (cancel b k o) ⊆ queue b ∧ running (cancel b k o) = running b ∧
  finished (cancel b k o) = finished b.
Proof.
  unfold cancel. case_bool_decide; cbn; [|done]. split; [|done].
  intros j Hj. by apply list_elem_of_filter in Hj as [_ ?].
Qed.

(** A worker that starts finds what it would have found at the beginning. *)
Lemma start_tracks w0 q i r f c y m ts w item :
  items !! i = Some item → tracks w0 (Pool (State (i :: q) r f c y m) ts w) →
  wf (solo w0) jobs stop items (State q (r ++ [i]) f c y m) →
  tracks w0 (Pool (State q (r ++ [i]) f c y m) (<[i := code item]> ts) w).
Proof.
  intros Hi [Hwf Hq Hr Hf H0 Hn] Hwf'.
  destruct (proj1 (apart _ w0 i Hwf)) as [Hir Hif]; [apply list_elem_of_here|]. cbn in Hir, Hif.
  split; cbn in *; [done| | | |done|done].
  - intros j Hj. by apply Hq, list_elem_of_further.
  - intros j [Hj|Hj%list_elem_of_singleton]%elem_of_app; [|subst j].
    + eapply on_course_step; [| | | |by apply Hr]; [|exact Hn|exact Hn|done]. cbn.
      by rewrite fn_lookup_insert_ne by (by intros ->).
    + exists item. cbn. rewrite fn_lookup_insert. split_and!; [done|by apply code_local|].
      symmetry. apply code_own with i; try done. by apply Hq, list_elem_of_here.
  - intros j Hj. rewrite fn_lookup_insert_ne by (by intros ->). by apply Hf.
Qed.

(** A worker's step takes it on and leaves the others where they were. *)
Lemma exec_tracks w0 b ts w i X (m : M X) k r w' :
  i ∈ running b → ts i = Do m k → m w = (r, w') → tracks w0 (Pool b ts w) →
  tracks w0 (Pool b (<[i := k r]> ts) w').
Proof.
  intros Hin Ht Hm [Hwf Hq Hr Hf H0 Hn]. pose proof (λ i, apart b w0 i Hwf) as Hap. cbn in Hn.
  destruct (Hr i Hin) as (item & Hi & Hl & Hd). cbn in Hl, Hd. rewrite Ht in Hl, Hd. destruct Hl as [Hm' Hk].
  cbn in Hd. rewrite Hm in Hd.
  assert (∀ j, j ≠ i → alike j (w_host w) (w_host w')) as Hfr.
  { intros j Hj. pose proof (local_frame _ _ _ _ _ Hm' j w Hn Hj) as H. by rewrite Hm in H. }
  assert (inv (w_host w')) as Hn' by (pose proof (local_inv _ _ _ _ _ Hm' w Hn) as H; by rewrite Hm in H).
  split; cbn; [done| | | |done|done].
  - intros j Hj. etransitivity; [by apply Hq|]. apply Hfr. intros ->. by apply Hap in Hj as [? _].
  - intros j Hj. destruct (decide (j = i)) as [->|Hne].
    + exists item. cbn. rewrite fn_lookup_insert. split_and!; [done|apply Hk|done].
    + eapply on_course_step; [| | | |by apply Hr]; [|exact Hn|exact Hn'|by apply Hfr]. cbn. by rewrite fn_lookup_insert_ne.
  - intros j Hj. rewrite fn_lookup_insert_ne; [by apply Hf|]. intros ->. by apply Hap in Hin.
Qed.

(** A worker that is done has the result of the item alone. *)
Lemma finish_tracks w0 q r1 i r2 f c y m ts w r :
  ts i = Done r → tracks w0 (Pool (State q (r1 ++ i :: r2) f c y m) ts w) →
  wf (solo w0) jobs stop items (State q (r1 ++ r2) (f ++ [i]) c y m) →
  tracks w0 (Pool (State q (r1 ++ r2) (f ++ [i]) c y m) ts w).
Proof.
  intros Ht [Hwf Hq Hr Hf H0 Hn] Hwf'. split; cbn in *; [done|done| | |done|done].
  - intros j Hj. eapply on_course_step; [| | | |apply Hr; set_solver]; [done|exact Hn|exact Hn|done].
  - intros j [Hj|Hj%list_elem_of_singleton]%elem_of_app; [by apply Hf|subst j].
    destruct (Hr i) as (item & Hi & _ & Hd); [set_solver|]. exists item. cbn in Hd. rewrite Ht in Hd |- *.
    cbn in Hd. by subst r.
Qed.

(** Every step of the pool is one of [MapOrdered]'s, for workers that answer what
    they answer alone, or it is invisible there. *)
Lemma pstep_simulation w0 s s' :
  pstep items s s' → tracks w0 s →
  rtc (step (solo w0) jobs stop items) (base s) (base s') ∧ tracks w0 s'.
Proof.
  intros Hs T. pose proof (tracks_wf _ _ T) as Hwf.
  assert (∀ b, step (solo w0) jobs stop items (base s) b →
            rtc (step (solo w0) jobs stop items) (base s) b ∧ wf (solo w0) jobs stop items b) as Hstep.
  { intros b Hb. split; [by eapply rtc_l|by eapply step_wf]. }
  destruct Hs as [q i r f c y m ts w item Hl Hi | b ts w i X m k r w' Hin Ht Hm
                 | q r1 i r2 f c y m ts w r Ht | b ts w r Hc Hlt Hin Ht | q r f c y ts w Hl
                 | b k o ts w Hk Hlt | q r f c y o ts w]; cbn [base threads now] in *.
  - destruct (Hstep _ (step_start (solo w0) jobs stop items q i r f c y m Hl)) as [Hb Hwf'].
    split; [exact Hb|by eapply start_tracks].
  - split; [apply rtc_refl|by eapply exec_tracks].
  - destruct (Hstep _ (step_finish (solo w0) jobs stop items q r1 i r2 f c y m)) as [Hb Hwf'].
    split; [exact Hb|by eapply finish_tracks].
  - destruct (tracks_finished _ _ T _ Hin) as (item & Hi & Hd). cbn in Hd. rewrite Ht in Hd. injection Hd as ->.
    destruct (Hstep _ (step_yield (solo w0) jobs stop items b item Hc Hi Hin)) as [Hb Hwf'].
    destruct (receive_parts b (solo w0 item)) as (E1 & E2 & E3).
    split; [exact Hb|]. eapply tracks_apart; [exact T|exact Hwf'|done|apply w_host_tell|..]; cbn [base];
      by rewrite ?E1, ?E2.
  - destruct (Hstep _ (step_exhaust (solo w0) jobs stop items q r f c y Hl)) as [Hb Hwf'].
    split; [exact Hb|by eapply tracks_apart].
  - destruct (Hstep _ (step_cancel (solo w0) jobs stop items b k o Hk Hlt)) as [Hb Hwf'].
    destruct (cancel_leaves b k o) as (E1 & E2 & E3).
    split; [exact Hb|]. eapply tracks_apart; [exact T|exact Hwf'|done|done|..]; cbn [base]; by rewrite ?E2.
  - destruct (Hstep _ (step_shutdown (solo w0) jobs stop items q r f c y o)) as [Hb Hwf'].
    split; [exact Hb|by eapply tracks_apart].
Qed.

Lemma psteps_simulation w0 s s' :
  rtc (pstep items) s s' → tracks w0 s →
  rtc (step (solo w0) jobs stop items) (base s) (base s') ∧ tracks w0 s'.
Proof.
  induction 1 as [s|s1 s2 s3 Hs _ IH]; intros Ht; [split; [apply rtc_refl|done]|].
  apply (pstep_simulation w0) in Hs as [H1 H2]; [|done].
  destruct (IH H2) as [H3 H4]. split; [by etransitivity|done].
Qed.

(** The workers in turn answer what each answers alone. *)
Lemma serial_inline w0 ys pre rest w :
  inv (w_host w0) → inv (w_host w) →
  items = pre ++ rest → (∀ i, length pre ≤ i → alike i (w_host w0) (w_host w)) →
  (serial ys rest w).1 = inline (solo w0) stop ys rest.
Proof.
  intros H0. revert ys pre w. induction rest as [|item rest IH]; intros ys pre w Hw Hi Ha; [done|].
  assert (items !! length pre = Some item) as Hit by (by rewrite Hi, list_lookup_middle).
  cbn. rewrite (code_own w0 w (length pre) item Hit H0 Hw) by (apply Ha; lia). unfold solo.
  pose proof (λ j, denote_frame inv alike (length pre) j (code item) w (code_local _ _ Hit) Hw) as Hfr.
  pose proof (denote_inv inv alike (length pre) (code item) w (code_local _ _ Hit) Hw) as Hw1.
  destruct (denote (code item) w) as [[y|e] w1]; [|done]. cbn in *.
  destruct (stop (ys ++ [y])); [done|]. apply (IH _ (pre ++ [item])); [done| |].
  - by rewrite <-app_assoc.
  - rewrite length_app. cbn. intros i Hle. etransitivity; [apply Ha; lia|]. apply Hfr. lia.
Qed.

(** However the workers' steps interleave, a closed pool has yielded what the
    loop yields, and ended as it ends. *)
Lemma closed_serial w0 s o :
  inv (w_host w0) → rtc (pstep items) (submitted items w0) s → closed (base s) o →
  (serial [] items w0).1 = (yielded (base s), o).
Proof.
  intros H0 Hr Hc. apply (psteps_simulation w0) in Hr as [_ [Hwf _ _ _ _ _]]; [|by apply submitted_tracks].
  rewrite (serial_inline w0 [] [] items w0) by done. by apply (closed_inline _ _ _ _ _ _ Hwf).
Qed.

Lemma map_ordered_serial w0 r w' : inv (w_host w0) → map_ordered items w0 r w' → (serial [] items w0).1 = r.
Proof.
  intros H0. unfold map_ordered. destruct (_ || _); [by intros ->|].
  intros (s & Hs & Hc & Hy & _). rewrite (closed_serial w0 s r.2 H0 Hs Hc), Hy. by destruct r.
Qed.

End pool.

(** ** Properties *)

(** C6. Every run of the pool ends, whatever its workers are and whoever is
    scheduled next: from any state a run reaches there is no infinite
    continuation; a state that cannot go on is closed; and so some continuation
    ends closed.  No result waits for a worker that waits for it. *)
Theorem every_run_ends `{Hst : Host} {A B : Type} (code : A → prog B) (jobs : nat) (stop : list B → bool)
    (say : nat → B → list string) (items : list A) (w : world) (s : pool) :
  0 < jobs → rtc (pstep code jobs stop say items) (submitted items w) s →
  Acc (λ s' s, pstep code jobs stop say items s s') s ∧
  ((∃ s', pstep code jobs stop say items s s') ∨ ∃ o, closed (base s) o) ∧
  ∃ s' o, rtc (pstep code jobs stop say items) s s' ∧ closed (base s') o.
Proof.
  intros Hj Hs. assert (sane items s) as Hsane by (eapply psteps_sane, submitted_sane; exact Hs).
  split_and!; [apply pool_terminates|by apply pool_progress|by apply pool_ends].
Qed.

End Threads.
