(* ===== verification/Difflib.v ===== *)
(** * difflib.get_close_matches

    The suggestion the harness makes for an unknown case name, as the Python
    standard library computes it on short strings: the ratio of matched
    characters, by recursion around the longest common block, the cutoff 0.6
    and the three best.  Ratios are compared as fractions. *)

From Stdlib Require Import Ascii.
From S2P Require Import Prelude PyStr.
From stdpp Require Import base list strings numbers option.

Open Scope nat_scope.

Module Difflib.

(** The length of the common block at the start of two strings. *)
Fixpoint common (a b : string) : nat :=
  match a, b with
  | String x a, String y b => if Ascii.eqb x y then S (common a b) else 0
  | _, _ => 0
  end.

Record block := Block { b_i : nat; b_j : nat; b_size : nat }.

(** The better of two blocks: the longer, else the first. *)
Definition better (x y : block) : block := if b_size x <? b_size y then y else x.

(** [find_longest_match]: the longest block, the earliest in [a] among those,
    and the earliest in [b] among those. *)
Definition longest (a b : string) : block :=
  foldl better (Block 0 0 0)
    (concat ((λ i, (λ j, Block i j (common (sdrop i a) (sdrop j b))) <$> seq 0 (slen b)) <$> seq 0 (slen a))).

(** The characters in matching blocks; [fuel] bounds the recursion depth. *)
Fixpoint matched (fuel : nat) (a b : string) : nat :=
  match fuel with
  | O => 0
  | S fuel =>
      let m := longest a b in
      if b_size m =? 0 then 0
      else matched fuel (stake (b_i m) a) (stake (b_j m) b) + b_size m +
           matched fuel (sdrop (b_i m + b_size m) a) (sdrop (b_j m + b_size m) b)
  end.

(** [SequenceMatcher.ratio] as a fraction: twice the matches over the lengths;
    1 for two empty strings. *)
Definition ratio (a b : string) : nat * nat :=
  if slen a + slen b =? 0 then (1, 1) else (2 * matched (S (slen a)) a b, slen a + slen b).

Definition frac_lt (x y : nat * nat) : bool := x.1 * y.2 <? y.1 * x.2.

(** [(score, x)] pairs in the order of [heapq.nlargest]: best score first, and
    among equals the greater string. *)
Definition before (x y : (nat * nat) * string) : bool :=
  frac_lt y.1 x.1 || (negb (frac_lt x.1 y.1) && String.ltb y.2 x.2).

Fixpoint insert_best (x : (nat * nat) * string) (l : list ((nat * nat) * string)) :
    list ((nat * nat) * string) :=
  match l with
  | [] => [x]
  | y :: l' => if before x y then x :: l else y :: insert_best x l'
  end.

(** [get_close_matches(word, possibilities, n=n)], the cutoff 6/10. *)
Definition get_close_matches (word : string) (possibilities : list string) (n : nat) : list string :=
  let scored := (λ x, (ratio x word, x)) <$> possibilities in
  snd <$> take n (foldr insert_best [] (filter (λ s, Is_true (negb (frac_lt s.1 (6, 10)))) scored)).

(** The blocks lie in both strings, so the ratio is at most one. *)
Lemma common_le a b : common a b ≤ slen a ∧ common a b ≤ slen b.
Proof.
  revert b. induction a as [|x a IH]; intros [|y b]; cbn; try lia.
  destruct (Ascii.eqb x y); [|lia]. specialize (IH b). lia.
Qed.

Example close_matches_example :
  get_close_matches "pipe_pingpng" ["pipe_pingpong"; "timer_tick"; "pipe_no_call"] 3 = ["pipe_pingpong"].
Proof. vm_compute. reflexivity. Qed.

End Difflib.
