(* ===== verification/RunArch.v ===== *)
(** * One architecture's run (tools/sos_runner.py: [_run_arch])

    The cases of an architecture and a tier, the packages they need, the verdict
    of each and the report.  The order of the report is that of the case table
    whatever the number of workers ([MapOrdered.v]); here the workers take the
    items one at a time, the path the source calls its reference. *)

From Stdlib Require Import Ascii.
From S2P Require Import Prelude PyStr PyPath Arches Case Check Host SampleHost Toolchain Build BuildPlan.
From stdpp Require Import base list sets strings numbers option.

Open Scope nat_scope.
Open Scope py_scope.

(** [sys.stdout.isatty()] *)
Class Tty := is_a_tty : bool.

Section colours.
Context `{C : Tty}.
Definition colour (code : string) : string :=
  if is_a_tty then String (ascii_of_nat 27) code else "".
Definition GREEN : string := colour "[92m".
Definition RED : string := colour "[91m".
Definition BOLD : string := colour "[1m".
Definition RESET : string := colour "[0m".
Definition CHECK : string := GREEN +:+ "✓" +:+ RESET.
Definition CROSS : string := RED +:+ "✗" +:+ RESET.
End colours.

Module RunArch.
Import Check Toolchain Build BuildPlan.

(** ** Which cases *)

Definition applies (arch : Arch) (case : Case) : bool :=
  match c_arches case with
  | Some l => bool_decide (a_name arch ∈ l)
  | None => true
  end.

Definition tier_matches (arch : Arch) (case : Case) : bool :=
  match c_tier case with
  | Some need => String.eqb need (a_tier arch)
  | None => true
  end.

(** (runnable, excluded) *)
Definition split_cases (arch : Arch) (selected : list Case) : list Case * list Case :=
  partition_by (tier_matches arch) (filter (λ c, Is_true (applies arch c)) selected).

(** The packages one case needs, and those of all of them, each once. *)
Definition case_pkgs (case : Case) : list string :=
  (if truthy (c_root_pkg case) then [default "" (c_root_pkg case)] else []) ++ children_of case.

Definition root_pkgs_of (cases : list Case) : list string :=
  foldl (λ pkgs case, append_new_all pkgs (case_pkgs case)) [] cases.

(** ** The report *)

(** (passed, headline, detail) *)
Record verdict := Verdict { v_ok : bool; v_headline : string; v_detail : list string }.

Section run.
Context `{Hst : Host} `{R : Repo} `{P : ProcessEnv} `{C : Tty}.

Definition arch_header (arch : Arch) (qemu : string) : string :=
  BOLD +:+ a_name arch +:+ RESET +:+ "  (" +:+ a_triple arch +:+ ", " +:+ basename qemu +:+ " `virt`)".

Definition shared_failed (arch : Arch) (msg : string) : string :=
  CROSS +:+ " failed to build the " +:+ a_name arch +:+ " kernel HAL / runtime support" +:+ nl +:+ msg.

Definition root_image_failed (arch : Arch) (msg : string) : string :=
  CROSS +:+ " failed to build a " +:+ a_name arch +:+ " root image" +:+ nl +:+ msg.

(** One package: its image relative to the repository and its size, or the
    message of the build error. *)
Definition build_pkg (environ : env) (T : toolchain) (blade_bin clang : string) (arch : Arch)
    (pkg : string) : M ((string * N) + string) :=
  catch_tool (
    image ← _build_root_image environ T blade_bin pkg arch clang;
    size ← getsize image;
    mret (relpath image REPO_ROOT, size)).

(** The package phase: a line per package, up to the first that fails. *)
Fixpoint build_pkgs (environ : env) (T : toolchain) (blade_bin clang : string) (arch : Arch)
    (pkgs : list string) : M (option string) :=
  match pkgs with
  | [] => mret None
  | pkg :: pkgs =>
      r ← build_pkg environ T blade_bin clang arch pkg;
      match r with
      | inr msg => mret (Some msg)
      | inl (rel, size) =>
          print ("  " +:+ rel +:+ "  (" +:+ py_str size +:+ " bytes)") ;;
          build_pkgs environ T blade_bin clang arch pkgs
      end
  end.

(** What the case dictionary holds for this architecture after the phase. *)
Definition find_images (arch : Arch) (case : Case) : M case_images :=
  r ← (if truthy (c_root_pkg case) then
         p ← _root_image_path (default "" (c_root_pkg case)) arch; mret (Some p)
       else mret None);
  c ← (if truthy (c_children case) then
         l ← map_M (λ pkg, _root_image_path pkg arch) (children_of case); mret (Some l)
       else mret None);
  mret (CaseImages r c).

(** One case: compile it, link it, boot it, judge it. *)
Definition run_case (T : toolchain) (arch : Arch) (qemu lld clang : string) (shared_objs : list string)
    (case : Case) (images : case_images) : M verdict :=
  let name := c_name case in
  built ← catch_tool (_build_elf T case images arch shared_objs lld clang);
  match built with
  | inr msg => mret (Verdict false (CROSS +:+ " " +:+ name +:+ "  (build error)")
                       ((λ line, "    " +:+ line) <$> splitlines msg))
  | inl elf =>
      '(status, out, timed_out) ← _run_qemu qemu arch elf (c_stdin case);
      '(ok, reason) ← lift (_check case arch status out timed_out);
      mret (if ok : bool then Verdict true (CHECK +:+ " " +:+ name) []
            else Verdict false (CROSS +:+ " " +:+ name +:+ "  (" +:+ reason +:+ ")") [])
  end.

(** The excluded cases, by name, with the reason. *)
Definition excluded_header (arch : Arch) (n : nat) : string :=
  "  tier " +:+ a_tier arch +:+ ": " +:+ py_str (N.of_nat n) +:+ " isolation " +:+
  (if n =? 1 then "proof" else "proofs") +:+ " excluded (this platform cannot deny, and says so)".

Definition tier_reason (case : Case) : res string :=
  match c_tier_reason case with Some r => Ok r | None => Raise (KeyError "tier_reason") end.

Definition print_excluded (arch : Arch) (excluded : list Case) : M unit :=
  match excluded with
  | [] => mret tt
  | _ =>
      print (excluded_header arch (length excluded)) ;;
      for_each excluded (λ case,
        reason ← lift (tier_reason case);
        print ("    - " +:+ c_name case +:+ ": " +:+ reason))
  end.

Definition row_line (i n : nat) (headline : string) : string :=
  "[" +:+ py_str (N.of_nat i) +:+ "/" +:+ py_str (N.of_nat n) +:+ "] " +:+ headline.

(** The numbered rows, counting. *)
Fixpoint run_cases (T : toolchain) (arch : Arch) (qemu lld clang : string) (shared_objs : list string)
    (i n : nat) (cases : list (Case * case_images)) (passed failed : nat) : M (nat * nat) :=
  match cases with
  | [] => mret (passed, failed)
  | (case, images) :: cases =>
      v ← run_case T arch qemu lld clang shared_objs case images;
      print (row_line i n (v_headline v)) ;;
      for_each (v_detail v) print ;;
      if v_ok v
      then run_cases T arch qemu lld clang shared_objs (S i) n cases (S passed) failed
      else run_cases T arch qemu lld clang shared_objs (S i) n cases passed (S failed)
  end.

(** After the packages: the holders, the excluded block, the rows. *)
Definition run_rows (T : toolchain) (arch : Arch) (qemu lld clang : string) (shared_objs : list string)
    (cases excluded : list Case) : M (nat * nat) :=
  images ← map_M (find_images arch) cases;
  print_excluded arch excluded ;;
  counts ← run_cases T arch qemu lld clang shared_objs 1 (length cases) (zip cases images) 0 0;
  print "" ;;
  mret counts.

(** [_run_arch] with [jobs] = 1, the packages and the cases taken one after the
    other: the reference that [Jobs._run_arch], which takes any [jobs], is
    related to. *)
Definition serial_arch (environ : env) (T : toolchain) (arch : Arch) (qemu lld clang blade_bin : string)
    (selected_cases : list Case) : M (nat * nat) :=
  print (arch_header arch qemu) ;;
  let '(cases, excluded) := split_cases arch selected_cases in
  built ← catch_tool (_build_shared arch clang);
  match built with
  | inr msg => print_err (shared_failed arch msg) ;; mret (0, length cases)
  | inl shared_objs =>
      build_error ← build_pkgs environ T blade_bin clang arch (root_pkgs_of cases);
      match build_error with
      | Some msg => print_err (root_image_failed arch msg) ;; mret (0, length cases)
      | None => run_rows T arch qemu lld clang shared_objs cases excluded
      end
  end.

End run.

(** ** Specification *)

Section spec.
Context `{Hst : Host} `{R : Repo} `{P : ProcessEnv} `{C : Tty}.

(** A case runs on an architecture. *)
Definition runs_on (arch : Arch) (case : Case) : bool := applies arch case && tier_matches arch case.

(** In the course of a run the case was booted with its own ELF and input, the
    emulator ended by itself, and the verdict on what it ended with is a pass. *)
Definition earned (arch : Arch) (qemu : string) (case : Case) (w w' : world) : Prop :=
  ∃ status out reason,
    occurs w w' (boot (qemu_argv qemu arch (artifact arch (c_name case) ".elf"))
                      (keystrokes <$> c_stdin case)) (Ok (Some status, out)) ∧
    _check case arch (Some status) out false = Ok (true, reason).

(** How many rows an architecture reports. *)
Definition rows (arch : Arch) (selected : list Case) : nat :=
  length (filter (λ c, Is_true (runs_on arch c)) selected).

(** What one row prints. *)
Definition row_lines (n i : nat) (v : verdict) : list string :=
  row_line (S i) n (v_headline v) :: v_detail v.

(** A verdict that names its case. *)
Definition verdict_of (case : Case) (v : verdict) : Prop :=
  if v_ok v then v = Verdict true (CHECK +:+ " " +:+ c_name case) []
  else ∃ why, v_headline v = CROSS +:+ " " +:+ c_name case +:+ "  (" +:+ why +:+ ")".

Definition excluded_lines (arch : Arch) (excluded : list Case) : list string :=
  match excluded with
  | [] => []
  | _ => excluded_header arch (length excluded) ::
         ((λ c, "    - " +:+ c_name c +:+ ": " +:+ default "" (c_tier_reason c)) <$> excluded)
  end.

Definition report_lines (arch : Arch) (excluded : list Case) (vs : list verdict) : list string :=
  excluded_lines arch excluded ++ concat (imap (row_lines (length vs)) vs) ++ [""].

Definition n_ok (vs : list verdict) : nat := length (filter (λ v, Is_true (v_ok v)) vs).
Definition n_failed (vs : list verdict) : nat := length (filter (λ v, ¬ Is_true (v_ok v)) vs).
End spec.

(** ** Lemmas: selection *)

Lemma partition_by_length {A} (p : A → bool) l :
  length (partition_by p l).1 + length (partition_by p l).2 = length l.
Proof.
  unfold partition_by. cbn. induction l as [|x l IH]; [done|].
  rewrite !filter_cons. destruct (decide (Is_true (p x))) as [Hx|Hx].
  - rewrite decide_False by (intros Hn; exact (Hn Hx)). cbn. lia.
  - rewrite decide_True by done. cbn. lia.
Qed.

Lemma n_ok_cons v vs : n_ok (v :: vs) = (if v_ok v then 1 else 0) + n_ok vs.
Proof. unfold n_ok. rewrite filter_cons. by destruct (v_ok v). Qed.

Lemma n_failed_cons v vs : n_failed (v :: vs) = (if v_ok v then 0 else 1) + n_failed vs.
Proof. unfold n_failed. rewrite filter_cons. by destruct (v_ok v). Qed.

Lemma n_ok_failed vs : n_ok vs + n_failed vs = length vs.
Proof.
  induction vs as [|v vs IH]; [done|]. rewrite n_ok_cons, n_failed_cons. cbn.
  destruct (v_ok v); lia.
Qed.

Lemma runnable_filter arch selected :
  (split_cases arch selected).1 = filter (λ c, Is_true (runs_on arch c)) selected.
Proof.
  unfold split_cases, partition_by, runs_on. cbn.
  induction selected as [|c l IH]; [done|]. rewrite !filter_cons.
  destruct (applies arch c); cbn.
  - rewrite decide_True by done. rewrite filter_cons.
    destruct (tier_matches arch c); cbn; [by rewrite decide_True, decide_True, IH by done|].
    by rewrite decide_False, decide_False, IH by tauto.
  - by rewrite decide_False, decide_False, IH by tauto.
Qed.

Lemma excluded_filter arch selected :
  (split_cases arch selected).2 =
  filter (λ c, Is_true (applies arch c && negb (tier_matches arch c))) selected.
Proof.
  unfold split_cases, partition_by. cbn.
  induction selected as [|c l IH]; [done|]. rewrite !filter_cons.
  destruct (applies arch c); cbn.
  - rewrite decide_True by done. rewrite filter_cons.
    destruct (tier_matches arch c); cbn; [by rewrite decide_False, decide_False, IH by tauto|].
    by rewrite decide_True, decide_True, IH by tauto.
  - by rewrite decide_False, decide_False, IH by tauto.
Qed.

Lemma case_pkgs_spec c p :
  p ∈ case_pkgs c ↔ (c_root_pkg c = Some p ∧ p ≠ "") ∨ p ∈ children_of c.
Proof.
  unfold case_pkgs. rewrite elem_of_app. destruct (c_root_pkg c) as [r|]; cbn; [|by rewrite elem_of_nil; naive_solver].
  unfold truthy, truthy_string. case_bool_decide; cbn; rewrite ?list_elem_of_singleton, ?elem_of_nil; naive_solver.
Qed.

Lemma root_pkgs_spec cases pkgs :
  NoDup pkgs →
  NoDup (foldl (λ pkgs case, append_new_all pkgs (case_pkgs case)) pkgs cases) ∧
  ∀ p, p ∈ foldl (λ pkgs case, append_new_all pkgs (case_pkgs case)) pkgs cases ↔
       p ∈ pkgs ∨ ∃ c, c ∈ cases ∧ p ∈ case_pkgs c.
Proof.
  revert pkgs. induction cases as [|c cases IH]; intros pkgs Hnd; cbn.
  - split; [done|]. intros p. split; [by left|]. by intros [?|(c & Hc%elem_of_nil & _)].
  - destruct (IH (append_new_all pkgs (case_pkgs c))) as [H1 H2]; [auto with py|].
    split; [done|]. intros p. rewrite H2, elem_of_append_new_all.
    setoid_rewrite elem_of_cons. naive_solver.
Qed.


(** ** Lemmas: what a run does *)

Section runs.
Context `{Hst : Host} `{R : Repo} `{P : ProcessEnv} `{C : Tty}.

Lemma build_elf_building T case images arch objs lld clang :
  only build_action (_build_elf T case images arch objs lld clang).
Proof.
  unfold _build_elf, step_obj, build_csrc, build_payload, _stitch_root_image, _stitch_regions,
    stage_children, run_cc, _run. only_walk; exact I.
Qed.

Lemma build_shared_building arch clang : only build_action (_build_shared arch clang).
Proof. unfold _build_shared, run_cc, _run. only_walk; exact I. Qed.

Lemma building_silent a : build_action a → silent a.
Proof. by destruct a. Qed.

(** A boot is of the given case. *)
Definition boots_case (arch : Arch) (qemu : string) (case : Case) (a : action) : Prop :=
  build_action a ∨ a = Boot (qemu_argv qemu arch (artifact arch (c_name case) ".elf"))
                        (keystrokes <$> c_stdin case).

Lemma run_case_only T arch qemu lld clang objs case images :
  only (boots_case arch qemu case) (run_case T arch qemu lld clang objs case images).
Proof.
  unfold run_case.
  eapply only_bind_yields;
    [apply only_catch_tool; eapply only_weaken; [|apply build_elf_building]; by left
    |apply yields_catch_tool, build_elf_yields|].
  intros [elf|msg]; [intros ->|intros _; apply only_ret].
  unfold _run_qemu. only_walk. by right.
Qed.

Lemma run_case_verdict T arch qemu lld clang objs case images :
  yields (verdict_of case) (run_case T arch qemu lld clang objs case images).
Proof.
  unfold run_case. apply yields_bind. intros [elf|msg].
  - apply yields_bind. intros [[status out] timed_out]. apply yields_bind. intros [[] reason];
      apply yields_ret; unfold verdict_of; cbn; eauto.
  - apply yields_ret. unfold verdict_of. cbn. by exists "build error".
Qed.

Lemma print_excluded_tells arch excluded :
  tells (λ _ lines, lines = excluded_lines arch excluded) (print_excluded arch excluded).
Proof.
  destruct excluded as [|c l]; [intros w a w' [= <- <-]; exists []; by rewrite app_nil_r|].
  unfold print_excluded, excluded_lines.
  apply (tells_bind _ _ _ _ (tells_print _)). intros _ ? ->.
  intros w a w' E. eapply tells_for_each in E as (k & Ek & Hk); [exists k; rewrite Hk; by split|].
  intros c'. unfold tier_reason. destruct (c_tier_reason c'); [apply tells_print|by intros ???].
Qed.

Lemma find_images_silent arch cases : only silent (map_M (find_images arch) cases).
Proof. unfold find_images, _root_image_path. only_walk. Qed.

(** ** Lemmas: what a pass stands for *)

Lemma run_case_pass T arch qemu lld clang objs case images w v w' :
  run_case T arch qemu lld clang objs case images w = (Ok v, w') → v_ok v = true →
  ∃ elf w1 status out reason,
    _build_elf T case images arch objs lld clang w = (Ok elf, w1) ∧
    boot (qemu_argv qemu arch elf) (keystrokes <$> c_stdin case) w1 = (Ok (Some status, out), w') ∧
    _check case arch (Some status) out false = Ok (true, reason).
Proof.
  unfold run_case. intros H Hv. apply M_bind_inv in H as (built & w1 & Hb & H).
  unfold catch_tool in Hb. destruct (_build_elf _ _ _ _ _ _ _ w) as [[elf|[]] w2] eqn:Ee;
    try done; injection Hb as <- <-; [|by injection H as <- <-].
  apply M_bind_inv in H as ([[status out] timed_out] & w3 & Hq & H).
  apply M_bind_inv in H as ([ok reason] & w4 & Hc & H).
  injection Hc as Hc <-. unfold _run_qemu in Hq.
  apply M_bind_inv in Hq as ([code out'] & w5 & Hboot & Hq). injection Hq as <- <- <- <-.
  destruct ok; injection H as <- <-; [|done].
  destruct code as [z|]; [|done]. by exists elf, w2, z, out', reason.
Qed.

Lemma run_case_earned T arch qemu lld clang objs case images w v w' :
  run_case T arch qemu lld clang objs case images w = (Ok v, w') → v_ok v = true →
  earned arch qemu case w w'.
Proof.
  intros E Hv. destruct (run_case_pass _ _ _ _ _ _ _ _ _ _ _ E Hv)
    as (elf & w1 & status & out & reason & Eb & Eq & Hc).
  assert (elf = artifact arch (c_name case) ".elf") as ->
    by (apply (build_elf_yields T case images arch objs lld clang w); by rewrite Eb).
  exists status, out, reason. split; [|done]. exists w1, w'. split_and!; [|done|apply grows_refl].
  eapply only_grows; [apply build_elf_building|done].
Qed.

Lemma earned_widen arch qemu case w0 w w' w3 :
  grows w0 w → grows w' w3 → earned arch qemu case w w' → earned arch qemu case w0 w3.
Proof. intros H0 H3 (st & out & reason & Ho & Hc). exists st, out, reason. eauto using occurs_widen. Qed.

End runs.


(** ** Properties *)

(** The tiers sort the cases and drop none: of the selected cases that name
    an architecture, each is either runnable there or excluded and never both,
    by its tier alone, and each list keeps the order of the selection. *)
Theorem tiers_partition (arch : Arch) (selected : list Case) :
  let '(cases, excluded) := split_cases arch selected in
  cases = filter (λ c, Is_true (applies arch c && tier_matches arch c)) selected ∧
  excluded = filter (λ c, Is_true (applies arch c && negb (tier_matches arch c))) selected ∧
  length cases + length excluded = length (filter (λ c, Is_true (applies arch c)) selected).
Proof.
  pose proof (runnable_filter arch selected) as Hr. pose proof (excluded_filter arch selected) as He.
  pose proof (partition_by_length (tier_matches arch) (filter (λ c, Is_true (applies arch c)) selected)) as Hl.
  unfold split_cases in *. destruct (partition_by _ _) as [cases excluded]. auto.
Qed.

(** The packages of an architecture's run are exactly those its cases need,
    as a root server or as a child, each built once. *)
Theorem packages_exact (cases : list Case) :
  NoDup (root_pkgs_of cases) ∧
  ∀ p, p ∈ root_pkgs_of cases ↔
       ∃ c, c ∈ cases ∧ ((c_root_pkg c = Some p ∧ p ≠ "") ∨ p ∈ children_of c).
Proof.
  destruct (root_pkgs_spec cases []) as [H1 H2]; [constructor|]. split; [done|].
  intros p. unfold root_pkgs_of. rewrite H2. setoid_rewrite case_pkgs_spec.
  split; [intros [?%elem_of_nil|?]; done|by right].
Qed.

Section properties.
Context `{Hst : Host} `{R : Repo} `{P : ProcessEnv} `{C : Tty}.

(** How an architecture's run ends: the lines it printed and its counts. *)
Inductive ends (arch : Arch) (qemu : string) (selected : list Case) : nat * nat → list string → Prop :=
  | ends_shared :
      ends arch qemu selected (0, rows arch selected) [arch_header arch qemu]
  | ends_package pkg_lines :
      length pkg_lines < length (root_pkgs_of (split_cases arch selected).1) →
      ends arch qemu selected (0, rows arch selected) (arch_header arch qemu :: pkg_lines)
  | ends_report pkg_lines vs :
      length pkg_lines = length (root_pkgs_of (split_cases arch selected).1) →
      Forall2 verdict_of (filter (λ c, Is_true (runs_on arch c)) selected) vs →
      ends arch qemu selected (n_ok vs, n_failed vs)
        (arch_header arch qemu :: pkg_lines ++ report_lines arch (split_cases arch selected).2 vs).

Lemma ends_counts arch qemu selected counts lines :
  ends arch qemu selected counts lines → counts.1 + counts.2 = rows arch selected.
Proof.
  intros []; cbn; unfold rows; try lia. rewrite n_ok_failed. symmetry. by eapply Forall2_length.
Qed.

(** What a run of an architecture may do: build, print, and boot the ELFs of
    its own runnable cases, each with its own input. *)
Definition arch_action (arch : Arch) (qemu : string) (selected : list Case) (a : action) : Prop :=
  match a with
  | Boot argv typed =>
      ∃ c, c ∈ selected ∧ runs_on arch c = true ∧
           argv = qemu_argv qemu arch (artifact arch (c_name c) ".elf") ∧
           typed = keystrokes <$> c_stdin c
  | RmTree _ | Rename _ _ => False
  | _ => True
  end.

(** C20. A row passes only on a finished boot: when a case's verdict is a pass,
    its ELF was built, the emulator ended by itself within the time limit, and
    the output and the exit status it ended with are what the case asks for. *)
Theorem pass_is_earned (T : toolchain) (arch : Arch) (qemu lld clang : string) (objs : list string)
    (case : Case) (images : case_images) (w w' : world) (v : verdict) :
  run_case T arch qemu lld clang objs case images w = (Ok v, w') → v_ok v = true →
  ∃ elf w1 status out reason,
    _build_elf T case images arch objs lld clang w = (Ok elf, w1) ∧
    boot (qemu_argv qemu arch elf) (keystrokes <$> c_stdin case) w1 = (Ok (Some status, out), w') ∧
    _check case arch (Some status) out false = Ok (true, reason).
Proof.
  apply run_case_pass.
Qed.
End properties.


(** ** Witnesses: a kernel that panics with the expected line *)

Definition panic_case : Case := dict "panic" "/k/panic.saw" (EStr "panic: {one}") false [].
Definition denial_case : Case :=
  dict "denial" "/k/denial.saw" ENone false [k_tier "isolated"; k_tier_reason "needs a fault"].
Definition one_toolchain : toolchain := mk_toolchain ["sawc"] "SAWLANG_ROOT" (Some "/s") None [].
Definition panicking : Host :=
  fs_machine (all_answer (Proc 0 "" "")) (λ _ _, (Some 3%Z, "boot" +:+ nl +:+ "panic: 0x00000001" +:+ nl)).
Definition panic_world : @world panicking := @World panicking (FS [] []) [].
Definition no_tty : Tty := false.

Lemma pass_is_earned_witness :
  let arch := @arch_arm64 in
  ∃ elf w1 status out reason,
    @_build_elf panicking sample_repo one_toolchain
      (dict "panic" "/k/panic.saw" (EStr "panic: 0x00000001") false []) no_images arch ["boot.o"]
      "lld" "clang" panic_world = (Ok elf, w1) ∧
    @boot panicking (qemu_argv "qemu" arch elf) None w1 =
      (Ok (Some status, out),
       (@run_case panicking sample_repo no_tty one_toolchain arch "qemu" "lld" "clang" ["boot.o"]
          (dict "panic" "/k/panic.saw" (EStr "panic: 0x00000001") false []) no_images panic_world).2) ∧
    _check (dict "panic" "/k/panic.saw" (EStr "panic: 0x00000001") false []) arch (Some status) out
      false = Ok (true, reason).
Proof.
  eapply (@pass_is_earned panicking sample_repo no_tty one_toolchain (@arch_arm64) "qemu" "lld" "clang"
    ["boot.o"] (dict "panic" "/k/panic.saw" (EStr "panic: 0x00000001") false []) no_images panic_world _
    (Verdict true (@CHECK no_tty +:+ " panic") [])); [|reflexivity].
  vm_compute. reflexivity.
Defined.

End RunArch.
