(* ===== verification/CaseTable.v ===== *)
(** * The case table as a whole

    [TEST_CASES] of tools/sos_runner.py, and what the harness relies on of it:
    names that tell the cases apart, expectations that format everywhere, tier
    keys with reasons, layouts that fit, builds that share no file. *)

From Stdlib Require Import Ascii.
From S2P Require Import Prelude PyStr PyPath Arches Case Check RegionTable CasesA CasesB CasesC CasesD.
From S2P Require Import Host Toolchain Build Isolation RunArch.
From stdpp Require Import base list sets strings numbers option.

Open Scope nat_scope.
Open Scope py_scope.

Module CaseTable.
Import Check RegionTable Toolchain RunArch Build Isolation.

Section table.
Context `{R : Repo}.

Definition TEST_CASES : list Case := cases_A ++ cases_B ++ cases_C ++ cases_D.

(** ** Specification *)

(** The table key [--case] looks names up under. *)
Definition case_key (case : Case) : string := replace_char "-" "_" (c_name case).

(** A transcript that answers a case: its expectations, one after another. *)
Definition transcript (arch : Arch) (case : Case) : string :=
  foldr (λ t s, match py_format t (expectations arch) with Ok w => w +:+ s | Raise _ => s end) ""
    (expected_list (c_expect_out case)).

Definition passing_status (case : Case) : Z :=
  default (if c_expect_clean_exit case then 0 else 1)%Z (c_expect_status case).

Definition can_pass (arch : Arch) (case : Case) : bool :=
  match _check case arch (Some (passing_status case)) (transcript arch case) false with
  | Ok (true, reason) => String.eqb reason ""
  | _ => false
  end.

Definition formats (arch : Arch) (case : Case) : bool :=
  forallb (λ t, is_ok (py_format t (expectations arch))) (expected_list (c_expect_out case)).

(** Every keystroke of a case's input comes before the time limit. *)
Definition typed_in_time (case : Case) : bool :=
  match c_stdin case with
  | Some feed => forallb (λ k, (k.1 <? QEMU_TIMEOUT_S * 1000)%N) (keystrokes feed)
  | None => true
  end.

(** A case that is matched without the kernel's lines expects none of them. *)
Definition strip_rule (arch : Arch) (case : Case) : bool :=
  negb (truthy (c_strip_kernel_lines case)) ||
  forallb (λ t, match py_format t (expectations arch) with
                | Ok w => negb (py_in KMARK w)
                | Raise _ => false
                end) (expected_list (c_expect_out case)).

Definition named_apart (case : Case) : bool :=
  negb (String.eqb (c_name case) "") && all_chars undotted (c_name case) &&
  negb (bool_decide (c_name case ∈ shared_names)).

(** ** Lemmas: facts computed over the table *)

Lemma table_forall (p : Case → bool) c : forallb p TEST_CASES = true → c ∈ TEST_CASES → p c = true.
Proof. rewrite forallb_forall. intros H Hc%list_elem_of_In. auto. Qed.

(** The same on every architecture. *)
Lemma table_forall_arch (p : Arch → Case → bool) :
  forallb (p arch_riscv32) TEST_CASES = true → forallb (p arch_arm64) TEST_CASES = true →
  forallb (p arch_riscv32_flat) TEST_CASES = true →
  ∀ a c, a ∈ ARCHES → c ∈ TEST_CASES → p a c = true.
Proof.
  intros H1 H2 H3 a c Ha Hc. revert a Ha. by apply ARCHES_ind; apply table_forall.
Qed.

Lemma table_named c : c ∈ TEST_CASES → simple_name (c_name c) ∧ c_name c ∉ shared_names.
Proof.
  intros Hc. apply (table_forall named_apart) in Hc; [|vm_compute; reflexivity].
  unfold named_apart in Hc. rewrite !andb_true_iff, !negb_true_iff, bool_decide_eq_false in Hc.
  destruct Hc as [[Hne Ha] Hs]. split; [|done]. split; [|done]. by apply String.eqb_neq.
Qed.

Lemma table_formats a c :
  a ∈ ARCHES → c ∈ TEST_CASES →
  ∃ ws, Forall2 (λ t w, py_format t (expectations a) = Ok w) (expected_list (c_expect_out c)) ws.
Proof.
  intros Ha Hc.
  assert (formats a c = true) as Hf by (revert a c Ha Hc; apply table_forall_arch; vm_compute; reflexivity).
  unfold formats in Hf. revert Hf. clear. generalize (expected_list (c_expect_out c)).
  induction l as [|t ts IH]; cbn; [by exists []|]. rewrite andb_true_iff. intros [Ht Hts].
  destruct (IH Hts) as [ws Hws]. destruct (py_format t _) as [w|] eqn:E; [|done].
  exists (w :: ws). by constructor.
Qed.

Lemma ARCHES_plain a : a ∈ ARCHES →
  ("-o" ∉ a_cc_args a) ∧ a_triple a ≠ "-o" ∧ a_features a ≠ Some "-o" ∧ ("-o" ∉ a_hal_modules a).
Proof.
  revert a. apply ARCHES_ind; split_and!; try done;
    unfold a_hal_modules, arch_riscv32, arch_arm64, arch_riscv32_flat, a_cc_args, RV32_CORE_MODULE, RV32_VIRT_MODULE;
    rewrite ?elem_of_cons, elem_of_nil; naive_solver.
Qed.

(** Every case compiles a source of the kernel or of the tests. *)
Lemma table_sources c :
  c ∈ TEST_CASES → ∃ d x, (d = KERNEL_DIR ∨ d = TESTS_DIR) ∧ c_src c = join2 d x.
Proof.
  intros Hc. assert (Forall (λ c, ∃ d x, (d = KERNEL_DIR ∨ d = TESTS_DIR) ∧ c_src c = join2 d x) TEST_CASES) as H.
  { unfold TEST_CASES, cases_A, cases_B, cases_C, cases_D. cbn [app].
    repeat (constructor; [eexists _, _; split; cycle 1; [reflexivity|first [by left|by right]]|]). constructor. }
  rewrite list.Forall_forall in H. auto.
Qed.

(** What the table and the architectures put on command lines is no [-o]. *)
Lemma table_plain T c a objs lld clang :
  c ∈ TEST_CASES → a ∈ ARCHES → "-o" ∉ sawc_argv T → "-o" ∉ objs → lld ≠ "-o" → clang ≠ "-o" →
  plain_tools T c a objs lld clang.
Proof.
  intros Hc Ha Hs Ho Hl Hcl. destruct (ARCHES_plain a Ha) as (? & ? & ? & ?). split; try done.
  intros He. destruct (table_sources c Hc) as (d & x & Hd & Hx). rewrite Hx in He. revert He.
  destruct Hd as [-> | ->]; apply repo_dir_not_option; cbn; lia.
Qed.

Lemma regions_of_table a c : a ∈ ARCHES → c ∈ TEST_CASES → is_ok (_region_rows c a) = true.
Proof.
  revert a c. apply (table_forall_arch (λ a c, is_ok (_region_rows c a))); vm_compute; reflexivity.
Qed.

(** ** Properties *)

(** C34. The table's names tell its cases apart: no two are equal, not even with
    hyphens and underscores taken for one another, which is how the command
    line names them; none is empty, holds a dot or a slash, or is the name of an
    object every case links. *)
Theorem table_names_identify :
  NoDup (case_key <$> TEST_CASES) ∧
  ∀ c, c ∈ TEST_CASES → simple_name (c_name c) ∧ c_name c ∉ shared_names.
Proof. split; [apply (bool_decide_unpack _); vm_compute; reflexivity | apply table_named]. Qed.

(** C31. Every case gets a verdict: on every architecture and whatever the boot
    did, judging a case of the table never raises, each of its expectations
    being a template the architecture fills in. *)
Theorem table_verdicts_defined (a : Arch) (c : Case) (status : option Z) (out : string) (timed_out : bool) :
  a ∈ ARCHES → c ∈ TEST_CASES → ∃ v, _check c a status out timed_out = Ok v.
Proof.
  intros Ha Hc. destruct (table_formats a c Ha Hc) as [ws Hws].
  unfold _check. destruct timed_out; [eauto|]. cbv zeta. cbn [decoded].
  destruct (c_expect_out c) as [|s|l]; cbn [expected_list] in Hws; [cbn; eauto|..];
    (destruct (match_loop_total (default false (c_overlapping_matches c)) (expectations a)
       (haystack c out) out 0 _ ws Hws) as [r Hr]);
    cbn [expected_list]; rewrite Hr; cbn; destruct r; eauto.
Qed.

(** C33. Every row can be green: for each case on each architecture there is an
    ending, an exit status and a transcript, that passes, so no case asks for
    two things that exclude each other. *)
Theorem table_cases_passable (a : Arch) (c : Case) :
  a ∈ ARCHES → c ∈ TEST_CASES →
  _check c a (Some (passing_status c)) (transcript a c) false = Ok (true, "").
Proof.
  intros Ha Hc.
  assert (can_pass a c = true) as H
    by (revert a c Ha Hc; apply table_forall_arch; vm_compute; reflexivity).
  unfold can_pass in H. destruct (_check _ _ _ _ _) as [[[] reason]|]; try done.
  by apply String.eqb_eq in H as ->.
Qed.

(** C32. Every case's region table can be stitched, and lays out memory windows
    that do not overlap, on every architecture. *)
Theorem table_regions_fit (a : Arch) (c : Case) :
  a ∈ ARCHES → c ∈ TEST_CASES →
  (∃ lines, regions_text c a = Ok lines) ∧ all_disjoint (windows c a).
Proof.
  intros Ha Hc. pose proof (regions_of_table a c Ha Hc) as H. split.
  - unfold regions_text. destruct (_region_rows c a); cbn; [eauto|done].
  - apply windows_disjoint; [by apply ARCHES_layout|].
    rewrite <-region_rows_refused. by rewrite H.
Qed.

(** C10. Two cases of the table build side by side: for different cases, on any
    two architectures, no file the one build writes is written by the other,
    and neither writes an object that an architecture's cases share. *)
Theorem table_builds_isolated `{Hst : Host} (T : toolchain) (c1 c2 : Case) (a1 a2 : Arch)
    (i1 i2 : case_images) (objs1 objs2 : list string) (lld clang : string) (w1 w2 : world) (p : string) :
  c1 ∈ TEST_CASES → c2 ∈ TEST_CASES → c_name c1 ≠ c_name c2 → a1 ∈ ARCHES → a2 ∈ ARCHES →
  "-o" ∉ sawc_argv T → "-o" ∉ objs1 → "-o" ∉ objs2 → lld ≠ "-o" → clang ≠ "-o" →
  p ∈ written (_build_elf T c1 i1 a1 objs1 lld clang) w1 →
  (p ∉ written (_build_elf T c2 i2 a2 objs2 lld clang) w2) ∧ (∀ a, a ∈ ARCHES → p ∉ shared a).
Proof.
  intros H1 H2 Hne Ha1 Ha2 Hs Ho1 Ho2 Hl Hc Hp.
  pose proof (table_plain T c1 a1 objs1 lld clang H1 Ha1 Hs Ho1 Hl Hc) as P1.
  pose proof (table_plain T c2 a2 objs2 lld clang H2 Ha2 Hs Ho2 Hl Hc) as P2.
  destruct (table_named c1 H1) as [S1 N1], (table_named c2 H2) as [S2 N2]. split.
  - revert p Hp. by apply builds_disjoint.
  - intros a Ha Hsh. exact (builds_spare_shared T c1 a1 a i1 objs1 lld clang w1 P1 S1 N1 Ha p Hsh Hp).
Qed.

(** The projection's own rule holds of the table: a case matched with the
    kernel's lines removed expects no line the removal takes away. *)
Theorem table_strip_rule (a : Arch) (c : Case) (t w : string) :
  a ∈ ARCHES → c ∈ TEST_CASES → c_strip_kernel_lines c = Some true →
  t ∈ expected_list (c_expect_out c) → py_format t (expectations a) = Ok w → unmarked w.
Proof.
  intros Ha Hc Hk Ht Hw.
  assert (strip_rule a c = true) as H
    by (clear Hk Ht Hw; revert a c Ha Hc; apply table_forall_arch; vm_compute; reflexivity).
  unfold strip_rule in H. rewrite Hk in H. cbn in H. rewrite forallb_forall in H.
  specialize (H t). rewrite Hw in H. apply unmarked_by_find.
  assert (py_in KMARK w = false) as Hin by (apply negb_true_iff, H; by apply list_elem_of_In).
  unfold py_in in Hin. by destruct (find_first KMARK w).
Qed.

(** What a case types at its guest is all typed before the time limit stops
    the guest, a delay before each character. *)
Theorem table_input_typed (c : Case) (feed : string) (t : N) (ch : ascii) :
  c ∈ TEST_CASES → c_stdin c = Some feed → (t, ch) ∈ keystrokes feed → (t < QEMU_TIMEOUT_S * 1000)%N.
Proof.
  intros Hc Hf Hk. apply (table_forall typed_in_time) in Hc; [|vm_compute; reflexivity].
  unfold typed_in_time in Hc. rewrite Hf, forallb_forall in Hc.
  by apply N.ltb_lt, (Hc (t, ch)), list_elem_of_In.
Qed.
End table.

(** ** Witnesses *)

#[local] Existing Instance sample_repo.

Lemma preempt_in : case_thread_preempt ∈ TEST_CASES.
Proof. apply (list_elem_of_lookup_2 _ 21). reflexivity. Defined.

Lemma echo_in : case_uart_echo_ns16550 ∈ TEST_CASES.
Proof. apply (list_elem_of_lookup_2 _ 29). reflexivity. Defined.

Lemma flat_in : arch_riscv32_flat ∈ ARCHES.
Proof. apply (list_elem_of_lookup_2 _ 2). reflexivity. Defined.

Lemma table_verdicts_defined_witness : ∃ v, _check case_thread_preempt arch_riscv32_flat None "" false = Ok v.
Proof. apply (table_verdicts_defined arch_riscv32_flat case_thread_preempt None "" false flat_in preempt_in). Defined.

Lemma table_cases_passable_witness :
  _check case_thread_preempt arch_riscv32_flat (Some 0%Z)
    "SOS M2: preemptive kernel up onABBAABSOS preempt: joined a=33 b=44" false = Ok (true, "").
Proof. apply (table_cases_passable arch_riscv32_flat case_thread_preempt flat_in preempt_in). Defined.

Lemma table_regions_fit_witness :
  (∃ lines, regions_text case_uart_echo_ns16550 arch_riscv32_flat = Ok lines) ∧
  all_disjoint [(0x10000000, 0x1000)%N].
Proof. apply (table_regions_fit arch_riscv32_flat case_uart_echo_ns16550 flat_in echo_in). Defined.

(** The builds of two cases, run on the sample machine: the first writes its
    object file, and the second does not. *)
Lemma table_builds_isolated_witness :
  let obj := artifact arch_riscv32_flat "thread_preempt" ".o" in
  let images := CaseImages (Some "/i/root") None in
  (obj ∉ written (_build_elf one_toolchain case_uart_echo_ns16550 images arch_riscv32_flat ["boot.o"]
                    "lld" "clang") panic_world) ∧
  (∀ a, a ∈ ARCHES → obj ∉ shared a).
Proof.
  apply (@table_builds_isolated _ panicking one_toolchain case_thread_preempt case_uart_echo_ns16550
    arch_riscv32_flat arch_riscv32_flat (CaseImages (Some "/i/root") None) (CaseImages (Some "/i/root") None)
    ["boot.o"] ["boot.o"] "lld" "clang" panic_world panic_world);
    [apply preempt_in|apply echo_in|done|apply flat_in|apply flat_in
    |apply (bool_decide_unpack _); vm_compute; reflexivity..].
Defined.

Lemma table_strip_rule_witness : unmarked "SOS preempt: joined a=33 b=44".
Proof.
  apply (table_strip_rule arch_riscv32_flat case_thread_preempt "SOS preempt: joined a=33 b=44"
    "SOS preempt: joined a=33 b=44" flat_in preempt_in); [reflexivity| |reflexivity].
  apply (list_elem_of_lookup_2 _ 4). reflexivity.
Defined.

Lemma table_input_typed_witness : (600 < QEMU_TIMEOUT_S * 1000)%N.
Proof.
  apply (table_input_typed case_uart_echo_ns16550 "Zq7#" 600 "#" echo_in); [reflexivity|].
  apply (list_elem_of_lookup_2 _ 3). reflexivity.
Defined.

End CaseTable.
