(* ===== verification/Parallel.v ===== *)
(** * Cases in parallel (tools/sos_runner.py: [_run_arch] with [-j N])

    The rows of an architecture with several workers: each case is a worker that
    compiles, links, boots and judges, step by step on the one world all workers
    share.  Where compilers write what they are told to, and no case reads what
    another builds, the rows a parallel run prints, and its counts, are those of
    the serial run.  The interface that says so is [Files.FileView]. *)

From Stdlib Require Import Ascii.
From S2P Require Import Prelude PyStr PyPath Arches Case Check RegionTable CasesA Host SampleHost.
From S2P Require Import Toolchain Build BuildPlan Isolation Files MapOrdered Threads RunArch CaseTable.
From stdpp Require Import base list sets gmap relations strings numbers option.

Open Scope nat_scope.
Open Scope py_scope.

Module Parallel.
Import Check RegionTable Toolchain Build BuildPlan Isolation MapOrdered Threads RunArch CaseTable.

(** ** A case as a worker *)

Section worker.
Context `{Hst : Host} `{R : Repo} `{C : Tty}.
Context (T : toolchain) (arch : Arch) (qemu lld clang : string) (objs : list string).

(** The module path of the image format, where the toolchain has it. *)
Definition imgformat : string :=
  match module_path_arg T "imgformat" with Ok path => path | Raise _ => "" end.

(** The steps of a plan, up to the first that fails, and what follows. *)
Fixpoint plan_thread {B} (plan : list action) (k : res unit → prog B) : prog B :=
  match plan with
  | [] => k (Ok tt)
  | a :: plan => Do (do_action a) (λ r, match r with Ok _ => plan_thread plan k | Raise e => k (Raise e) end)
  end.

Definition lines_of (case : Case) : list string :=
  match regions_text case arch with Ok lines => lines | Raise _ => [] end.

Definition plan_of (ci : Case * case_images) : list action :=
  elf_plan T ci.1 (default "" (i_root ci.2)) (default [] (i_children ci.2)) (lines_of ci.1) arch objs
    imgformat lld clang.

Definition boot_of (case : Case) : action :=
  Boot (qemu_argv qemu arch (artifact arch (c_name case) ".elf")) (keystrokes <$> c_stdin case).

(** The verdict on what the emulator ended with. *)
Definition judge (case : Case) (code : option Z) (out : string) : res verdict :=
  '(ok, reason) ← _check case arch code out (bool_decide (code = None));
  mret (if ok : bool then Verdict true (CHECK +:+ " " +:+ c_name case) []
        else Verdict false (CROSS +:+ " " +:+ c_name case +:+ "  (" +:+ reason +:+ ")") []).

Definition case_thread (ci : Case * case_images) : prog verdict :=
  let case := ci.1 in
  plan_thread (plan_of ci) (λ r,
    match r with
    | Raise (ToolError msg) =>
        Done (Ok (Verdict false (CROSS +:+ " " +:+ c_name case +:+ "  (build error)")
                    ((λ line, "    " +:+ line) <$> splitlines msg)))
    | Raise e => Done (Raise e)
    | Ok _ =>
        Do (boot (qemu_argv qemu arch (artifact arch (c_name case) ".elf")) (keystrokes <$> c_stdin case))
          (λ r, match r with Ok (code, out) => Done (judge case code out) | Raise e => Done (Raise e) end)
    end).

(** The package phase left the images the case asks for. *)
Definition ready (ci : Case * case_images) : Prop :=
  images_ready ci.1 ci.2 (default "" (i_root ci.2)).

Lemma plan_thread_denote {B} plan (k : res unit → prog B) w :
  denote (plan_thread plan k) w = let '(r, w') := run_plan plan w in denote (k r) w'.
Proof.
  revert w. unfold run_plan. induction plan as [|a plan IH]; intros w; [done|].
  cbn [plan_thread for_each denote]. rewrite M_bind_unfold.
  destruct (do_action a w) as [[[]|e] w1]; [apply IH|done].
Qed.

(** The worker by itself is [run_case]. *)
Lemma case_thread_denote ci w :
  ready ci → is_ok (_region_rows ci.1 arch) = true → module_path_arg T "imgformat" = Ok imgformat →
  denote (case_thread ci) w = run_case T arch qemu lld clang objs ci.1 ci.2 w.
Proof.
  destruct ci as [case images]. intros Hr Hrows Hi. unfold case_thread. rewrite plan_thread_denote.
  assert (regions_text case arch = Ok (lines_of case)) as Hl.
  { unfold lines_of, regions_text. cbn in Hrows. by destruct (_region_rows case arch). }
  cbn [fst snd]. unfold run_case. rewrite M_bind_unfold. unfold catch_tool.
  rewrite (build_elf_carries T case images arch objs imgformat _ _ lld clang Hr (λ _, Hl) Hi w), M_bind_unfold.
  unfold plan_of. cbn [fst snd]. destruct (run_plan _ w) as [[[]|e] w1]; cbn.
  - rewrite M_bind_unfold. unfold _run_qemu. rewrite M_bind_unfold.
    destruct (boot _ _ w1) as [[[code out]|e] w2]; [|done]. cbn. unfold judge, lift.
    rewrite M_bind_unfold, check_captured. destruct (_check _ _ _ _ _) as [[ok reason]|e]; [|done]. by destruct ok.
  - by destruct e.
Qed.

(** The build of the case can be planned: a checkout for its compiler, a region
    table, and the images it asks for. *)
Definition complete (ci : Case * case_images) : bool :=
  is_ok (module_path_arg T "imgformat") && is_ok (_region_rows ci.1 arch) &&
  (negb (truthy (c_root_pkg ci.1)) || bool_decide (is_Some (i_root ci.2))) &&
  bool_decide (length (default [] (i_children ci.2)) = length (children_of ci.1)).

(** The worker of a case.  One whose build cannot be planned is a single step. *)
Definition worker (ci : Case * case_images) : prog verdict :=
  if complete ci then case_thread ci else Do (run_case T arch qemu lld clang objs ci.1 ci.2) Done.

Lemma complete_spec ci :
  complete ci = true ↔
  ready ci ∧ is_ok (_region_rows ci.1 arch) = true ∧ module_path_arg T "imgformat" = Ok imgformat.
Proof.
  unfold complete, ready, images_ready, children_staged, imgformat.
  rewrite !andb_true_iff, orb_true_iff, negb_true_iff, !bool_decide_eq_true.
  assert (is_ok (module_path_arg T "imgformat") = true ↔
          module_path_arg T "imgformat" =
          Ok match module_path_arg T "imgformat" with Ok path => path | Raise _ => "" end) as ->
    by (by destruct (module_path_arg T "imgformat")).
  assert (truthy (c_root_pkg ci.1) = false ∨ is_Some (i_root ci.2) ↔
          (truthy (c_root_pkg ci.1) = true → i_root ci.2 = Some (default "" (i_root ci.2)))) as ->; [|tauto].
  destruct (truthy (c_root_pkg ci.1)), (i_root ci.2); cbn; unfold is_Some; naive_solver.
Qed.

Lemma worker_denote ci w : denote (worker ci) w = run_case T arch qemu lld clang objs ci.1 ci.2 w.
Proof.
  unfold worker. destruct (complete ci) eqn:Hc.
  - apply complete_spec in Hc as (Hr & Hrows & Hi). by apply case_thread_denote.
  - cbn. by destruct (run_case _ _ _ _ _ _ _ _ w).
Qed.

(** ** What it does, and what its pass stands for *)

Lemma do_action_only a : build_action a → only build_action (do_action a).
Proof. intros Ha. destruct a; try done; cbn [do_action]; unfold _run; only_walk; done. Qed.

Lemma plan_thread_steps {B} (Q : ∀ X, M X → Prop) plan (k : res unit → prog B) :
  (∀ a, a ∈ plan → Q _ (do_action a)) → (∀ r, all_steps Q (k r)) → all_steps Q (plan_thread plan k).
Proof.
  intros Hp Hk. induction plan as [|a plan IH]; [apply Hk|]. cbn. split; [by apply Hp, list_elem_of_here|].
  intros [u|e]; [|apply Hk]. apply IH. intros b Hb. by apply Hp, list_elem_of_further.
Qed.

Lemma plan_of_builds ci a : a ∈ plan_of ci → build_action a.
Proof.
  pose proof (elf_plan_builds T ci.1 (default "" (i_root ci.2)) (default [] (i_children ci.2))
    (lines_of ci.1) arch objs imgformat lld clang) as Hb.
  rewrite list.Forall_forall in Hb. apply Hb.
Qed.

(** A worker builds, and boots its own case. *)
Lemma worker_only ci : all_steps (λ _ m, only (boots_case arch qemu ci.1) m) (worker ci).
Proof.
  unfold worker. destruct (complete ci); [|split; [apply run_case_only|done]].
  apply plan_thread_steps.
  - intros a Ha%plan_of_builds. eapply only_weaken; [|by apply do_action_only]. by left.
  - intros [u|[]]; try done. cbn. split; [apply only_boot; by right|]. by intros [[code out]|].
Qed.

Lemma worker_silent ci : all_steps (λ _ m, only silent m) (worker ci).
Proof.
  eapply steps_weaken; [|apply worker_only]. intros X m. apply only_weaken.
  intros a [Ha| ->]; [by apply building_silent|done].
Qed.

Lemma plan_thread_pledges {B} (Q : res B → world → Prop) plan (k : res unit → prog B) w :
  Forall build_action plan → (∀ r w', grows w w' → pledges Q (k r) w') → pledges Q (plan_thread plan k) w.
Proof.
  intros Hp. revert w. induction Hp as [|a plan Ha _ IH]; intros w Hk; [apply Hk, grows_refl|].
  cbn. intros w1 Hw1. pose proof (do_action_only a Ha) as Ho. specialize (Ho w1) as (l & El & _).
  assert (grows w (do_action a w1).2) as Hg by (eapply grows_trans; [exact Hw1|by exists l]).
  destruct (do_action a w1) as [[u|e] w2]; cbn in *; [|by apply Hk].
  apply IH. intros r w' Hw'. apply Hk. by eapply grows_trans.
Qed.

Lemma judge_pass case code out v :
  judge case code out = Ok v → v_ok v = true →
  ∃ status reason, code = Some status ∧ _check case arch (Some status) out false = Ok (true, reason).
Proof.
  unfold judge. destruct code as [status|].
  - rewrite bool_decide_eq_false_2 by done. destruct (_check _ _ _ _ _) as [[ok reason]|e] eqn:Ec; [|done]. cbn -[_check].
    intros [= <-] Hv. destruct ok; [|done]. by exists status, reason.
  - rewrite bool_decide_eq_true_2 by done. cbn. by intros [= <-].
Qed.

(** A worker's passing verdict is earned, whatever the other workers do between
    its steps. *)
Definition earned_pass (w0 : world) (ci : Case * case_images) (r : res verdict) (w : world) : Prop :=
  match r with Ok v => v_ok v = true → earned arch qemu ci.1 w0 w | Raise _ => True end.

Lemma earned_pass_grows w0 ci r w w' : grows w w' → earned_pass w0 ci r w → earned_pass w0 ci r w'.
Proof. intros Hg. destruct r as [v|e]; [|done]. cbn. eauto using earned_widen, grows_refl. Qed.

Lemma worker_pledges ci w0 w : grows w0 w → pledges (earned_pass w0 ci) (worker ci) w.
Proof.
  intros Hw. unfold worker. destruct (complete ci).
  - apply plan_thread_pledges; [apply list.Forall_forall; intros a; apply plan_of_builds|].
    intros [u|e] w1 H1; [|by destruct e]. cbn. intros w2 H2.
    destruct (boot _ _ w2) as [[[code out]|e] w3] eqn:Eb; [|done]. cbn.
    destruct (judge ci.1 code out) as [v|e] eqn:Ej; [|done]. intros Hv.
    destruct (judge_pass _ _ _ _ Ej Hv) as (status & reason & -> & Hc).
    exists status, out, reason. split; [|done]. exists w2, w3.
    split_and!; [by do 2 (eapply grows_trans; [eassumption|])|done|apply grows_refl].
  - intros w1 H1. destruct (run_case _ _ _ _ _ _ _ _ w1) as [[v|e] w2] eqn:E; [|done]. cbn. intros Hv.
    eapply (earned_widen _ _ _ w0 w1 w2 w2); [by eapply grows_trans|apply grows_refl|by eapply run_case_earned].
Qed.

(** The rows are never cut short by their consumer. *)
Definition never (vs : list verdict) : bool := false.

Lemma for_each_print (l : list string) w :
  for_each l print w = (Ok tt, World (w_host w) (w_log w ++ (Print <$> l))).
Proof.
  revert w. induction l as [|x l IH]; intros [h log]; [by rewrite app_nil_r|].
  cbn [for_each]. rewrite M_bind_unfold. cbn. rewrite IH. cbn. by rewrite <-app_assoc.
Qed.

(** The loop over the rows is the serial loop of the workers, world for world. *)
Lemma run_cases_serial (n : nat) rest ys p f w :
  let '((vs, o), w') := serial worker never (row_lines n) ys rest w in
  ∃ new, vs = ys ++ new ∧ o ≠ Stopped ∧
    run_cases T arch qemu lld clang objs (S (length ys)) n rest p f w =
    (match o with
     | Failed e => Raise e
     | _ => Ok (p + n_ok new, f + n_failed new)
     end, w').
Proof.
  revert ys p f w. induction rest as [|ci rest IH]; intros ys p f w.
  { cbn. exists []. by rewrite app_nil_r, !Nat.add_0_r. }
  cbn [serial]. rewrite worker_denote. destruct ci as [case images]. cbn [fst snd run_cases]. rewrite M_bind_unfold.
  destruct (run_case T arch qemu lld clang objs case images w) as [[v|e] w1].
  2: { exists []. by rewrite app_nil_r. }
  rewrite M_bind_unfold. cbn [print]. rewrite M_bind_unfold, for_each_print. cbn [w_host w_log never].
  assert (World (w_host w1) ((w_log w1 ++ [Print (row_line (S (length ys)) n (v_headline v))]) ++ (Print <$> v_detail v)) =
          told (row_lines n) (length ys) v w1) as -> by (unfold told, row_lines; cbn; by rewrite <-app_assoc).
  specialize (IH (ys ++ [v]) (if v_ok v then S p else p) (if v_ok v then f else S f)
    (told (row_lines n) (length ys) v w1)).
  rewrite length_app, Nat.add_1_r in IH.
  destruct (serial _ _ _ _ rest _) as [[vs o] w']. destruct IH as (new & -> & Ho & E).
  exists (v :: new). split_and!; [by rewrite <-app_assoc|done|].
  rewrite n_ok_cons, n_failed_cons. transitivity (run_cases T arch qemu lld clang objs (S (S (length ys))) n rest
    (if v_ok v then S p else p) (if v_ok v then f else S f) (told (row_lines n) (length ys) v w1)).
  - by destruct (v_ok v).
  - rewrite E. destruct o; [|done..]. destruct (v_ok v); do 3 f_equal; lia.
Qed.

(** ** The actions of a plan *)

Definition build_dir : string := d_build (arch_dirs arch).

(** The files and the one directory that are a case's own. *)
Definition owns (case : Case) (p : string) : Prop :=
  p ∈ own case arch ∨ p = artifact arch (c_name case) ".rootimg".

(** An action of a case, making no directory but the build directory of the
    architecture and the case's own. *)
Definition shaped (case : Case) (a : action) : Prop :=
  case_action a ∧
  ∀ d b, a = MakeDirs d b → d = build_dir ∨ d = artifact arch (c_name case) ".rootimg".

Lemma shaped_other case a : case_action a → (∀ d b, a ≠ MakeDirs d b) → shaped case a.
Proof. intros Ha Hd. split; [done|]. intros d b ->. by destruct (Hd d b). Qed.

Lemma outputs_here o l : outputs ("-o" :: o :: l) ≠ [].
Proof. done. Qed.

Lemma outputs_cons a l : outputs l ≠ [] → outputs (a :: l) ≠ [].
Proof. destruct l as [|o l]; [done|]. intros Hl. cbn [outputs]. by destruct (String.eqb a "-o"). Qed.

Lemma outputs_app l l' : outputs l' ≠ [] → outputs (l ++ l') ≠ [].
Proof. intros Hl. induction l as [|a l IH]; [done|]. by apply outputs_cons. Qed.

Lemma shaped_run case argv l : outputs argv ≠ [] → Forall (shaped case) l → Forall (shaped case) (Run argv None None :: l).
Proof. intros Ha Hl. constructor; [by apply shaped_other|done]. Qed.

Lemma shaped_mkdirs case l d :
  d = build_dir ∨ d = artifact arch (c_name case) ".rootimg" → Forall (shaped case) l →
  Forall (shaped case) (MakeDirs d true :: l).
Proof. intros Hd Hl. constructor; [|done]. split; [done|]. by intros ? ? [= <- <-]. Qed.

Lemma shaped_if case (b : bool) l : Forall (shaped case) l → Forall (shaped case) (if b then l else []).
Proof. by destruct b. Qed.

(** Finds the [-o] of a command line. *)
Ltac has_output :=
  unfold Cc, cc, link_args, compile_case;
  repeat first [apply outputs_here | apply outputs_cons | apply outputs_app].

Lemma plan_shaped ci : Forall (shaped ci.1) (plan_of ci).
Proof.
  unfold plan_of, elf_plan, root_plan, regions_plan.
  apply Forall_app_2; [apply shaped_mkdirs; [by left|]; apply shaped_run; [has_output|done]|].
  apply Forall_app_2; [apply shaped_if, shaped_run; [has_output|done]|].
  apply Forall_app_2; [apply shaped_if, shaped_run; [has_output|done]|].
  apply Forall_app_2; [apply shaped_if, shaped_mkdirs; [by right|]|].
  { constructor; [by apply shaped_other|]. apply shaped_run; [has_output|done]. }
  apply Forall_app_2; [|apply shaped_run; [has_output|done]].
  apply shaped_if, shaped_mkdirs; [by left|]. apply Forall_app_2.
  - apply list.Forall_forall. intros a (i & x & -> & _)%elem_of_lookup_imap. by apply shaped_other.
  - constructor; [by apply shaped_other|]. apply shaped_run; [has_output|done].
Qed.

(** A world that does whatever it is asked. *)
Definition willing : Host := {|
  host := unit;
  h_run := λ _ _ _ h, (Some (Proc 0 "" ""), h); h_boot := λ _ _ h, (Some (Some 0%Z, ""), h);
  h_act := λ _ h, (true, h); h_isfile := λ _ _, true; h_isdir := λ _ _, true; h_exists := λ _ _, true;
  h_executable := λ _ _, true; h_listdir := λ _ _, []; h_walk := λ _ _, []; h_getsize := λ _ _, 0%N;
  h_text := λ _ _, None |}.

Lemma run_plan_willing plan l :
  @run_plan willing plan (@World willing tt l) = (Ok tt, @World willing tt (l ++ plan)).
Proof.
  unfold run_plan. revert l. induction plan as [|a plan IH]; intros l; [by rewrite app_nil_r|].
  cbn [for_each]. rewrite M_bind_unfold.
  assert (@do_action willing a (@World willing tt l) = (Ok tt, @World willing tt (l ++ [a]))) as -> by (by destruct a).
  by rewrite IH, <-app_assoc.
Qed.

Lemma plan_within ci :
  ready ci → is_ok (_region_rows ci.1 arch) = true → module_path_arg T "imgformat" = Ok imgformat →
  plain_tools T ci.1 arch objs lld clang → Forall (within ci.1 arch) (plan_of ci).
Proof.
  destruct ci as [case images]. cbn [fst]. intros Hr Hrows Hi Hp.
  assert (regions_text case arch = Ok (lines_of case)) as Hl
    by (unfold lines_of, regions_text; by destruct (_region_rows case arch)).
  destruct (@build_elf_within willing _ T case images arch objs lld clang Hp (@World willing tt [])) as (l & El & Hw).
  rewrite (@build_elf_carries willing _ T case images arch objs imgformat _ _ lld clang Hr (λ _, Hl) Hi),
    M_bind_unfold, run_plan_willing in El. cbn in El. by subst l.
Qed.

Lemma owns_owned case p : owns case p → owned arch (c_name case) p.
Proof. intros [Hp| ->]; [by apply own_owned|]. by apply (owned_flat arch (c_name case) "rootimg"). Qed.

Lemma owns_unique c1 c2 p :
  simple_name (c_name c1) → simple_name (c_name c2) → owns c1 p → owns c2 p → c_name c1 = c_name c2.
Proof. intros S1 S2 H1%owns_owned H2%owns_owned. by eapply owned_unique. Qed.

Lemma slen_join2_plain a b : solid a → plain b = true → slen a < slen (join2 a b).
Proof.
  intros Ha Hb. rewrite join2_solid by (done || by apply plain_relative). rewrite !slen_app. cbn. lia.
Qed.

(** The build directory itself is no case's own. *)
Lemma build_unowned case : simple_name (c_name case) → ¬ owns case build_dir.
Proof.
  intros Hn Ho. pose proof (solid_build arch) as Hs. change (d_build (arch_dirs arch)) with build_dir in Hs.
  assert (∀ s, no_slash s = true → slen build_dir < slen (artifact arch (c_name case) s)) as Hl.
  { intros s Hs'. by apply slen_join2_plain, simple_plain. }
  apply owns_owned in Ho. inversion Ho as [s Hns _ E|E].
  - pose proof (Hl (String "." s) ltac:(done)) as H. rewrite E in H. lia.
  - pose proof (Hl ".rootimg" eq_refl) as H.
    assert (slen (artifact arch (c_name case) ".rootimg") < slen (staged_root arch (c_name case))) as H2.
    { apply slen_join2_plain; [|done]. by apply solid_join2, simple_plain. }
    rewrite E in H2. lia.
Qed.

(** ** Its steps are local *)

Context `{!FileView}.

(** A step of a worker and the action it is. *)
Definition is_step {X} (a : action) (m : M X) : Prop :=
  (∀ w, w_host (m w).2 = (acts a (w_host w)).2) ∧
  (∀ w1 w2, (acts a (w_host w1)).1 = (acts a (w_host w2)).1 → (m w1).1 = (m w2).1).

Lemma do_action_step case a : shaped case a → (∀ argv typed, a ≠ Boot argv typed) → is_step a (do_action a).
Proof.
  intros [Ha _] Hb. destruct a as [argv cwd e|d b|src dst|p text| | | |argv typed| |]; try done; [| | | |by destruct (Hb argv typed)].
  1: { split; cbn; unfold _run, subprocess_run, mbind, M_bind.
       - intros w. destruct (h_run argv cwd e (w_host w)) as [[p|] h]; [|done]. cbn. by destruct (bool_decide _).
       - intros w1 w2. destruct (h_run argv cwd e (w_host w1)) as [r1 h1], (h_run argv cwd e (w_host w2)) as [r2 h2].
         cbn. intros [= ->]. destruct r2 as [p|]; [|done]. by destruct (bool_decide _). }
  all: split; cbn [do_action acts]; unfold perform, h_do.
  all: try (intros w; match goal with |- context [h_act ?a ?h] => by destruct (h_act a h) as [ok h'] end).
  all: intros w1 w2; match goal with |- context [h_act ?a _] =>
         destruct (h_act a (w_host w1)) as [r1 h1], (h_act a (w_host w2)) as [r2 h2] end; cbn; by intros [= ->].
Qed.

Lemma boot_step argv typed : is_step (Boot argv typed) (boot argv typed).
Proof.
  split; cbn [acts]; unfold boot.
  - intros w. by destruct (h_boot argv typed (w_host w)) as [[r|] h].
  - intros w1 w2. destruct (h_boot argv typed (w_host w1)) as [r1 h1], (h_boot argv typed (w_host w2)) as [r2 h2].
    cbn. intros [= ->]. by destruct r2.
Qed.

(** The build directory is there, as [_build_shared] left it. *)
Definition built (h : host) : Prop := h_isdir build_dir h = true.

(** What the worker at [i] can tell: all but scratch and what the others own. *)
Definition sees (cases : list (Case * case_images)) (i : nat) (p : string) : Prop :=
  ¬ scratch p ∧ ∀ j cj, j ≠ i → cases !! j = Some cj → ¬ owns cj.1 p.

Definition alike (cases : list (Case * case_images)) (i : nat) : host → host → Prop := agree (sees cases i).

#[global] Instance alike_equivalence cases i : Equivalence (alike cases i).
Proof. apply agree_equivalence. Qed.

(** What is asked of the commands of the cases: of the files cases build each
    reads its own case's only, none relies on scratch, and the build directory is
    not where scratch files go. *)
Record confined (cases : list (Case * case_images)) : Prop := {
  confined_reads ci a p :
    ci ∈ cases → a ∈ plan_of ci ++ [boot_of ci.1] → reads a p →
    ¬ scratch p ∧ (owns ci.1 p ∨ ∀ cj, cj ∈ cases → ¬ owns cj.1 p);
  confined_build : ¬ scratch build_dir;
}.

(** An action of a case is not noticed outside what the case owns, and scratch. *)
Lemma acts_unnoticed (S : string → Prop) case a h :
  simple_name (c_name case) → shaped case a → within case arch a → built h →
  (∀ p, owns case p ∨ scratch p → ¬ S p) → agree S h (acts a h).2.
Proof.
  intros Hn [Ha Hd] Hw Hb HS.
  assert ((∃ d b, a = MakeDirs d b) ∨ ∀ d b, a ≠ MakeDirs d b) as [(d & b & ->)|Hno]
    by (destruct a; eauto).
  - cbn in Ha. subst b. destruct (Hd d true eq_refl) as [->| ->]; [by apply makedirs_there|].
    apply makedirs_under; [done|apply solid_build|by apply simple_plain|]. apply HS. left. by right.
  - apply acts_outside; [done|done|]. intros p [Hp|Hp]; apply HS; [|by right]. left. left. by apply Hw.
Qed.

Lemma acts_built case a h :
  simple_name (c_name case) → shaped case a → within case arch a → ¬ scratch build_dir →
  built h → built (acts a h).2.
Proof.
  intros Hn Ha Hw Hs Hb. unfold built. rewrite <-Hb. symmetry.
  apply (agree_isdir (λ p, p = build_dir)); [done|]. eapply acts_unnoticed; [done..|].
  intros p [Hp|Hp] ->; [by eapply build_unowned|done].
Qed.

Lemma step_local cases i ci a X (m : M X) :
  cases !! i = Some ci → simple_name (c_name ci.1) → shaped ci.1 a → within ci.1 arch a → ¬ scratch build_dir →
  (∀ p, reads a p → sees cases i p) → is_step a m → local built (alike cases) i X m.
Proof.
  intros Hi Hn Ha Hw Hs Hr [Hh Hans]. split.
  - intros w1 w2 _ _ Hag. destruct (acts_within (sees cases i) a _ _ (proj1 Ha) Hr Hag) as [H1 H2].
    rewrite !Hh. auto.
  - intros j w Hb Hj. rewrite Hh. eapply acts_unnoticed; [done..|].
    intros p [Hp|Hp] [Hsc Hsee]; [|done]. by eapply (Hsee i ci); [apply not_eq_sym|..].
  - intros w Hb. rewrite Hh. by eapply acts_built.
Qed.

(** ** The rows of a table's cases *)

(** What the harness starts the rows of an architecture with: cases of the
    table, each once, with their images, and tools that are no option. *)
Record row_setup (cases : list (Case * case_images)) : Prop := {
  setup_arch : arch ∈ ARCHES;
  setup_table : Forall (λ ci, ci.1 ∈ TEST_CASES) cases;
  setup_once : NoDup ((λ ci, c_name ci.1) <$> cases);
  setup_ready : Forall ready cases;
  setup_imgformat : module_path_arg T "imgformat" = Ok imgformat;
  setup_tools : ("-o" ∉ sawc_argv T) ∧ ("-o" ∉ objs) ∧ lld ≠ "-o" ∧ clang ≠ "-o";
}.

Context (cases : list (Case * case_images)) (Hset : row_setup cases).

Lemma setup_case i ci :
  cases !! i = Some ci →
  ci ∈ cases ∧ ci.1 ∈ TEST_CASES ∧ ready ci ∧ is_ok (_region_rows ci.1 arch) = true ∧
  Forall (within ci.1 arch) (plan_of ci).
Proof.
  destruct Hset as [Ha Ht _ Hr Hi (Hs & Ho & Hl & Hc)]. intros Hin%list_elem_of_lookup_2.
  rewrite list.Forall_forall in Ht, Hr. specialize (Ht _ Hin). specialize (Hr _ Hin).
  pose proof (regions_of_table _ _ Ha Ht). split_and!; [done..|].
  apply plan_within; [done..|]. by apply table_plain.
Qed.

Lemma setup_worker i ci : cases !! i = Some ci → worker ci = case_thread ci.
Proof.
  intros Hi. destruct (setup_case i ci Hi) as (_ & _ & Hr & Hrows & _). unfold worker.
  assert (complete ci = true) as -> by (apply complete_spec; split_and!; [done..|by destruct Hset]). done.
Qed.

Lemma setup_sees (Hc : confined cases) i ci a p :
  cases !! i = Some ci → a ∈ plan_of ci ++ [boot_of ci.1] → reads a p → sees cases i p.
Proof.
  intros Hi Ha Hr. destruct (setup_case i ci Hi) as (Hin & Ht & _).
  destruct (confined_reads _ Hc ci a p Hin Ha Hr) as [Hs Hp]. split; [done|]. intros j cj Hj Hcj Hown.
  destruct (setup_case j cj Hcj) as (Hinj & Htj & _). destruct Hp as [Hp|Hp]; [|by eapply Hp].
  assert (c_name ci.1 = c_name cj.1) as He
    by (apply (owns_unique _ _ p); [by apply table_named..|done|done]).
  apply Hj, (NoDup_lookup ((λ ci, c_name ci.1) <$> cases) j i (c_name cj.1)); [by destruct Hset|..].
  - by rewrite list_lookup_fmap, Hcj.
  - by rewrite list_lookup_fmap, Hi, <-He.
Qed.

(** Every worker's steps are local. *)
Lemma case_local (Hc : confined cases) i ci :
  cases !! i = Some ci → all_steps (local built (alike cases) i) (worker ci).
Proof.
  intros Hi. pose proof (setup_case i ci Hi) as (_ & Ht & _ & _ & Hw).
  assert (∀ a p, a ∈ plan_of ci ++ [boot_of ci.1] → reads a p → sees cases i p) as Hs
    by (intros; by eapply setup_sees).
  pose proof (proj1 (table_named _ Ht)) as Hn. pose proof (confined_build _ Hc) as Hbd.
  pose proof (plan_shaped ci) as Hsh. rewrite list.Forall_forall in Hw, Hsh.
  rewrite (setup_worker i ci Hi). unfold case_thread. apply plan_thread_steps.
  - intros a Ha. eapply step_local; [done|done|by apply Hsh|by apply Hw|done| |].
    + intros p. apply Hs, elem_of_app. by left.
    + eapply do_action_step; [by apply Hsh|]. intros argv typed ->. by apply plan_of_builds in Ha.
  - intros [u|[]]; try done. cbn. split; [|by intros [[code out]|]].
    eapply (step_local cases i ci (boot_of ci.1)); [done|done|by apply shaped_other| |done| |apply boot_step].
    + intros p Hp. by apply elem_of_nil in Hp.
    + intros p. apply Hs, elem_of_app. right. by apply list_elem_of_singleton.
Qed.

(** The rows [_map_ordered(jobs, cases, run_case)] may yield from [w], printed as
    they come. *)
Definition parallel_rows (jobs : nat) : world → list verdict * outcome → world → Prop :=
  map_ordered worker jobs never (row_lines (length cases)) cases.

(** C3. The rows of a parallel run are those of the serial one.  Take distinct
    cases of the table whose package images were found, with a toolchain that has
    the sources of the image format and no tool or object named -o ([row_setup]),
    on a host where the architecture's build directory is there, as
    [_build_shared] leaves it; where a compiler or linker writes the files its
    [-o] names and scratch files and nothing else, a copy or a write its
    destination, and the emulator nothing but scratch ([FileView]; package builds
    are over by then and not spoken of); and where no action of a case reads
    scratch or what another case builds ([confined]).  Then, however many workers
    there are and however their steps interleave, the run prints the rows the
    serial loop prints, line for line; the counts are the same; and where the
    serial loop ends with an exception the parallel one ends with that exception
    after the same rows. *)
Theorem parallel_rows_serial (jobs : nat) (w w1 : world) (vs : list verdict) (o : outcome) :
  confined cases → h_isdir (d_build (arch_dirs arch)) (w_host w) = true →
  parallel_rows jobs w (vs, o) w1 →
  let '(r, w2) := run_cases T arch qemu lld clang objs 1 (length cases) cases 0 0 w in
  (∃ l1 l2, w_log w1 = w_log w ++ l1 ∧ w_log w2 = w_log w ++ l2 ∧ says l1 = says l2) ∧
  match o with
  | Exhausted => r = Ok (n_ok vs, n_failed vs)
  | Failed e => r = Raise e
  | Stopped => False
  end.
Proof.
  intros Hc Hb Hp. pose proof (case_local Hc) as Hloc.
  destruct (serial worker never (row_lines (length cases)) [] cases w) as [r2 w2] eqn:E.
  pose proof (run_cases_serial (length cases) cases [] 0 0 w) as Hrun. cbn [length] in Hrun. rewrite E in Hrun.
  assert (r2 = (vs, o)) as ->.
  { pose proof (map_ordered_serial worker jobs never _ built (alike cases) cases Hloc w _ _ Hb Hp) as H1. by rewrite E in H1. }
  destruct Hrun as (new & -> & Hno & ->).
  apply (map_ordered_pays _ _ _ _ (λ _ _ _, True)) in Hp as [(l1 & El1 & Hl1) _];
    [|done|intros; apply worker_silent|intros; by apply pledges_True].
  assert (map_ordered worker 1 never (row_lines (length cases)) cases w (new, o) w2) as Hs by exact E.
  apply (map_ordered_pays _ _ _ _ (λ _ _ _, True)) in Hs as [(l2 & El2 & Hl2) _];
    [|done|intros; apply worker_silent|intros; by apply pledges_True].
  cbn in Hl1, Hl2. split; [exists l1, l2; by rewrite Hl1, Hl2|]. by destruct o.
Qed.

End worker.


(** ** Witnesses: on the machine of [Files] *)

(** Two cases on two workers: a user program, and a panic that should fail. *)
#[local] Existing Instance sample_repo.
Definition two_cases : list (Case * case_images) :=
  [(case_umode_syscall, no_images); (case_panic_from_check, no_images)].
Definition sources : disk :=
  Disk (list_to_map [(join2 TESTS_DIR "umode.saw", "SOS M1: entering U-mode" +:+ nl);
                     (join2 (d_tests (arch_dirs arch_arm64)) "payload_ok.S", "SOS-U" +:+ nl)])
       {[d_build (arch_dirs arch_arm64)]}.
Definition sources_world : @world disk_host := @World disk_host sources [].
Definition two_thread : Case * case_images → @prog disk_host verdict :=
  @worker disk_host sample_repo no_tty one_toolchain arch_arm64 "qemu" "lld" "clang" ["boot.o"].

Lemma two_setup : row_setup one_toolchain arch_arm64 "lld" "clang" ["boot.o"] two_cases.
Proof.
  split.
  - unfold ARCHES. apply list_elem_of_further, list_elem_of_here.
  - unfold TEST_CASES, cases_A. repeat constructor; cbn [fst app];
      repeat first [apply list_elem_of_here|apply list_elem_of_further].
  - apply (bool_decide_unpack _). vm_compute. reflexivity.
  - repeat constructor; done.
  - reflexivity.
  - split_and!; [apply (bool_decide_unpack _); vm_compute; reflexivity..|done|done].
Defined.

Lemma two_confined : @confined disk_host sample_repo one_toolchain arch_arm64 "qemu" "lld" "clang"
  ["boot.o"] disk_view two_cases.
Proof.
  assert (Forall (λ ci, Forall (λ a, Forall (λ p, p ≠ compiler_temp ∧
      ((p ∈ own ci.1 arch_arm64 ∨ p = artifact arch_arm64 (c_name ci.1) ".rootimg") ∨
       Forall (λ cj, p ∉ own cj.1 arch_arm64 ∧ p ≠ artifact arch_arm64 (c_name cj.1) ".rootimg") two_cases)) (looked_at a))
    (plan_of one_toolchain arch_arm64 "lld" "clang" ["boot.o"] ci ++
     [boot_of arch_arm64 "qemu" ci.1])) two_cases) as Hall
    by (apply (bool_decide_unpack _); vm_compute; reflexivity).
  split; [|by intros H; vm_compute in H].
  intros ci a p Hci Ha Hp. rewrite list.Forall_forall in Hall. specialize (Hall ci Hci). cbn beta in Hall.
  rewrite list.Forall_forall in Hall. specialize (Hall a Ha). cbn beta in Hall.
  rewrite list.Forall_forall in Hall. destruct (Hall p Hp) as [Hs [Ho|Ho]]; (split; [done|]); [by left|right].
  rewrite list.Forall_forall in Ho. intros cj Hcj [?|?]; by destruct (Ho cj Hcj).
Qed.

Lemma every_run_ends_witness :
  ∃ s' o, rtc (pstep two_thread 2 never (row_lines 2) two_cases) (submitted two_cases sources_world) s' ∧
          closed (base s') o.
Proof.
  apply (every_run_ends two_thread 2 never (row_lines 2) two_cases sources_world
    (submitted two_cases sources_world)); [lia|apply rtc_refl].
Defined.

Lemma parallel_rows_serial_witness :
  ∃ vs o w1, @parallel_rows disk_host sample_repo no_tty one_toolchain arch_arm64 "qemu" "lld" "clang"
               ["boot.o"] two_cases 2 sources_world (vs, o) w1 ∧
             match o with Exhausted => n_ok vs = 1 ∧ n_failed vs = 1 | _ => False end.
Proof.
  destruct (pool_ends two_thread 2 never (row_lines 2) two_cases (submitted two_cases sources_world)
    ltac:(lia) (submitted_sane _ _)) as (s & o & Hs & Hc).
  assert (@parallel_rows disk_host sample_repo no_tty one_toolchain arch_arm64 "qemu" "lld" "clang"
    ["boot.o"] two_cases 2 sources_world (yielded (base s), o) (now s)) as Hp
    by (exists s; by split_and!).
  exists (yielded (base s)), o, (now s). split; [exact Hp|].
  pose proof (@parallel_rows_serial disk_host sample_repo no_tty one_toolchain arch_arm64 "qemu" "lld" "clang"
    ["boot.o"] disk_view two_cases two_setup 2 sources_world (now s)
    (yielded (base s)) o two_confined ltac:(vm_compute; reflexivity) Hp) as H.
  set (rw := run_cases _ _ _ _ _ _ _ _ _ _ _ _) in H.
  assert (rw.1 = Ok (1, 1)) as E by (vm_compute; reflexivity).
  destruct rw as [r w']. cbn [fst] in E. subst r. destruct H as [_ H].
  destruct o; [by injection H|done|done].
Defined.

End Parallel.
