(* ===== verification/ArchScan.v ===== *)
(** * The seam check (tools/sos_runner.py: [_check_arch_free])

    The scan that fails a run when the architecture-free kernel names an
    architecture, and the rule that tells a leak from an English word. *)

From Stdlib Require Import Ascii.
From S2P Require Import Prelude PyStr PyPath Arches Host SampleHost RunArch.
From stdpp Require Import base list sets strings numbers option.

Open Scope nat_scope.
Open Scope py_scope.

Module ArchScan.
Import RunArch.

Definition ARCH_FREE_DIRS `{R : Repo} : list string :=
  [ path_join REPO_ROOT ["kernel"; "core"]; path_join REPO_ROOT ["kernel"; "main.saw"] ].

Definition ARCH_WORDS : list string :=
  [ "riscv"; "rv32"; "rv64"; "aarch64"; "arm64"; "armv8";
    "mcause"; "mepc"; "mtval"; "mstatus"; "mscratch"; "mtvec"; "ecall"; "pmp";
    "sifive"; "ns16550"; "csr"; "m-mode"; "u-mode";
    "esr_el"; "elr_el"; "far_el"; "vbar"; "ttbr"; "sctlr"; "tcr_el"; "mair";
    "pl011"; "psci"; "semihost"; " svc "; "el0"; "el1";
    "plic"; "clint"; "gicd"; "gicc"; "gicv"; "sgir";
    "mtime"; "cntp"; "cntfrq"; "sstc" ].

(** [line[i]] as a string; empty out of range. *)
Definition char_at (line : string) (i : nat) : string := stake 1 (sdrop i line).

Definition _is_english_embedding (line token : string) (at_ : nat) : bool :=
  let before := if 0 <? at_ then char_at line (at_ - 1) else "" in
  let after_index := at_ + slen token in
  let after := if after_index <? slen line then char_at line after_index else "" in
  py_isalpha before && py_isalpha after.

(** The [while] loop over the occurrences of one word: whether one of them is a
    leak.  [fuel] bounds the occurrences left. *)
Fixpoint scan_word (fuel : nat) (low word : string) (at_ : option nat) : bool :=
  match at_ with
  | None => false
  | Some a =>
      if negb (_is_english_embedding low word a) then true
      else match fuel with
           | O => false
           | S fuel => scan_word fuel low word (py_find low word (a + 1))
           end
  end.

Definition leaks (low word : string) : bool := scan_word (slen low) low word (py_find low word 0).

Section check.
Context `{Hst : Host} `{R : Repo} `{P : ProcessEnv} `{C : Tty}.

(** [sorted(files)] *)
Fixpoint insert_sorted (x : string) (l : list string) : list string :=
  match l with
  | [] => [x]
  | y :: l' => if String.leb x y then x :: l else y :: insert_sorted x l'
  end.
Definition py_sorted (l : list string) : list string := foldr insert_sorted [] l.

Definition _sources_under (path : string) : M (list string) :=
  single ← isfile path;
  if single : bool then mret [path]
  else
    tree ← walk path;
    mret (concat ((λ '(root, files),
      (λ name, join2 root name) <$> filter (λ n, Is_true (endswith n ".saw")) (py_sorted files)) <$> tree)).

Definition bad_line (src : string) (lineno : nat) (word line : string) : string :=
  relpath src REPO_ROOT +:+ ":" +:+ py_str (N.of_nat lineno) +:+ ": " +:+ py_repr word +:+
  " in: " +:+ py_strip line.

(** The reports of one line. *)
Definition scan_line (src : string) (lineno : nat) (line : string) : list string :=
  (λ word, bad_line src lineno word line) <$>
    filter (λ word, Is_true (leaks (py_lower line) word)) ARCH_WORDS.

Definition scan_text (src text : string) : list string :=
  concat (imap (λ i line, scan_line src (S i) line) (file_lines text)).

Definition scan_source (src : string) : M (list string) :=
  text ← read_file src; mret (scan_text src text).

Definition scan_dir (path : string) : M (list string) :=
  srcs ← _sources_under path; bad ← map_M scan_source srcs; mret (concat bad).

Definition _check_arch_free : M bool :=
  bad ← map_M scan_dir ARCH_FREE_DIRS;
  match concat bad with
  | [] => mret true
  | bad =>
      print_err (RED +:+ BOLD +:+ "sos-test: architecture names in the arch-free kernel" +:+ RESET) ;;
      for_each bad (λ line, print_err ("  " +:+ line)) ;;
      print_err "  (design 162 unit 1: kcore reaches the machine through `hal` only)" ;;
      mret false
  end.
End check.

(** ** Specification *)

(** A letter, as one character of a string. *)
Definition letter_at (s : string) (i : nat) : Prop := py_isalpha (char_at s i) = true.

(** A line names an architecture: a word of the list occurs in it with no letter
    on one of its two sides. *)
Definition names_arch (low word : string) : Prop :=
  ∃ i, occurs_at word low i ∧ ¬ (0 < i ∧ letter_at low (i - 1) ∧ letter_at low (i + slen word)).

(** ** Lemmas *)

Lemma char_at_out s i : slen s ≤ i → char_at s i = "".
Proof.
  unfold char_at. intros Hi. assert (slen (sdrop i s) = 0) as Hz%slen_zero by (rewrite slen_sdrop; lia).
  by rewrite Hz.
Qed.

Lemma embedding_spec low word i :
  _is_english_embedding low word i = true ↔
  0 < i ∧ letter_at low (i - 1) ∧ letter_at low (i + slen word).
Proof.
  unfold _is_english_embedding, letter_at. rewrite andb_true_iff.
  destruct (Nat.ltb_spec 0 i) as [Hi|Hi]; destruct (Nat.ltb_spec (i + slen word) (slen low)) as [Hl|Hl].
  - tauto.
  - rewrite (char_at_out _ (i + slen word)) by lia. cbn. naive_solver.
  - cbn. split; [naive_solver|lia].
  - cbn. split; [naive_solver|lia].
Qed.

Lemma scan_word_spec fuel low word start :
  slen low ≤ start + fuel →
  scan_word fuel low word (py_find low word start) = true ↔
  ∃ i, start ≤ i ∧ occurs_at word low i ∧ _is_english_embedding low word i = false.
Proof.
  revert start. induction fuel as [|fuel IH]; intros start Hf;
    (destruct (py_find low word start) as [a|] eqn:E;
     [apply py_find_Some in E as (Ha & Hocc & Hmin)
     |cbn; split; [done|intros (i & Hi & Ho & _); by destruct (proj1 (py_find_None low word start) E i)]]);
    cbn [scan_word]; destruct (_is_english_embedding low word a) eqn:Ee; cbn [negb];
    try (by split; [intros _; by exists a|]).
  - exfalso. apply embedding_spec in Ee as (_ & _ & Hl). unfold letter_at in Hl.
    by rewrite char_at_out in Hl by lia.
  - rewrite IH by lia. split; intros (i & Hi & Ho & He); exists i; (split; [|done]); [lia|].
    destruct (decide (i < a)); [by destruct (Hmin i)|].
    destruct (decide (i = a)) as [->|]; [congruence|lia].
Qed.

Lemma leaks_spec low word : leaks low word = true ↔ names_arch low word.
Proof.
  unfold leaks, names_arch. rewrite scan_word_spec by lia.
  setoid_rewrite <-embedding_spec. setoid_rewrite not_true_iff_false.
  split; intros (i & H); exists i; [tauto|]. split; [lia|done].
Qed.

Section check_lemmas.
Context `{Hst : Host} `{R : Repo} `{P : ProcessEnv} `{C : Tty}.

Lemma fmap_nil_iff {A B} (f : A → B) l : f <$> l = [] ↔ l = [].
Proof. by destruct l. Qed.

Lemma scan_line_nil src n line :
  scan_line src n line = [] ↔ ∀ word, word ∈ ARCH_WORDS → ¬ names_arch (py_lower line) word.
Proof.
  unfold scan_line. rewrite fmap_nil_iff. setoid_rewrite <-leaks_spec. split.
  - intros Hf word Hw Hl. assert (word ∈ filter (λ word, Is_true (leaks (py_lower line) word)) ARCH_WORDS) as Hin
      by (apply list_elem_of_filter; split; [by rewrite Hl|done]).
    rewrite Hf in Hin. by apply elem_of_nil in Hin.
  - intros H. destruct (filter _ _) as [|w l] eqn:E; [done|].
    assert (w ∈ filter (λ word, Is_true (leaks (py_lower line) word)) ARCH_WORDS) as Hin
      by (rewrite E; apply list_elem_of_here).
    apply list_elem_of_filter in Hin as [Hl Hin]. destruct (H w Hin). by apply Is_true_true.
Qed.

(** A file that names no architecture. *)
Definition clean (text : string) : Prop :=
  ∀ line word, line ∈ file_lines text → word ∈ ARCH_WORDS → ¬ names_arch (py_lower line) word.

Lemma concat_nil_iff {A} (l : list (list A)) : concat l = [] ↔ ∀ x, x ∈ l → x = [].
Proof.
  induction l as [|x l IH]; cbn; [split; [by intros _ ? ?%elem_of_nil|done]|].
  rewrite app_nil, IH. setoid_rewrite elem_of_cons. naive_solver.
Qed.

Lemma scan_text_nil src text : scan_text src text = [] ↔ clean text.
Proof.
  unfold scan_text, clean. rewrite concat_nil_iff. split.
  - intros H line word (i & Hi)%list_elem_of_lookup Hw.
    apply (scan_line_nil src (S i) line); [|done]. apply H.
    apply list_elem_of_lookup. exists i. by rewrite list_lookup_imap, Hi.
  - intros H x (i & Hi)%list_elem_of_lookup. rewrite list_lookup_imap, fmap_Some in Hi.
    destruct Hi as (line & Hl & ->). apply scan_line_nil. intros word.
    apply H. by eapply list_elem_of_lookup_2.
Qed.

(** The sources a scanned path stands for. *)
Definition sources_of (path : string) (h : host) : list string :=
  if h_isfile path h then [path]
  else concat ((λ '(root, files),
    (λ name, join2 root name) <$> filter (λ n, Is_true (endswith n ".saw")) (py_sorted files)) <$>
    h_walk path h).

Lemma sources_run path w : _sources_under path w = (Ok (sources_of path (w_host w)), w).
Proof.
  unfold _sources_under, sources_of. unfold mbind, M_bind, isfile, ask. cbn.
  by destruct (h_isfile path (w_host w)).
Qed.

Lemma scan_source_run src w : scan_source src w = (scan_text src <$> h_read src (w_host w), w).
Proof. unfold scan_source, mbind, M_bind, read_file. by destruct (h_read src (w_host w)). Qed.

Definition scan_all (h : host) : res (list (list string)) :=
  traverse (λ dir, concat (A:=string) <$> traverse (λ src, scan_text src <$> h_read src h) (sources_of dir h))
    ARCH_FREE_DIRS.

Lemma scan_dirs_run w : map_M scan_dir ARCH_FREE_DIRS w = (scan_all (w_host w), w).
Proof.
  apply map_M_query. intros dir. unfold scan_dir. rewrite (M_bind_Ok _ _ _ _ _ (sources_run dir w)).
  unfold mbind, M_bind. rewrite (map_M_query _ (λ src, scan_text src <$> h_read src (w_host w)))
    by (intros src; apply scan_source_run).
  by destruct (traverse _ (sources_of dir (w_host w))).
Qed.

(** The files the scan reads. *)
Definition scanned (h : host) (src : string) : Prop := ∃ dir, dir ∈ ARCH_FREE_DIRS ∧ src ∈ sources_of dir h.

Lemma traverse_reads (f : string → string → list string) h l :
  (∀ src, src ∈ l → ∃ text, h_read src h = Ok text) →
  ∃ bad, traverse (λ src, f src <$> h_read src h) l = Ok bad ∧
         (concat bad = [] ↔ ∀ src text, src ∈ l → h_read src h = Ok text → f src text = []).
Proof.
  induction l as [|src l IH]; intros Hr.
  - exists []. split; [done|]. split; [by intros _ ?? ?%elem_of_nil|done].
  - destruct (Hr src) as [text Ht]; [apply list_elem_of_here|].
    destruct IH as (bad & Hb & Hn); [intros s Hs; by apply Hr, list_elem_of_further|].
    exists (f src text :: bad). cbn. rewrite Ht. cbn. rewrite Hb. split; [done|].
    rewrite app_nil, Hn. split.
    + intros [H1 H2] s t [->|Hs]%elem_of_cons Hst'; [|by apply H2].
      rewrite Ht in Hst'. by injection Hst' as <-.
    + intros H. split; [by apply H; [apply list_elem_of_here|]|].
      intros s t Hs. by apply H, list_elem_of_further.
Qed.

Lemma scan_all_reads h :
  (∀ src, scanned h src → ∃ text, h_read src h = Ok text) →
  ∃ bad, scan_all h = Ok bad ∧
         (concat bad = [] ↔ ∀ src text, scanned h src → h_read src h = Ok text → clean text).
Proof.
  unfold scan_all, scanned. generalize ARCH_FREE_DIRS.
  induction l as [|dir l IH]; intros Hr.
  - exists []. split; [done|]. split; [by intros _ ?? (? & ?%elem_of_nil & _)|done].
  - destruct (traverse_reads scan_text h (sources_of dir h)) as (b & Hb & Hn).
    { intros src Hs. apply Hr. exists dir. split; [apply list_elem_of_here|done]. }
    destruct IH as (bad & Hbad & Hn').
    { intros src (d & Hd & Hs). apply Hr. exists d. split; [by apply list_elem_of_further|done]. }
    exists (concat b :: bad). cbn. rewrite Hb. cbn. rewrite Hbad. split; [done|].
    rewrite app_nil, Hn, Hn'. setoid_rewrite scan_text_nil. split.
    + intros [H1 H2] src text (d & [->|Hd]%elem_of_cons & Hs) Ht; [by eapply H1|eapply H2; eauto].
    + intros H. split; [intros src text Hs|intros src text (d & Hd & Hs)]; apply H;
        [exists dir|exists d]; split; auto using list_elem_of_here, list_elem_of_further.
Qed.
End check_lemmas.

(** ** Properties *)

(** The scan of a word finds exactly the leaks: it reports a line and a word
    if and only if some occurrence of the word, not only the first, lacks a
    letter on one of its two sides; a word buried in a longer one is passed
    over, and what follows it on the line is still read. *)
Theorem scan_word_exact (low word : string) : leaks low word = true ↔ names_arch low word.
Proof. apply leaks_spec. Qed.

(** C25. The seam check answers for the whole arch-free kernel: where its sources
    can be read it always returns, changes nothing, and returns true if and
    only if no line of any source under the scanned paths names an
    architecture, letter case and comments notwithstanding; when it returns
    true it also says nothing. *)
Theorem check_arch_free_exact `{Hst : Host} `{R : Repo} `{P : ProcessEnv} `{C : Tty} (w : world) :
  (∀ src, scanned (w_host w) src → ∃ text, h_read src (w_host w) = Ok text) →
  ∃ b w', _check_arch_free w = (Ok b, w') ∧ w_host w' = w_host w ∧
    (b = true ↔ ∀ src text, scanned (w_host w) src → h_read src (w_host w) = Ok text → clean text) ∧
    (b = true → w' = w).
Proof.
  intros Hr. destruct (scan_all_reads (w_host w) Hr) as (bad & Hb & Hn).
  pose proof (scan_dirs_run w) as Hd. rewrite Hb in Hd.
  unfold _check_arch_free. rewrite (M_bind_Ok _ _ _ _ _ Hd).
  destruct (concat bad) as [|b1 bs] eqn:E.
  - exists true, w. split_and!; [done|done| |done]. split; [intros _; by apply Hn|done].
  - unfold mbind at 1, M_bind at 1, print_err at 1.
    destruct (for_each_told (λ line, "  " +:+ line) (b1 :: bs)
      (World (w_host w) (w_log w ++ [PrintErr (RED +:+ BOLD +:+ "sos-test: architecture names in the arch-free kernel" +:+ RESET)])))
      as (w1 & E1 & H1).
    rewrite (M_bind_Ok _ _ _ _ _ E1). eexists false, _. split_and!; [done|done| |done].
    split; [done|]. intros Hc. by apply Hn in Hc.
Qed.

(** A kernel whose one source mentions a clock register in the middle of a line
    that also says "duplicate". *)
Definition leaky : fs := FS [("/sawos/kernel/main.saw", "-- duplicate, then mtimecmp" +:+ nl)] [].
Definition sealed : fs := FS [("/sawos/kernel/main.saw", "-- duplicate, explicit" +:+ nl)] [].
Definition reader : Host := fs_host (all_answer (Proc 0 "" "")).

Lemma reader_reads (f : fs) (src : string) :
  f = sealed → @scanned reader sample_repo f src → ∃ text, @h_read reader src f = Ok text.
Proof.
  intros ->. intros (dir & Hd & Hs). unfold ARCH_FREE_DIRS in Hd.
  rewrite !elem_of_cons, elem_of_nil in Hd. destruct Hd as [->|[->|[]]].
  - by apply elem_of_nil in Hs.
  - apply list_elem_of_singleton in Hs as ->. eexists. reflexivity.
Defined.

Lemma check_arch_free_exact_witness :
  let w := @World reader sealed [] in
  ∃ b w', @_check_arch_free reader sample_repo sample_env no_tty w = (Ok b, w') ∧
    w_host w' = w_host w ∧
    (b = true ↔ ∀ src text, @scanned reader sample_repo (w_host w) src →
       @h_read reader src (w_host w) = Ok text → clean text) ∧
    (b = true → w' = w).
Proof.
  cbn zeta. apply (@check_arch_free_exact reader sample_repo sample_env no_tty (@World reader sealed [])).
  intros src Hs. by apply (reader_reads sealed src).
Defined.

Example leaky_refused :
  @_check_arch_free reader sample_repo sample_env no_tty (@World reader leaky []) ≠ (Ok true, @World reader leaky []).
Proof. vm_compute. done. Qed.

End ArchScan.
