(* ===== verification/Main.v ===== *)
(** * The command line (tools/sos_runner.py: [main])

    The selection of architectures and cases, the probe of the host's tools, the
    order of the run and its exit status.  [serial_main] is the [-j 1] path, given
    the section of the [esp32c3] board; [Jobs.main] takes any [-j], and [Cli.main]
    is the whole. *)

From Stdlib Require Import Ascii.
From S2P Require Import Prelude PyStr PyPath Arches Case Check RegionTable Host SampleHost Toolchain Build.
From S2P Require Import CasesA RunArch CaseTable ArchScan Difflib.
From stdpp Require Import base list sets strings numbers option pretty.

Open Scope nat_scope.
Open Scope py_scope.

Module Main.
Import Toolchain Build RunArch CaseTable ArchScan Difflib.

(** The parsed command line; [argparse] is the standard library's. *)
Record args := Args {
  o_arch : option string;
  o_cases : option (list string);
  o_jobs : Z;
  o_board : string;
}.

Definition INSTALL_HINTS : list (string * string) :=
  [ ("qemu-system-riscv32", "brew install qemu   (macOS)  |  apt install qemu-system-misc   (Debian/Ubuntu)");
    ("qemu-system-aarch64", "brew install qemu   (macOS)  |  apt install qemu-system-arm    (Debian/Ubuntu)");
    ("ld.lld", "brew install lld    (macOS)  |  apt install lld                (Debian/Ubuntu)");
    ("clang", "install Xcode/`brew install llvm` (macOS)  |  apt install clang  (Debian/Ubuntu)") ].

(** ** Which cases: [--case] *)

(** [[w.strip().replace("-", "_") for value in values for w in value.split(",") if w.strip()]] *)
Definition wanted_names (values : list string) : list string :=
  concat ((λ value,
    (λ w, replace_char "-" "_" (py_strip w)) <$>
      filter (λ w, Is_true (truthy (py_strip w))) (split_on "," value)) <$> values).

(** [{c["name"].replace("-", "_"): c for c in TEST_CASES}]: the last entry of a
    key is the one it holds. *)
Definition by_name (table : list Case) (w : string) : option Case :=
  list.last (filter (λ c, case_key c = w) table).

Definition known (table : list Case) (w : string) : bool := bool_decide (w ∈ (case_key <$> table)).

(** [[w for w in wanted if not (w in seen or seen.add(w))]] *)
Definition once (wanted : list string) : list string := append_new_all [] wanted.

Inductive selection := Selected (cases : list Case) | Unknown (names : list string).

Definition select_cases (table : list Case) (values : option (list string)) : selection :=
  match values with
  | None | Some [] => Selected table
  | Some values =>
      let wanted := wanted_names values in
      match filter (λ w, Is_true (negb (known table w))) wanted with
      | [] => Selected (omap (by_name table) (once wanted))
      | unknown => Unknown unknown
      end
  end.

(** ** Which architectures: [--arch] *)
Definition select_arches (all : list Arch) (name : option string) : list Arch :=
  match name with
  | Some n => if truthy n then filter (λ a, a_name a = n) all else all
  | None => all
  end.

Section main.
Context `{Hst : Host} `{R : Repo} `{P : ProcessEnv} `{C : Tty}.

Definition unknown_case (table : list Case) (w : string) : string :=
  let close := get_close_matches w (append_new_all [] (case_key <$> table)) 3 in
  let hint := match close with
              | [] => ""
              | _ => " (did you mean: " +:+ py_join ", " close +:+ "?)"
              end in
  RED +:+ "unknown --case " +:+ py_repr w +:+ hint +:+ RESET.

Definition unknown_arch (all : list Arch) (name : string) : string :=
  RED +:+ "unknown --arch " +:+ py_repr name +:+ "; known: " +:+ py_join ", " (a_name <$> all) +:+ RESET.

Definition bad_jobs (jobs : Z) : string :=
  RED +:+ "-j must be at least 1 (got " +:+ pretty jobs +:+ ")" +:+ RESET.

Definition unknown_board (board : string) : string :=
  RED +:+ "unknown --board " +:+ py_repr board +:+ "; known: virt, esp32c3" +:+ RESET.

(** ** The host's tools *)

Definition probe_args (arch : Arch) : list string :=
  ["-nostdlib"; "-c"; join2 (d_hal_board (arch_dirs arch)) "boot.S"; "-o";
   join2 (d_build (arch_dirs arch)) "_probe.o"].

(** Whether one compiler assembles the boot code of every architecture. *)
Fixpoint assembles_all (clang : string) (arches : list Arch) : M bool :=
  match arches with
  | [] => mret true
  | arch :: arches =>
      perform (MakeDirs (d_build (arch_dirs arch)) true) ;;
      r ← catch_tool (run_cc clang arch (probe_args arch));
      match r with
      | inl _ => assembles_all clang arches
      | inr _ => mret false
      end
  end.

Definition clang_candidates (environ : env) : list string :=
  (if truthy (env_get environ "SOS_CLANG") then [default "" (env_get environ "SOS_CLANG")] else []) ++
  ["clang"; "/opt/homebrew/opt/llvm/bin/clang"; "/usr/local/opt/llvm/bin/clang"].

(** [shutil.which(cand) or (cand if os.path.exists(cand) else None)] *)
Definition locate (cand : string) : M (option string) :=
  found ← which cand None;
  if truthy found then mret found
  else
    there ← ask (h_exists cand);
    mret (if there : bool then Some cand else None).

Fixpoint first_clang (arches : list Arch) (cands : list string) : M (option string) :=
  match cands with
  | [] => mret None
  | cand :: cands =>
      path ← locate cand;
      match path with
      | Some path =>
          if truthy path then
            ok ← assembles_all path arches;
            if ok : bool then mret (Some path) else first_clang arches cands
          else first_clang arches cands
      | None => first_clang arches cands
      end
  end.

Definition _find_clang (environ : env) (arches : list Arch) : M (option string) :=
  first_clang arches (clang_candidates environ).

Definition hint (tool : string) : res string :=
  match dict_get INSTALL_HINTS tool with Some h => Ok h | None => Raise (KeyError tool) end.

(** The tools, or the exit when one is missing. *)
Definition _probe_tools (environ : env) (arches : list Arch)
    : M (list (string * string) * string * string) :=
  qemus ← map_M (λ arch, found ← which (a_qemu arch) None; mret (arch, found)) arches;
  lld ← which "ld.lld" None;
  clang ← _find_clang environ arches;
  let missing :=
    (a_qemu ∘ fst <$> filter (λ q, Is_true (negb (truthy q.2))) qemus) ++
    (if truthy lld then [] else ["ld.lld"]) ++ (if truthy clang then [] else ["clang"]) in
  match missing with
  | [] => mret ((λ q, (a_name q.1, default "" q.2)) <$> qemus, default "" lld, default "" clang)
  | _ =>
      print_err (RED +:+ BOLD +:+ "sos-test: missing host prerequisites" +:+ RESET) ;;
      for_each missing (λ tool, h ← lift (hint tool); print_err ("  - " +:+ tool +:+ ": " +:+ h)) ;;
      raise (SystemExit 2)
  end.

(** [qemus[arch["name"]]] *)
Definition qemu_of (qemus : list (string * string)) (arch : Arch) : res string :=
  match dict_get qemus (a_name arch) with Some q => Ok q | None => Raise (KeyError (a_name arch)) end.

(** ** The toolchain, resolved once: [tc()] *)
Definition tc (environ : env) (held : option toolchain) : M toolchain :=
  match held with
  | Some T => mret T
  | None =>
      r ← attempt (resolve environ REPO_ROOT false);
      match r with
      | Ok T => for_each (notes T) print ;; mret T
      | Raise (ToolchainError msg) =>
          print_err (String (ascii_of_nat 27) "[1;31merror" +:+ String (ascii_of_nat 27) "[0m: " +:+ msg) ;;
          raise (SystemExit 1)
      | Raise e => raise e
      end
  end.

(** The Blade phase: a Blade when some selected case is built by it, and the
    toolchain it resolved. *)
Definition needs_blade (cases : list Case) : bool :=
  existsb (λ c, truthy (c_root_pkg c) || truthy (c_children c)) cases.

Definition blade_phase (environ : env) (cases : list Case) : M (option toolchain * option string) :=
  if needs_blade cases then
    let shared_build := path_join REPO_ROOT [".build"; "sos-host"] in
    perform (MakeDirs shared_build true) ;;
    print (BOLD +:+ "building blade" +:+ RESET) ;;
    r ← catch_tool (T ← tc environ None; b ← _build_blade T shared_build; mret (T, b));
    match r with
    | inr msg =>
        print_err (CROSS +:+ " failed to build blade" +:+ nl +:+ msg) ;;
        raise (SystemExit 1)
    | inl (T, b) => print "" ;; mret (Some T, Some b)
    end
  else mret (None, None).

(** ** The run *)

Fixpoint run_all (environ : env) (T : toolchain) (qemus : list (string * string))
    (lld clang blade_bin : string) (cases : list Case) (arches : list Arch) (passed failed : nat)
    : M (nat * nat) :=
  match arches with
  | [] => mret (passed, failed)
  | arch :: arches =>
      qemu ← lift (qemu_of qemus arch);
      '(p, f) ← serial_arch environ T arch qemu lld clang blade_bin cases;
      run_all environ T qemus lld clang blade_bin cases arches (passed + p) (failed + f)
  end.

Definition rule : string := srepeat "=" 60.

Definition finish (arches : list Arch) (passed failed : nat) : M unit :=
  print rule ;;
  if failed =? 0 then
    print (GREEN +:+ BOLD +:+ "ALL SOS TESTS PASSED" +:+ RESET +:+ " (" +:+ py_str (N.of_nat passed) +:+
           " passed across " +:+ py_join " + " (a_name <$> arches) +:+ ")") ;;
    print rule ;;
    raise (SystemExit 0)
  else
    print (RED +:+ BOLD +:+ "SOS TESTS FAILED" +:+ RESET +:+ " (" +:+ py_str (N.of_nat passed) +:+
           " passed, " +:+ py_str (N.of_nat failed) +:+ " failed)") ;;
    print rule ;;
    raise (SystemExit 1).

(** One line per distinct emulator, in first-use order. *)
Fixpoint announce (qemus : list (string * string)) (seen : list string) (arches : list Arch) : M unit :=
  match arches with
  | [] => mret tt
  | arch :: arches =>
      binary ← lift (qemu_of qemus arch);
      if bool_decide (binary ∈ seen) then announce qemus seen arches
      else print ("  qemu : " +:+ binary) ;; announce qemus (seen ++ [binary]) arches
  end.

(** What a run works with: the emulators, the linker and the compiler found, the
    toolchain, and Blade. *)
Record rig := Rig {
  g_qemus : list (string * string);
  g_lld : string;
  g_clang : string;
  g_tc : toolchain;
  g_blade : string;
}.

(** Everything between the selection and the runs of the architectures. *)
Definition prepare (environ : env) (arches : list Arch) (cases : list Case) : M rig :=
  '(qemus, lld, clang) ← _probe_tools environ arches;
  sealed ← _check_arch_free;
  if negb sealed then raise (SystemExit 1)
  else
    print (BOLD +:+ "SOS QEMU tests" +:+ RESET) ;;
    print ("  clang: " +:+ clang) ;;
    print ("  lld  : " +:+ lld) ;;
    announce qemus [] arches ;;
    print "" ;;
    '(held, blade_bin) ← blade_phase environ cases;
    T ← tc environ held;
    mret (Rig qemus lld clang T (default "" blade_bin)).

Definition run_selected (environ : env) (arches : list Arch) (cases : list Case) : M unit :=
  g ← prepare environ arches cases;
  '(passed, failed) ← run_all environ (g_tc g) (g_qemus g) (g_lld g) (g_clang g) (g_blade g) cases arches 0 0;
  finish arches passed failed.

(** What the options select on the [virt] board, or the exit of a usage error. *)
Definition choose (a : args) : M (list Arch * list Case) :=
  if bool_decide (o_jobs a < 1)%Z then
    print_err (bad_jobs (o_jobs a)) ;; raise (SystemExit 2)
  else
    match select_arches ARCHES (o_arch a) with
    | [] => print_err (unknown_arch ARCHES (default "" (o_arch a))) ;; raise (SystemExit 2)
    | arches =>
        match select_cases TEST_CASES (o_cases a) with
        | Unknown names =>
            for_each names (λ w, print_err (unknown_case TEST_CASES w)) ;; raise (SystemExit 2)
        | Selected cases => mret (arches, cases)
        end
    end.

(** [main] with [-j 1], given its board section: the reference that [Jobs.main],
    which takes any [-j], is related to. *)
Definition serial_main (smoke : args → M unit) (environ : env) (a : args) : M unit :=
  if negb (String.eqb (o_board a) "virt") then
    if negb (String.eqb (o_board a) "esp32c3") then
      print_err (unknown_board (o_board a)) ;; raise (SystemExit 2)
    else smoke a
  else
    '(arches, cases) ← choose a;
    run_selected environ arches cases.
End main.

(** ** Specification *)

(** An exception that is not the interpreter's exit. *)
Definition no_exit (e : exn) : Prop := match e with SystemExit _ => False | _ => True end.

(** An exit with a failing status, or no exit at all. *)
Definition no_exit_0 (e : exn) : Prop := e ≠ SystemExit 0.

Lemma no_exit_no_exit_0 e : no_exit e → no_exit_0 e.
Proof. by intros He ->. Qed.

Lemma format_go_no_exit d st s : res_raises no_exit (format_go d st s).
Proof.
  revert st. induction s as [|c s IH]; intros st.
  - by destruct st; intros e [= <-].
  - destruct st; cbn [format_go]; repeat case_match; try (by intros e [= <-]);
      try apply IH; (apply res_raises_bind; [apply IH|by intros r e]).
Qed.

Lemma match_loop_no_exit b fmt hay out cur expected :
  res_raises no_exit (Check.match_loop b fmt hay out cur expected).
Proof.
  revert cur. induction expected as [|want l IH]; intros cur; cbn; [by intros e|].
  apply res_raises_bind; [apply format_go_no_exit|]. intros w. destruct (py_find _ _ _); [apply IH|by intros e].
Qed.

Lemma check_no_exit case arch status out timed_out :
  res_raises no_exit (Check._check case arch status out timed_out).
Proof.
  unfold Check._check. destruct timed_out; [by intros e|].
  apply res_raises_bind; [|by intros [] e].
  destruct (c_expect_out case); [by intros e|apply match_loop_no_exit..].
Qed.

Lemma module_path_no_exit T n : res_raises no_exit (module_path_arg T n).
Proof.
  unfold module_path_arg, module_source, _require_root, no_checkout.
  apply res_raises_bind; [|by intros d e].
  destruct (dict_get _ _); [|by intros e [= <-]].
  apply res_raises_bind; [|by intros d e]. repeat case_match; by intros e [= <-].
Qed.

Lemma regions_no_exit `{R : Repo} case arch : res_raises no_exit (RegionTable.regions_text case arch).
Proof.
  unfold RegionTable.regions_text, RegionTable._region_rows. apply res_raises_bind; [|by intros d e].
  case_match; by intros e [= <-].
Qed.
#[export] Hint Resolve check_no_exit module_path_no_exit regions_no_exit : py.

Section failures.
Context `{Hst : Host} `{R : Repo} `{P : ProcessEnv} `{C : Tty}.

Lemma child_image_no_exit images i : res_raises no_exit (child_image images i).
Proof. unfold child_image. repeat case_match; by intros e [= <-]. Qed.

Lemma tier_reason_no_exit c : res_raises no_exit (tier_reason c).
Proof. unfold tier_reason. case_match; by intros e [= <-]. Qed.

Lemma run_case_no_exit T arch qemu lld clang objs case images :
  raises no_exit (run_case T arch qemu lld clang objs case images).
Proof.
  unfold run_case, _build_elf, step_obj, build_csrc, build_payload, _stitch_root_image, _stitch_regions,
    stage_children, run_cc, _run, _run_qemu, run_failed.
  raises_walk; auto using child_image_no_exit with py.
Qed.

Lemma pin_lines_no_exit path n pin raws : res_raises no_exit (pin_lines path n pin raws).
Proof.
  revert n pin. induction raws as [|raw raws IH]; intros n pin; cbn; [by intros e|].
  apply res_raises_bind; [|intros a; apply IH]. unfold pin_line. repeat case_match; by intros e [= <-].
Qed.
#[local] Hint Resolve pin_lines_no_exit : raises.

Lemma looks_like_no_exit p : raises no_exit (_looks_like_sawlang p).
Proof. unfold _looks_like_sawlang, isfile. raises_walk. Qed.
#[local] Hint Resolve looks_like_no_exit : raises.

Lemma fetch_no_exit sha e v : raises no_exit (_fetch sha e v).
Proof.
  unfold _fetch, _which, which, fetch_into, fetch_run, fetch_needs.
  raises_walk.
Qed.
#[local] Hint Resolve fetch_no_exit : raises.

Lemma check_version_no_exit argv pin where_ ns : raises no_exit (_check_version argv pin where_ ns).
Proof. unfold _check_version, _probe_version, version_silent, version_mismatch. raises_walk. Qed.
#[local] Hint Resolve check_version_no_exit : raises.

Lemma read_pin_no_exit cr : raises no_exit (_read_pin cr).
Proof. unfold _read_pin, isfile. raises_walk. Qed.
#[local] Hint Resolve read_pin_no_exit : raises.

Lemma resolve_root_no_exit e cr : raises no_exit (_resolve_root e cr).
Proof. unfold _resolve_root, not_a_checkout. raises_walk. Qed.
#[local] Hint Resolve resolve_root_no_exit : raises.

Lemma resolve_no_exit e cr v : raises no_exit (resolve e cr v).
Proof.
  unfold resolve, resolve_unnamed, named_compiler, _sawc_from_root, _which, which, isfile, _refusal.
  raises_walk.
Qed.

Lemma tc_no_exit_0 environ held : raises no_exit_0 (tc environ held).
Proof.
  unfold tc. destruct held; [apply raises_ret|].
  apply (raises_attempt_bind no_exit); [apply resolve_no_exit|]. intros [T|e] He.
  - raises_walk.
  - pose proof (no_exit_no_exit_0 e (He e eq_refl)). destruct e; raises_walk; by apply raises_raise.
Qed.

Lemma probe_tools_no_exit_0 environ arches : raises no_exit_0 (_probe_tools environ arches).
Proof.
  assert (∀ clang l, raises no_exit_0 (assembles_all clang l)) as Ha.
  { intros clang l. induction l as [|arch l IH]; cbn; [apply raises_ret|].
    unfold run_cc, _run, run_failed. raises_walk. }
  assert (∀ cands, raises no_exit_0 (first_clang arches cands)) as Hc.
  { induction cands as [|cand cands IH]; cbn; [apply raises_ret|].
    unfold locate, which. raises_walk. }
  unfold _probe_tools, _find_clang, which, hint. raises_walk.
  all: match goal with
       | |- res_raises _ (match dict_get _ ?x with _ => _ end) =>
           destruct (dict_get INSTALL_HINTS x); by intros e [= <-]
       end.
Qed.

Lemma check_arch_free_no_exit_0 : raises no_exit_0 _check_arch_free.
Proof. unfold _check_arch_free, scan_dir, scan_source, _sources_under, isfile, walk. raises_walk. Qed.

Lemma build_blade_no_exit T d : raises no_exit (_build_blade T d).
Proof.
  unfold _build_blade, _run, run_failed. raises_walk; auto with py.
  unfold blade_package_dir, _require_root, no_checkout. apply res_raises_bind; [|by intros r e].
  repeat case_match; by intros e [= <-].
Qed.

Lemma blade_phase_no_exit_0 environ cases : raises no_exit_0 (blade_phase environ cases).
Proof.
  unfold blade_phase. destruct (needs_blade cases); [|apply raises_ret].
  do 2 (apply raises_bind; [raises_walk|intros _]). apply raises_bind; [|intros [[T b]|msg]; raises_walk].
  apply raises_catch_tool. apply raises_bind; [apply tc_no_exit_0|intros T].
  apply raises_bind; [|intros b; apply raises_ret].
  eapply raises_weaken; [apply no_exit_no_exit_0|apply build_blade_no_exit].
Qed.

Lemma qemu_of_no_exit qemus arch : res_raises no_exit (qemu_of qemus arch).
Proof. unfold qemu_of. case_match; by intros e [= <-]. Qed.

Lemma announce_no_exit qemus seen arches : raises no_exit (announce qemus seen arches).
Proof.
  revert seen. induction arches as [|arch arches IH]; intros seen; cbn; [apply raises_ret|].
  apply raises_bind; [apply raises_lift, qemu_of_no_exit|intros q]. case_bool_decide; [done|].
  apply raises_bind; [apply raises_print|by intros _].
Qed.

End failures.

(** ** Lemmas: the log of a run *)

(** Every phase of a run only adds to the log, and only the architectures' runs
    add a boot. *)
Definition no_boot (a : action) : Prop := match a with Boot _ _ => False | _ => True end.

Section logs.
Context `{Hst : Host} `{R : Repo} `{P : ProcessEnv} `{C : Tty}.

Lemma looks_like_logs p : only no_boot (_looks_like_sawlang p).
Proof. unfold _looks_like_sawlang, isfile. only_walk. Qed.
#[local] Hint Resolve looks_like_logs : only.

Lemma fetch_logs sha e v : only no_boot (_fetch sha e v).
Proof. unfold _fetch, _which, which, fetch_into, fetch_run. only_walk; exact I. Qed.
#[local] Hint Resolve fetch_logs : only.

Lemma check_version_logs argv pin where_ ns : only no_boot (_check_version argv pin where_ ns).
Proof. unfold _check_version, _probe_version. only_walk; exact I. Qed.
#[local] Hint Resolve check_version_logs : only.

Lemma resolve_logs e cr v : only no_boot (resolve e cr v).
Proof.
  unfold resolve, resolve_unnamed, named_compiler, _sawc_from_root, _which, which, isfile, _read_pin,
    _resolve_root. only_walk.
Qed.
#[local] Hint Resolve resolve_logs : only.

Lemma tc_logs environ held : only no_boot (tc environ held).
Proof. unfold tc. only_walk; exact I. Qed.
#[local] Hint Resolve tc_logs : only.

Lemma probe_tools_logs environ arches : only no_boot (_probe_tools environ arches).
Proof.
  assert (∀ clang l, only no_boot (assembles_all clang l)) as Ha.
  { intros clang l. induction l as [|arch l IH]; cbn; [apply only_ret|].
    unfold run_cc, _run. only_walk; exact I. }
  assert (∀ cands, only no_boot (first_clang arches cands)) as Hc.
  { induction cands as [|cand cands IH]; cbn; [apply only_ret|].
    unfold locate, which. only_walk. }
  unfold _probe_tools, _find_clang, which. only_walk; exact I.
Qed.

Lemma check_arch_free_logs : only no_boot _check_arch_free.
Proof. unfold _check_arch_free, scan_dir, scan_source, _sources_under, isfile, walk. only_walk; exact I. Qed.

Lemma blade_phase_logs environ cases : only no_boot (blade_phase environ cases).
Proof. unfold blade_phase, _build_blade, _run. only_walk; exact I. Qed.

Lemma print_logs s : only no_boot (print s).
Proof. by apply only_print. Qed.

Lemma announce_logs qemus seen arches : only no_boot (announce qemus seen arches).
Proof.
  revert seen. induction arches as [|arch arches IH]; intros seen; cbn; [apply only_ret|].
  apply only_bind; [apply only_lift|intros q]. case_bool_decide; [done|].
  apply only_bind; [apply print_logs|by intros _].
Qed.

Lemma finish_logs arches p f : only no_boot (finish arches p f).
Proof. unfold finish. only_walk; exact I. Qed.
End logs.

(** ** Lemmas: what a green run stands for *)

Section green.
Context `{Hst : Host} `{R : Repo} `{P : ProcessEnv} `{C : Tty}.

(** Every case that runs on the architecture earned its pass in the run. *)
Definition all_earned (cases : list Case) (w w' : world) (arch : Arch) : Prop :=
  ∃ qemu, ∀ c, c ∈ cases → runs_on arch c = true → earned arch qemu c w w'.

Lemma all_earned_widen cases w0 w w' w3 arch :
  grows w0 w → grows w' w3 → all_earned cases w w' arch → all_earned cases w0 w3 arch.
Proof. intros H0 H3 [qemu H]. exists qemu. eauto using earned_widen. Qed.

Lemma finish_exit_0 arches p f w w' : finish arches p f w = (Raise (SystemExit 0), w') → f = 0.
Proof. unfold finish. destruct (Nat.eqb_spec f 0); [done|]. by intros [= ]. Qed.

Lemma prepare_logs environ arches cases : only no_boot (prepare environ arches cases).
Proof.
  unfold prepare. apply only_bind; [apply probe_tools_logs|intros [[qemus lld] clang]].
  apply only_bind; [apply check_arch_free_logs|intros sealed]. destruct (negb sealed); [apply only_raise|].
  do 3 (apply only_bind; [apply print_logs|intros _]). apply only_bind; [apply announce_logs|intros _].
  apply only_bind; [apply print_logs|intros _]. apply only_bind; [apply blade_phase_logs|intros [held blade]].
  apply only_bind; [apply tc_logs|intros T; apply only_ret].
Qed.

Lemma prepare_no_exit_0 environ arches cases : raises no_exit_0 (prepare environ arches cases).
Proof.
  unfold prepare. apply raises_bind; [apply probe_tools_no_exit_0|intros [[qemus lld] clang]].
  apply raises_bind; [apply check_arch_free_no_exit_0|intros sealed].
  destruct (negb sealed); [by apply raises_raise|].
  do 3 (apply raises_bind; [apply raises_print|intros _]).
  apply raises_bind; [eapply raises_weaken; [apply no_exit_no_exit_0|apply announce_no_exit]|intros _].
  apply raises_bind; [apply raises_print|intros _].
  apply raises_bind; [apply blade_phase_no_exit_0|intros [held blade]].
  apply raises_bind; [apply tc_no_exit_0|intros T; apply raises_ret].
Qed.

(** What is chosen is what the options select. *)
Lemma choose_selects a w arches cases w' :
  choose a w = (Ok (arches, cases), w') →
  w' = w ∧ arches = select_arches ARCHES (o_arch a) ∧
  select_cases TEST_CASES (o_cases a) = Selected cases.
Proof.
  unfold choose. case_bool_decide; [by intros [= ]|].
  destruct (select_arches ARCHES (o_arch a)); [by intros [= ]|].
  destruct (select_cases TEST_CASES (o_cases a)) as [cs|names]; [by intros [= <- <- <-]|].
  unfold mbind, M_bind. destruct (for_each_told (unknown_case TEST_CASES) names w) as (w1 & -> & _). by intros [= ].
Qed.

Lemma choose_refuses a w :
  (o_jobs a < 1)%Z ∨ select_arches ARCHES (o_arch a) = [] ∨
    (∃ names, select_cases TEST_CASES (o_cases a) = Unknown names) →
  ∃ w', choose a w = (Raise (SystemExit 2), w') ∧ w_host w' = w_host w ∧
        ∃ l, w_log w' = w_log w ++ (PrintErr <$> l).
Proof.
  intros Hu. unfold choose.
  case_bool_decide as Hj; [eexists; split_and!; [reflexivity|done|]; by exists [bad_jobs (o_jobs a)]|].
  destruct (select_arches ARCHES (o_arch a)) as [|arch arches].
  { eexists. split_and!; [reflexivity|done|]. by exists [unknown_arch ARCHES (default "" (o_arch a))]. }
  destruct Hu as [?|[?|[names Hn]]]; try done. rewrite Hn.
  unfold mbind, M_bind.
  destruct (for_each_told (unknown_case TEST_CASES) names w) as (w1 & E & Hh).
  destruct (for_each_told_log (unknown_case TEST_CASES) names w) as (w1' & E' & Hl).
  rewrite E in *. injection E' as <-. exists w1. split_and!; [done|done|]. eauto.
Qed.

Lemma choose_no_exit_0 a : raises no_exit_0 (choose a).
Proof. unfold choose. raises_walk. Qed.

Lemma choose_logs a : only no_boot (choose a).
Proof. unfold choose. only_walk; exact I. Qed.
End green.

(** ** Lemmas: selection *)

Lemma known_by_name table w : known table w = true → is_Some (by_name table w) .
Proof.
  unfold known, by_name. rewrite bool_decide_eq_true, list_elem_of_fmap. intros (c & -> & Hc).
  apply last_is_Some. intros Hn.
  assert (c ∈ filter (λ c', case_key c' = case_key c) table) as Hin by (by apply list_elem_of_filter).
  rewrite Hn in Hin. by apply elem_of_nil in Hin.
Qed.

Lemma by_name_spec table w c : by_name table w = Some c → c ∈ table ∧ case_key c = w.
Proof.
  unfold by_name. intros Hl.
  assert (c ∈ filter (λ c, case_key c = w) table) as Hin.
  { apply last_Some in Hl as (l & ->). set_solver. }
  by apply list_elem_of_filter in Hin as [??].
Qed.

Lemma omap_by_name table ws :
  Forall (λ w, known table w = true) ws → case_key <$> omap (by_name table) ws = ws.
Proof.
  induction 1 as [|w ws Hw _ IH]; [done|]. cbn.
  destruct (known_by_name table w Hw) as [c Hc]. rewrite Hc. cbn. rewrite IH.
  by apply by_name_spec in Hc as [_ ->].
Qed.


(** ** Properties *)

(** C26. [--case] selects what it names: either every wanted name is a table key,
    and the selection is one case of the table per distinct name, in the order
    of the command line; or it is refused with all the names that are no key. *)
Theorem selection_exact (table : list Case) (values : list string) :
  values ≠ [] →
  match select_cases table (Some values) with
  | Selected cases =>
      case_key <$> cases = once (wanted_names values) ∧ NoDup (case_key <$> cases) ∧
      Forall (λ c, c ∈ table) cases
  | Unknown names =>
      names ≠ [] ∧ ∀ w, w ∈ names ↔ w ∈ wanted_names values ∧ w ∉ (case_key <$> table)
  end.
Proof.
  intros Hv. unfold select_cases. destruct values as [|v vs]; [done|]. clear Hv.
  set (wanted := wanted_names (v :: vs)).
  assert (∀ w, w ∈ filter (λ w, Is_true (negb (known table w))) wanted ↔
               w ∈ wanted ∧ w ∉ (case_key <$> table)) as Hf.
  { intros w. rewrite list_elem_of_filter. unfold known. rewrite <-(bool_decide_not (w ∈ _)), bool_decide_spec.
    tauto. }
  destruct (filter _ wanted) as [|u us] eqn:E.
  - assert (Forall (λ w, known table w = true) (once wanted)) as Hk.
    { apply list.Forall_forall. intros w Hw. unfold once in Hw. apply elem_of_append_new_all in Hw as [Hw|Hw];
        [by apply elem_of_nil in Hw|].
      unfold known. apply bool_decide_eq_true. apply dec_stable. intros Hn.
      assert (w ∈ []) as Hin by (by apply Hf). by apply elem_of_nil in Hin. }
    rewrite (omap_by_name _ _ Hk). split_and!; [done|apply NoDup_append_new_all; constructor|].
    apply list.Forall_forall. intros c Hc. apply list_elem_of_omap in Hc as (w & _ & Hc).
    by apply by_name_spec in Hc as [? _].
  - split; [done|]. exact Hf.
Qed.

(** ** Witnesses: a machine with every tool *)

Definition tooled : fs :=
  FS [] ["/bin/qemu-system-riscv32"; "/bin/qemu-system-aarch64"; "/bin/ld.lld"; "/bin/clang"; "/bin/sawc"].
Lemma selection_exact_witness :
  case_key <$> [@case_trap_fault sample_repo; @case_uart_echo_pl011 sample_repo] = ["trap_fault"; "uart_echo_pl011"].
Proof.
  pose proof (selection_exact (@TEST_CASES sample_repo) ["trap-fault, uart-echo-pl011"; "trap_fault"]) as H.
  specialize (H ltac:(done)).
  change (case_key <$> [@case_trap_fault sample_repo; @case_uart_echo_pl011 sample_repo] =
          once (wanted_names ["trap-fault, uart-echo-pl011"; "trap_fault"])).
  match type of H with match ?s with _ => _ end =>
    assert (s = Selected [@case_trap_fault sample_repo; @case_uart_echo_pl011 sample_repo]) as E
      by (vm_compute; reflexivity) end.
  rewrite E in H. exact (proj1 H).
Defined.

End Main.
