(* ===== verification/Jobs.v ===== *)
(** * The harness with [-j N] (tools/sos_runner.py: [_run_arch] and [main])

    The whole of a run on the [virt] board, with its package phase and its rows
    on a pool of workers: a relation between worlds, since the interleaving is
    not the program's to choose.  With one worker it is the function of
    [Main.serial_main]; with any number a zero exit is earned. *)

From Stdlib Require Import Ascii.
From S2P Require Import Prelude PyStr PyPath Arches Case Check RegionTable CasesA Host SampleHost.
From S2P Require Import Toolchain Build BuildPlan MapOrdered Threads RunArch CaseTable Parallel ArchScan Main.
From stdpp Require Import base list sets relations strings numbers option.

Open Scope nat_scope.
Open Scope py_scope.

Module Jobs.
Import Check RegionTable Toolchain Build BuildPlan MapOrdered Threads RunArch CaseTable Parallel Main.

(** ** Computations with more than one outcome

    [m w r w']: from [w], [m] may end with [r] at [w']. *)
Section may.
Context `{Hst : Host}.

Definition May (A : Type) : Type := world → res A → world → Prop.

#[global] Instance may_ret : MRet May := λ A a w r w', r = Ok a ∧ w' = w.
#[global] Instance may_bind : MBind May := λ A B f m w r w',
  (∃ a w1, m w (Ok a) w1 ∧ f a w1 r w') ∨ (∃ e, m w (Raise e) w' ∧ r = Raise e).

(** A computation with one outcome. *)
Definition det {A} (m : M A) : May A := λ w r w', m w = (r, w').

(** The results [_map_ordered] yields to a loop over it, or the exception that
    ends it. *)
Definition mapped {A B} (code : A → prog B) (jobs : nat) (stop : list B → bool)
    (say : nat → B → list string) (items : list A) : May (list B) := λ w r w',
  ∃ ys o, map_ordered code jobs stop say items w (ys, o) w' ∧
          r = match o with Failed e => Raise e | _ => Ok ys end.

(** What [d] does is one of the outcomes of [m], and with one worker the only
    one. *)
Definition serial_of {A} (jobs : nat) (m : May A) (d : M A) : Prop := ∀ w r w',
  (d w = (r, w') → m w r w') ∧ (jobs ≤ 1 → m w r w' → d w = (r, w')).

Lemma serial_of_det {A} jobs (d : M A) : serial_of jobs (det d) d.
Proof. done. Qed.

Lemma serial_of_ret {A} jobs (a : A) : serial_of jobs (mret a) (mret a).
Proof. intros w r w'. unfold mret, may_ret, M_ret. naive_solver. Qed.

Lemma serial_of_bind {A B} jobs (m : May A) d (f : A → May B) g :
  serial_of jobs m d → (∀ a, serial_of jobs (f a) (g a)) → serial_of jobs (m ≫= f) (d ≫= g).
Proof.
  intros Hm Hf w r w'. rewrite M_bind_unfold. split.
  - destruct (d w) as [[a|e] w1] eqn:Ed; apply Hm in Ed.
    + intros H. left. exists a, w1. split; [done|]. by apply Hf.
    + intros [= <- <-]. right. by exists e.
  - intros Hj [(a & w1 & H1 & H2)|(e & H1 & ->)]; apply Hm in H1 as ->; try done. by apply Hf.
Qed.

(** Every outcome adds to the log, and raises only what satisfies [E]. *)
Definition adds {A} (m : May A) : Prop := ∀ w r w', m w r w' → grows w w'.
Definition may_raise {A} (E : exn → Prop) (m : May A) : Prop := ∀ w e w', m w (Raise e) w' → E e.

Lemma adds_det {A} P (d : M A) : only P d → adds (det d).
Proof. intros Hd w r w' E. by eapply only_grows. Qed.

Lemma adds_ret {A} (a : A) : adds (mret a).
Proof. intros w r w' [_ ->]. apply grows_refl. Qed.

Lemma adds_bind {A B} (m : May A) (f : A → May B) : adds m → (∀ a, adds (f a)) → adds (m ≫= f).
Proof.
  intros Hm Hf w r w' [(a & w1 & H1 & H2)|(e & H1 & _)]; [|by eapply Hm].
  eapply grows_trans; [by eapply Hm|by eapply Hf].
Qed.

Lemma may_raise_det {A} E (d : M A) : raises E d → may_raise E (det d).
Proof. intros Hd w e w' H. by eapply Hd. Qed.

Lemma may_raise_ret {A} E (a : A) : may_raise E (mret a).
Proof. by intros w e w' [? _]. Qed.

Lemma may_raise_bind {A B} E (m : May A) (f : A → May B) :
  may_raise E m → (∀ a, may_raise E (f a)) → may_raise E (m ≫= f).
Proof. intros Hm Hf w e w' [(a & w1 & H1 & H2)|(e' & H1 & [= <-])]; [by eapply Hf|by eapply Hm]. Qed.

(** Every action of every outcome satisfies [P]. *)
Definition may_only {A} (P : action → Prop) (m : May A) : Prop := ∀ w r w', m w r w' → performed P w w'.

Lemma may_only_det {A} P (d : M A) : only P d → may_only P (det d).
Proof. intros Hd w r w' E. specialize (Hd w). unfold det in E. by rewrite E in Hd. Qed.

Lemma may_only_ret {A} P (a : A) : may_only P (mret a).
Proof. intros w r w' [_ ->]. apply performed_refl. Qed.

Lemma may_only_bind {A B} P (m : May A) (f : A → May B) :
  may_only P m → (∀ a, may_only P (f a)) → may_only P (m ≫= f).
Proof.
  intros Hm Hf w r w' [(a & w1 & H1 & H2)|(e & H1 & _)]; [|by eapply Hm].
  eapply performed_trans; [by eapply Hm|by eapply Hf].
Qed.

(** Past a part that cannot raise what the whole raises. *)
Lemma may_bind_past {A B} E (m : May A) (f : A → May B) w e w' :
  may_raise E m → adds m → ¬ E e → (m ≫= f) w (Raise e) w' →
  ∃ a w1, m w (Ok a) w1 ∧ grows w w1 ∧ f a w1 (Raise e) w'.
Proof.
  intros Hm Ha He [(a & w1 & H1 & H2)|(e' & H1 & [= <-])].
  - exists a, w1. eauto.
  - exfalso. by eapply He, Hm.
Qed.

Lemma may_bind_Ok {A B} (m : May A) (f : A → May B) w b w' :
  (m ≫= f) w (Ok b) w' → ∃ a w1, m w (Ok a) w1 ∧ f a w1 (Ok b) w'.
Proof. intros [(a & w1 & H1 & H2)|(e & _ & [=])]. eauto. Qed.

Section mapped.
Context {A B : Type} (code : A → prog B) (jobs : nat) (stop : list B → bool) (say : nat → B → list string).
Context (items : list A).
Hypothesis code_silent : ∀ a, a ∈ items → all_steps (λ _ m, only silent m) (code a).

Lemma mapped_adds : adds (mapped code jobs stop say items).
Proof.
  intros w r w' (ys & o & Hm & _).
  apply (map_ordered_pays _ _ _ _ (λ _ _ _, True)) in Hm as [(l & El & _) _];
    [by exists l|done|done|intros; by apply pledges_True].
Qed.

Lemma mapped_only P :
  (∀ a, a ∈ items → all_steps (λ _ m, only P m) (code a)) → (∀ line, P (Print line)) →
  may_only P (mapped code jobs stop say items).
Proof. intros Hc Ht w r w' (ys & o & Hm & _). by eapply map_ordered_performed. Qed.

Lemma mapped_raise E : (∀ a, a ∈ items → safe E (code a)) → may_raise E (mapped code jobs stop say items).
Proof.
  intros Hs w e w' (ys & o & Hm & He).
  apply (map_ordered_pays _ _ _ _ (λ _ r _, res_raises E r)) in Hm as (_ & _ & Ho & _);
    [|done|done|intros a w1 Ha _; by apply Hs].
  destruct o as [| |e']; [done..|]. injection He as <-. destruct Ho as (a & _ & Ha). by apply Ha.
Qed.

(** A loop that is never left early has a result for every item, as pledged. *)
Lemma mapped_all (Q : A → res B → world → Prop) w ys w' :
  (∀ ys, stop ys = false) → (∀ a r w w', grows w w' → Q a r w → Q a r w') →
  (∀ a w1, a ∈ items → grows w w1 → pledges (Q a) (code a) w1) →
  mapped code jobs stop say items w (Ok ys) w' → Forall2 (λ a b, Q a (Ok b) w') items ys.
Proof.
  intros Hstop HQ Hp (ys' & o & Hm & He).
  apply (map_ordered_pays _ _ _ _ Q) in Hm as (_ & Hy & Ho & _); [|done..].
  destruct o as [| |e]; [injection He as ->|cbn in Ho; by rewrite Hstop in Ho|done].
  cbn in Ho, Hy. apply Forall2_same_length_lookup_2; [done|]. intros k a b Ha Hb.
  destruct (Hy k b Hb) as (a' & Ha' & HQ'). congruence.
Qed.
End mapped.
End may.

(** ** The run *)

Section run.
Context `{Hst : Host} `{R : Repo} `{P : ProcessEnv} `{C : Tty}.

(** [_build_root_image], step by step. *)
Definition root_image_worker (environ : env) (T : toolchain) (blade_bin clang : string) (arch : Arch)
    (pkg_dir : string) : prog string :=
  let dir := out_dir pkg_dir arch in
  before ← act (isdir dir);
  (if before : bool then
     stale ← act (listdir dir);
     each (filter (λ f, Is_true (is_sosimg f)) stale) (λ f, act (perform (RemoveFile (join2 dir f))))
   else mret tt) ;;
  act (_run [blade_bin; "build"; "--force"; "--target"; a_triple arch]
         (Some pkg_dir) (Some (_blade_env environ T clang))) ;;
  after ← act (isdir dir);
  images ← (if after : bool then
              found ← act (listdir dir); mret (filter (λ f, Is_true (is_sosimg f)) found)
            else mret []);
  match images with
  | [image] => mret (join2 dir image)
  | _ => Done (Raise (one_image_expected dir images))
  end.

(** [build_pkg], step by step. *)
Definition pkg_worker (environ : env) (T : toolchain) (blade_bin clang : string) (arch : Arch)
    (pkg : string) : prog ((string * N) + string) :=
  catching_tool (
    image ← root_image_worker environ T blade_bin clang arch pkg;
    size ← act (getsize image);
    mret (relpath image REPO_ROOT, size)).

(** The loop over the packages leaves at the first that failed. *)
Definition pkg_failure (rs : list ((string * N) + string)) : option string :=
  match list.last rs with Some (inr msg) => Some msg | _ => None end.
Definition pkg_stop (rs : list ((string * N) + string)) : bool := bool_decide (is_Some (pkg_failure rs)).
Definition pkg_say (i : nat) (r : (string * N) + string) : list string :=
  match r with
  | inl (rel, size) => ["  " +:+ rel +:+ "  (" +:+ py_str size +:+ " bytes)"]
  | inr _ => []
  end.

Definition build_pkgs (jobs : nat) (environ : env) (T : toolchain) (blade_bin clang : string) (arch : Arch)
    (pkgs : list string) : May (option string) :=
  rs ← mapped (pkg_worker environ T blade_bin clang arch) jobs pkg_stop pkg_say pkgs;
  mret (pkg_failure rs).

Definition run_rows (jobs : nat) (T : toolchain) (arch : Arch) (qemu lld clang : string)
    (shared_objs : list string) (cases excluded : list Case) : May (nat * nat) :=
  images ← det (map_M (find_images arch) cases);
  det (print_excluded arch excluded) ;;
  vs ← mapped (worker T arch qemu lld clang shared_objs) jobs never (row_lines (length cases))
         (zip cases images);
  det (print "") ;;
  mret (n_ok vs, n_failed vs).

Definition _run_arch (jobs : nat) (environ : env) (T : toolchain) (arch : Arch)
    (qemu lld clang blade_bin : string) (selected_cases : list Case) : May (nat * nat) :=
  det (print (arch_header arch qemu)) ;;
  let '(cases, excluded) := split_cases arch selected_cases in
  built ← det (catch_tool (_build_shared arch clang));
  match built with
  | inr msg => det (print_err (shared_failed arch msg)) ;; mret (0, length cases)
  | inl shared_objs =>
      build_error ← build_pkgs jobs environ T blade_bin clang arch (root_pkgs_of cases);
      match build_error with
      | Some msg => det (print_err (root_image_failed arch msg)) ;; mret (0, length cases)
      | None => run_rows jobs T arch qemu lld clang shared_objs cases excluded
      end
  end.

Fixpoint run_all (jobs : nat) (environ : env) (g : rig) (cases : list Case) (arches : list Arch)
    (passed failed : nat) : May (nat * nat) :=
  match arches with
  | [] => mret (passed, failed)
  | arch :: arches =>
      qemu ← det (lift (qemu_of (g_qemus g) arch));
      '(p, f) ← _run_arch jobs environ (g_tc g) arch qemu (g_lld g) (g_clang g) (g_blade g) cases;
      run_all jobs environ g cases arches (passed + p) (failed + f)
  end.

Definition run_selected (jobs : nat) (environ : env) (arches : list Arch) (cases : list Case) : May unit :=
  g ← det (prepare environ arches cases);
  '(passed, failed) ← run_all jobs environ g cases arches 0 0;
  det (finish arches passed failed).

Definition main (smoke : args → M unit) (environ : env) (a : args) : May unit :=
  if negb (String.eqb (o_board a) "virt") then
    if negb (String.eqb (o_board a) "esp32c3") then
      det (print_err (unknown_board (o_board a)) ;; raise (SystemExit 2))
    else det (smoke a)
  else
    '(arches, cases) ← det (choose a);
    run_selected (Z.to_nat (o_jobs a)) environ arches cases.
End run.

(** ** Lemmas: one worker *)

Section serial.
Context `{Hst : Host} `{R : Repo} `{P : ProcessEnv} `{C : Tty}.

Lemma bind_same {A B} (m m' : M A) (f g : A → M B) w :
  m w = m' w → (∀ a w, f a w = g a w) → (m ≫= f) w = (m' ≫= g) w.
Proof. intros Hm Hf. rewrite !M_bind_unfold, Hm. by destruct (m' w) as [[a|e] w1]. Qed.

(** A step of a worker and the step of the source it is. *)
Lemma denote_step {A B} (m : M A) (k : A → prog B) (g : A → M B) w :
  (∀ a w, denote (k a) w = g a w) → denote (act m ≫= k) w = (m ≫= g) w.
Proof. intros Hk. rewrite denote_bind. apply bind_same; [apply denote_act|done]. Qed.

Lemma denote_then {A B} (p : prog A) (m : M A) (k : A → prog B) (g : A → M B) w :
  (∀ w, denote p w = m w) → (∀ a w, denote (k a) w = g a w) → denote (p ≫= k) w = (m ≫= g) w.
Proof. intros Hp Hk. rewrite denote_bind. by apply bind_same. Qed.

Lemma root_image_worker_denote environ T blade clang arch pkg w :
  denote (root_image_worker environ T blade clang arch pkg) w =
  _build_root_image environ T blade pkg arch clang w.
Proof.
  unfold root_image_worker, _build_root_image. apply denote_step. intros before w1. apply denote_then.
  { intros w2. destruct before; [|done]. apply denote_step. intros stale w3. apply denote_each.
    intros f w4. apply denote_act. }
  intros [] w2. apply denote_step. intros [] w3. apply denote_step. intros after w4. apply denote_then.
  { intros w5. destruct after; [|done]. by apply denote_step. }
  intros images w5. by destruct images as [|image [|]].
Qed.

Lemma pkg_worker_denote environ T blade clang arch pkg w :
  denote (pkg_worker environ T blade clang arch pkg) w = build_pkg environ T blade clang arch pkg w.
Proof.
  unfold pkg_worker, build_pkg. rewrite denote_catching_tool. unfold catch_tool.
  match goal with |- match ?a with _ => _ end = match ?b with _ => _ end => assert (a = b) as -> end; [|done].
  apply denote_then; [intros; apply root_image_worker_denote|]. intros image w1. by apply denote_step.
Qed.

Lemma pkg_failure_last rs r :
  pkg_failure (rs ++ [r]) = match r with inr msg => Some msg | inl _ => None end.
Proof. unfold pkg_failure. rewrite last_snoc. by destruct r. Qed.

Lemma build_pkgs_serial environ T blade clang arch pkgs rs w :
  pkg_failure rs = None →
  RunArch.build_pkgs environ T blade clang arch pkgs w =
  let '((ys, o), w') := serial (pkg_worker environ T blade clang arch) pkg_stop pkg_say rs pkgs w in
  (match o with Failed e => Raise e | _ => Ok (pkg_failure ys) end, w').
Proof.
  revert rs w. induction pkgs as [|pkg pkgs IH]; intros rs w Hrs; cbn [serial RunArch.build_pkgs]; [by rewrite <-Hrs|].
  rewrite M_bind_unfold, pkg_worker_denote. destruct (build_pkg _ _ _ _ _ _ w) as [[[[rel size]|msg]|e] w1]; [| |done].
  - unfold pkg_stop at 1. rewrite pkg_failure_last. cbn [bool_decide]. rewrite bool_decide_eq_false_2 by (by intros [??]).
    rewrite M_bind_unfold. by apply IH, pkg_failure_last.
  - unfold pkg_stop at 1. rewrite pkg_failure_last, bool_decide_eq_true_2 by (by eexists).
    rewrite pkg_failure_last. unfold told. cbn. rewrite app_nil_r. by destruct w1.
Qed.

(** A loop over a pool, against the loop that takes the workers in turn. *)
Lemma mapped_serial {A B X} (code : A → prog B) jobs stop say items (f : List.list B → May X) (d : M X) :
  0 < jobs →
  (∀ w, let '((ys, o), w1) := serial code stop say [] items w in
        match o with
        | Failed e => d w = (Raise e, w1)
        | _ => serial_of jobs (λ _, f ys w1) (λ _, d w)
        end) →
  serial_of jobs (mapped code jobs stop say items ≫= f) d.
Proof.
  intros Hj Hd w r w'. specialize (Hd w). destruct (serial code stop say [] items w) as [[ys o] w1] eqn:Es.
  assert (mapped code jobs stop say items w (match o with Failed e => Raise e | _ => Ok ys end) w1) as Hm.
  { exists ys, o. split; [by apply serial_map_ordered|done]. }
  assert (jobs ≤ 1 → ∀ r w', mapped code jobs stop say items w r w' →
            w' = w1 ∧ r = match o with Failed e => Raise e | _ => Ok ys end) as Hone.
  { intros Hle r' w2 (ys' & o' & H & ->). unfold map_ordered in H. apply Nat.leb_le in Hle. rewrite Hle in H.
    cbn [orb] in H. rewrite Es in H. by injection H as <- <- <-. }
  destruct o as [| |e].
  3: { rewrite Hd. split; [intros [= <- <-]; right; by exists e|].
       intros Hle [(a & w2 & H1 & _)|(e' & H1 & ->)]; by apply Hone in H1 as [-> [= ->]]. }
  all: destruct (Hd w r w') as [Hd1 Hd2]; split; [intros H; left; exists ys, w1; split; [done|by apply Hd1]|].
  all: intros Hle [(a & w2 & H1 & H2)|(e' & H1 & ->)]; apply Hone in H1 as [-> H1]; try done.
  all: injection H1 as ->; by apply Hd2.
Qed.

Lemma build_pkgs_inline jobs environ T blade clang arch pkgs :
  0 < jobs →
  serial_of jobs (build_pkgs jobs environ T blade clang arch pkgs)
    (RunArch.build_pkgs environ T blade clang arch pkgs).
Proof.
  intros Hj. apply mapped_serial; [done|]. intros w.
  rewrite (build_pkgs_serial environ T blade clang arch pkgs [] w) by done.
  destruct (serial _ _ _ _ _ w) as [[ys o] w1].
  destruct o; [| |done]; intros ? r w'; unfold mret, may_ret; naive_solver.
Qed.

Lemma run_rows_inline jobs T arch qemu lld clang objs cases excluded :
  0 < jobs →
  serial_of jobs (run_rows jobs T arch qemu lld clang objs cases excluded)
    (RunArch.run_rows T arch qemu lld clang objs cases excluded).
Proof.
  intros Hj. unfold run_rows, RunArch.run_rows. apply serial_of_bind; [apply serial_of_det|intros images].
  apply serial_of_bind; [apply serial_of_det|intros _]. apply mapped_serial; [done|]. intros w.
  pose proof (run_cases_serial T arch qemu lld clang objs (length cases) (zip cases images) [] 0 0 w) as Hs.
  rewrite M_bind_unfold. destruct (serial _ _ _ _ _ w) as [[vs o] w1].
  destruct Hs as (new & -> & Ho & E). cbn [app length] in E |- *. rewrite E.
  destruct o as [| |e]; [|done|done]. intros ? r w'.
  apply (serial_of_bind jobs (det (print "")) (print "")); [apply serial_of_det|intros _; apply serial_of_ret].
Qed.

Lemma run_arch_inline jobs environ T arch qemu lld clang blade selected :
  0 < jobs →
  serial_of jobs (_run_arch jobs environ T arch qemu lld clang blade selected)
    (RunArch.serial_arch environ T arch qemu lld clang blade selected).
Proof.
  intros Hj. unfold _run_arch, RunArch.serial_arch. apply serial_of_bind; [apply serial_of_det|intros _].
  destruct (split_cases arch selected) as [cases excluded].
  apply serial_of_bind; [apply serial_of_det|intros [objs|msg]].
  - apply serial_of_bind; [by apply build_pkgs_inline|intros [msg|]]; [|by apply run_rows_inline].
    apply serial_of_bind; [apply serial_of_det|intros _; apply serial_of_ret].
  - apply serial_of_bind; [apply serial_of_det|intros _; apply serial_of_ret].
Qed.

Lemma run_all_inline jobs environ g cases arches p f :
  0 < jobs →
  serial_of jobs (run_all jobs environ g cases arches p f)
    (Main.run_all environ (g_tc g) (g_qemus g) (g_lld g) (g_clang g) (g_blade g) cases arches p f).
Proof.
  intros Hj. revert p f. induction arches as [|arch arches IH]; intros p f; [apply serial_of_ret|].
  cbn [run_all Main.run_all]. apply serial_of_bind; [apply serial_of_det|intros qemu].
  apply serial_of_bind; [by apply run_arch_inline|intros [p1 f1]; apply IH].
Qed.

Lemma main_inline smoke environ a :
  serial_of (Z.to_nat (o_jobs a)) (main smoke environ a) (Main.serial_main smoke environ a).
Proof.
  unfold main, Main.serial_main. destruct (negb _); [by destruct (negb _); apply serial_of_det|].
  destruct (decide (o_jobs a < 1)%Z) as [Hj|Hj].
  - intros w r w'. destruct (choose_refuses a w (or_introl Hj)) as (w1 & E & _).
    rewrite (M_bind_Raise _ _ _ _ _ E). split.
    + intros [= <- <-]. right. by exists (SystemExit 2).
    + intros _ [(c & w2 & H1 & _)|(e & H1 & ->)]; unfold det in H1; rewrite E in H1; [done|by injection H1 as <- <-].
  - apply serial_of_bind; [apply serial_of_det|intros [arches cases]]. unfold run_selected, Main.run_selected.
    apply serial_of_bind; [apply serial_of_det|intros g]. apply serial_of_bind; [apply run_all_inline; lia|].
    intros [p f]. apply serial_of_det.
Qed.
End serial.

(** ** Lemmas: any number of workers *)

Section green.
Context `{Hst : Host} `{R : Repo} `{P : ProcessEnv} `{C : Tty}.

Lemma do_action_no_exit a : raises no_exit (do_action a).
Proof. destruct a; cbn [do_action]; unfold _run, run_failed; raises_walk. Qed.

Lemma plan_thread_safe {B} E plan (k : res unit → prog B) :
  (∀ a, raises E (do_action a)) → (∀ r, res_raises E r → safe E (k r)) → safe E (plan_thread plan k).
Proof.
  intros Ha Hk. induction plan as [|a plan IH]; cbn; [by apply Hk|]. apply safe_do. intros w.
  destruct (do_action a w) as [[u|e] w1] eqn:Ea; cbn; [done|]. apply Hk. intros e' [= <-]. by eapply Ha.
Qed.

Lemma worker_no_exit T arch qemu lld clang objs ci : safe no_exit (worker T arch qemu lld clang objs ci).
Proof.
  unfold worker. destruct (complete _ _ _).
  - apply plan_thread_safe; [apply do_action_no_exit|]. intros [u|e] He.
    + apply safe_do. intros w. destruct (boot _ _ w) as [[[code out]|e] w1] eqn:Eb; cbn.
      * intros w2. cbn. unfold judge. apply res_raises_bind; [apply check_no_exit|]. by intros [[] reason] e.
      * apply safe_raise. eapply (raises_OSError_boot no_exit); [done|exact Eb].
    + specialize (He e eq_refl). by destruct e; first [apply safe_raise|intros w e'].
  - apply safe_act. apply run_case_no_exit.
Qed.

Lemma root_image_worker_steps (Q : ∀ X, M X → Prop) environ T blade clang arch pkg :
  (∀ d, Q _ (isdir d)) → (∀ d, Q _ (listdir d)) → (∀ f, Q _ (perform (RemoveFile f))) →
  (∀ argv cwd e, Q _ (_run argv cwd e)) → all_steps Q (root_image_worker environ T blade clang arch pkg).
Proof.
  intros Hd Hl Hp Hr. unfold root_image_worker.
  apply steps_bind; [by apply steps_act|intros before]. apply steps_bind; [|intros _].
  { destruct before; [|apply steps_ret]. apply steps_bind; [by apply steps_act|intros stale].
    apply steps_each. intros f. by apply steps_act. }
  apply steps_bind; [by apply steps_act|intros _]. apply steps_bind; [by apply steps_act|intros after].
  apply steps_bind; [|intros images; destruct images as [|image [|]]; done].
  destruct after; [|apply steps_ret]. apply steps_bind; [by apply steps_act|intros found; apply steps_ret].
Qed.

Lemma pkg_worker_silent environ T blade clang arch pkg :
  all_steps (λ _ m, only silent m) (pkg_worker environ T blade clang arch pkg).
Proof.
  unfold pkg_worker. apply steps_catching_tool. apply steps_bind; [|intros image].
  - apply root_image_worker_steps; intros; unfold isdir, _run; only_walk; exact I.
  - apply steps_bind; [apply steps_act; only_walk|intros size; apply steps_ret].
Qed.

Lemma pkg_worker_no_exit environ T blade clang arch pkg :
  safe no_exit (pkg_worker environ T blade clang arch pkg).
Proof.
  unfold pkg_worker, root_image_worker. apply safe_catching_tool. apply safe_bind; [|intros image].
  2: { apply safe_bind; [apply safe_act; raises_walk|intros size; apply safe_ret]. }
  apply safe_bind; [apply safe_act; unfold isdir; raises_walk|intros before]. apply safe_bind; [|intros _].
  { destruct before; [|apply safe_ret]. apply safe_bind; [apply safe_act; raises_walk|intros stale].
    apply safe_each. intros f. apply safe_act. raises_walk. }
  apply safe_bind; [apply safe_act; unfold _run, run_failed; raises_walk|intros _].
  apply safe_bind; [apply safe_act; unfold isdir; raises_walk|intros after].
  apply safe_bind; [|intros images; destruct images as [|image [|]]; first [apply safe_ret|by apply safe_raise]].
  destruct after; [|apply safe_ret]. apply safe_bind; [apply safe_act; raises_walk|intros found; apply safe_ret].
Qed.

Lemma build_pkgs_adds jobs environ T blade clang arch pkgs : adds (build_pkgs jobs environ T blade clang arch pkgs).
Proof. apply adds_bind; [apply mapped_adds; intros; apply pkg_worker_silent|intros rs; apply adds_ret]. Qed.

Lemma run_rows_adds jobs T arch qemu lld clang objs cases excluded :
  adds (run_rows jobs T arch qemu lld clang objs cases excluded).
Proof.
  apply adds_bind; [eapply adds_det, find_images_silent|intros images].
  apply adds_bind; [apply (adds_det (λ _, True)); unfold print_excluded; only_walk; exact I|intros _].
  apply adds_bind; [apply mapped_adds; intros; apply worker_silent|intros vs].
  apply adds_bind; [by apply (adds_det (λ _, True)), only_print|intros _; apply adds_ret].
Qed.

Lemma run_arch_adds jobs environ T arch qemu lld clang blade selected :
  adds (_run_arch jobs environ T arch qemu lld clang blade selected).
Proof.
  apply adds_bind; [by apply (adds_det (λ _, True)), only_print|intros _].
  destruct (split_cases arch selected) as [cases excluded].
  apply adds_bind; [eapply adds_det, only_catch_tool, build_shared_building|intros [objs|msg]].
  - apply adds_bind; [apply build_pkgs_adds|intros [msg|]]; [|apply run_rows_adds].
    apply adds_bind; [by apply (adds_det (λ _, True)), only_print_err|intros _; apply adds_ret].
  - apply adds_bind; [by apply (adds_det (λ _, True)), only_print_err|intros _; apply adds_ret].
Qed.

Lemma run_all_adds jobs environ g cases arches p f : adds (run_all jobs environ g cases arches p f).
Proof.
  revert p f. induction arches as [|arch arches IH]; intros p f; [apply adds_ret|]. cbn [run_all].
  apply adds_bind; [apply (adds_det (λ _, True)), only_lift|intros qemu].
  apply adds_bind; [apply run_arch_adds|intros [p1 f1]; apply IH].
Qed.

(** A package worker builds. *)
Lemma pkg_worker_only environ T blade clang arch pkg :
  all_steps (λ _ m, only build_action m) (pkg_worker environ T blade clang arch pkg).
Proof.
  unfold pkg_worker. apply steps_catching_tool. apply steps_bind; [|intros image].
  - apply root_image_worker_steps; intros; unfold isdir, _run; only_walk; exact I.
  - apply steps_bind; [apply steps_act; only_walk|intros size; apply steps_ret].
Qed.

Lemma jobs_rows_only jobs T arch qemu lld clang objs selected excluded :
  may_only (arch_action arch qemu selected)
    (run_rows jobs T arch qemu lld clang objs (filter (λ c, Is_true (runs_on arch c)) selected) excluded).
Proof.
  unfold run_rows. apply may_only_bind; [apply may_only_det; unfold find_images, _root_image_path; only_walk|intros images].
  apply may_only_bind; [apply may_only_det; unfold print_excluded; only_walk; exact I|intros _].
  apply may_only_bind; [|intros vs; apply may_only_bind; [by apply may_only_det, only_print|intros _; apply may_only_ret]].
  apply mapped_only; [|done]. intros [c im] Hin.
  eapply steps_weaken; [|apply worker_only]. intros X m. apply only_weaken. intros a [Ha| ->]; [by destruct a|].
  apply elem_of_zip_l, list_elem_of_filter in Hin as [Hr Hin].
  exists c. split_and!; [done|by apply Is_true_true|done..].
Qed.

Lemma jobs_arch_only jobs environ T arch qemu lld clang blade selected :
  may_only (arch_action arch qemu selected) (_run_arch jobs environ T arch qemu lld clang blade selected).
Proof.
  assert (∀ a, build_action a → arch_action arch qemu selected a) as Hb by (by intros []).
  unfold _run_arch. apply may_only_bind; [by apply may_only_det, only_print|intros _].
  pose proof (runnable_filter arch selected) as Hrun.
  destruct (split_cases arch selected) as [cases excluded]. cbn in Hrun. subst cases.
  apply may_only_bind; [apply may_only_det, only_catch_tool; eapply only_weaken; [exact Hb|apply build_shared_building]|].
  intros [objs|msg].
  2: { apply may_only_bind; [by apply may_only_det, only_print_err|intros _; apply may_only_ret]. }
  apply may_only_bind; [|intros [msg|]; [|apply jobs_rows_only]].
  - apply may_only_bind; [|intros rs; apply may_only_ret]. apply mapped_only; [|done]. intros pkg _.
    eapply steps_weaken; [|apply pkg_worker_only]. intros X m. by apply only_weaken.
  - apply may_only_bind; [by apply may_only_det, only_print_err|intros _; apply may_only_ret].
Qed.

Lemma jobs_arch_no_exit jobs environ T arch qemu lld clang blade selected :
  may_raise no_exit (_run_arch jobs environ T arch qemu lld clang blade selected).
Proof.
  apply may_raise_bind; [apply may_raise_det, raises_print|intros _].
  destruct (split_cases arch selected) as [cases excluded].
  apply may_raise_bind; [apply may_raise_det; unfold _build_shared, run_cc, _run, run_failed; raises_walk|].
  intros [objs|msg].
  2: { apply may_raise_bind; [apply may_raise_det, raises_print_err|intros _; apply may_raise_ret]. }
  apply may_raise_bind.
  { apply may_raise_bind; [|intros rs; apply may_raise_ret].
    apply mapped_raise; [intros; apply pkg_worker_silent|intros; apply pkg_worker_no_exit]. }
  intros [msg|]; [apply may_raise_bind; [apply may_raise_det, raises_print_err|intros _; apply may_raise_ret]|].
  apply may_raise_bind; [apply may_raise_det; unfold find_images, _root_image_path; raises_walk|intros images].
  apply may_raise_bind; [apply may_raise_det; unfold print_excluded; raises_walk; apply tier_reason_no_exit|intros _].
  apply may_raise_bind; [|intros vs].
  { apply mapped_raise; [intros; apply worker_silent|intros; apply worker_no_exit]. }
  apply may_raise_bind; [apply may_raise_det, raises_print|intros _; apply may_raise_ret].
Qed.

Lemma jobs_all_no_exit jobs environ g cases arches p f : may_raise no_exit (run_all jobs environ g cases arches p f).
Proof.
  revert p f. induction arches as [|arch arches IH]; intros p f; [apply may_raise_ret|]. cbn [run_all].
  apply may_raise_bind; [apply may_raise_det, raises_lift, qemu_of_no_exit|intros qemu].
  apply may_raise_bind; [apply jobs_arch_no_exit|intros [p1 f1]; apply IH].
Qed.

(** Rows without a failure are all earned, each in the very run. *)
Lemma jobs_rows_earned jobs T arch qemu lld clang objs cases excluded w p w' :
  run_rows jobs T arch qemu lld clang objs cases excluded w (Ok (p, 0)) w' →
  Forall (λ c, earned arch qemu c w w') cases.
Proof.
  unfold run_rows. intros (images & w1 & E1 & E)%may_bind_Ok.
  apply may_bind_Ok in E as ([] & w2 & E2 & E). apply may_bind_Ok in E as (vs & w3 & E3 & E).
  apply may_bind_Ok in E as ([] & w4 & E4 & [E ->]). injection E as _ Hf. symmetry in Hf.
  assert (length images = length cases) as Hlen
    by (apply (yields_map_M (find_images arch) cases w); unfold det in E1; by rewrite E1).
  assert (grows w w2) as G2.
  { eapply grows_trans; [eapply only_grows; [apply find_images_silent|exact E1]|].
    eapply (only_grows (λ _, True)); [|exact E2]. unfold print_excluded. only_walk; exact I. }
  assert (grows w3 w4) as G4 by (eapply (only_grows (λ _, True)); [|exact E4]; by apply only_print).
  apply (mapped_all _ _ _ _ _ (λ ci _, worker_silent T arch qemu lld clang objs ci) (earned_pass arch qemu w2)) in E3;
    [|done|intros; by eapply earned_pass_grows|intros; by apply worker_pledges].
  rewrite <-(fst_zip cases images) by lia. apply Forall_fmap.
  clear E1 E2 E4 Hlen. revert Hf. induction E3 as [|ci v cis vs Hv _ IH]; [constructor|].
  rewrite n_failed_cons. destruct (v_ok v) eqn:Ev; [|done]. intros Hf. constructor; [|by apply IH].
  by eapply earned_widen, Hv.
Qed.

Lemma jobs_arch_earned jobs environ T arch qemu lld clang blade selected w p w' :
  _run_arch jobs environ T arch qemu lld clang blade selected w (Ok (p, 0)) w' →
  ∀ c, c ∈ selected → runs_on arch c = true → earned arch qemu c w w'.
Proof.
  intros E c Hc Hr. unfold _run_arch in E. apply may_bind_Ok in E as ([] & w1 & E1 & E).
  pose proof (runnable_filter arch selected) as Hrun.
  destruct (split_cases arch selected) as [cases excluded]. cbn in Hrun.
  assert (c ∈ cases) as Hin by (rewrite Hrun; apply list_elem_of_filter; by rewrite Hr).
  assert (0 < length cases) as Hl by (destruct cases; [by apply elem_of_nil in Hin|cbn; lia]).
  apply may_bind_Ok in E as ([objs|msg] & w2 & E2 & E).
  2: { apply may_bind_Ok in E as ([] & w3 & _ & [E _]). injection E. lia. }
  apply may_bind_Ok in E as ([msg|] & w3 & E3 & E).
  { apply may_bind_Ok in E as ([] & w4 & _ & [E _]). injection E. lia. }
  apply jobs_rows_earned in E. rewrite list.Forall_forall in E.
  apply (earned_widen _ _ _ w w3 w'); [|apply grows_refl|by apply E].
  eapply grows_trans; [eapply (only_grows (λ _, True)); [by apply only_print|exact E1]|].
  eapply grows_trans; [eapply (only_grows build_action); [|exact E2]; apply only_catch_tool; apply build_shared_building|].
  by eapply build_pkgs_adds.
Qed.

Lemma run_all_earned jobs environ g cases arches p f w P' F' w' :
  run_all jobs environ g cases arches p f w (Ok (P', F')) w' →
  f ≤ F' ∧ (F' = 0 → Forall (all_earned cases w w') arches).
Proof.
  revert p f w. induction arches as [|arch arches IH]; intros p f w.
  - intros [[= <- <-] ->]. split; [lia|constructor].
  - cbn [run_all]. intros (qemu & w1 & E0 & E)%may_bind_Ok. injection E0 as _ <-.
    apply may_bind_Ok in E as ([p1 f1] & w2 & E1 & E2).
    pose proof (run_arch_adds _ _ _ _ _ _ _ _ _ _ _ _ E1) as G1.
    pose proof (run_all_adds _ _ _ _ _ _ _ _ _ _ E2) as G2.
    apply IH in E2 as [Hle Hg]. split; [lia|]. intros HF. assert (f1 = 0) as -> by lia. constructor.
    + exists qemu. intros c Hc Hr. eapply (earned_widen _ _ _ w w w2 w');
        [apply grows_refl|done|by eapply jobs_arch_earned].
    + eapply list.Forall_impl; [by apply Hg|]. intros a. by apply all_earned_widen, grows_refl.
Qed.
End green.

(** ** Lemmas: the report *)

Section report.
Context `{Hst : Host} `{R : Repo} `{P : ProcessEnv} `{C : Tty}.

(** [tells], of every outcome. *)
Definition tells_may {A} (lines : A → list string → Prop) (m : May A) : Prop :=
  ∀ w a w', m w (Ok a) w' → ∃ l, w_log w' = w_log w ++ l ∧ lines a (says l).

Lemma tells_may_det {A} (Q : A → list string → Prop) (d : M A) : tells Q d → tells_may Q (det d).
Proof. intros Hd w a w' E. by apply Hd. Qed.

Lemma tells_may_bind {A B} (Q1 : A → list string → Prop) (Q : B → list string → Prop) (m : May A) (f : A → May B) :
  tells_may Q1 m → (∀ a l1, Q1 a l1 → tells_may (λ b l2, Q b (l1 ++ l2)) (f a)) → tells_may Q (m ≫= f).
Proof.
  intros Hm Hf w b w' (a & w1 & H1 & H2)%may_bind_Ok.
  apply Hm in H1 as (l1 & El1 & H1). apply (Hf a _ H1) in H2 as (l2 & El2 & H2).
  exists (l1 ++ l2). rewrite El2, El1, app_assoc, says_app. auto.
Qed.

(** What a loop over a pool prints: its lines of each result, in order. *)
Lemma mapped_tells {A B} (code : A → prog B) jobs stop say items (Q : A → res B → Prop) :
  (∀ a, a ∈ items → all_steps (λ _ m, only silent m) (code a)) →
  (∀ a w, a ∈ items → pledges (λ r _, Q a r) (code a) w) →
  tells_may (λ ys l, l = concat (imap say ys) ∧ went_on stop ys ∧
                     (length ys = length items ∨ stop ys = true) ∧
                     ∀ k b, ys !! k = Some b → ∃ a, items !! k = Some a ∧ Q a (Ok b))
    (mapped code jobs stop say items).
Proof.
  intros Hs HQ w ys w' (ys' & o & Hm & He).
  apply (map_ordered_pays _ _ _ _ (λ a r _, Q a r)) in Hm as ((l & El & Hl) & Hy & Ho & Hgo); [|done|done|eauto].
  cbn in Hl, Hy, Ho, Hgo. exists l. split; [done|]. destruct o; [| |done]; injection He as ->; auto.
Qed.

Lemma judge_verdict arch case code out v : judge arch case code out = Ok v → verdict_of case v.
Proof.
  unfold judge. destruct (_check _ _ _ _ _) as [[[] reason]|e]; [| |done]; intros [= <-]; unfold verdict_of; cbn; eauto.
Qed.

Lemma worker_verdict T arch qemu lld clang objs ci w :
  pledges (λ r _, ∀ v, r = Ok v → verdict_of ci.1 v) (worker T arch qemu lld clang objs ci) w.
Proof.
  unfold worker. destruct (complete _ _ _).
  - apply plan_thread_pledges; [apply list.Forall_forall; intros a; apply plan_of_builds|].
    intros [u|e] w1 _.
    + cbn. intros w2 _. destruct (boot _ _ w2) as [[[code out]|e] w3]; cbn; [|done]. intros v. apply judge_verdict.
    + destruct e; cbn; try done. intros v [= <-]. unfold verdict_of. cbn. by exists "build error".
  - intros w1 _ v E. cbn in E. eapply (run_case_verdict T arch qemu lld clang objs ci.1 ci.2), E.
Qed.

Lemma pkg_lines rs :
  went_on pkg_stop rs →
  length (concat (imap pkg_say rs)) + (if pkg_stop rs then 1 else 0) = length rs.
Proof.
  induction rs as [|r rs IH] using rev_ind; intros Hgo; [done|].
  assert (pkg_stop rs = false) as Hrs.
  { destruct rs as [|r0 rs']; [done|]. specialize (Hgo (length (r0 :: rs'))).
    rewrite take_app_length in Hgo. apply Hgo. rewrite length_app. cbn. lia. }
  rewrite Hrs in IH. rewrite imap_app, concat_app, !length_app. cbn.
  rewrite <-IH.
  - unfold pkg_stop. rewrite pkg_failure_last. destruct r as [[rel size]|msg]; cbn; lia.
  - intros k Hk. specialize (Hgo k). rewrite take_app_le in Hgo by lia. apply Hgo. rewrite length_app. lia.
Qed.

Lemma jobs_pkgs_tells jobs environ T blade clang arch pkgs :
  tells_may (λ r lines, match r with
                        | None => length lines = length pkgs
                        | Some _ => length lines < length pkgs
                        end)
    (build_pkgs jobs environ T blade clang arch pkgs).
Proof.
  eapply tells_may_bind.
  - apply (mapped_tells _ _ _ _ _ (λ _ _, True)); [intros; apply pkg_worker_silent|intros; apply pledges_True].
  - intros rs l (-> & Hgo & Hend & Hk) w r w' [[= ->] ->]. exists []. rewrite app_nil_r. split; [done|].
    cbn. rewrite app_nil_r. pose proof (pkg_lines rs Hgo) as Hl.
    assert (length rs ≤ length pkgs) as Hle.
    { destruct (decide (length rs = 0)) as [->|Hn]; [lia|].
      destruct (lookup_lt_is_Some_2 rs (length rs - 1)) as [b Hb]; [lia|].
      destruct (Hk _ b Hb) as (a & Ha & _). apply lookup_lt_Some in Ha. lia. }
    unfold pkg_stop in Hl, Hend. destruct (pkg_failure rs) as [msg|].
    + rewrite bool_decide_eq_true_2 in Hl by (by eexists). lia.
    + rewrite bool_decide_eq_false_2 in Hl, Hend by (by intros [??]). destruct Hend; [lia|done].
Qed.

Lemma jobs_rows_tells jobs T arch qemu lld clang objs cases excluded :
  tells_may (λ r lines, ∃ vs, Forall2 verdict_of cases vs ∧
               lines = report_lines arch excluded vs ∧ r = (n_ok vs, n_failed vs))
    (run_rows jobs T arch qemu lld clang objs cases excluded).
Proof.
  unfold run_rows. eapply (tells_may_bind (λ images l, length images = length cases ∧ l = [])).
  { intros w images w' E. destruct (tells_silent _ (find_images_silent arch cases) _ _ _ E) as (l & El & Hl).
    exists l. split_and!; [done| |done]. apply (yields_map_M (find_images arch) cases w). unfold det in E. by rewrite E. }
  intros images ? [Hlen ->].
  apply (tells_may_bind _ _ _ _ (tells_may_det _ _ (print_excluded_tells arch excluded))). intros _ ? ->.
  eapply tells_may_bind.
  { apply (mapped_tells _ _ _ _ _ (λ ci r, ∀ v, r = Ok v → verdict_of ci.1 v));
      [intros; apply worker_silent|intros; apply worker_verdict]. }
  intros vs ? (-> & _ & Hend & Hk).
  apply (tells_may_bind _ _ _ _ (tells_may_det _ _ (tells_print _))). intros _ ? ->.
  intros w a w' [[= ->] ->]. exists []. rewrite app_nil_r. split; [done|].
  assert (Forall2 verdict_of cases vs) as Hvs.
  { rewrite <-(fst_zip cases images) by lia. apply Forall2_fmap_l, Forall2_same_length_lookup_2.
    - by destruct Hend.
    - intros k ci v Hci Hv. destruct (Hk k v Hv) as (ci' & Hci' & HQ). rewrite Hci in Hci'. injection Hci' as <-. by apply HQ. }
  exists vs. split_and!; [done| |done]. unfold report_lines. cbn.
  pose proof Hvs as ->%Forall2_length. done.
Qed.

Lemma run_arch_tells jobs environ T arch qemu lld clang blade selected :
  tells_may (ends arch qemu selected) (_run_arch jobs environ T arch qemu lld clang blade selected).
Proof.
  unfold _run_arch. apply (tells_may_bind _ _ _ _ (tells_may_det _ _ (tells_print _))). intros _ ? ->.
  pose proof (runnable_filter arch selected) as Hrun. pose proof (ends_package arch qemu selected) as Hpkg.
  pose proof (ends_report arch qemu selected) as Hrep.
  destruct (split_cases arch selected) as [cases excluded]. cbn [fst snd] in *. subst cases.
  eapply tells_may_bind; [apply tells_may_det, tells_silent, only_catch_tool; eapply only_weaken;
    [apply building_silent|apply build_shared_building]|].
  intros [objs|msg] ? ->.
  - apply (tells_may_bind _ _ _ _ (jobs_pkgs_tells _ _ _ _ _ _ _)). intros [msg|] lines Hlines.
    + intros w r w' (? & w1 & E & [[= ->] ->])%may_bind_Ok. injection E as <- <-.
      exists [PrintErr (root_image_failed arch msg)].
      split; [done|]. cbn. rewrite app_nil_r. by apply Hpkg.
    + intros w r w' E. apply jobs_rows_tells in E as (l & El & vs & Hvs & Hl & ->).
      exists l. split; [done|]. rewrite Hl. cbn. apply Hrep; auto.
  - intros w r w' (? & w1 & E & [[= ->] ->])%may_bind_Ok. injection E as <- <-.
    exists [PrintErr (shared_failed arch msg)]. split; [done|]. constructor.
Qed.
End report.

(** ** Properties *)

(** C1. A zero exit is earned, with any number of workers: whenever a run of
    [main] on the [virt] board ends with status zero, however the steps of its
    workers interleaved, then for each selected architecture and each selected
    case that runs on it there was, in that very run, a boot of the case's own
    ELF with the case's own input, which ended by itself and with an output and
    an exit status on which the verdict is a pass. *)
Theorem gate_is_earned `{Hst : Host} `{R : Repo} `{P : ProcessEnv} `{C : Tty}
    (smoke : args → M unit) (environ : env) (a : args) (w w' : world) :
  o_board a = "virt" → main smoke environ a w (Raise (SystemExit 0)) w' →
  ∃ cases, select_cases TEST_CASES (o_cases a) = Selected cases ∧
    Forall (λ arch, ∃ qemu, ∀ c, c ∈ cases → runs_on arch c = true → earned arch qemu c w w')
      (select_arches ARCHES (o_arch a)).
Proof.
  assert (¬ no_exit (SystemExit 0)) as Hx by (by intros H).
  assert (¬ no_exit_0 (SystemExit 0)) as Hx0 by (by intros H).
  intros Hb. unfold main. rewrite Hb. change (String.eqb "virt" "virt") with true. cbn [negb]. intros E.
  apply (may_bind_past no_exit_0) in E as ([arches cases] & w1 & Ec & _ & E);
    [|apply may_raise_det, choose_no_exit_0|eapply adds_det, choose_logs|done].
  apply choose_selects in Ec as (-> & -> & Hs). exists cases. split; [done|].
  apply (may_bind_past no_exit_0) in E as (g & w2 & _ & G2 & E);
    [|apply may_raise_det, prepare_no_exit_0|eapply adds_det, prepare_logs|done].
  apply (may_bind_past no_exit) in E as ([p f] & w3 & Er & G3 & E);
    [|apply jobs_all_no_exit|apply run_all_adds|done].
  pose proof (only_grows _ _ _ _ _ (finish_logs _ _ _) E) as G4.
  apply finish_exit_0 in E as ->. apply run_all_earned in Er as [_ Hg].
  eapply list.Forall_impl; [by apply Hg|]. intros arch. by apply all_earned_widen.
Qed.

(** C2. The report of an architecture is a function of its cases, with any number
    of workers.  A run that returns printed its header and then one of three
    things: nothing, its native objects not building; a line for each package up
    to the first in the list that did not build; or a line for every package, the
    excluded cases by name with their reasons, and one numbered row per runnable
    case in the order of the table, each naming its case.  In every one of the
    three each runnable case is counted once, as passed or as failed, and none
    passes in the first two. *)
Theorem jobs_report `{Hst : Host} `{R : Repo} `{P : ProcessEnv} `{C : Tty} (jobs : nat)
    (environ : env) (T : toolchain) (arch : Arch) (qemu lld clang blade_bin : string)
    (selected : list Case) (w w' : world) (counts : nat * nat) :
  _run_arch jobs environ T arch qemu lld clang blade_bin selected w (Ok counts) w' →
  (∃ l, w_log w' = w_log w ++ l ∧ ends arch qemu selected counts (says l)) ∧
  counts.1 + counts.2 = rows arch selected.
Proof.
  intros (l & El & He)%run_arch_tells. split; [by exists l|]. by eapply ends_counts.
Qed.

(** C19. Nothing but a runnable case is ever booted, with any number of workers:
    every emulator a run of an architecture starts, however its workers
    interleave and however it ends, carries the ELF and the input of a selected
    case that names this architecture and this tier, so an excluded case neither
    passes nor fails there; nor is a tree removed or a file renamed. *)
Theorem boots_only_runnable `{Hst : Host} `{R : Repo} `{P : ProcessEnv} `{C : Tty} (jobs : nat)
    (environ : env) (T : toolchain) (arch : Arch) (qemu lld clang blade_bin : string)
    (selected : list Case) (w w' : world) (r : res (nat * nat)) :
  _run_arch jobs environ T arch qemu lld clang blade_bin selected w r w' →
  ∃ l, w_log w' = w_log w ++ l ∧ Forall (arch_action arch qemu selected) l.
Proof. apply jobs_arch_only. Qed.

(** C5. The serial harness is one of the runs with [-j N], and with [-j 1] the
    only one: what the function that works on the packages and the cases one
    after the other does, result, machine and log, is an outcome for any number
    of workers, so a run is never without one; and with one worker there is no
    other. *)
Theorem serial_is_an_outcome `{Hst : Host} `{R : Repo} `{P : ProcessEnv} `{C : Tty}
    (smoke : args → M unit) (environ : env) (a : args) (w : world) (r : res unit) (w' : world) :
  (Main.serial_main smoke environ a w = (r, w') → main smoke environ a w r w') ∧
  ((o_jobs a ≤ 1)%Z → main smoke environ a w r w' → Main.serial_main smoke environ a w = (r, w')).
Proof.
  destruct (main_inline smoke environ a w r w') as [H1 H2]. split; [done|]. intros Hj. apply H2. lia.
Qed.

(** ** Witnesses: two cases on two workers *)

(** An emulator on which a user program speaks, and the kernel of [panic_seam]
    panics. *)
Definition two_machine : machines := λ argv _,
  if existsb (py_in "panic_seam") argv then (Some 1%Z, "SOS M0: deliberate panic" +:+ nl)
  else (Some 0%Z, "SOS M1: entering U-mode" +:+ nl +:+ "SOS-U" +:+ nl).
Definition two_host : Host := fs_machine (all_answer (Proc 0 "" "")) two_machine.
Definition two_world : @world two_host := @World two_host (FS [("/s/sawc/sawc.py", "")] (fs_exec tooled)) [].
Definition two_env : env := [("PATH", "/bin"); ("SAWLANG_ROOT", "/s")].
Definition two_args : args := Args (Some "arm64") (Some ["umode-syscall,panic-seam"]) 2 "virt".
#[local] Notation two_run :=
  (@Main.serial_main two_host sample_repo sample_env no_tty (λ _, mret tt) two_env two_args two_world).

Lemma two_run_green : two_run = (Raise (SystemExit 0), two_run.2).
Proof. apply pair_from_fst. vm_compute. reflexivity. Qed.

Lemma gate_is_earned_witness :
  ∃ qemu, Forall (λ c, @earned two_host sample_repo arch_arm64 qemu c two_world two_run.2)
            [@case_umode_syscall sample_repo; @case_panic_seam sample_repo].
Proof.
  destruct (@gate_is_earned two_host sample_repo sample_env no_tty (λ _, mret tt) two_env two_args
    two_world two_run.2 eq_refl) as (cases & Hs & Hall).
  { exact (proj1 (main_inline _ _ _ _ _ _) two_run_green). }
  assert (@select_cases (@TEST_CASES sample_repo) (o_cases two_args) =
          Selected [@case_umode_syscall sample_repo; @case_panic_seam sample_repo]) as E by (vm_compute; reflexivity).
  rewrite E in Hs. injection Hs as <-.
  apply Forall_inv in Hall as [qemu H]. exists qemu.
  repeat constructor; (apply H; [|vm_compute; reflexivity]);
    repeat first [apply list_elem_of_here|apply list_elem_of_further].
Defined.

(** On two workers: the serial run of the two cases is an outcome. *)
Lemma serial_is_an_outcome_witness :
  @main two_host sample_repo sample_env no_tty (λ _, mret tt) two_env two_args two_world
    (Raise (SystemExit 0)) two_run.2.
Proof.
  refine (proj1 (@serial_is_an_outcome two_host sample_repo sample_env no_tty (λ _, mret tt) two_env two_args
    two_world (Raise (SystemExit 0)) two_run.2) _).
  exact two_run_green.
Defined.

Lemma boots_only_runnable_witness :
  ∃ l, w_log (@RunArch.serial_arch panicking sample_repo sample_env no_tty [] one_toolchain
                (@arch_riscv32_flat sample_repo) "qemu" "lld" "clang" "blade"
                [panic_case; panic_case; denial_case] panic_world).2 = w_log panic_world ++ l ∧
       Forall (@arch_action sample_repo (@arch_riscv32_flat sample_repo) "qemu" [panic_case; panic_case; denial_case]) l.
Proof.
  apply (@boots_only_runnable panicking sample_repo sample_env no_tty 3 [] one_toolchain
    (@arch_riscv32_flat sample_repo) "qemu" "lld" "clang" "blade" [panic_case; panic_case; denial_case]
    panic_world _ (Ok (2, 0))).
  apply run_arch_inline; [lia|]. apply pair_from_fst. vm_compute. reflexivity.
Defined.

Lemma jobs_report_witness :
  ∃ l, w_log (@RunArch.serial_arch panicking sample_repo sample_env no_tty [] one_toolchain
                (@arch_riscv32_flat sample_repo) "qemu" "lld" "clang" "blade"
                [panic_case; panic_case; denial_case] panic_world).2 = w_log panic_world ++ l ∧
       @ends no_tty (@arch_riscv32_flat sample_repo) "qemu" [panic_case; panic_case; denial_case] (2, 0) (says l).
Proof.
  apply (@jobs_report panicking sample_repo sample_env no_tty 3 [] one_toolchain
    (@arch_riscv32_flat sample_repo) "qemu" "lld" "clang" "blade" [panic_case; panic_case; denial_case]
    panic_world _ (2, 0)).
  apply run_arch_inline; [lia|]. apply pair_from_fst. vm_compute. reflexivity.
Defined.
End Jobs.
