(* ===== verification/C3Board.v ===== *)
(** * The ESP32-C3 board section (tools/sos_runner.py: [main], [--board esp32c3])

    The smoke of a second board: tools found by a glob, one kernel for three
    cases, a flash image that is checked and padded, an emulator that never ends
    by itself and is watched until its kernel halts, and a report of its own. *)

From Stdlib Require Import Ascii.
From S2P Require Import Prelude PyStr PyPath Bytes Arches RegionTable Host Toolchain Build RunArch ArchScan Main.
From stdpp Require Import base list sets strings numbers option pretty.

Open Scope nat_scope.
Open Scope py_scope.

(** ** The watched emulator

    What a loop on a clock and a pipe observes: at each turn the clock as the
    loop's test reads it, what [select] and the read that follows it give, and
    the clock after them, in milliseconds.  An empty chunk is the end of the
    output.  Time passes: after any turn and for any time there is a turn at
    which the clock has reached it. *)
Inductive poll := Ready (chunk : string) | Quiet (exited : bool).
Record tick := Tick { t_clock : N; t_poll : poll; t_after : N }.

Record console := Console {
  c_start : N;
  c_tick : nat → tick;
  c_late : N → nat → nat;
  c_late_ok t n : n ≤ c_late t n ∧ (t ≤ t_clock (c_tick (c_late t n)))%N;
}.

(** What this section asks of the machine besides a [Host]: [glob.glob], and an
    emulator it starts and watches. *)
Class Board `{Hst : Host} := {
  h_glob : string → host → list string;
  h_spawn : list string → host → option console * host;
}.

Module C3Board.
Import RegionTable Toolchain Build RunArch ArchScan.

(** ** Constants *)

Section constants.
Context `{R : Repo}.

Definition C3_HAL : string := join2 HAL_DIR "riscv32-esp32c3".
Definition C3_BUILD : string := path_join REPO_ROOT [".build"; "esp32c3"; "sos"].
Definition C3_TRIPLE : string := "riscv32-unknown-none-elf".
Definition C3_FEATURES : string := "+m,+c".
Definition C3_ESP_TRIPLE : string := "riscv32-esp-unknown-elf".
Definition C3_MARCH : string := "-march=rv32imc_zicsr_zifencei".
Definition C3_MABI : string := "-mabi=ilp32".
Definition C3_FLASH_BYTES : N := 4 * 1024 * 1024.
Definition C3_MAGIC : N := 0xAEDB041D.
Definition C3_CHILD_BASE : N := 0x403C5000.
Definition C3_CHILD_LEN : N := 0x17000.
Definition C3_HALT : string := "SOS-C3: halt".
Definition C3_TIMEOUT_S : N := 20.
Definition C3_BANNER : string := "SOS M1: kernel up on riscv32 (ESP32-C3)".
Definition C3_ROM : string := "ESP-ROM:esp32c3-api1-20210207".

(** The dict [_build_root_image] is given: of an architecture it reads the
    triple only, and the dict has no key but these two. *)
Definition c3_arch : Arch :=
  mk_arch "riscv32-esp32c3" C3_TRIPLE "" "" [] [] None "" [] [] None None None None 0 0 0 0 0 0 0 0.

Record c3_case := C3Case {
  k_name : string;
  k_root : option string;
  k_kids : list string;
  k_expect : list string;
}.

Definition c3_cases : list c3_case :=
  [ C3Case "boot" None []
      [C3_ROM; C3_BANNER; "SOS: bad root image: no root image appended"; "SOS-C3: halt fail code=0x00000004"];
    C3Case "timer" (Some (join2 TESTS_DIR "c3-timer")) []
      [C3_ROM; C3_BANNER; "SOS c3timer: arming";
       "SOS c3timer: tick 1 key=37 fires=1"; "SOS c3timer: tick 2 key=37 fires=1";
       "SOS c3timer: tick 3 key=37 fires=1"; "SOS c3timer: tick 4 key=37 fires=1";
       "SOS c3timer: tick 5 key=37 fires=1"; "SOS c3timer: done ticks=5 slept=1"; "SOS-C3: halt pass"];
    C3Case "isolation" (Some (join2 TESTS_DIR "c3-isolation")) [join2 TESTS_DIR "c3-child-poke"]
      [C3_ROM; C3_BANNER; "SOS c3iso: started"; "SOS: fault ";
       "SOS c3iso: root survived child status=131072"; "SOS c3iso: child syscalls=0 faults=1";
       "SOS c3iso: done"; "SOS-C3: halt pass"] ].

Definition c3_artifact (name suffix : string) : string := join2 C3_BUILD (name +:+ suffix).

(** ** The stubs *)

Definition payload_text (sosimg : string) : string :=
  "/* GENERATED by tools/sos_runner.py --board esp32c3 */" +:+ nl +:+
  "    .section .payload, " +:+ quoted "ax" +:+ ", @progbits" +:+ nl +:+
  "    .balign 16" +:+ nl +:+
  "    .incbin " +:+ quoted sosimg +:+ nl.

Definition c3_child_base (i : nat) : N := C3_CHILD_BASE + N.of_nat i * C3_CHILD_LEN.

(** The rows: every blob, then every destination. *)
Definition c3_rows (n : nat) : list (string * string * N) :=
  ((λ i, (child_start i, child_end i +:+ " - " +:+ child_start i, REGION_KIND_RAM)) <$> seq 0 n) ++
  ((λ i, (py_0x (c3_child_base i), py_0x C3_CHILD_LEN, REGION_KIND_RAM)) <$> seq 0 n).

Definition c3_row_lines (i : nat) (r : string * string * N) : list string :=
  let '(base, length, kind) := r in
  [ "    /* row " +:+ py_str (N.of_nat i) +:+ " */";
    "    .4byte " +:+ base; "    .4byte 0"; "    .4byte " +:+ length; "    .4byte 0";
    "    .byte  " +:+ py_str kind; "    .byte  0, 0, 0, 0, 0, 0, 0" ].

Definition c3_table_lines (rows : list (string * string * N)) : list string :=
  [ "    .4byte " +:+ hex_word 8 REGION_TABLE_MAGIC;
    "    .2byte " +:+ py_str REGION_TABLE_VERSION;
    "    .byte  " +:+ py_str (N.of_nat (length rows));
    "    .byte  0" ] ++ concat (imap c3_row_lines rows).

Definition c3_regions_text (child_images : list string) : list string :=
  [ "/* GENERATED by tools/sos_runner.py --board esp32c3 */";
    "    .section .childimg, " +:+ quoted "a" +:+ ", @progbits"; "    .balign 16" ] ++
  concat (imap (λ i img, child_lines i img) child_images) ++
  [ ""; "    .section .regions, " +:+ quoted "a" +:+ ", @progbits"; "    .balign 8" ] ++
  c3_table_lines (c3_rows (length child_images)).
End constants.

(** ** The loop on the console *)

Section watch.
Context (con : console).

(** What is still in flight after the halt line, polled for a moment. *)
Fixpoint drain (fuel i : nat) (until : N) (out : string) : string :=
  match fuel with
  | O => out
  | S fuel =>
      let t := c_tick con i in
      if (t_clock t <? until)%N then
        match t_poll t with
        | Quiet _ => drain fuel (S i) until out
        | Ready "" => out
        | Ready more => drain fuel (S i) until (out +:+ more)
        end
      else out
  end.

Fixpoint watch (fuel i : nat) (deadline : N) (out : string) : string * bool :=
  match fuel with
  | O => (out, false)
  | S fuel =>
      let t := c_tick con i in
      if (t_clock t <? deadline)%N then
        match t_poll t with
        | Ready "" => (out, false)
        | Ready chunk =>
            let out := out +:+ chunk in
            if py_in C3_HALT out then
              let until := (t_after t + 300)%N in
              (drain (S (c_late con until (S i) - S i)) (S i) until out, true)
            else watch fuel (S i) deadline out
        | Quiet exited => if exited : bool then (out, false) else watch fuel (S i) deadline out
        end
      else (out, false)
  end.

Definition deadline : N := c_start con + C3_TIMEOUT_S * 1000.

(** From the emulator's start to [proc.kill()]. *)
Definition watched : string * bool := watch (S (c_late con deadline 0)) 0 deadline "".
End watch.

(** ** The section *)

Section smoke.
Context `{Hst : Host} `{R : Repo} `{P : ProcessEnv} `{C : Tty} `{B : !Board}.

(** Find a machine-local tool: the last hit in the order of strings. *)
Definition c3_tool (pattern what hint : string) : M string :=
  hits ← ask (h_glob (expanduser pattern));
  match rev (py_sorted hits) with
  | [] =>
      print_err (RED +:+ "no " +:+ what +:+ " found at " +:+ pattern +:+ RESET) ;;
      print_err ("  " +:+ hint) ;;
      raise (SystemExit 2)
  | hit :: _ => mret hit
  end.

Definition c3_cc (clang src obj : string) (extra : list string) : M string :=
  _run ([clang; "--target=" +:+ C3_ESP_TRIPLE; C3_MARCH; C3_MABI; "-nostdlib"; "-ffreestanding"] ++
        extra ++ ["-c"; src; "-o"; obj]) None None ;;
  mret obj.

Definition c3_payload_stub (clang name sosimg : string) : M string :=
  let stub_s := c3_artifact name ".rootimg.S" in
  perform (WriteFile stub_s (payload_text sosimg)) ;;
  c3_cc clang stub_s (c3_artifact name ".rootimg.o") [].

Definition c3_regions_stub (clang name : string) (child_images : list string) : M string :=
  let stub_s := c3_artifact name ".regions.S" in
  perform (WriteFile stub_s (py_join nl (c3_regions_text child_images) +:+ nl)) ;;
  c3_cc clang stub_s (c3_artifact name ".regions.o") [].

Definition no_magic (name : string) (m0 m1 : N) : exn :=
  ToolError (name +:+ ": flash image lacks the direct-boot magic (read " +:+ hex_word 8 m0 +:+ " " +:+
    hex_word 8 m1 +:+ ", want " +:+ hex_word 8 C3_MAGIC +:+
    " twice) — check .magic in hal/riscv32-esp32c3/kernel/esp32c3.ld").

Definition too_big (name : string) (size : nat) : exn :=
  ToolError (name +:+ ": image is " +:+ py_str (N.of_nat size) +:+ " bytes, flash is " +:+ py_str C3_FLASH_BYTES).

(** [b"\xff" * (C3_FLASH_BYTES - size)] *)
Definition erased (size : nat) : string := srepeat (ascii_of_nat 255) (N.to_nat C3_FLASH_BYTES - size).

(** The checks on the flattened image, and the flash it becomes. *)
Definition flash_of (name image : string) : res string :=
  magic ← unpack_from [4; 4] (String.list_byte_of_string image) 0;
  match magic with
  | [m0; m1] =>
      if negb (m0 =? C3_MAGIC)%N || negb (m1 =? C3_MAGIC)%N then Raise (no_magic name m0 m1)
      else if (C3_FLASH_BYTES <? N.of_nat (slen image))%N then Raise (too_big name (slen image))
      else Ok (image +:+ erased (slen image))
  | _ => Raise StructError
  end.

Definition c3_flash_image (lld objcopy name : string) (objs : list string) : M (string * nat) :=
  let elf := c3_artifact name ".elf" in
  let raw := c3_artifact name ".bin" in
  let flash := c3_artifact name ".flash.bin" in
  _run ([lld; "-T"; path_join C3_HAL ["kernel"; "esp32c3.ld"]; "--gc-sections"; "-o"; elf] ++ objs) None None ;;
  _run [objcopy; "-O"; "binary"; elf; raw] None None ;;
  image ← read_file raw;
  content ← lift (flash_of name image);
  perform (WriteFile flash content) ;;
  mret (flash, slen image).

Definition c3_qemu_argv (qemu flash : string) : list string :=
  [qemu; "-machine"; "esp32c3"; "-nographic"; "-drive"; "file=" +:+ flash +:+ ",if=mtd,format=raw"].

(** [subprocess.Popen], logged as a boot. *)
Definition spawn (argv : list string) : M console := λ w,
  let '(r, h) := h_spawn argv (w_host w) in
  let w := World h (w_log w ++ [Boot argv None]) in
  match r with Some c => (Ok c, w) | None => (Raise OSError, w) end.

Definition c3_run (qemu flash : string) : M (string * bool) :=
  con ← spawn (c3_qemu_argv qemu flash);
  let '(out, halted) := watched con in
  mret (decode_replace out, halted).

(** The first expectation the transcript lacks, in order. *)
Fixpoint c3_missing (out : string) (cursor : nat) (expect : list string) : option string :=
  match expect with
  | [] => None
  | want :: expect =>
      match py_find out want cursor with
      | None => Some want
      | Some at_ => c3_missing out (at_ + slen want) expect
      end
  end.

(** Everything a case builds, and its boot. *)
Definition c3_build_and_run (environ : env) (T : toolchain) (qemu clang lld objcopy blade_bin : string)
    (shared : list string) (kobj : string) (case : c3_case) : M (string * bool * nat) :=
  let name := k_name case in
  payload ← (if truthy (k_root case) then
               image ← _build_root_image environ T blade_bin (default "" (k_root case)) c3_arch clang;
               o ← c3_payload_stub clang name image; mret [o]
             else mret []);
  regions ← (match k_kids case with
             | [] => mret []
             | kids =>
                 images ← map_M (λ pkg, _build_root_image environ T blade_bin pkg c3_arch clang) kids;
                 o ← c3_regions_stub clang name images; mret [o]
             end);
  '(flash, size) ← c3_flash_image lld objcopy name (shared ++ [kobj] ++ payload ++ regions);
  '(out, halted) ← c3_run qemu flash;
  mret (out, halted, size).

Definition c3_row (i n : nat) (mark name tail : string) : string :=
  "[" +:+ py_str (N.of_nat i) +:+ "/" +:+ py_str (N.of_nat n) +:+ "] " +:+ mark +:+ " " +:+ name +:+ tail.

(** What a case that did not pass prints after its row. *)
Definition c3_failure_lines (out : string) (halted : bool) (missing : option string) : list string :=
  (if halted then [] else ["    the kernel never halted within " +:+ py_str C3_TIMEOUT_S +:+ "s"]) ++
  (match missing with Some want => ["    expected and not found, in order: " +:+ py_repr want] | None => [] end) ++
  ["    --- console ---"] ++ ((λ line, "    " +:+ line) <$> splitlines out) ++ ["    --- end ---"].

(** One turn of the loop over the cases: whether the case passed. *)
Definition c3_turn (environ : env) (T : toolchain) (qemu clang lld objcopy blade_bin : string)
    (shared : list string) (kobj : string) (i n : nat) (case : c3_case) : M bool :=
  let name := k_name case in
  r ← catch_tool (c3_build_and_run environ T qemu clang lld objcopy blade_bin shared kobj case);
  match r with
  | inr msg => print (c3_row i n CROSS name "") ;; print ("    " +:+ msg) ;; mret false
  | inl (out, halted, size) =>
      let missing := c3_missing out 0 (k_expect case) in
      if bool_decide (missing = None) && halted then
        print (c3_row i n CHECK name ("  (" +:+ py_str (N.of_nat size) +:+ " bytes of flash)")) ;; mret true
      else
        print (c3_row i n CROSS name "") ;;
        for_each (c3_failure_lines out halted missing) print ;; mret false
  end.

Fixpoint c3_loop (environ : env) (T : toolchain) (qemu clang lld objcopy blade_bin : string)
    (shared : list string) (kobj : string) (i n : nat) (cases : list c3_case) (failed : nat) : M nat :=
  match cases with
  | [] => mret failed
  | case :: cases =>
      ok ← c3_turn environ T qemu clang lld objcopy blade_bin shared kobj i n case;
      c3_loop environ T qemu clang lld objcopy blade_bin shared kobj (S i) n cases
        (if ok : bool then failed else S failed)
  end.

(** The objects every case links, and the kernel: one compile for all. *)
Definition c3_shared (clang : string) : M (list string) :=
  boot ← c3_cc clang (path_join C3_HAL ["kernel"; "boot.S"]) (join2 C3_BUILD "boot.o") [];
  trap ← c3_cc clang (path_join RV32_COMMON_DIR ["kernel"; "trap.S"]) (join2 C3_BUILD "trap.o") [];
  sink ← c3_cc clang (path_join RV32_COMMON_DIR ["kernel"; "sink.c"]) (join2 C3_BUILD "sink.o") ["-O2"];
  support ← c3_cc clang (join2 RT_COMMON_C_DIR "support.c") (join2 C3_BUILD "support.o") ["-O2"];
  mret [boot; trap; sink; support].

Definition c3_kernel (T : toolchain) : M string :=
  let kobj := join2 C3_BUILD "kernel.o" in
  imgformat ← lift (module_path_arg T "imgformat");
  _run (sawc T ++ [join2 KERNEL_DIR "main.saw"; "-o"; kobj; "-Oz"; "--freestanding"; "--no-hidden-alloc";
          "--runtime-provider"; "--target"; C3_TRIPLE; "--target-features"; C3_FEATURES;
          "--module-path"; CORE_MODULE; "--module-path"; "hal=" +:+ join2 C3_HAL "kernel";
          "--module-path"; RV32_CORE_MODULE; "--module-path"; imgformat;
          "--module-path"; SOSRT_MODULE; "--module-path"; SOSABI_MODULE]) None None ;;
  mret kobj.

Definition c3_finish (n failed : nat) : M unit :=
  print "" ;;
  print Main.rule ;;
  print (if failed =? 0
         then GREEN +:+ "ESP32-C3 SMOKE PASSED" +:+ RESET +:+ " (" +:+ py_str (N.of_nat n) +:+ " cases)"
         else RED +:+ "SOS ESP32-C3 SMOKE FAILED" +:+ RESET +:+ " (" +:+ py_str (N.of_nat failed) +:+ " of " +:+
              py_str (N.of_nat n) +:+ ")") ;;
  print Main.rule ;;
  raise (SystemExit (if failed =? 0 then 0 else 1)).

Definition c3_smoke (environ : env) (a : Main.args) : M unit :=
  qemu ← c3_tool "~/.espressif/tools/qemu-riscv32/*/qemu/bin/qemu-system-riscv32" "Espressif QEMU"
    "install it with the ESP-IDF tools installer; this target is machine-local and NON-GATING, so its absence breaks nothing else";
  clang ← c3_tool "~/.espressif/tools/esp-clang/*/esp-clang/bin/clang" "esp-clang"
    "the C3 build needs the no-A multilib row (rv32imc_zicsr_zifencei); see hal/riscv32-esp32c3/ABI.md §3";
  let lld := join2 (dirname clang) "ld.lld" in
  let objcopy := join2 (dirname clang) "llvm-objcopy" in
  perform (MakeDirs C3_BUILD true) ;;
  print (BOLD +:+ "SOS ESP32-C3 board smoke" +:+ RESET +:+ " (design 20, NON-GATING)") ;;
  print ("  qemu   " +:+ qemu) ;;
  print ("  clang  " +:+ clang) ;;
  print ("  target " +:+ C3_TRIPLE +:+ " --target-features " +:+ C3_FEATURES +:+ " (" +:+
         sdrop (slen "-march=") C3_MARCH +:+ " — no A extension)") ;;
  T ← Main.tc environ None;
  blade_bin ← _build_blade T C3_BUILD;
  shared ← c3_shared clang;
  kobj ← c3_kernel T;
  failed ← c3_loop environ T qemu clang lld objcopy blade_bin shared kobj 1 (length c3_cases) c3_cases 0;
  c3_finish (length c3_cases) failed.

(** [main] with its board section, at [-j 1]; the section is over before [-j]
    is looked at. *)
Definition main (environ : env) (a : Main.args) : M unit := Main.serial_main (c3_smoke environ) environ a.
End smoke.

End C3Board.
