(* ===== verification/C3Spec.v ===== *)
(** * What the ESP32-C3 smoke guarantees

    The watch on the console sees a kernel that halts in time and always ends;
    the flash image is the checked one, padded; the region table is the one the
    dumper reads; and a zero exit stands for a passed boot of every case. *)

From Stdlib Require Import Ascii.
From Stdlib.Strings Require Import Byte.
From S2P Require Import Prelude PyStr PyPath Bytes SosimgDump Arches RegionTable Check Host SampleHost.
From S2P Require Import Toolchain Build RunArch ArchScan Main C3Board.
From stdpp Require Import base list sets strings numbers option pretty.

Open Scope nat_scope.
Open Scope py_scope.

Module C3Spec.
Import RegionTable Toolchain Build RunArch C3Board.

(** ** The watch on the console *)

Section watching.
Context (con : console).

Definition chunk_at (k : nat) : string :=
  match t_poll (c_tick con k) with Ready chunk => chunk | Quiet _ => "" end.

(** What the first [n] turns read. *)
Fixpoint heard (n : nat) : string :=
  match n with O => "" | S n => heard n +:+ chunk_at n end.

(** The loop does not end at turn [k] for want of time, of output or of the
    emulator. *)
Definition goes_on (k : nat) : bool :=
  (t_clock (c_tick con k) <? deadline con)%N &&
  match t_poll (c_tick con k) with
  | Ready chunk => negb (String.eqb chunk "")
  | Quiet exited => negb exited
  end.

Definition live (n : nat) : Prop := ∀ k, k < n → goes_on k = true.

(** The polling after the halt line does not end at turn [k] for want of time or
    of output. *)
Definition drains (until : N) (k : nat) : bool :=
  (t_clock (c_tick con k) <? until)%N &&
  match t_poll (c_tick con k) with Ready chunk => negb (String.eqb chunk "") | Quiet _ => true end.

(** When the polling after a halt line read at turn [n] stops. *)
Definition drain_limit (n : nat) : N := (t_after (c_tick con n) + 300)%N.

(** [m] is the first turn from [n] on at which the polling ends. *)
Definition drained (until : N) (n m : nat) : Prop :=
  n ≤ m ∧ (∀ k, n ≤ k < m → drains until k = true) ∧ drains until m = false.

Lemma py_in_app sub s t : py_in sub s = true → py_in sub (s +:+ t) = true.
Proof.
  rewrite !py_in_spec. intros (i & a & b & -> & Hi). exists i, a, (b +:+ t). by rewrite !sapp_assoc.
Qed.

Lemma heard_mono sub n m : n ≤ m → py_in sub (heard n) = true → py_in sub (heard m) = true.
Proof. induction 1 as [|m _ IH]; [done|]. intros Hs. cbn. by apply py_in_app, IH. Qed.

Lemma drain_ends fuel i until :
  (∃ late, i ≤ late < i + fuel ∧ (until ≤ t_clock (c_tick con late))%N) →
  ∃ m, drained until i m ∧ drain con fuel i until (heard i) = heard m.
Proof.
  revert i. induction fuel as [|fuel IH]; intros i (late & Hi & Hlate); [lia|]. cbn [drain].
  assert (drains until i = false → ∃ m, drained until i m ∧ heard i = heard m) as Hstop
    by (intros Hd; exists i; split; [|done]; split_and!; [done|lia|done]).
  assert (drains until i = true →
    ∃ m, drained until i m ∧ drain con fuel (S i) until (heard (S i)) = heard m) as Hgo.
  { intros Hd. assert (i ≠ late) as Hne.
    { intros ->. unfold drains in Hd. apply andb_true_iff in Hd as [Hd%N.ltb_lt _]. lia. }
    destruct (IH (S i)) as (m & (Hle & Hall & Hm) & E); [exists late; split; [lia|done]|].
    exists m. split; [|done]. split_and!; [lia| |done]. intros k Hk.
    destruct (decide (k = i)) as [->|]; [done|]. apply Hall. lia. }
  unfold drains in Hstop, Hgo. unfold chunk_at in Hgo. cbn [heard] in Hgo. unfold chunk_at in Hgo.
  destruct (t_clock _ <? until)%N; [|by apply Hstop].
  destruct (t_poll _) as [[|c s]|b]; [by apply Hstop|by apply Hgo|].
  rewrite sapp_nil_r in Hgo. by apply Hgo.
Qed.

(** How a watch that is still going on at turn [i] ends. *)
Lemma watch_ends fuel i :
  live i → py_in C3_HALT (heard i) = false → c_late con (deadline con) 0 < i + fuel →
  let '(out, halted) := watch con fuel i (deadline con) (heard i) in
  ∃ n, i ≤ n ∧ live n ∧
    if halted : bool
    then goes_on n = true ∧ py_in C3_HALT (heard n) = false ∧ py_in C3_HALT (heard (S n)) = true ∧
         ∃ m, drained (drain_limit n) (S n) m ∧ out = heard m
    else goes_on n = false ∧ out = heard n ∧ py_in C3_HALT (heard n) = false.
Proof.
  revert i. induction fuel as [|fuel IH]; intros i Hl Hn Hf.
  - exfalso. destruct (c_late_ok con (deadline con) 0) as [_ Hlate].
    assert (goes_on (c_late con (deadline con) 0) = true) as Hg by (apply Hl; lia).
    unfold goes_on in Hg. apply andb_true_iff in Hg as [Hg%N.ltb_lt _]. lia.
  - cbn [watch].
    assert (goes_on i = true → live (S i)) as HS.
    { intros Hg k Hk. destruct (decide (k = i)) as [->|]; [done|]. apply Hl. lia. }
    assert (∀ rest, goes_on i = true → py_in C3_HALT (heard (S i)) = false → rest = watch con fuel (S i) (deadline con) (heard (S i)) →
      let '(out, halted) := rest in ∃ n, i ≤ n ∧ live n ∧
      if halted : bool
      then goes_on n = true ∧ py_in C3_HALT (heard n) = false ∧ py_in C3_HALT (heard (S n)) = true ∧
         ∃ m, drained (drain_limit n) (S n) m ∧ out = heard m
      else goes_on n = false ∧ out = heard n ∧ py_in C3_HALT (heard n) = false) as Hrec.
    { intros rest Hg Hin ->. specialize (IH (S i) (HS Hg) Hin ltac:(lia)).
      destruct (watch _ _ _ _ _) as [out halted]. destruct IH as (n & Hle & H). exists n. split; [lia|done]. }
    destruct (t_clock (c_tick con i) <? deadline con)%N eqn:Et.
    2: { exists i. split_and!; [done|done|unfold goes_on; by rewrite Et|done|done]. }
    destruct (t_poll (c_tick con i)) as [[|c s]|[]] eqn:Ep.
    + exists i. split_and!; [done|done|unfold goes_on; by rewrite Et, Ep|done|done].
    + assert (goes_on i = true) as Hg by (unfold goes_on; by rewrite Et, Ep).
      assert (heard (S i) = heard i +:+ String c s) as Hh by (cbn; unfold chunk_at; by rewrite Ep).
      rewrite <-Hh. destruct (py_in C3_HALT (heard (S i))) eqn:Eh; [|by apply Hrec].
      destruct (c_late_ok con (drain_limit i) (S i)) as [Hlate Hclock].
      destruct (drain_ends (S (c_late con (drain_limit i) (S i) - S i)) (S i) (drain_limit i)) as (m & Hm & Ed).
      { exists (c_late con (drain_limit i) (S i)). split; [lia|done]. }
      exists i. split_and!; [done|done|done|done|done|]. exists m. split; [done|exact Ed].
    + exists i. split_and!; [done|done|unfold goes_on; by rewrite Et, Ep|done|done].
    + assert (heard (S i) = heard i) as Hh by (cbn; unfold chunk_at; by rewrite Ep, sapp_nil_r).
      rewrite <-Hh. apply Hrec; [unfold goes_on; by rewrite Et, Ep|by rewrite Hh|done].
Qed.

Lemma watched_ends :
  let '(out, halted) := watched con in
  ∃ n, live n ∧
    if halted : bool
    then goes_on n = true ∧ py_in C3_HALT (heard n) = false ∧ py_in C3_HALT (heard (S n)) = true ∧
         ∃ m, drained (drain_limit n) (S n) m ∧ out = heard m
    else goes_on n = false ∧ out = heard n ∧ py_in C3_HALT (heard n) = false.
Proof.
  pose proof (watch_ends (S (c_late con (deadline con) 0)) 0 ltac:(intros k Hk; lia) eq_refl ltac:(lia)) as H.
  unfold watched. cbn [heard] in H. destruct (watch _ _ _ _ _) as [out halted].
  destruct H as (n & _ & H). by exists n.
Qed.

(** C11. The watch sees exactly the halts that come in time: it ends, at the turn
    at which the clock has reached the limit at the latest; it reports a halt if
    and only if the halt line has been read, in however many pieces, while the
    emulator was running, its output open and the limit not reached.  A
    transcript without a halt is all that was read up to the turn that ended the
    watch.  One with a halt is all that was read up to the end of the polling
    that follows the first turn whose chunk completes the halt line: that polling
    goes on, chunk by chunk and over silent turns, until the output ends or three
    tenths of a second have passed, and no sooner. *)
Theorem c3_watch_exact :
  let '(out, halted) := watched con in
  (halted = true ↔ ∃ n, live n ∧ py_in C3_HALT (heard n) = true) ∧
  (halted = true → py_in C3_HALT out = true ∧
     ∃ n m, live (S n) ∧ py_in C3_HALT (heard n) = false ∧ py_in C3_HALT (heard (S n)) = true ∧
            drained (drain_limit n) (S n) m ∧ out = heard m) ∧
  (halted = false → ∃ n, live n ∧ goes_on n = false ∧ out = heard n).
Proof.
  pose proof watched_ends as H. destruct (watched con) as [out halted]. destruct H as (n & Hl & H).
  destruct halted.
  - destruct H as (Hg & Hb & Hh & m & Hm & ->).
    assert (live (S n)) as HlS by (intros k Hk; destruct (decide (k = n)) as [->|]; [done|]; apply Hl; lia).
    split_and!; [|intros _; split; [|by exists n, m]|done].
    + split; [intros _|done]. by exists (S n).
    + apply (heard_mono _ (S n)); [by destruct Hm|done].
  - destruct H as (Hg & -> & Hh). split_and!; [|done|by exists n]. split; [done|].
    intros (m & Hm & Hin). exfalso. destruct (decide (m ≤ n)) as [Hle|Hle].
    + apply (heard_mono C3_HALT m n Hle) in Hin. by rewrite Hh in Hin.
    + assert (goes_on n = true) by (apply Hm; lia). congruence.
Qed.
End watching.

(** ** The expectations *)

Lemma c3_missing_spec out cur expect :
  c3_missing out cur expect = None ↔ Check.in_order slen out cur expect.
Proof.
  revert cur. induction expect as [|want expect IH]; intros cur; cbn; [split; [constructor|done]|].
  destruct (py_find out want cur) as [p|] eqn:E.
  - by rewrite (Check.in_order_leftmost _ _ _ _ _ _ E), IH.
  - split; [done|]. inversion 1 as [|? ? ? q Hq Hocc _]; subst. by eapply py_find_None in E.
Qed.

(** ** The flash image *)

Lemma le_split_combine bs : le_split (length bs) (le_combine bs) = bs.
Proof.
  induction bs as [|b bs IH]; [done|]. cbn [length le_split le_combine].
  pose proof (Byte.to_N_bounded b) as Hb. f_equal.
  - unfold byte_of. replace ((Byte.to_N b + 256 * le_combine bs) mod 256)%N with (Byte.to_N b).
    + by rewrite Byte.of_to_N.
    + rewrite (N.mul_comm 256), N.Div0.mod_add, N.mod_small; lia.
  - replace ((Byte.to_N b + 256 * le_combine bs) / 256)%N with (le_combine bs); [done|].
    rewrite (N.mul_comm 256), N.div_add, N.div_small by lia. lia.
Qed.

Definition bytes_of (s : string) : bytes := String.list_byte_of_string s.

Lemma length_bytes_of s : length (bytes_of s) = slen s.
Proof. unfold bytes_of, String.list_byte_of_string. induction s as [|c s IH]; [done|]. cbn. by rewrite <-IH. Qed.

Definition magic_word : bytes := le_split 4 C3_MAGIC.

Lemma magic_words bs :
  8 ≤ length bs →
  unpack [4; 4] bs = [C3_MAGIC; C3_MAGIC] ↔ take 8 bs = magic_word ++ magic_word.
Proof.
  intros Hl. cbn [unpack].
  assert (take 8 bs = take 4 bs ++ take 4 (drop 4 bs)) as -> by (by do 8 (destruct bs; [cbn in Hl; lia|])).
  assert (length (take 4 bs) = 4) as H1 by (rewrite length_take; lia).
  assert (length (take 4 (drop 4 bs)) = 4) as H2 by (rewrite length_take, length_drop; lia).
  assert (∀ b, length b = 4 → le_combine b = C3_MAGIC ↔ b = magic_word) as Hw.
  { intros b Hb. split; [|by intros ->]. intros He. rewrite <-(le_split_combine b), Hb, He. done. }
  split.
  - intros [= E1 E2]. f_equal; by apply Hw.
  - intros [E1 E2]%app_inj_1; [|done]. apply Hw in E1, E2; [|done..]. by rewrite E1, E2.
Qed.

Lemma slen_srepeat c n : slen (srepeat c n) = n.
Proof. induction n as [|n IH]; [done|]. cbn. by f_equal. Qed.

Lemma slen_flash image :
  (N.of_nat (slen image) ≤ C3_FLASH_BYTES)%N → N.of_nat (slen (image +:+ erased (slen image))) = C3_FLASH_BYTES.
Proof. unfold erased. generalize C3_FLASH_BYTES. intros n Hn. rewrite slen_app, slen_srepeat. lia. Qed.

(** C12. The flash is the image or a refusal: an image whose first eight bytes are
    the direct-boot magic twice and that fits becomes a flash of exactly four
    mebibytes, the image followed by erased bytes; any other is refused, with a
    sentence when it has eight bytes, and by the reading of the magic itself
    when it has fewer. *)
Theorem c3_flash_exact (name image : string) :
  match flash_of name image with
  | Ok flash => N.of_nat (slen flash) = C3_FLASH_BYTES ∧
                take 8 (bytes_of image) = magic_word ++ magic_word ∧
                flash = image +:+ erased (slen image)
  | Raise StructError => slen image < 8
  | Raise (ToolError _) => 8 ≤ slen image ∧
      (take 8 (bytes_of image) ≠ magic_word ++ magic_word ∨ (C3_FLASH_BYTES < N.of_nat (slen image))%N)
  | Raise _ => False
  end.
Proof.
  unfold flash_of. fold (bytes_of image). destruct (decide (8 ≤ slen image)) as [Hl|Hl].
  2: { rewrite unpack_from_short; [cbn; lia|]. rewrite length_bytes_of. cbn. lia. }
  rewrite unpack_from_long by (rewrite length_bytes_of; cbn; lia). rewrite drop_0. cbn [mbind res_bind].
  pose proof (magic_words (bytes_of image)) as Hm. rewrite length_bytes_of in Hm. specialize (Hm Hl).
  cbn [unpack] in Hm |- *.
  destruct (N.eqb_spec (le_combine (take 4 (bytes_of image))) C3_MAGIC) as [E1|E1]; cbn [negb orb].
  2: { split; [done|]. left. intros [= H _]%Hm. done. }
  destruct (N.eqb_spec (le_combine (take 4 (drop 4 (bytes_of image)))) C3_MAGIC) as [E2|E2]; cbn [negb].
  2: { split; [done|]. left. intros [= _ H]%Hm. done. }
  destruct (N.ltb_spec C3_FLASH_BYTES (N.of_nat (slen image))) as [Hs|Hs]; [split; [done|by right]|].
  split_and!; [by apply slen_flash|apply Hm; by rewrite E1, E2|done].
Qed.

(** ** The region table *)

Section table.
Context `{R : Repo} {A : Assembler} {laws : AssemblerLaws A}.

(** A row of this board's table, as a row of the other boards' tables. *)
Definition as_row (r : string * string * N) : row := Row "" r.1.1 r.1.2 r.2.

Lemma c3_row_lines_emit i r :
  c3_row_lines i r =
  ("    /* row " +:+ py_str (N.of_nat i) +:+ " */") ::
  _emit_row [] arch_riscv32 (r_base (as_row r)) (r_len (as_row r)) (r_kind (as_row r)).
Proof. by destruct r as [[b l] k]. Qed.

Lemma assemble_c3_rows i rows :
  Forall (row_ok arch_riscv32) (as_row <$> rows) →
  assemble (concat (imap (λ k, c3_row_lines (i + k)) rows)) =
  concat (region_bytes <$> (region_of <$> (as_row <$> rows))).
Proof.
  revert i. induction rows as [|r rows IH]; intros i Hr; [done|].
  cbn [fmap list_fmap] in *. apply Forall_cons in Hr as [Hr Hrows].
  cbn [imap concat]. rewrite Nat.add_0_r, c3_row_lines_emit, assemble_app. cbn [concat]. f_equal.
  - rewrite <-(assemble_row arch_riscv32) by done. unfold assemble. cbn [fmap list_fmap concat].
    change ("    /* row " +:+ py_str (N.of_nat i) +:+ " */") with ("    /* " +:+ "row " +:+ py_str (N.of_nat i) +:+ " */").
    rewrite <-(sapp_assoc "row "). by rewrite asm_comment by (rewrite <-(sapp_nil_r (py_str _)); by apply digits_comment).
  - rewrite <-(IH (S i) Hrows). do 2 f_equal. apply imap_ext. intros k x _. cbn. by rewrite Nat.add_succ_r.
Qed.

(** The regions of a case with [n] children: where the linker put each image,
    then where each child runs. *)
Definition c3_regions (n : nat) : list region :=
  ((λ i, Region (asm_value (child_start i)) (asm_value (child_end i +:+ " - " +:+ child_start i))
           REGION_KIND_RAM) <$> seq 0 n) ++
  ((λ i, Region (c3_child_base i) C3_CHILD_LEN REGION_KIND_RAM) <$> seq 0 n).

Lemma c3_rows_regions n : region_of <$> (as_row <$> c3_rows n) = c3_regions n.
Proof.
  unfold c3_rows, c3_regions. rewrite !fmap_app, <-!list_fmap_compose. f_equal.
  apply list_fmap_ext. intros j x _. unfold compose, region_of. cbn. by rewrite !asm_hex.
Qed.

(** The linker placed the images of [n] children within a word's reach. *)
Definition c3_blobs_placed (n : nat) : Prop :=
  ∀ i, i < n → (asm_value (child_start i) < 2 ^ 32)%N ∧
               (asm_value (child_end i +:+ " - " +:+ child_start i) < 2 ^ 32)%N.

Lemma c3_rows_ok n : n ≤ 100 → c3_blobs_placed n → Forall (row_ok arch_riscv32) (as_row <$> c3_rows n).
Proof.
  intros Hn Hb. unfold c3_rows. rewrite fmap_app. apply Forall_app_2; apply Forall_fmap, list.Forall_forall.
  - intros r (i & -> & Hi)%list_elem_of_fmap. apply elem_of_seq in Hi. by destruct (Hb i ltac:(lia)).
  - intros r (i & -> & Hi)%list_elem_of_fmap. apply elem_of_seq in Hi. repeat split; cbn -[N.pow].
    + rewrite asm_hex. unfold c3_child_base, C3_CHILD_BASE, C3_CHILD_LEN. change (word_bound arch_riscv32) with (2 ^ 32)%N. lia.
    + by rewrite asm_hex.
Qed.

(** Where the children of a case run. *)
Definition c3_windows (n : nat) : list (N * N) := (λ i, (c3_child_base i, C3_CHILD_LEN)) <$> seq 0 n.

Lemma c3_windows_disjoint n : all_disjoint (c3_windows n).
Proof.
  unfold c3_windows. generalize 0. induction n as [|n IH]; intros k; cbn; [done|]. split; [|apply IH].
  apply list.Forall_forall. intros w (i & -> & Hi)%list_elem_of_fmap.
  apply elem_of_seq in Hi. unfold disjoint_windows, disjoint, c3_child_base; cbn. left. nia.
Qed.
End table.

(** C13. The table the board section writes for itself is the frozen layout too:
    assembled, it is byte for byte the version-2 table of the images and the
    windows of its children, the dumper prints exactly those, and no two
    windows overlap. *)
Theorem c3_table_roundtrip {A : Assembler} (laws : AssemblerLaws A) (n : nat) :
  n ≤ 100 → c3_blobs_placed n →
  assemble (c3_table_lines (c3_rows n)) = table_bytes (c3_regions n) ∧
  SosimgDump.dump_regions (assemble (c3_table_lines (c3_rows n))) = (table_dump (c3_regions n), Ok tt) ∧
  all_disjoint (c3_windows n).
Proof.
  intros Hn Hb. pose proof (c3_rows_ok (R := sample_repo) n Hn Hb) as Hok.
  assert (length (c3_rows n) = 2 * n) as Hl by (unfold c3_rows; rewrite length_app, !length_fmap, length_seq; lia).
  assert (assemble (c3_table_lines (c3_rows n)) = table_bytes (c3_regions n)) as ->.
  { unfold c3_table_lines, table_bytes. rewrite assemble_app. f_equal.
    - rewrite (assemble_header (length (c3_rows n))) by lia. by rewrite <-c3_rows_regions, !length_fmap.
    - rewrite <-c3_rows_regions. by apply (assemble_c3_rows (R := sample_repo) 0). }
  split_and!; [done| |apply c3_windows_disjoint]. apply dump_table.
  - rewrite <-c3_rows_regions, !length_fmap. lia.
  - rewrite <-c3_rows_regions. apply Forall_fmap. eapply list.Forall_impl; [exact Hok|].
    intros r. apply row_ok_fits.
Qed.

Lemma c3_table_roundtrip_witness :
  SosimgDump.dump_regions (assemble (A := sample_assembler sample_sym) (c3_table_lines (c3_rows 1))) =
  ([ "magic     0x4e475253 (ok)"; "version   2"; "regions   2";
     "  row 0: base 0x0000000080010000  len 0x1234 (4660)  kind 0 (ram)";
     "  row 1: base 0x00000000403c5000  len 0x17000 (94208)  kind 0 (ram)" ], Ok tt).
Proof.
  refine (proj1 (proj2 (c3_table_roundtrip (sample_laws sample_sym) 1 _ _))); [lia|].
  intros [|i] Hi; [by vm_compute|lia].
Defined.

End C3Spec.
