(* ===== verification/C3Green.v ===== *)
(** * A green ESP32-C3 smoke is earned

    The exit status of the board section against the boots of its run. *)

From Stdlib Require Import Ascii.
From S2P Require Import Prelude PyStr PyPath Bytes Arches RegionTable Check Host SampleHost.
From S2P Require Import Toolchain Build RunArch ArchScan Main C3Board C3Spec.
From stdpp Require Import base list sets strings numbers option pretty.

Open Scope nat_scope.
Open Scope py_scope.

Module C3Green.
Import Toolchain Build RunArch Main C3Board.

Section green.
Context `{Hst : Host} `{R : Repo} `{P : ProcessEnv} `{C : Tty} `{B : !Board}.

(** ** Specification *)

(** In the course of a computation from [w] to [w'] the case's flash was
    written, with a checked image, and at once booted; the emulator's kernel
    halted while it was watched, and its console shows every expectation of the
    case, each after the one before it. *)
Definition c3_earned (case : c3_case) (w w' : world) : Prop :=
  let flash := c3_artifact (k_name case) ".flash.bin" in
  ∃ qemu image content con out w1 w2 w3,
    grows w w1 ∧ flash_of (k_name case) image = Ok content ∧
    perform (WriteFile flash content) w1 = (Ok tt, w2) ∧
    spawn (c3_qemu_argv qemu flash) w2 = (Ok con, w3) ∧ grows w3 w' ∧
    watched con = (out, true) ∧ Check.in_order slen (decode_replace out) 0 (k_expect case).

Lemma c3_earned_widen case w0 w w' w3 :
  grows w0 w → grows w' w3 → c3_earned case w w' → c3_earned case w0 w3.
Proof.
  intros H0 H3 (q & i & c & con & o & w1 & w2 & w4 & H1 & Hf & Hw & Hs & H4 & Hrest).
  exists q, i, c, con, o, w1, w2, w4. split; [by eapply grows_trans|].
  split_and!; [done..|by eapply grows_trans| |]; apply Hrest.
Qed.

(** ** Lemmas: the log *)

Lemma only_spawn (Q : action → Prop) argv : Q (Boot argv None) → only Q (spawn argv).
Proof. apply only_one. intros w. unfold spawn. by destruct (h_spawn argv (w_host w)) as [[c|] h]. Qed.

Lemma raises_OSError_spawn (E : exn → Prop) argv : E OSError → raises E (spawn argv).
Proof.
  intros HE w e w'. unfold spawn. destruct (h_spawn argv (w_host w)) as [[c|] h]; [done|].
  by intros [= <- _].
Qed.

Lemma spawn_logs argv : only (λ _, True) (spawn argv).
Proof. by apply only_spawn. Qed.
#[local] Hint Resolve spawn_logs : only.

Lemma root_image_logs environ T blade pkg arch clang :
  only (λ _, True) (_build_root_image environ T blade pkg arch clang).
Proof. unfold _build_root_image, isdir, _run. only_walk; exact I. Qed.
#[local] Hint Resolve root_image_logs : only.

Lemma payload_stub_logs clang name sosimg : only (λ _, True) (c3_payload_stub clang name sosimg).
Proof. unfold c3_payload_stub, c3_cc, _run. only_walk; exact I. Qed.

Lemma regions_stub_logs clang name images : only (λ _, True) (c3_regions_stub clang name images).
Proof. unfold c3_regions_stub, c3_cc, _run. only_walk; exact I. Qed.
#[local] Hint Resolve payload_stub_logs regions_stub_logs : only.

Lemma flash_image_logs lld objcopy name objs : only (λ _, True) (c3_flash_image lld objcopy name objs).
Proof. unfold c3_flash_image, _run. only_walk; exact I. Qed.
#[local] Hint Resolve flash_image_logs : only.

Lemma build_and_run_logs environ T qemu clang lld objcopy blade shared kobj case :
  only (λ _, True) (c3_build_and_run environ T qemu clang lld objcopy blade shared kobj case).
Proof.
  unfold c3_build_and_run, c3_run. only_walk.
Qed.
#[local] Hint Resolve build_and_run_logs : only.

Lemma turn_logs environ T qemu clang lld objcopy blade shared kobj i n case :
  only (λ _, True) (c3_turn environ T qemu clang lld objcopy blade shared kobj i n case).
Proof. unfold c3_turn. only_walk; exact I. Qed.

Lemma loop_logs environ T qemu clang lld objcopy blade shared kobj i n cases f :
  only (λ _, True) (c3_loop environ T qemu clang lld objcopy blade shared kobj i n cases f).
Proof.
  revert i f. induction cases as [|case cases IH]; intros i f; cbn [c3_loop]; [apply only_ret|].
  apply only_bind; [apply turn_logs|intros ok; apply IH].
Qed.

Lemma tool_logs p what hint : only (λ _, True) (c3_tool p what hint).
Proof. unfold c3_tool. only_walk; exact I. Qed.

Lemma shared_logs clang : only (λ _, True) (c3_shared clang).
Proof. unfold c3_shared, c3_cc, _run. only_walk; exact I. Qed.

Lemma kernel_logs T : only (λ _, True) (c3_kernel T).
Proof. unfold c3_kernel, _run. only_walk; exact I. Qed.

Lemma blade_logs T d : only (λ _, True) (_build_blade T d).
Proof. unfold _build_blade, _run. only_walk; exact I. Qed.

Lemma c3_finish_logs n f : only (λ _, True) (c3_finish n f).
Proof. unfold c3_finish. only_walk; exact I. Qed.

(** ** Lemmas: which exits *)

Lemma tool_no_exit_0 p what hint : raises no_exit_0 (c3_tool p what hint).
Proof. unfold c3_tool. raises_walk. Qed.

Lemma shared_no_exit clang : raises no_exit (c3_shared clang).
Proof. unfold c3_shared, c3_cc, _run, run_failed. raises_walk. Qed.

Lemma kernel_no_exit T : raises no_exit (c3_kernel T).
Proof. unfold c3_kernel, _run, run_failed. raises_walk; auto with py. Qed.

Lemma flash_of_no_exit name image : res_raises no_exit (flash_of name image).
Proof.
  unfold flash_of. apply res_raises_bind.
  - unfold unpack_from. case_decide; by intros e [= <-].
  - intros magic. repeat case_match; by intros e [= <-].
Qed.

Lemma root_image_no_exit environ T blade pkg arch clang :
  raises no_exit (_build_root_image environ T blade pkg arch clang).
Proof. unfold _build_root_image, isdir, _run, run_failed, one_image_expected. raises_walk. Qed.
#[local] Hint Resolve root_image_no_exit : raises.

Lemma turn_no_exit environ T qemu clang lld objcopy blade shared kobj i n case :
  raises no_exit (c3_turn environ T qemu clang lld objcopy blade shared kobj i n case).
Proof.
  unfold c3_turn, c3_build_and_run, c3_payload_stub, c3_regions_stub, c3_flash_image, c3_run, c3_cc, _run,
    run_failed.
  raises_walk; auto using flash_of_no_exit; by apply raises_OSError_spawn.
Qed.

Lemma loop_no_exit environ T qemu clang lld objcopy blade shared kobj i n cases f :
  raises no_exit (c3_loop environ T qemu clang lld objcopy blade shared kobj i n cases f).
Proof.
  revert i f. induction cases as [|case cases IH]; intros i f; cbn [c3_loop]; [apply raises_ret|].
  apply raises_bind; [apply turn_no_exit|intros ok; apply IH].
Qed.

(** ** Lemmas: what a turn stands for *)

Lemma flash_image_writes lld objcopy name objs w flash size w' :
  c3_flash_image lld objcopy name objs w = (Ok (flash, size), w') →
  flash = c3_artifact name ".flash.bin" ∧
  ∃ image content w1, grows w w1 ∧ flash_of name image = Ok content ∧
    perform (WriteFile flash content) w1 = (Ok tt, w').
Proof.
  unfold c3_flash_image. intros (? & w1 & E1 & E)%M_bind_inv. apply M_bind_inv in E as (? & w2 & E2 & E).
  apply M_bind_inv in E as (image & w3 & E3 & E). apply M_bind_inv in E as (content & w4 & E4 & E).
  apply M_bind_inv in E as ([] & w5 & E5 & E). injection E as <- <- <-. injection E4 as E4 <-.
  split; [done|]. exists image, content, w3. split_and!; [|done..].
  eapply grows_trans; [|eapply grows_trans].
  - eapply (only_grows (λ _, True)); [|exact E1]. unfold _run. only_walk; exact I.
  - eapply (only_grows (λ _, True)); [|exact E2]. unfold _run. only_walk; exact I.
  - eapply (only_grows (λ _, True)); [|exact E3]. only_walk.
Qed.

Lemma build_and_run_boots environ T qemu clang lld objcopy blade shared kobj case w out size w' :
  c3_build_and_run environ T qemu clang lld objcopy blade shared kobj case w = (Ok (out, true, size), w') →
  Check.in_order slen out 0 (k_expect case) → c3_earned case w w'.
Proof.
  unfold c3_build_and_run. intros E Hin.
  apply M_bind_inv in E as (payload & w1 & E1 & E). apply M_bind_inv in E as (regions & w2 & E2 & E).
  apply M_bind_inv in E as ([flash fsize] & w3 & E3 & E). apply M_bind_inv in E as ([out' halted] & w4 & E4 & E).
  injection E as <- -> <- <-. unfold c3_run in E4. apply M_bind_inv in E4 as (con & w5 & E5 & E4).
  destruct (watched con) as [raw halted] eqn:Ew. injection E4 as <- -> <-.
  apply flash_image_writes in E3 as (-> & image & content & w6 & G6 & Hf & Hw).
  exists qemu, image, content, con, raw, w6, w3, w5. split; [|split_and!; try done; apply grows_refl].
  eapply grows_trans; [|eapply grows_trans; [|exact G6]].
  - eapply (only_grows (λ _, True)); [|exact E1]. only_walk.
  - eapply (only_grows (λ _, True)); [|exact E2]. only_walk.
Qed.

Lemma turn_earned environ T qemu clang lld objcopy blade shared kobj i n case w w' :
  c3_turn environ T qemu clang lld objcopy blade shared kobj i n case w = (Ok true, w') → c3_earned case w w'.
Proof.
  unfold c3_turn. intros (r & w1 & E1 & E)%M_bind_inv. unfold catch_tool in E1.
  destruct (c3_build_and_run _ _ _ _ _ _ _ _ _ _ _) as [[[[out halted] size]|e] w2] eqn:Eb.
  2: { destruct e; try done. by injection E1 as <- <-. }
  injection E1 as <- <-. case_bool_decide as Hm; cbn [andb] in E.
  2: { apply M_bind_inv in E as (? & ? & _ & E). by apply M_bind_inv in E as (? & ? & _ & E). }
  destruct halted.
  2: { apply M_bind_inv in E as (? & ? & _ & E). by apply M_bind_inv in E as (? & ? & _ & E). }
  apply M_bind_inv in E as (? & w3 & E3 & E). injection E as <-.
  eapply (c3_earned_widen _ w w w2 w3); [apply grows_refl| |].
  - by eapply (only_grows (λ _, True)), E3; apply only_print.
  - eapply build_and_run_boots; [exact Eb|]. by apply C3Spec.c3_missing_spec.
Qed.

Lemma loop_earned environ T qemu clang lld objcopy blade shared kobj i n cases f w F w' :
  c3_loop environ T qemu clang lld objcopy blade shared kobj i n cases f w = (Ok F, w') →
  f ≤ F ∧ (F = 0 → Forall (λ case, c3_earned case w w') cases).
Proof.
  revert i f w. induction cases as [|case cases IH]; intros i f w; cbn [c3_loop].
  - intros [= <- <-]. split; [done|constructor].
  - intros (ok & w1 & E1 & E)%M_bind_inv.
    pose proof (only_grows _ _ _ _ _ (turn_logs _ _ _ _ _ _ _ _ _ _ _ _) E1) as G1.
    pose proof (only_grows _ _ _ _ _ (loop_logs _ _ _ _ _ _ _ _ _ _ _ _ _) E) as G2.
    apply IH in E as [Hle Hall]. destruct ok; (split; [lia|]); intros HF; [|lia].
    constructor.
    + eapply c3_earned_widen; [apply grows_refl|exact G2|by eapply turn_earned].
    + eapply list.Forall_impl; [by apply Hall|]. intros c. by apply c3_earned_widen, grows_refl.
Qed.

Lemma c3_finish_exit_0 n f w w' : c3_finish n f w = (Raise (SystemExit 0), w') → f = 0.
Proof. unfold c3_finish. destruct (Nat.eqb_spec f 0); [done|]. by intros [= ]. Qed.

Lemma smoke_earned environ a w w' :
  c3_smoke environ a w = (Raise (SystemExit 0), w') → Forall (λ case, c3_earned case w w') c3_cases.
Proof.
  assert (¬ no_exit (SystemExit 0)) as Hx by (by intros H).
  assert (¬ no_exit_0 (SystemExit 0)) as Hx0 by (by intros H).
  unfold c3_smoke. intros E.
  do 2 (eapply (raises_bind_grows no_exit_0) in E as (? & ? & _ & ? & E);
    [|apply tool_no_exit_0|apply tool_logs|done]).
  eapply (raises_bind_grows no_exit) in E as (? & w3 & _ & G3 & E);
    [|raises_walk|by apply (only_perform (λ _, True))|done].
  do 4 (eapply (raises_bind_grows no_exit) in E as (? & ? & _ & ? & E);
    [|apply raises_print|apply print_logs|done]).
  eapply (raises_bind_grows no_exit_0) in E as (T & ? & _ & ? & E); [|apply tc_no_exit_0|apply tc_logs|done].
  eapply (raises_bind_grows no_exit) in E as (blade & ? & _ & ? & E);
    [|apply build_blade_no_exit|apply blade_logs|done].
  eapply (raises_bind_grows no_exit) in E as (shared & ? & _ & ? & E);
    [|apply shared_no_exit|apply shared_logs|done].
  eapply (raises_bind_grows no_exit) in E as (kobj & ? & _ & ? & E);
    [|apply kernel_no_exit|apply kernel_logs|done].
  eapply (raises_bind_grows no_exit) in E as (failed & w11 & El & G11 & E);
    [|apply loop_no_exit|apply loop_logs|done].
  pose proof (only_grows _ _ _ _ _ (c3_finish_logs _ _) E) as G12.
  apply c3_finish_exit_0 in E as ->. apply loop_earned in El as [_ Hall].
  eapply list.Forall_impl; [by apply Hall|]. intros c. apply c3_earned_widen; [clear G11 G12|done].
  repeat (eapply grows_trans; [eassumption|]). apply grows_refl.
Qed.
End green.

(** ** Properties *)

(** C4. A green smoke is earned: when [main --board esp32c3] exits with status
    zero, then for every case of the smoke, in that very run, a flash image that
    passed the checks was written and at once booted, its kernel printed the
    halt line while the watch lasted, and its console shows every line the case
    expects, each after the one before it. *)
Theorem c3_exit_zero `{Hst : Host} `{R : Repo} `{P : ProcessEnv} `{C : Tty} `{B : !Board}
    (environ : env) (a : args) (w w' : world) :
  o_board a = "esp32c3" → C3Board.main environ a w = (Raise (SystemExit 0), w') →
  Forall (λ case, c3_earned case w w') c3_cases.
Proof.
  intros Hb. unfold C3Board.main, Main.serial_main. rewrite Hb.
  change (String.eqb "esp32c3" "virt") with false. change (String.eqb "esp32c3" "esp32c3") with true.
  cbn [negb]. apply smoke_earned.
Qed.

(** ** Witnesses: a machine with the board's tools

    Its blade leaves one image in the package it builds, its objcopy flattens to
    the direct-boot magic, and its emulator says what the flash it is given
    should make it say, at the first turn of the watch. *)

Definition board_programs : programs := λ argv cwd _ f,
  (Some (Proc 0 "" ""),
   match argv, cwd with
   | [_; "-O"; "binary"; _; raw], _ => fs_put f raw (String.string_of_list_byte (C3Spec.magic_word ++ C3Spec.magic_word))
   | [_; "build"; "--force"; "--target"; _], Some pkg => fs_put f (join2 (out_dir pkg c3_arch) "root.sosimg") "image"
   | _, _ => f
   end).

Definition board_host : Host := fs_machine board_programs no_emulator.

Definition console_text (argv : list string) : string :=
  py_join nl (concat ((λ case,
    if py_in (k_name case +:+ ".flash.bin") (default "" (list.last argv)) then k_expect case else [])
    <$> @c3_cases sample_repo)).

Definition said_after (k : nat) : N := 1000 * N.of_nat k.

Lemma said_after_late (t : N) (n : nat) :
  n ≤ n + N.to_nat (t / 1000 + 1) ∧ (t ≤ said_after (n + N.to_nat (t / 1000 + 1)))%N.
Proof.
  split; [apply Nat.le_add_r|]. unfold said_after. rewrite Nat2N.inj_add, N2Nat.id.
  pose proof (N.div_mod t 1000 ltac:(done)). pose proof (N.mod_lt t 1000 ltac:(done)). lia.
Qed.

Definition saying (text : string) : console :=
  Console 0 (λ k, Tick (said_after k) (if k =? 0 then Ready text else Quiet false) (said_after k + 1))
    (λ t n, n + N.to_nat (t / 1000 + 1)) said_after_late.

Definition board_tools : @Board board_host :=
  @Build_Board board_host (λ pattern _, [pattern]) (λ argv f, (Some (saying (console_text argv)), f)).

Definition board_world : @world board_host := @World board_host (FS [("/s/sawc/sawc.py", "")] (fs_exec tooled)) [].

#[local] Notation smoke_run := (@C3Board.main board_host sample_repo sample_env no_tty board_tools
  [("PATH", "/bin"); ("SAWLANG_ROOT", "/s")] (Args None None 4 "esp32c3") board_world).

Lemma c3_exit_zero_witness :
  Forall (λ case, @c3_earned board_host sample_repo board_tools case board_world smoke_run.2) (@c3_cases sample_repo).
Proof.
  assert (smoke_run.1 = Raise (SystemExit 0)) as E by (lazy; reflexivity).
  exact (@c3_exit_zero board_host sample_repo sample_env no_tty board_tools
    [("PATH", "/bin"); ("SAWLANG_ROOT", "/s")] (Args None None 4 "esp32c3") board_world smoke_run.2 eq_refl
    (pair_from_fst smoke_run (Raise (SystemExit 0)) E)).
Defined.
End C3Green.
