(* ===== verification/Cli.v ===== *)
(** * The whole command (tools/sos_runner.py: [main])

    [main] with both boards and any number of workers, as the relation of
    [Jobs.main] given the section of [C3Board.v], and two properties of its
    command line: what a usage error leaves behind, and what an empty selection
    comes to. *)

From Stdlib Require Import Ascii.
From S2P Require Import Prelude PyStr PyPath Arches Case Check RegionTable CasesA Host SampleHost.
From S2P Require Import Toolchain Build BuildPlan MapOrdered Threads RunArch CaseTable Parallel Main Jobs C3Board.
From stdpp Require Import base list sets strings numbers option.

Open Scope nat_scope.
Open Scope py_scope.

Module Cli.
Import Toolchain Build Threads RunArch CaseTable Parallel Main Jobs C3Board.

Section cli.
Context `{Hst : Host} `{R : Repo} `{P : ProcessEnv} `{C : Tty} `{B : !Board}.

(** [main()] on a parsed command line. *)
Definition main (environ : env) (a : args) : May unit := Jobs.main (c3_smoke environ) environ a.
End cli.

(** ** Lemmas: a usage error *)

Section usage.
Context `{Hst : Host} `{R : Repo} `{P : ProcessEnv} `{C : Tty} `{B : !Board}.

(** A deterministic first part that raises is all there is. *)
Lemma det_raises {A X} (m : M A) (f : A → May X) w e w1 r w' :
  m w = (Raise e, w1) → (det m ≫= f) w r w' ↔ r = Raise e ∧ w' = w1.
Proof.
  intros E. split.
  - intros [(x & w2 & H & _)|(e' & H & ->)]; unfold det in H; rewrite E in H; [done|]. by injection H as <- <-.
  - intros [-> ->]. right. exists e. split; [exact E|done].
Qed.

Lemma det_returns {A X} (m : M A) (f : A → May X) w x w1 r w' :
  m w = (Ok x, w1) → (det m ≫= f) w r w' ↔ f x w1 r w'.
Proof.
  intros E. split.
  - intros [(y & w2 & H & Hf)|(e' & H & _)]; unfold det in H; rewrite E in H; [|done]. by injection H as <- <-.
  - intros Hf. left. exists x, w1. split; [exact E|done].
Qed.

Lemma main_board environ a w r w' :
  o_board a = "esp32c3" → main environ a w r w' ↔ c3_smoke environ a w = (r, w').
Proof. intros Hb. unfold main, Jobs.main. by rewrite Hb. Qed.

Lemma main_virt environ a :
  o_board a = "virt" →
  main environ a = ('(arches, cases) ← det (choose a); run_selected (Z.to_nat (o_jobs a)) environ arches cases).
Proof. intros Hb. unfold main, Jobs.main. by rewrite Hb. Qed.

Lemma main_unknown environ a w r w' :
  o_board a ≠ "virt" → o_board a ≠ "esp32c3" →
  main environ a w r w' ↔
    r = Raise (SystemExit 2) ∧ w' = World (w_host w) (w_log w ++ [PrintErr (unknown_board (o_board a))]).
Proof.
  intros Hv Hc. unfold main, Jobs.main.
  destruct (String.eqb_spec (o_board a) "virt"); [done|]. destruct (String.eqb_spec (o_board a) "esp32c3"); [done|].
  split; [by intros [= <- <-]|by intros [-> ->]].
Qed.
End usage.

(** ** Lemmas: a run with no case *)

Section nothing.
Context `{Hst : Host} `{R : Repo} `{P : ProcessEnv} `{C : Tty} `{B : !Board}.

Definition os_error (e : exn) : Prop := e = OSError.

(** A failure of the machine, or one that the loops catch and count. *)
Definition tool_or_os (e : exn) : Prop := match e with ToolError _ | OSError => True | _ => False end.

Lemma catch_tool_os {A} (m : M A) : raises tool_or_os m → raises os_error (catch_tool m).
Proof.
  intros Hm w e w'. specialize (Hm w). unfold catch_tool.
  destruct (m w) as [[a|x] w1]; [done|]. specialize (Hm x w1 eq_refl).
  destruct x; try done; by intros [= <- <-].
Qed.

Lemma build_shared_os arch clang : raises os_error (catch_tool (_build_shared arch clang)).
Proof. apply catch_tool_os. unfold _build_shared, run_cc, _run, run_failed. raises_walk. Qed.

(** A loop over no item. *)
Lemma mapped_nil {A Y} (code : A → prog Y) jobs stop say :
  may_raise os_error (mapped code jobs stop say []).
Proof. apply mapped_raise; [by intros a ?%elem_of_nil|]. by intros a ?%elem_of_nil. Qed.

Lemma nothing_os jobs environ T arch qemu lld clang blade :
  may_raise os_error (_run_arch jobs environ T arch qemu lld clang blade []).
Proof.
  unfold _run_arch. apply may_raise_bind; [apply may_raise_det, raises_print|intros _]. cbn [split_cases].
  apply may_raise_bind; [apply may_raise_det, build_shared_os|intros [objs|msg]].
  2: { apply may_raise_bind; [apply may_raise_det, raises_print_err|intros _; apply may_raise_ret]. }
  apply may_raise_bind; [apply may_raise_bind; [apply mapped_nil|intros rs; apply may_raise_ret]|].
  intros [msg|]; [apply may_raise_bind; [apply may_raise_det, raises_print_err|intros _; apply may_raise_ret]|].
  unfold run_rows. apply may_raise_bind; [apply may_raise_det, raises_ret|intros images].
  apply may_raise_bind; [apply may_raise_det, raises_ret|intros _].
  apply may_raise_bind; [apply mapped_nil|intros vs].
  apply may_raise_bind; [apply may_raise_det, raises_print|intros _; apply may_raise_ret].
Qed.

Lemma nothing_counts jobs environ T arch qemu lld clang blade w counts w' :
  _run_arch jobs environ T arch qemu lld clang blade [] w (Ok counts) w' → counts = (0, 0).
Proof.
  intros (l & _ & Hl)%run_arch_tells. apply ends_counts in Hl. destruct counts as [p f]. cbn in Hl.
  f_equal; lia.
Qed.

Lemma nothing_no_boot jobs environ T arch qemu lld clang blade :
  may_only no_boot (_run_arch jobs environ T arch qemu lld clang blade []).
Proof.
  intros w r w' (l & El & Hl)%jobs_arch_only. exists l. split; [done|].
  eapply list.Forall_impl; [exact Hl|]. intros [] Ha; try exact I.
  destruct Ha as (c & Hc & _). by apply elem_of_nil in Hc.
Qed.

(** The emulators that the architectures ask for are known. *)
Definition all_known (qemus : list (string * string)) (arches : list Arch) : Prop :=
  Forall (λ arch, is_Some (dict_get qemus (a_name arch))) arches.

Lemma announce_known qemus seen arches w w' :
  announce qemus seen arches w = (Ok tt, w') → all_known qemus arches.
Proof.
  revert seen w. induction arches as [|arch arches IH]; intros seen w; [constructor|]. cbn.
  intros (q & w1 & Eq & E)%M_bind_inv. constructor.
  - unfold lift, qemu_of in Eq. destruct (dict_get qemus (a_name arch)); [by eexists|done].
  - case_bool_decide; [by eapply IH|]. apply M_bind_inv in E as ([] & w2 & _ & E). by eapply IH.
Qed.

Lemma prepare_known environ arches cases w g w' :
  prepare environ arches cases w = (Ok g, w') → all_known (g_qemus g) arches.
Proof.
  unfold prepare. intros ([[qemus lld] clang] & w1 & _ & E)%M_bind_inv.
  apply M_bind_inv in E as (sealed & w2 & _ & E). destruct (negb sealed); [done|].
  do 3 apply M_bind_inv in E as ([] & ? & _ & E).
  apply M_bind_inv in E as ([] & w6 & Ea & E). apply announce_known in Ea.
  apply M_bind_inv in E as ([] & ? & _ & E). apply M_bind_inv in E as ([held blade] & ? & _ & E).
  apply M_bind_inv in E as (T & ? & _ & E). by injection E as <- <-.
Qed.

(** With no case a run of every architecture ends, with nothing passed and
    nothing failed, unless the machine fails. *)
Lemma nothing_runs jobs environ g arches p f w r w' :
  all_known (g_qemus g) arches → run_all jobs environ g [] arches p f w r w' →
  r = Raise OSError ∨ r = Ok (p, f).
Proof.
  intros Hk. revert p f w. induction Hk as [|arch arches [q Hq] _ IH]; intros p f w; cbn [run_all].
  - intros [-> _]. by right.
  - unfold qemu_of at 1. rewrite Hq. intros H. apply (det_returns (lift (Ok q)) _ w q w) in H; [|done].
    destruct H as [([p1 f1] & w1 & E1 & E2)|(e & E1 & ->)].
    + pose proof (nothing_counts _ _ _ _ _ _ _ _ _ _ _ E1) as [= -> ->].
      rewrite !Nat.add_0_r in E2. by eapply IH.
    + left. f_equal. by eapply nothing_os.
Qed.

Lemma nothing_all_no_boot jobs environ g arches p f : may_only no_boot (run_all jobs environ g [] arches p f).
Proof.
  revert p f. induction arches as [|arch arches IH]; intros p f; [apply may_only_ret|]. cbn [run_all].
  apply may_only_bind; [apply may_only_det, only_lift|intros qemu].
  apply may_only_bind; [apply nothing_no_boot|intros [p1 f1]; apply IH].
Qed.

(** The line a green run ends with. *)
Definition green_line (arches : list Arch) (passed : nat) : string :=
  GREEN +:+ BOLD +:+ "ALL SOS TESTS PASSED" +:+ RESET +:+ " (" +:+ py_str (N.of_nat passed) +:+
  " passed across " +:+ py_join " + " (a_name <$> arches) +:+ ")".

Lemma finish_green arches p w :
  finish arches p 0 w =
    (Raise (SystemExit 0), World (w_host w) (w_log w ++ [Print rule; Print (green_line arches p); Print rule])).
Proof. unfold finish, mbind, M_bind, print, raise. cbn [Nat.eqb w_host w_log]. do 2 f_equal. by rewrite <-!app_assoc. Qed.

Lemma nothing_selected jobs environ arches w r w' :
  run_selected jobs environ arches [] w r w' →
  ∃ l, w_log w' = w_log w ++ l ∧ Forall no_boot l ∧
    match (prepare environ arches [] w).1 with
    | Raise e => r = Raise e
    | Ok _ => r = Raise OSError ∨ r = Raise (SystemExit 0) ∧ green_line arches 0 ∈ says l
    end.
Proof.
  unfold run_selected. pose proof (prepare_logs environ arches [] w) as Hp.
  destruct (prepare environ arches [] w) as [[g|e] w1] eqn:Ep; cbn in Hp |- *; destruct Hp as (l1 & E1 & H1).
  2: { intros [-> ->]%(det_raises _ _ _ _ _ _ _ Ep). by exists l1. }
  intros H%(det_returns _ _ _ _ _ _ _ Ep). apply prepare_known in Ep.
  destruct H as [([p f] & w2 & Er & Ef)|(e & Er & ->)].
  - pose proof (nothing_all_no_boot _ _ _ _ _ _ _ _ _ Er) as (l2 & E2 & H2).
    apply nothing_runs in Er as [|[= -> ->]]; [done| |done].
    unfold det in Ef. rewrite finish_green in Ef. injection Ef as <- <-. cbn.
    exists (l1 ++ l2 ++ [Print rule; Print (green_line arches 0); Print rule]).
    rewrite E2, E1, <-!app_assoc. split; [done|]. split; [do 2 (apply Forall_app_2; [done|]); do 3 (constructor; [exact I|]); constructor|].
    right. split; [done|]. rewrite !says_app. cbn. set_solver.
  - pose proof (nothing_all_no_boot _ _ _ _ _ _ _ _ _ Er) as (l2 & E2 & H2).
    apply nothing_runs in Er as [[= ->]|]; [|done|done].
    exists (l1 ++ l2). rewrite E2, E1, <-app_assoc. split; [done|]. split; [by apply Forall_app_2|]. by left.
Qed.

Lemma choose_blank a values w :
  (1 ≤ o_jobs a)%Z → select_arches ARCHES (o_arch a) ≠ [] → o_cases a = Some values → values ≠ [] →
  wanted_names values = [] → choose a w = (Ok (select_arches ARCHES (o_arch a), []), w).
Proof.
  intros Hj Ha Hc Hv Hw. unfold choose. rewrite bool_decide_eq_false_2 by lia.
  destruct (select_arches ARCHES (o_arch a)); [done|]. rewrite Hc. unfold select_cases.
  destruct values; [done|]. by rewrite Hw.
Qed.
End nothing.

(** ** Properties *)

(** C27. A usage error starts nothing, with one exception the source makes.  Off
    the [esp32c3] board, an unknown board, fewer than one job, an unknown
    architecture or an unknown case has one outcome, whatever the number of
    workers: status 2, with the machine as it was and nothing but messages on
    the error stream.  On the [esp32c3] board none of the other options is
    looked at: what a run does is what it does with any other values of [-j],
    [--arch] and [--case], so none of them is refused there. *)
Theorem usage_error_inert `{Hst : Host} `{R : Repo} `{P : ProcessEnv} `{C : Tty} `{B : !Board}
    (environ : env) (a : args) (w : world) :
  (o_board a ≠ "esp32c3" →
   o_board a ≠ "virt" ∨ (o_jobs a < 1)%Z ∨ select_arches ARCHES (o_arch a) = [] ∨
     (∃ names, select_cases TEST_CASES (o_cases a) = Unknown names) →
   ∃ w1, (∀ r w', main environ a w r w' ↔ r = Raise (SystemExit 2) ∧ w' = w1) ∧
         w_host w1 = w_host w ∧ ∃ l, w_log w1 = w_log w ++ (PrintErr <$> l)) ∧
  (o_board a = "esp32c3" →
   ∀ b r w', o_board b = "esp32c3" → main environ a w r w' ↔ main environ b w r w').
Proof.
  split.
  - intros Hc Hu. destruct (decide (o_board a = "virt")) as [Hv|Hv].
    + destruct Hu as [?|Hu]; [done|]. destruct (choose_refuses a w Hu) as (w1 & E & Hh & Hl).
      exists w1. split; [|done]. intros r w'. rewrite (main_virt _ _ Hv). by apply det_raises.
    + eexists. split; [intros r w'; by apply main_unknown|]. split; [done|]. by exists [unknown_board (o_board a)].
  - intros Ha b r w' Hb. by rewrite (main_board _ _ _ _ _ Ha), (main_board _ _ _ _ _ Hb).
Qed.

(** C39. A [--case] that names nothing, as a quoted variable that is unset
    makes it, is green.  On the [virt] board with at least one job and a known
    architecture, when [--case] is given and every name in it is blank, then
    with any number of workers the run boots nothing, and: where its preparation
    (the host's tools, the architecture check, the toolchain) fails, it ends as
    that failed; else it exits zero and says that all tests passed, 0 of them,
    also where the objects an architecture's cases share do not compile, unless
    the machine refuses a call with an [OSError]. *)
Theorem blank_case_filter_is_green `{Hst : Host} `{R : Repo} `{P : ProcessEnv} `{C : Tty} `{B : !Board}
    (environ : env) (a : args) (values : list string) (w : world) (r : res unit) (w' : world) :
  o_board a = "virt" → (1 ≤ o_jobs a)%Z → select_arches ARCHES (o_arch a) ≠ [] →
  o_cases a = Some values → values ≠ [] → wanted_names values = [] →
  main environ a w r w' →
  ∃ l, w_log w' = w_log w ++ l ∧ Forall no_boot l ∧
    match (prepare environ (select_arches ARCHES (o_arch a)) [] w).1 with
    | Raise e => r = Raise e
    | Ok _ => r = Raise OSError ∨
              r = Raise (SystemExit 0) ∧ green_line (select_arches ARCHES (o_arch a)) 0 ∈ says l
    end.
Proof.
  intros Hb Hj Ha Hc Hv Hw. rewrite (main_virt _ _ Hb).
  intros H%(det_returns _ _ _ _ _ _ _ (choose_blank a values w Hj Ha Hc Hv Hw)).
  by apply nothing_selected in H.
Qed.

(** ** Witnesses: a machine with every tool, and none of the second board's *)

Definition tool_host : Host := fs_host (all_answer (Proc 0 "sawc 0.8.0" "")).
Definition tool_world : @world tool_host := @World tool_host tooled [].
Definition no_board : @Board tool_host := @Build_Board tool_host (λ _ _, []) (λ _ f, (None, f)).
Definition tool_env : env := [("PATH", "/bin")].

Lemma usage_error_inert_witness :
  ∃ w1, (∀ r w', @main tool_host sample_repo sample_env no_tty no_board tool_env
                   (Args None (Some ["trap_falt"]) 4 "virt") tool_world r w' ↔
                 r = Raise (SystemExit 2) ∧ w' = w1) ∧
        w_host w1 = tooled ∧ ∃ l, w_log w1 = w_log tool_world ++ (PrintErr <$> l).
Proof.
  apply (@usage_error_inert tool_host sample_repo sample_env no_tty no_board tool_env
    (Args None (Some ["trap_falt"]) 4 "virt") tool_world).
  - done.
  - do 3 right. exists ["trap_falt"]. vm_compute. reflexivity.
Defined.

(** [--case $CASES] with the variable unset or blank. *)
Definition blank_args : args := Args None (Some [""; " , "]) 4 "virt".
#[local] Notation blank_run :=
  (@serial_main tool_host sample_repo sample_env no_tty (@c3_smoke tool_host sample_repo sample_env no_tty no_board tool_env)
     tool_env blank_args tool_world).

Lemma blank_case_filter_is_green_witness :
  ∃ l, w_log blank_run.2 = [] ++ l ∧ Forall no_boot l ∧
       @green_line no_tty (@ARCHES sample_repo) 0 ∈ says l.
Proof.
  assert (∃ g, (@prepare tool_host sample_repo sample_env no_tty tool_env (@ARCHES sample_repo) [] tool_world).1 =
               Ok g) as [g E] by (eexists; vm_compute; reflexivity).
  assert (blank_run.1 = Raise (SystemExit 0)) as Er by (vm_compute; reflexivity).
  pose proof (@blank_case_filter_is_green tool_host sample_repo sample_env no_tty no_board tool_env blank_args
    [""; " , "] tool_world (Raise (SystemExit 0)) blank_run.2 eq_refl ltac:(done) ltac:(done) eq_refl ltac:(done)
    eq_refl) as H.
  change (select_arches ARCHES (o_arch blank_args)) with (@ARCHES sample_repo) in H. rewrite E in H.
  specialize (H (proj1 (main_inline _ _ _ _ _ _) (pair_from_fst blank_run _ Er))).
  destruct H as (l & El & Hl & [H|[_ H]]); [discriminate H|exact (ex_intro _ l (conj El (conj Hl H)))].
Defined.

End Cli.
